(* ===== verification/_CoqProject ===== *)
-Q . S2P
Prelude.v
Bytes.v
Utf8.v
Format.v
Ports.v
Constants.v
Platform.v
FrameAlloc.v
Paging.v
Memory.v
AddressSpace.v
PageTableInfo.v
Isolation.v
IsolationDemo.v
MapPages.v
WriteCombining.v
WriteCombiningDemo.v
UserMem.v
RawMem.v
ApMachine.v
ApCode.v
Heap.v
KernelAlloc.v
HeapDemo.v
KernelAllocDemo.v
Loader.v
LoaderDemo.v
MemTest.v
MemTestDemo.v
UserApp.v
UserSwitch.v
UserSwitchDemo.v
RamDisk.v
AppTest.v
AppTestDemo.v
Serial.v
Terminal.v
Windows.v
TermSpec.v
CoreWindow.v
TermDemo.v
Bitfield.v
Pit.v
Apic.v
DeviceDemo.v
TimerTest.v
TimerTestDemo.v
Pic.v
Interrupts.v
InterruptDemo.v
Smp.v
Trampoline.v
ApStart.v
SmpDemo.v
SmpBoot.v
ParallelStart.v
ParallelDemo.v
Cores.v
CoresSpec.v
CoresDemo.v
Console.v
ConsoleSpec.v
ConsoleDemo.v
UserPrint.v
UserPrintDemo.v
UserCalls.v
UserCallsDemo.v
Logo.v
LogoDemo.v
Logging.v
LoggingDemo.v
Tester.v
Panic.v
PanicDemo.v
Boot.v
BootCheck.v
BootDemo.v
BootImage.v
KernelMain.v
KernelMainDemo.v
