(* ===== verification/Prelude.v ===== *)
(** * Steelmind OS: a verification library

    Steelmind OS is a small multi-core x86-64 kernel in Rust (src/kernel), the
    user programs it runs (src/user_app), and the tool that builds and starts
    it (src/bootimage).  This library translates the code into executable
    definitions, file by file, and proves what makes each part correct and how
    the parts fit together.

    *** How the code is represented

    - An operation is a function into [res A], or [M S A = S → res (A * S)]
      when it changes a state [S]; a panic, an undefined access or an unmapped
      access is a [fault].  A kernel panic never unwinds, so the state after a
      fault is not kept.
    - An unsigned integer is a [Z]; [add64], [sub64], [mul64] and [arith w]
      panic on overflow or wrap, as the cargo profile says (class [Profile]).
      The theorems hold for both profiles.
    - Names are those of the source; the comment of each file names the source
      file it models.
    - What is not in the repository is a class: the ELF parser ([Elf]), the
      buddy heap ([BuddyHeap], [BuddySpace], [BuddyStats], [BuddyNodes] for the
      bytes of its free lists), x86_64's address
      types ([X86Addr]) and page-table mapper ([Mapper]), the font ([Font]), the
      CRC ([Crc32]), the bit fields ([Bitfield]), the ACPI tables
      ([AcpiTables]), the tables of the mapper ([LowerTables]), the boot
      loader's information ([Boot], [Screen]), the linker ([Image], [SmpImage],
      [FaultStacks]), the spin crate's barrier ([Barrier]), the JPEG decoder
      ([JpegDecoder]), the build host ([HostOs]), what the compiler decides
      about memory ([ResourcesLayout], the bytes of an [ApplicationResources]),
      and the compiled applications ([Application]; [TestProgram] says that a
      compiled program does what its source says, provided its code, statics,
      stack and heap are loaded where it expects them and its frames are free).  A class [...Laws] or [...Ok] states the documented
      behaviour that theorems rely on; the files [...Demo.v], the modules
      [...Demo] and the ends of some files have concrete instances, at which
      every theorem with hypotheses is applied.
    - Devices are reached through [PortIo] and [Mmio]; [Uart16550] (Serial.v),
      [PitDevice] (Pit.v), [PicDevice] (Pic.v) and [CoreId] (Apic.v) say what
      the hardware behind them does, after its data sheets.

    *** The parts

    Memory.
    - Constants.v: constants.rs, the layout of the address space.
    - FrameAlloc.v: [BootInfoFrameAllocator] of memory.rs, an intrusive list of
      free frames kept in the frames themselves.  The free list is a set that
      only allocation and release change; [allocate_frame] gives out frames
      nobody has.
    - Paging.v, Memory.v, AddressSpace.v: [Memory] of memory.rs.  [space st r p]
      is the translation of page [p] in the table of root [r]; [kinv] is the
      invariant (tables apart and present, kernel half shared, free list sound).
      PageTableInfo.v: [log_page_table_info], what it lists of a table.
    - Isolation.v: all operations as one step relation [mem_step]; [user_inv] is
      kept by every step.  Applications are isolated: no frame behind two user
      pages, no step reaches the pages of an application that is not running.
    - MapPages.v, UserMem.v, RawMem.v: mapping lists of pages; reading and
      writing bytes through the active tables.
    - WriteCombining.v: the PAT and the cache attributes of the framebuffer.
    - Heap.v, KernelAlloc.v: allocator.rs, the growth of the kernel's and the
      applications' heaps, and what they give out: [alloc_zeroed], [realloc],
      and the allocator stress of common_main.rs, which nothing calls.

    Applications.
    - Loader.v: [prepare_application] of loader.rs, segments and stack.
    - UserSwitch.v: [run] and [abort] of loader.rs; the two [asm!] blocks are
      instructions of a machine.  Running comes back whether the application
      returns or aborts.
    - UserPrint.v, Utf8.v: the function of the kernel through which an
      application prints; [from_utf8] accepts exactly the encodings of texts.
    - UserCalls.v: the table of the kernel's four functions and the shims of
      os_functions.rs that call them.  An application is a sequence of writes to
      its memory and of such calls.  The free lists of its heap lie in its own
      memory: a memory-safe one does not leave its space and keeps its heap in
      order; one that releases a block it does not have is not covered.
    - UserApp.v: the user programs.  RamDisk.v: ram_disk.rs and the packing in
      bootimage/src/main.rs.
    - AppTest.v: [app_test] of common_main.rs, which puts the five parts above
      together: file, loader, switch, program, isolation.  MemTest.v: the test
      of tests/mem_test.rs that switches between two spaces.

    Devices.
    - Serial.v: serial.rs.  Pit.v: pit.rs.  Pic.v: the 8259 controllers of
      interrupts.rs.  Bitfield.v, Apic.v: apic.rs and the core local data of
      smp.rs.  Format.v: the formatting that the output needs.
    - TimerTest.v: [timer_test] of common_main.rs, which counts interrupts of the
      local timer.
    - Interrupts.v: the gates, handlers and descriptor tables of interrupts.rs.

    Screen.
    - Terminal.v: [TerminalWriter] of terminal_out.rs; Windows.v: where windows
      lie; TermSpec.v: what a terminal shows, as pixels, and that terminals of
      different cores never meet.  CoreWindow.v: what a core prints and echoes
      from the serial port in its own window.
    - Console.v, ConsoleSpec.v: the shared terminal, the double buffer and the
      panic output of terminal_out.rs with their locks.  Logging.v: logging.rs.
      Logo.v: [print_logo] of common_main.rs.

    Boot.
    - KernelMain.v: [kernel_main] of main.rs from its entry until the checks of
      the boot information have passed, with the records it logs: the operations
      of the parts above and below, in their order, on one state.
    - Smp.v, Trampoline.v, SmpBoot.v: [init_smp] of smp.rs: the stacks, the code
      and parameters in page 0, and the counting protocol as a step relation
      over all interleavings.
    - ApMachine.v, ApCode.v, ApStart.v: a processor that decodes and executes
      instructions from memory, the bytes of ap.bin with the instructions of
      ap.asm they decode to, and how they take a processor from real mode to
      [ap_entry_fn].
    - ParallelStart.v: all processors in the trampoline at once, instruction by
      instruction, while [init_smp] waits for them and unmaps it.  Every
      interleaving is one of the counting protocol of SmpBoot.v (a simulation).
    - Cores.v, CoresSpec.v: what all cores do from there to their last loops
      ([kernel_main], [ap_entry_fn], [common_main::main]), as scripts of calls,
      barriers and waiting loops.  A call is an operation of another file; the
      step relation has all interleavings, and the interrupts of core 0's timer.
    - Boot.v: acpi.rs and the set-up of a core in main.rs and smp.rs.
      BootCheck.v: [assert_boot_info] of main.rs, and how it goes with the
      configuration of the boot loader.
    - Panic.v: the panic handlers of main.rs and tester.rs.
    - Tester.v: tester.rs.  BootImage.v: [main] of the build tool, as a trace of
      what it does to its host.

    *** The theorems

    - Safety of memory: step_isolation, user_isolation, kernel_half_shared,
      boot_info_shared, configured_loader_passes, allocator_safety,
      allocator_refines_set (a refinement of a set of free frames),
      segment_flags_wx.
    - Operations on every branch: map_ram_user_spec, map_ram_kernel_spec,
      create_user_page_table_spec, log_page_table_info_spec, kernel_alloc_spec,
      kernel_realloc_spec, user_alloc_spec, freed_block_reused, heap_growth_spec,
      allocator_fail_test_panics, boot_allocator_spec, map_unmap_roundtrip.
    - Applications from end to end: ram_disk_roundtrip,
      prepare_application_spec, run_comes_back, application_confined,
      app_alloc_spec, user_print_spec, test_main_spec, app_test_passes.
    - Start-up: early_boot_spec, trampoline_starts, trampoline_refines_protocol (a refinement of the protocol), smp_boot_safe,
      smp_boot_terminates, booted_cores, cores_in_phase, cores_progress,
      startup_aps_sends, core_setup_spec, remap_and_disable_pic_spec, idt_gates,
      double_fault_stacks, exceptions_reported, timer_test_ends.
    - Output: core_terminals_isolated, write_raw_char_spec, windows_tile,
      push_shows_back_buffer, panic_print_prints, panic_reports,
      framebuffer_write_combining, log_spec, init_configures_uart,
      write_str_sends, read_line_spec, core_window_echoes.
    - Build and test: test_build_verdict.

    *** Fuel and bounds

    A loop that polls a device takes fuel. Its theorem gives a number of rounds
    after which it ends, from the progress the device makes, and the result for
    every larger fuel: [wait_for_timeout] and what uses it (startup_aps_sends,
    core_setup_spec), the serial port's loops (with the
    number of polls after which the device is ready). [run] executes 32 steps,
    27 of which are used at most: one per instruction, one for the whole
    application, one for the end. A processor takes 39 steps from its start to
    [ap_entry_fn], and looks at no more than 15 bytes to decode an instruction;
    [n] processors that start together take at most [40 * n + TIME_OUT + 3]
    steps with the boot processor's own, in every interleaving.
    [timer_test] takes one round for each look at its counter, and needs those
    until five interrupts have arrived. [PRIME_FUEL] is 40 numbers, of which the
    test program looks at 28. [panic_print] gives up after the 1000000 rounds of
    the source. The loops that never end are steps of [cores_step]. Everything
    else is structural.

    *** Conditions to know of

    - [mem_step] lets the kernel map memory of its own only in a top-level slot
      that is in use; map_ram_kernel of memory.rs does not check this, and
      kernel_half_shared shows that the condition is exact.
    - A program runs in ring 0.  In [mem_step] and [run] it writes to its own
      user pages only; nothing of the hardware enforces that.
    - The [asm!] blocks of UserSwitch.v store to the application's stack in a
      memory of bytes of its own, apart from the page tables: the stack that
      prepare_application maps is taken to be there.
    - panic_reports assumes that no other panic is under way; the other locks may
      be held.  A breakpoint prints through the lock of the serial port: where
      the interrupted code holds it, the handler does not return.
    - An allocation with an alignment above a page, as the first of its heap, may
      return null: kernel_alloc_spec and app_alloc_spec say when.

    *** Not modelled

    - JPEG decoding, which is a library.
    - What a call does inside of the interleavings of Cores.v, where a call is one
      step that returns.
    - Interleavings inside of operations: the locks are those of the spin crate,
      and an operation under a lock is one step.  The locks of the console and
      of the logger are modelled as far as a panicking core meets them.
    - The tables below the top, of which the mapper is in charge: they are one
      map from pages to frames (see Paging.v).  The number of their entries that
      [log_page_table_info] prints is a parameter.
    - The steps of [kernel_main] from the local APIC on as one sequence: each is
      modelled in its file, but the acpi crate allocates from the kernel's heap
      while it reads the tables, in amounts this library does not know.
    - The log messages inside of the operations, apart from those of the first
      part of [kernel_main] and of the handlers, and the marks of
      [serial_mark!]: the logger is modelled on its own, and so are its texts.
    - The translation look-aside buffer: the code flushes after every change.
    - The texts of panics; the parsing of the build tool's command line. *)

From Stdlib Require Export ZArith Lia.
From stdpp Require Export base numbers list gmap option.

(** stdpp keeps its list lemmas that clash with the Standard Library in [list]. *)
Export stdpp.list_basics.list stdpp.list_relations.list stdpp.list_monad.list
  stdpp.list_misc.list stdpp.list_tactics.list stdpp.list_numbers.list.

#[global] Open Scope Z_scope.

(** ** Outcomes

    Every modelled function returns [res A]: a value, or the way the kernel
    stops.  A Rust panic never unwinds in the kernel (the panic handler loops
    forever), so the state after a fault is not kept. *)

Inductive fault :=
  | Assertion    (** [assert!] and the [ass!] macro *)
  | Overflow     (** arithmetic overflow, with overflow checks on *)
  | Bounds       (** slice or array index out of range *)
  | Unwrap       (** [unwrap]/[expect] on [None] or [Err] *)
  | Explicit     (** [panic!] *)
  | Extern       (** a panic documented for a library function *)
  | PageFault    (** access to an unmapped virtual address *)
  | Undefined    (** a read of memory that does not hold the expected object *)
  | NoFuel.      (** the modelled loop did not end within its fuel *)

#[export] Instance fault_eq_dec : EqDecision fault.
Proof. solve_decision. Defined.

Inductive res (A : Type) : Type :=
  | Val (a : A)
  | Fault (f : fault).
Arguments Val {A} a.
Arguments Fault {A} f.

#[export] Instance res_eq_dec `{EqDecision A} : EqDecision (res A).
Proof. solve_decision. Defined.

#[export] Instance res_ret : MRet res := @Val.
#[export] Instance res_bind : MBind res := λ _ _ k m,
  match m with Val a => k a | Fault f => Fault f end.
#[export] Instance res_fmap : FMap res := λ _ _ g m,
  match m with Val a => Val (g a) | Fault f => Fault f end.

Definition is_val {A} (r : res A) : bool :=
  match r with Val _ => true | Fault _ => false end.

(** A Rust [const]: its initialiser is evaluated by the compiler, and a panic
    in it is a compile-time error; here a fault makes the definition ill-typed. *)
Definition const_eval {A} (r : res A) : match r with Val _ => A | Fault _ => unit end :=
  match r with Val a => a | Fault _ => tt end.

(** [Option::unwrap]/[expect], and the [ass!]/[assert!] macros. *)
Definition unwrap {A} (o : option A) : res A :=
  match o with Some a => Val a | None => Fault Unwrap end.
Definition ass (b : bool) : res () := if b then Val () else Fault Assertion.

(** Rust's [Result]. *)
Inductive result (A E : Type) : Type := Ok (a : A) | Err (e : E).
Arguments Ok {A E} a.
Arguments Err {A E} e.

Definition is_ok {A E} (r : result A E) : bool :=
  match r with Ok _ => true | Err _ => false end.

(** ** The state monad of a component *)

Definition M (S A : Type) : Type := S → res (A * S).

#[export] Instance M_ret {S} : MRet (M S) := λ _ a s, Val (a, s).
#[export] Instance M_bind {S} : MBind (M S) := λ _ _ k m s,
  match m s with Val (a, s') => k a s' | Fault f => Fault f end.

Definition liftr {S A} (r : res A) : M S A := λ s,
  match r with Val a => Val (a, s) | Fault f => Fault f end.
Definition gets {S A} (g : S → A) : M S A := λ s, Val (g s, s).
Definition modify {S} (g : S → S) : M S () := λ s, Val ((), g s).

(** A computation on a part of the state. *)
Definition zoom {S T A} (get : S → T) (put : T → S → S) (m : M T A) : M S A := λ s,
  match m (get s) with Val (a, t) => Val (a, put t s) | Fault f => Fault f end.

(** [for x in l { body(x) }] *)
Fixpoint for_each {S A} (l : list A) (body : A → M S ()) : M S () :=
  match l with
  | [] => mret ()
  | x :: l' => body x ≫= λ _, for_each l' body
  end.

(** A loop that only accumulates. *)
Fixpoint fold_res {A B} (f : B → A → res B) (l : list A) (b : B) : res B :=
  match l with
  | [] => Val b
  | x :: l' => f b x ≫= fold_res f l'
  end.

(** [loop { body }] where the body breaks with [Some r]; [fuel] bounds the
    number of iterations. *)
Fixpoint loop {S A} (fuel : nat) (body : M S (option A)) : M S A := λ s,
  match fuel with
  | O => Fault NoFuel
  | S n => (body ≫= λ o, match o with Some a => mret a | None => loop n body end) s
  end.

(** ** Machine integers

    Unsigned integers are [Z] in [0, 2^w).  With overflow checks (the [dev]
    and [opt-dev] cargo profiles, the default of the build) an operation that
    leaves the range panics; in the [release-lto] profile it wraps. *)

Class Profile := overflow_checks : bool.

(** The two settings; the properties hold for both unless they say otherwise. *)
Definition dev_profile : Profile := true.
Definition release_profile : Profile := false.

Definition in_range (w z : Z) : bool := (0 <=? z) && (z <? 2 ^ w).

Section Arith.
Context `{Profile}.

Definition arith (w z : Z) : res Z :=
  if in_range w z then Val z
  else if overflow_checks then Fault Overflow else Val (z `mod` 2 ^ w).

Definition add64 (a b : Z) : res Z := arith 64 (a + b).
Definition sub64 (a b : Z) : res Z := arith 64 (a - b).
Definition mul64 (a b : Z) : res Z := arith 64 (a * b).
End Arith.

(** [i32] arithmetic, as used by [Color::lerp] and loop counters. *)
Definition in_range_i32 (z : Z) : bool := (- 2 ^ 31 <=? z) && (z <? 2 ^ 31).
Definition arith_i32 `{Profile} (z : Z) : res Z :=
  if in_range_i32 z then Val z
  else if overflow_checks then Fault Overflow
  else Val ((z + 2 ^ 31) `mod` 2 ^ 32 - 2 ^ 31).

(** Division by zero always panics. *)
Definition div_u (a b : Z) : res Z :=
  if b =? 0 then Fault Explicit else Val (a `div` b).

Definition u64 (z : Z) : Prop := 0 ≤ z < 2 ^ 64.

(** [u64::next_power_of_two] *)
Definition next_power_of_two `{Profile} (n : Z) : res Z :=
  arith 64 (if n <=? 1 then 1 else 2 ^ Z.log2_up n).

Definition is_pow2 (n : Z) : Prop := ∃ k, 0 ≤ k ∧ n = 2 ^ k.

(** [a..b] and [(a..b).step_by(k)] on integers *)
Definition range (a b : Z) : list Z := seqZ a (b - a).
Definition range_step (a b k : Z) : list Z :=
  (λ i, a + i * k) <$> seqZ 0 ((b - a + k - 1) `div` k).

(** * Lemmas shared by the components *)

Create HintDb steel discriminated.

(** ** Inversion of successful runs *)

Lemma res_bind_Val {A B} (m : res A) (k : A → res B) b :
  (m ≫= k) = Val b ↔ ∃ a, m = Val a ∧ k a = Val b.
Proof. destruct m; cbn; naive_solver. Qed.

Lemma M_bind_Val {S A B} (m : M S A) (k : A → M S B) s b s' :
  (m ≫= k) s = Val (b, s') ↔ ∃ a s1, m s = Val (a, s1) ∧ k a s1 = Val (b, s').
Proof. unfold mbind, M_bind. destruct (m s) as [[]|]; naive_solver. Qed.

Lemma M_bind_run {S A B} (m : M S A) (k : A → M S B) s a s1 :
  m s = Val (a, s1) → (m ≫= k) s = k a s1.
Proof. unfold mbind, M_bind. by intros ->. Qed.

Lemma M_bind_fault {S A B} (m : M S A) (k : A → M S B) s f :
  m s = Fault f → (m ≫= k) s = Fault f.
Proof. unfold mbind, M_bind. by intros ->. Qed.

Lemma liftr_Val {S A} (r : res A) (s : S) a s' :
  liftr r s = Val (a, s') ↔ r = Val a ∧ s' = s.
Proof. unfold liftr. destruct r; naive_solver. Qed.

Lemma liftr_run {S A} (r : res A) (s : S) a : r = Val a → liftr r s = Val (a, s).
Proof. by intros ->. Qed.

Lemma mret_Val {S A} (a a' : A) (s s' : S) :
  (mret a : M S A) s = Val (a', s') ↔ a' = a ∧ s' = s.
Proof. unfold mret, M_ret. naive_solver. Qed.

Lemma gets_Val {S A} (g : S → A) s a s' : gets g s = Val (a, s') ↔ a = g s ∧ s' = s.
Proof. unfold gets. naive_solver. Qed.

Lemma modify_Val {S} (g : S → S) s u s' : modify g s = Val (u, s') ↔ s' = g s.
Proof. unfold modify. destruct u. naive_solver. Qed.

Lemma zoom_Val {S T A} (get : S → T) (put : T → S → S) (m : M T A) s a s' :
  zoom get put m s = Val (a, s') ↔ ∃ t, m (get s) = Val (a, t) ∧ s' = put t s.
Proof. unfold zoom. destruct (m (get s)) as [[]|]; naive_solver. Qed.

Lemma zoom_run {S T A} (get : S → T) (put : T → S → S) (m : M T A) s a t :
  m (get s) = Val (a, t) → zoom get put m s = Val (a, put t s).
Proof. intros Hm. apply zoom_Val. by exists t. Qed.

Lemma ass_Val b u : ass b = Val u ↔ b = true.
Proof. destruct b, u; cbn; naive_solver. Qed.

Lemma unwrap_Val {A} (o : option A) a : unwrap o = Val a ↔ o = Some a.
Proof. destruct o; cbn; naive_solver. Qed.

(** [res_inv] decomposes a hypothesis saying that a monadic term returned. *)
Ltac res_inv_step :=
  match goal with
  | H : mbind _ _ = Val _ |- _ => apply res_bind_Val in H as (? & ? & H)
  | H : mbind _ _ _ = Val (_, _) |- _ => apply M_bind_Val in H as (? & ? & ? & H)
  | H : liftr _ _ = Val (_, _) |- _ => apply liftr_Val in H as [H ?]
  | H : mret _ _ = Val (_, _) |- _ => apply mret_Val in H as [? ?]
  | H : gets _ _ = Val (_, _) |- _ => apply gets_Val in H as [? ?]
  | H : modify _ _ = Val (_, _) |- _ => apply modify_Val in H
  | H : zoom _ _ _ _ = Val (_, _) |- _ => apply zoom_Val in H as (? & H & ?)
  | H : ass _ = Val _ |- _ => apply ass_Val in H
  | H : unwrap _ = Val _ |- _ => apply unwrap_Val in H
  | H : Val _ = Val _ |- _ => injection H as H; simplify_eq
  | H : Fault _ = Val _ |- _ => discriminate H
  end; simplify_eq.
Ltac res_inv := repeat res_inv_step.

(** ** Loops *)

Lemma for_each_app {S A} (l1 l2 : list A) (body : A → M S ()) s :
  for_each (l1 ++ l2) body s = (for_each l1 body ≫= λ _, for_each l2 body) s.
Proof.
  revert s. induction l1 as [|x l1 IH]; intros s; [done|].
  cbn. unfold mbind, M_bind. destruct (body x s) as [[[] s1]|]; [|done]. apply IH.
Qed.

(** A loop that preserves [I], indexed by the items already done. *)
Lemma for_each_ind {S A} (body : A → M S ()) (I : list A → S → Prop) l s :
  I [] s →
  (∀ l1 x l2 s1, l = l1 ++ x :: l2 → I l1 s1 →
     ∃ s2, body x s1 = Val ((), s2) ∧ I (l1 ++ [x]) s2) →
  ∃ s', for_each l body s = Val ((), s') ∧ I l s'.
Proof.
  intros H0 Hstep.
  cut (∀ l2 l1 s1, l = l1 ++ l2 → I l1 s1 →
         ∃ s', for_each l2 body s1 = Val ((), s') ∧ I l s').
  { intros Hc. by apply (Hc l []). }
  induction l2 as [|x l2 IH]; intros l1 s1 Hl HI.
  - exists s1. rewrite app_nil_r in Hl. by subst.
  - destruct (Hstep l1 x l2 s1 Hl HI) as (s2 & Hb & HI2).
    cbn. rewrite (M_bind_run _ _ _ _ _ Hb).
    apply (IH (l1 ++ [x])); [by rewrite <-app_assoc|done].
Qed.

(** The partial-correctness form: whenever the loop returns, [I] holds. *)
Lemma for_each_inv {S A} (body : A → M S ()) (I : list A → S → Prop) l s s' :
  I [] s →
  (∀ l1 x l2 s1 s2, l = l1 ++ x :: l2 → I l1 s1 → body x s1 = Val ((), s2) →
     I (l1 ++ [x]) s2) →
  for_each l body s = Val ((), s') → I l s'.
Proof.
  intros H0 Hstep.
  cut (∀ l2 l1 s1, l = l1 ++ l2 → I l1 s1 → for_each l2 body s1 = Val ((), s') → I l s').
  { intros Hc. by apply (Hc l []). }
  induction l2 as [|x l2 IH]; intros l1 s1 Hl HI Hrun.
  - rewrite app_nil_r in Hl. cbn in Hrun. res_inv. done.
  - cbn in Hrun. apply M_bind_Val in Hrun as ([] & s2 & Hb & Hrun).
    apply (IH (l1 ++ [x]) s2); [by rewrite <-app_assoc| |done].
    by eapply Hstep.
Qed.

(** A loop over an image of a list. *)
Lemma for_each_fmap {S A B} (g : A → B) (l : list A) (body : A → M S ()) (body' : B → M S ()) s :
  (∀ x, x ∈ l → ∀ s1, body x s1 = body' (g x) s1) → for_each l body s = for_each (g <$> l) body' s.
Proof.
  revert s. induction l as [|x l IH]; intros s Hb; [done|]. cbn.
  unfold mbind, M_bind. rewrite Hb by left.
  destruct (body' (g x) s) as [[[] s1]|]; [|done]. apply IH. intros y Hy. apply Hb. by right.
Qed.

Lemma fold_res_app {A B} (f : B → A → res B) l1 l2 b :
  fold_res f (l1 ++ l2) b = fold_res f l1 b ≫= fold_res f l2.
Proof.
  revert b. induction l1 as [|x l1 IH]; intros b; [done|]. cbn.
  destruct (f b x) as [b'|]; cbn; [apply IH|done].
Qed.

(** More fuel never changes the result of a loop that ended. *)
Lemma loop_more {S A} (body : M S (option A)) n m s r :
  loop n body s = Val r → (n ≤ m)%nat → loop m body s = Val r.
Proof.
  revert m s. induction n as [|n IH]; intros m s Hl Hle; [done|].
  destruct m as [|m]; [lia|]. cbn in Hl |- *. revert Hl.
  unfold mbind, M_bind. destruct (body s) as [[[a|] s1]|]; [done| |done].
  intros Hl. apply IH; [done|lia].
Qed.

Lemma loop_S {S A} (body : M S (option A)) n s :
  loop (Datatypes.S n) body s =
  (body ≫= λ o, match o with Some a => mret a | None => loop n body end) s.
Proof. done. Qed.

(** ** Machine integers *)

Lemma in_range_spec w z : in_range w z = true ↔ 0 ≤ z < 2 ^ w.
Proof. unfold in_range. rewrite andb_true_iff, Z.leb_le, Z.ltb_lt. lia. Qed.

Section ArithLemmas.
Context `{Profile}.

Lemma arith_in w z : 0 ≤ z < 2 ^ w → arith w z = Val z.
Proof. intros Hz. unfold arith. by rewrite (proj2 (in_range_spec w z)). Qed.

Lemma add64_in a b : 0 ≤ a + b < 2 ^ 64 → add64 a b = Val (a + b).
Proof. apply arith_in. Qed.
Lemma sub64_in a b : 0 ≤ a - b < 2 ^ 64 → sub64 a b = Val (a - b).
Proof. apply arith_in. Qed.
Lemma mul64_in a b : 0 ≤ a * b < 2 ^ 64 → mul64 a b = Val (a * b).
Proof. apply arith_in. Qed.

Lemma arith_range w z r : 0 ≤ w → arith w z = Val r → 0 ≤ r < 2 ^ w.
Proof.
  intros Hw. unfold arith. destruct (in_range w z) eqn:E.
  - intros [= <-]. by apply in_range_spec.
  - destruct overflow_checks; [done|]. intros [= <-].
    apply Z.mod_pos_bound. lia.
Qed.

Lemma arith_i32_in z : - 2 ^ 31 ≤ z < 2 ^ 31 → arith_i32 z = Val z.
Proof.
  intros Hz. unfold arith_i32, in_range_i32.
  by rewrite (proj2 (Z.leb_le _ _)), (proj2 (Z.ltb_lt _ _)) by lia.
Qed.

Lemma div_u_pos a b : 0 < b → div_u a b = Val (a `div` b).
Proof. intros. unfold div_u. by rewrite (proj2 (Z.eqb_neq b 0)) by lia. Qed.
End ArithLemmas.

(** Pure steps of a run: the hints of [steel] find the value of an arithmetic
    operation that stays in range, and [m_step] runs the first step of a
    monadic term when they do. *)
#[export] Hint Resolve liftr_run arith_in add64_in sub64_in mul64_in : steel.
#[export] Hint Extern 2 (_ ≤ _ < _) => lia : steel.

Ltac m_step := erewrite M_bind_run by (solve [eauto 3 with steel]).

(** [next_power_of_two] returns the least power of two that is not below its
    argument whenever that power fits 64 bits. *)
Lemma next_power_of_two_spec `{Profile} n :
  0 ≤ n ≤ 2 ^ 63 →
  ∃ p, next_power_of_two n = Val p ∧ is_pow2 p ∧ n ≤ p ∧ p ≤ 2 ^ 63 ∧
       (∀ q, is_pow2 q → n ≤ q → p ≤ q).
Proof.
  intros Hn. unfold next_power_of_two. destruct (Z.leb_spec n 1).
  - exists 1. split_and!; [by apply arith_in|by exists 0|lia|lia|].
    intros q (k & Hk & ->) _. pose proof (Z.pow_pos_nonneg 2 k). lia.
  - pose proof (Z.log2_up_nonneg n).
    destruct (Z.log2_up_spec n) as [_ Hup]; [lia|].
    assert (Z.log2_up n ≤ 63) as H63.
    { rewrite <-(Z.log2_up_pow2 63) by lia. apply Z.log2_up_le_mono. lia. }
    assert (2 ^ Z.log2_up n ≤ 2 ^ 63) by (apply Z.pow_le_mono_r; lia).
    exists (2 ^ Z.log2_up n). split_and!; [apply arith_in; lia|by eexists|lia|lia|].
    intros q (k & Hk & ->) Hq. apply Z.pow_le_mono_r; [lia|].
    rewrite <-(Z.log2_up_pow2 k) by lia. by apply Z.log2_up_le_mono.
Qed.

Lemma is_pow2_pos n : is_pow2 n → 0 < n.
Proof. intros (k & ? & ->). apply Z.pow_pos_nonneg; lia. Qed.

Lemma is_pow2_pow k : 0 ≤ k → is_pow2 (2 ^ k).
Proof. by exists k. Qed.

(** Powers of two divide the larger ones. *)
Lemma is_pow2_divide a b : is_pow2 a → is_pow2 b → a ≤ b → (a | b).
Proof.
  intros (j & Hj & ->) (k & Hk & ->) Hle.
  apply Z.pow_le_mono_r_iff in Hle; [|lia|lia].
  exists (2 ^ (k - j)). rewrite <-Z.pow_add_r by lia. f_equal. lia.
Qed.

(** Joining a high field with a low field by [|] is addition. *)
Lemma lor_shiftl_add a b k :
  0 ≤ k → 0 ≤ b < 2 ^ k → Z.lor (Z.shiftl a k) b = a * 2 ^ k + b.
Proof.
  intros Hk Hb. rewrite <-Z.shiftl_mul_pow2 by lia. symmetry.
  rewrite <-Z.lxor_lor, Z.add_nocarry_lxor; [done| |].
  all: apply Z.bits_inj'; intros n Hn; rewrite Z.land_spec, Z.bits_0;
    destruct (Z.ltb_spec n k);
    [rewrite Z.shiftl_spec_low by lia; done|
     rewrite <-(Z.mod_small b (2 ^ k)), Z.mod_pow2_bits_high by lia;
     apply andb_false_r].
Qed.

(** Two digits in base [b] determine each other. *)
Lemma mul_add_inj a a' b k k' :
  0 ≤ k < b → 0 ≤ k' < b → a * b + k = a' * b + k' → a = a' ∧ k = k'.
Proof.
  intros Hk Hk' Heq. assert (a = a') as ->; [|lia].
  apply (Z.div_mod_unique b a a' k k'); lia.
Qed.

(** ** Lists and ranges *)

Lemma range_length a b : length (range a b) = Z.to_nat (b - a).
Proof. apply length_seqZ. Qed.

Lemma elem_of_range a b x : x ∈ range a b ↔ a ≤ x < b.
Proof. unfold range. rewrite elem_of_seqZ. lia. Qed.

Lemma range_nil a b : b ≤ a → range a b = [].
Proof. intros. unfold range. apply seqZ_nil. lia. Qed.

Lemma range_cons a b : a < b → range a b = a :: range (a + 1) b.
Proof.
  intros. unfold range. rewrite seqZ_cons by lia. repeat f_equal; lia.
Qed.

Lemma range_snoc a b : a ≤ b → range a (b + 1) = range a b ++ [b].
Proof.
  intros. unfold range. replace (b + 1 - a) with ((b - a) + 1) by lia.
  rewrite seqZ_app by lia. f_equal. rewrite seqZ_cons by lia.
  rewrite seqZ_nil by lia. f_equal. lia.
Qed.

(** The parts of a list have no other elements. *)
Lemma elem_of_take_l {A} k (l : list A) x : x ∈ take k l → x ∈ l.
Proof. intros (i & Hi & _)%elem_of_take. by eapply list_elem_of_lookup_2. Qed.

Lemma elem_of_drop_l {A} k (l : list A) x : x ∈ drop k l → x ∈ l.
Proof. rewrite <-(take_drop k l) at 2. rewrite elem_of_app. by right. Qed.

Lemma range_step_spec a b k x :
  0 < k → x ∈ range_step a b k ↔ a ≤ x < b ∧ (k | x - a).
Proof.
  intros Hk. unfold range_step. rewrite list_elem_of_fmap. split.
  - intros (i & -> & Hi). apply elem_of_seqZ in Hi.
    assert (i * k < b - a).
    { destruct Hi as [Hi0 Hi]. rewrite Z.add_0_l in Hi.
      assert (i + 1 ≤ (b - a + k - 1) `div` k) by lia.
      pose proof (Z.mul_div_le (b - a + k - 1) k). nia. }
    split; [nia|]. exists i. lia.
  - intros [Hx [i Hi]]. exists i. split; [lia|]. apply elem_of_seqZ.
    split; [nia|]. rewrite Z.add_0_l.
    assert (i + 1 ≤ (b - a + k - 1) `div` k); [|lia].
    apply Z.div_le_lower_bound; nia.
Qed.

Lemma range_step_NoDup a b k : 0 < k → NoDup (range_step a b k).
Proof.
  intros Hk. unfold range_step. apply NoDup_fmap_2; [|apply NoDup_seqZ].
  intros x y Hxy. nia.
Qed.

(** Counting the aligned addresses of an interval. *)
Lemma aligned_count (l : list Z) a b k :
  0 < k → NoDup l → (∀ x, x ∈ l → a ≤ x < b ∧ (k | x - a)) →
  Z.of_nat (length l) ≤ Z.max 0 ((b - a + k - 1) `div` k).
Proof.
  intros Hk Hnd Hl.
  assert (length l ≤ length (range_step a b k))%nat as Hle.
  { apply submseteq_length, NoDup_submseteq; [done|].
    intros x Hx. apply range_step_spec; [done|]. by apply Hl. }
  unfold range_step in Hle. rewrite length_fmap, length_seqZ in Hle. lia.
Qed.

(** Concatenating duplicate-free lists without common elements. *)
Lemma NoDup_concat {A} (ls : list (list A)) :
  (∀ l, l ∈ ls → NoDup l) →
  (∀ i j l1 l2 x, (i < j)%nat → ls !! i = Some l1 → ls !! j = Some l2 → x ∈ l1 → x ∉ l2) →
  NoDup (concat ls).
Proof.
  induction ls as [|l ls IH]; intros Hnd Hdis; [by constructor|]. cbn.
  apply NoDup_app. split_and!.
  - apply Hnd. by left.
  - intros x Hx Hc. apply list_elem_of_In, in_concat in Hc as (l2 & Hl2 & Hx2).
    apply list_elem_of_In, list_elem_of_lookup in Hl2 as [j Hj].
    apply (Hdis 0%nat (S j) l l2 x); [lia|done..|]. by apply list_elem_of_In.
  - apply IH; [intros; apply Hnd; by right|].
    intros i j l1 l2 x Hij Hi Hj. apply (Hdis (S i) (S j)); [lia|done..].
Qed.
