(* ===== verification/Bytes.v ===== *)
(** * Bytes and little-endian words

    A byte is a [Z] in [0, 256).  [to_le_bytes] and [from_le_bytes] are the
    standard library's [u64::to_le_bytes] and the little-endian load of the
    machine, for words of [n] bytes. *)

From S2P Require Import Prelude.

Definition is_byte (b : Z) : Prop := 0 ≤ b < 256.

Fixpoint to_le_bytes (n : nat) (z : Z) : list Z :=
  match n with
  | O => []
  | S m => z `mod` 256 :: to_le_bytes m (z `div` 256)
  end.

Fixpoint from_le_bytes (l : list Z) : Z :=
  match l with
  | [] => 0
  | b :: l' => b + 256 * from_le_bytes l'
  end.

(** [&s[a..b]]: panics unless [a <= b <= s.len()]. *)
Definition slice {A} (s : list A) (a b : Z) : res (list A) :=
  if (0 <=? a) && (a <=? b) && (b <=? Z.of_nat (length s))
  then Val (take (Z.to_nat (b - a)) (drop (Z.to_nat a) s))
  else Fault Bounds.

(** A [u64] slice over bytes ([from_raw_parts(ptr as *const u64, len / 8)]),
    indexed with a bounds check. *)
Definition u64_at (s : list Z) (i : Z) : res Z :=
  if (0 <=? i) && (i <? Z.of_nat (length s) `div` 8)
  then Val (from_le_bytes (take 8 (drop (Z.to_nat (8 * i)) s)))
  else Fault Bounds.

Lemma length_to_le_bytes n z : length (to_le_bytes n z) = n.
Proof. revert z. induction n as [|n IH]; intros z; cbn; [done|]. by rewrite IH. Qed.

Lemma from_to_le_bytes n z : from_le_bytes (to_le_bytes n z) = z `mod` 256 ^ Z.of_nat n.
Proof.
  revert z. induction n as [|n IH]; intros z; cbn [to_le_bytes from_le_bytes].
  - by rewrite Z.mod_1_r.
  - rewrite IH, Nat2Z.inj_succ, Z.pow_succ_r by lia.
    rewrite Z.rem_mul_r by (pose proof (Z.pow_pos_nonneg 256 (Z.of_nat n)); lia). done.
Qed.

Lemma from_to_le_bytes_u64 z : u64 z → from_le_bytes (to_le_bytes 8 z) = z.
Proof.
  intros Hz. rewrite from_to_le_bytes. apply Z.mod_small.
  unfold u64 in Hz. change (256 ^ Z.of_nat 8) with (2 ^ 64). lia.
Qed.

Lemma to_le_bytes_is_byte n z : Forall is_byte (to_le_bytes n z).
Proof.
  revert z. induction n as [|n IH]; intros z; constructor; [|apply IH].
  apply Z.mod_pos_bound. lia.
Qed.

(** Reading word [i] of a byte string made of a prefix of [8 * i] bytes, the
    word's bytes, and a rest. *)
Lemma u64_at_app p w r i :
  u64 w → Z.of_nat (length p) = 8 * i →
  u64_at (p ++ to_le_bytes 8 w ++ r) i = Val w.
Proof.
  intros Hw Hp. unfold u64_at. rewrite !length_app, length_to_le_bytes.
  assert (i + 1 ≤ Z.of_nat (length p + (8 + length r)) `div` 8)
    by (apply Z.div_le_lower_bound; lia).
  rewrite (proj2 (Z.leb_le 0 i)), (proj2 (Z.ltb_lt _ _)) by lia. cbn [andb]. rewrite drop_app_length' by lia.
  rewrite take_app_length' by (symmetry; apply length_to_le_bytes).
  by rewrite from_to_le_bytes_u64.
Qed.

(** The words of a table written one after the other. *)
Definition words (ws : list Z) : list Z := mbind (to_le_bytes 8) ws.

Lemma length_words ws : length (words ws) = (8 * length ws)%nat.
Proof.
  induction ws as [|w ws IH]; [done|].
  change (words (w :: ws)) with (to_le_bytes 8 w ++ words ws).
  rewrite length_app, length_to_le_bytes, IH. cbn [length]. lia.
Qed.

Lemma u64_at_words p ws r i w :
  Forall u64 ws → ws !! i = Some w → Z.of_nat (length p) `mod` 8 = 0 →
  u64_at (p ++ words ws ++ r) (Z.of_nat (length p) `div` 8 + Z.of_nat i) = Val w.
Proof.
  intros Hws Hi Hp. rewrite <-(take_drop_middle _ _ _ Hi).
  unfold words. rewrite bind_app, bind_cons, <-!app_assoc, app_assoc.
  fold (words (take i ws)). apply u64_at_app.
  - rewrite list.Forall_forall in Hws. apply Hws. by eapply list_elem_of_lookup_2.
  - rewrite length_app, length_words, length_take.
    apply lookup_lt_Some in Hi. Z.div_mod_to_equations. lia.
Qed.

Lemma slice_app {A} (p m r : list A) a b :
  a = Z.of_nat (length p) → b = a + Z.of_nat (length m) →
  slice (p ++ m ++ r) a b = Val m.
Proof.
  intros -> ->. unfold slice. rewrite !length_app.
  rewrite !(proj2 (Z.leb_le _ _)) by lia. cbn [andb].
  rewrite drop_app_length' by lia. by rewrite take_app_length' by lia.
Qed.

(** ** Bytes in memory

    Consecutive stores, and a load of [n] bytes; memory is a map from
    addresses to bytes. *)

Definition store_bytes (a : Z) (bytes : list Z) (m : gmap Z Z) : gmap Z Z :=
  snd (foldl (λ '(a, m) byte, (a + 1, <[a := byte]> m)) (a, m) bytes).

Definition load_bytes (n : nat) (a : Z) (m : gmap Z Z) : option (list Z) :=
  mapM (λ k, m !! (a + k)) (seqZ 0 (Z.of_nat n)).

Lemma store_bytes_end (bytes : list Z) a (m : gmap Z Z) :
  fst (foldl (λ '(a, m) byte, (a + 1, <[a := byte]> m)) (a, m) bytes) = a + Z.of_nat (length bytes).
Proof.
  revert a m. induction bytes as [|x l IH]; intros a m; cbn [foldl]; [cbn; lia|].
  rewrite IH. cbn; lia.
Qed.

Lemma store_bytes_lookup a bytes m q :
  store_bytes a bytes m !! q =
    if bool_decide (a ≤ q < a + Z.of_nat (length bytes)) then bytes !! Z.to_nat (q - a) else m !! q.
Proof.
  unfold store_bytes.
  induction bytes as [|byte bytes IH] using rev_ind; [by rewrite bool_decide_false by (cbn; lia)|].
  rewrite foldl_snoc. pose proof (store_bytes_end bytes a m) as Hf.
  destruct (foldl _ _ bytes) as [a' m'] eqn:Hfold. cbn in Hf, IH |- *. subst a'. rewrite length_app. cbn [length].
  destruct (decide (q = a + Z.of_nat (length bytes))) as [->|Hne].
  - rewrite lookup_insert_eq, bool_decide_true by lia.
    rewrite lookup_app_r by lia. by replace (_ - _)%nat with 0%nat by lia.
  - rewrite lookup_insert_ne, IH by done. repeat case_bool_decide; try lia; [|done].
    by rewrite lookup_app_l by lia.
Qed.

Lemma load_bytes_ext n a m m' :
  (∀ q, a ≤ q < a + Z.of_nat n → m' !! q = m !! q) → load_bytes n a m' = load_bytes n a m.
Proof.
  intros Hm. unfold load_bytes. apply Forall_mapM_ext, Forall_forall.
  intros k Hk%elem_of_seqZ. apply Hm. lia.
Qed.

Lemma load_store_bytes a bytes m : load_bytes (length bytes) a (store_bytes a bytes m) = Some bytes.
Proof.
  unfold load_bytes. apply mapM_Some_2, Forall2_lookup. intros i.
  destruct (bytes !! i) as [b|] eqn:Hb.
  - pose proof (lookup_lt_Some _ _ _ Hb). rewrite (lookup_seqZ_lt 0) by lia. constructor.
    rewrite store_bytes_lookup, bool_decide_true by lia. rewrite <-Hb. f_equal. lia.
  - apply lookup_ge_None in Hb. rewrite (lookup_seqZ_ge 0) by lia. constructor.
Qed.

Definition store64 (a v : Z) (m : gmap Z Z) : gmap Z Z := store_bytes a (to_le_bytes 8 v) m.
Definition load64 (a : Z) (m : gmap Z Z) : option Z := from_le_bytes <$> load_bytes 8 a m.

Lemma load_store64 a v m : u64 v → load64 a (store64 a v m) = Some v.
Proof.
  intros Hv. unfold load64, store64.
  pose proof (load_store_bytes a (to_le_bytes 8 v) m) as Hl. rewrite length_to_le_bytes in Hl.
  rewrite Hl. cbn [fmap option_fmap option_map]. f_equal. by apply from_to_le_bytes_u64.
Qed.

Lemma store64_lookup_ne a v m q : ¬ (a ≤ q < a + 8) → store64 a v m !! q = m !! q.
Proof.
  intros Hq. unfold store64. rewrite store_bytes_lookup, length_to_le_bytes.
  by rewrite bool_decide_false by lia.
Qed.

Lemma load64_ext a m m' : (∀ q, a ≤ q < a + 8 → m' !! q = m !! q) → load64 a m' = load64 a m.
Proof. intros Hm. unfold load64. by rewrite (load_bytes_ext 8 a m m') by exact Hm. Qed.

Lemma load_store64_ne a b v m : a + 8 ≤ b ∨ b + 8 ≤ a → load64 a (store64 b v m) = load64 a m.
Proof. intros Hab. apply load64_ext. intros q Hq. apply store64_lookup_ne. lia. Qed.
