(* ===== verification/Utf8.v ===== *)
(** * UTF-8

    [char::encode_utf8] and [core::str::from_utf8] of the standard library: a
    character is its code point, a string a list of characters.  The validation
    follows the table of well-formed byte sequences of the Unicode standard. *)

From S2P Require Import Prelude Bytes.

(** A Unicode scalar value, which a [char] is. *)
Definition is_char (c : Z) : bool := in_range 16 c && negb ((0xd800 <=? c) && (c <=? 0xdfff)) || (0x10000 <=? c) && (c <=? 0x10ffff).

(** A continuation byte that holds the low six bits of [c]. *)
Definition low6 (c : Z) : Z := 0x80 + c `mod` 64.

Definition encode_char (c : Z) : list Z :=
  if c <? 0x80 then [c]
  else if c <? 0x800 then [0xc0 + c `div` 64; low6 c]
  else if c <? 0x10000 then [0xe0 + c `div` 4096; low6 (c `div` 64); low6 c]
  else [0xf0 + c `div` 262144; low6 (c `div` 4096); low6 (c `div` 64); low6 c].

Definition encode_str (s : list Z) : list Z := s ≫= encode_char.

Definition between (a b x : Z) : bool := (a <=? x) && (x <=? b).
Definition continuation (b : Z) : bool := between 0x80 0xbf b.

(** The first two bytes of a sequence of three, and of four. *)
Definition starts3 (b0 b1 : Z) : bool :=
  if b0 =? 0xe0 then between 0xa0 0xbf b1
  else if b0 =? 0xed then between 0x80 0x9f b1
  else between 0xe1 0xef b0 && continuation b1.
Definition starts4 (b0 b1 : Z) : bool :=
  if b0 =? 0xf0 then between 0x90 0xbf b1
  else if b0 =? 0xf4 then between 0x80 0x8f b1
  else between 0xf1 0xf3 b0 && continuation b1.

Fixpoint from_utf8 (bs : list Z) : option (list Z) :=
  match bs with
  | [] => Some []
  | b0 :: r0 =>
      if between 0 0x7f b0 then cons b0 <$> from_utf8 r0
      else match r0 with
      | b1 :: r1 =>
          if between 0xc2 0xdf b0 && continuation b1
          then cons ((b0 - 0xc0) * 64 + (b1 - 0x80)) <$> from_utf8 r1
          else match r1 with
          | b2 :: r2 =>
              if starts3 b0 b1 && continuation b2
              then cons (((b0 - 0xe0) * 64 + (b1 - 0x80)) * 64 + (b2 - 0x80)) <$> from_utf8 r2
              else match r2 with
              | b3 :: r3 =>
                  if starts4 b0 b1 && continuation b2 && continuation b3
                  then cons ((((b0 - 0xf0) * 64 + (b1 - 0x80)) * 64 + (b2 - 0x80)) * 64 + (b3 - 0x80)) <$> from_utf8 r3
                  else None
              | [] => None
              end
          | [] => None
          end
      | [] => None
      end
  end.

(** ** Lemmas *)

Lemma is_char_spec c : is_char c = true ↔ 0 ≤ c < 0xd800 ∨ 0xdfff < c ≤ 0x10ffff.
Proof. unfold is_char, in_range. lia. Qed.

Lemma encode_char_bytes c : is_char c = true → Forall is_byte (encode_char c).
Proof.
  rewrite is_char_spec. intros Hc. unfold encode_char, low6.
  repeat case_match; repeat constructor; unfold is_byte; Z.div_mod_to_equations; lia.
Qed.

(** The number that continuation bytes spell out has these digits. *)
Lemma low6_div a b : 0x80 ≤ b ≤ 0xbf → low6 (a * 64 + (b - 0x80)) = b ∧ (a * 64 + (b - 0x80)) `div` 64 = a.
Proof. intros Hb. unfold low6. Z.div_mod_to_equations. lia. Qed.

Ltac bytes_lia := unfold starts3, starts4, continuation, between, low6 in *; repeat case_match; Z.div_mod_to_equations; lia.

(** Decoding reads back one encoded character. *)
Lemma from_utf8_encode_char c r : is_char c = true → from_utf8 (encode_char c ++ r) = cons c <$> from_utf8 r.
Proof.
  rewrite is_char_spec. intros Hc. unfold encode_char.
  destruct (Z.ltb_spec c 0x80); [|destruct (Z.ltb_spec c 0x800); [|destruct (Z.ltb_spec c 0x10000)]]; cbn [app from_utf8].
  - by replace (between 0 0x7f c) with true by bytes_lia.
  - replace (between 0 0x7f _) with false by bytes_lia.
    replace (between 0xc2 0xdf _ && _) with true by bytes_lia.
    do 2 f_equal. bytes_lia.
  - replace (between 0 0x7f _) with false by bytes_lia.
    replace (between 0xc2 0xdf _ && _) with false by bytes_lia.
    replace (starts3 _ _ && _) with true by bytes_lia.
    do 2 f_equal. bytes_lia.
  - replace (between 0 0x7f _) with false by bytes_lia.
    replace (between 0xc2 0xdf _ && _) with false by bytes_lia.
    replace (starts3 _ _ && _) with false by bytes_lia.
    replace (starts4 _ _ && _ && _) with true by bytes_lia.
    do 2 f_equal. bytes_lia.
Qed.

Lemma from_utf8_encode s : Forall (λ c, is_char c = true) s → from_utf8 (encode_str s) = Some s.
Proof.
  induction 1 as [|c s Hc _ IH]; [done|]. unfold encode_str. rewrite bind_cons.
  rewrite from_utf8_encode_char by done. fold (encode_str s). by rewrite IH.
Qed.

(** A sequence that is accepted encodes the character it is read as. *)
Lemma encode_char_2 b0 b1 :
  between 0xc2 0xdf b0 && continuation b1 = true →
  is_char ((b0 - 0xc0) * 64 + (b1 - 0x80)) = true ∧
  encode_char ((b0 - 0xc0) * 64 + (b1 - 0x80)) = [b0; b1].
Proof.
  intros Hb. unfold continuation, between in Hb. destruct (low6_div (b0 - 0xc0) b1) as [E1 E2]; [lia|].
  split; [apply is_char_spec; lia|]. unfold encode_char.
  rewrite (proj2 (Z.ltb_ge _ 0x80)), (proj2 (Z.ltb_lt _ 0x800)), E1, E2 by lia.
  do 2 f_equal; lia.
Qed.

Lemma encode_char_3 b0 b1 b2 :
  starts3 b0 b1 && continuation b2 = true →
  is_char (((b0 - 0xe0) * 64 + (b1 - 0x80)) * 64 + (b2 - 0x80)) = true ∧
  encode_char (((b0 - 0xe0) * 64 + (b1 - 0x80)) * 64 + (b2 - 0x80)) = [b0; b1; b2].
Proof.
  intros Hb. assert (0xe0 ≤ b0 ≤ 0xef ∧ 0x80 ≤ b1 ≤ 0xbf ∧ 0x80 ≤ b2 ≤ 0xbf) as (?&?&?) by bytes_lia.
  assert ((b0 = 0xe0 → 0xa0 ≤ b1) ∧ (b0 = 0xed → b1 ≤ 0x9f)) as [??] by bytes_lia. clear Hb.
  set (c1 := (b0 - 0xe0) * 64 + (b1 - 0x80)). destruct (low6_div (b0 - 0xe0) b1) as [E1 E2]; [lia|].
  destruct (low6_div c1 b2) as [E3 E4]; [lia|].
  split; [apply is_char_spec; lia|]. unfold encode_char.
  rewrite (proj2 (Z.ltb_ge _ 0x80)), (proj2 (Z.ltb_ge _ 0x800)), (proj2 (Z.ltb_lt _ 0x10000)) by lia.
  change 4096 with (64 * 64). rewrite <-Z.div_div, E3, E4 by lia. unfold c1. rewrite E1, E2. do 2 f_equal; lia.
Qed.

Lemma encode_char_4 b0 b1 b2 b3 :
  starts4 b0 b1 && continuation b2 && continuation b3 = true →
  is_char ((((b0 - 0xf0) * 64 + (b1 - 0x80)) * 64 + (b2 - 0x80)) * 64 + (b3 - 0x80)) = true ∧
  encode_char ((((b0 - 0xf0) * 64 + (b1 - 0x80)) * 64 + (b2 - 0x80)) * 64 + (b3 - 0x80)) = [b0; b1; b2; b3].
Proof.
  intros Hb. assert (0xf0 ≤ b0 ≤ 0xf4 ∧ 0x80 ≤ b1 ≤ 0xbf ∧ 0x80 ≤ b2 ≤ 0xbf ∧ 0x80 ≤ b3 ≤ 0xbf) as (?&?&?&?) by bytes_lia.
  assert ((b0 = 0xf0 → 0x90 ≤ b1) ∧ (b0 = 0xf4 → b1 ≤ 0x8f)) as [??] by bytes_lia. clear Hb.
  set (c1 := (b0 - 0xf0) * 64 + (b1 - 0x80)). set (c2 := c1 * 64 + (b2 - 0x80)).
  destruct (low6_div (b0 - 0xf0) b1) as [E1 E2]; [lia|]. destruct (low6_div c1 b2) as [E3 E4]; [lia|].
  destruct (low6_div c2 b3) as [E5 E6]; [lia|].
  split; [apply is_char_spec; lia|]. unfold encode_char.
  rewrite (proj2 (Z.ltb_ge _ 0x80)), (proj2 (Z.ltb_ge _ 0x800)), (proj2 (Z.ltb_ge _ 0x10000)) by lia.
  change 262144 with (64 * 4096). change 4096 with (64 * 64). rewrite <-!Z.div_div, E5, E6 by lia.
  unfold c2. rewrite E3, E4. unfold c1. rewrite E1, E2. do 2 f_equal; lia.
Qed.

Lemma from_utf8_sound n bs s :
  (length bs ≤ n)%nat → from_utf8 bs = Some s → encode_str s = bs ∧ Forall (λ c, is_char c = true) s.
Proof.
  assert (∀ c s', encode_str (c :: s') = encode_char c ++ encode_str s') as Hcons by done.
  revert bs s. induction n as [|n IH]; intros [|b0 r0] s Hl; cbn [from_utf8 length] in *; [by intros [= <-]|lia|by intros [= <-]|].
  destruct (between 0 0x7f b0) eqn:E1.
  { intros (s' & Hs & ->)%fmap_Some_1. apply IH in Hs as [Hs Hf]; [|lia]. unfold between in E1.
    rewrite Hcons, Hs. unfold encode_char. rewrite (proj2 (Z.ltb_lt _ _)) by lia.
    split; [done|]. constructor; [apply is_char_spec; lia|done]. }
  destruct r0 as [|b1 r1]; [done|]. destruct (_ && _) eqn:E2.
  { intros (s' & Hs & ->)%fmap_Some_1. apply IH in Hs as [Hs Hf]; [|cbn in Hl; lia].
    apply encode_char_2 in E2 as [Hc He]. rewrite Hcons, He, Hs. by split; [|constructor]. }
  destruct r1 as [|b2 r2]; [done|]. destruct (starts3 _ _ && _) eqn:E3.
  { intros (s' & Hs & ->)%fmap_Some_1. apply IH in Hs as [Hs Hf]; [|cbn in Hl; lia].
    apply encode_char_3 in E3 as [Hc He]. rewrite Hcons, He, Hs. by split; [|constructor]. }
  destruct r2 as [|b3 r3]; [done|]. destruct (starts4 _ _ && _ && _) eqn:E4; [|done].
  intros (s' & Hs & ->)%fmap_Some_1. apply IH in Hs as [Hs Hf]; [|cbn in Hl; lia].
  apply encode_char_4 in E4 as [Hc He]. rewrite Hcons, He, Hs. by split; [|constructor].
Qed.

(** [from_utf8] accepts exactly the encodings of strings, each as its string. *)
Lemma from_utf8_spec bs s : from_utf8 bs = Some s ↔ encode_str s = bs ∧ Forall (λ c, is_char c = true) s.
Proof.
  split; [by eapply from_utf8_sound|]. intros [<- Hs]. by apply from_utf8_encode.
Qed.
