(* ===== verification/Format.v ===== *)
(** * Formatting

    What [core::fmt] makes of the format strings of the sources: literals,
    padding and decimal numbers, as lists of characters. *)

From Stdlib Require Import String Ascii.
From S2P Require Import Prelude.

(** Characters of a literal. *)
Fixpoint chars (s : string) : list Z :=
  match s with EmptyString => [] | String a s' => Z.of_nat (nat_of_ascii a) :: chars s' end.
Arguments chars s%_string.

(** [{:<n}] and [{: >n}] *)
Definition pad_right (n : nat) (s : list Z) : list Z := s ++ replicate (n - length s) 32.
Definition pad_left (n : nat) (s : list Z) : list Z := replicate (n - length s) 32 ++ s.

(** A number in decimal. *)
Fixpoint digits (fuel : nat) (n : Z) : list Z :=
  match fuel with
  | O => []
  | S f => (if n <? 10 then [] else digits f (n `div` 10)) ++ [48 + n `mod` 10]
  end.
Definition show (n : Z) : list Z := digits 20 n.

(** What a decimal number is: digits without a superfluous zero, with the value. *)
Definition decimal_value (l : list Z) : Z := foldl (λ a c, 10 * a + (c - 48)) 0 l.

Record decimal (n : Z) (l : list Z) : Prop := {
  dc_digits : Forall (λ c, 48 ≤ c ≤ 57) l;
  dc_value : decimal_value l = n;
  dc_first : l ≠ [] ∧ (head l = Some 48 → l = [48]) }.

Lemma digits_decimal f n : 0 ≤ n < 10 ^ Z.of_nat (S f) → decimal n (digits (S f) n).
Proof.
  revert n. induction f as [|f IH]; intros n Hn; cbn [digits].
  - change (10 ^ Z.of_nat 1) with 10 in Hn. rewrite (proj2 (Z.ltb_lt n 10)) by lia.
    rewrite Z.mod_small by lia. split; [repeat constructor; lia|cbn; lia|]. split; [done|]. cbn. by intros [= ->].
  - rewrite Nat2Z.inj_succ, Z.pow_succ_r in Hn by lia.
    pose proof (Z.mod_pos_bound n 10 ltac:(lia)) as Hm. destruct (Z.ltb_spec n 10).
    + rewrite Z.mod_small by lia. split; [repeat constructor; lia|cbn; lia|]. split; [done|]. cbn. by intros [= ->].
    + destruct (IH (n `div` 10)) as [Hd Hv [Hne Hz]]; [split; [apply Z.div_pos; lia|apply Z.div_lt_upper_bound; lia]|].
      cbn [digits] in Hd, Hv, Hne, Hz. set (l := (if _ <? 10 then _ else _) ++ _) in *. split.
      * apply Forall_app. split; [done|]. repeat constructor; lia.
      * unfold decimal_value in *. rewrite foldl_snoc, Hv. pose proof (Z.div_mod n 10). lia.
      * split; [by destruct l|]. intros Hh. destruct l as [|c l]; [done|]. cbn in Hh. injection Hh as ->.
        specialize (Hz eq_refl). injection Hz as ->. cbn in Hv.
        assert (1 ≤ n `div` 10) by (apply Z.div_le_lower_bound; lia). lia.
Qed.

(** [show] is decimal, for machine words. *)
Lemma show_decimal n : 0 ≤ n < 2 ^ 64 → decimal n (show n).
Proof. intros Hn. apply digits_decimal. change (10 ^ Z.of_nat 20) with (10 ^ 20). lia. Qed.
