(* ===== verification/Ports.v ===== *)
(** * Port I/O

    [Port::read] and [Port::write] of the x86_64 crate execute [in] and [out];
    what the devices answer is not in the source.  [PortIo] is that interface: a
    state of the outside world, and what a byte read or write does to it. *)

From S2P Require Import Prelude.

Class PortIo (W : Type) := {
  inb : Z → W → Z * W;
  outb : Z → Z → W → W }.

(** A byte read is a byte. *)
Class PortIoLaws (W : Type) `{PortIo W} : Prop :=
  inb_byte p w : 0 ≤ fst (inb p w) < 256.

Section Ports.
Context {W : Type} `{PortIo W}.

Definition port_read (p : Z) : M W Z := λ w, Val (inb p w).
Definition port_write (p v : Z) : M W () := λ w, Val ((), outb p v w).

Lemma port_read_run p w : port_read p w = Val (fst (inb p w), snd (inb p w)).
Proof. unfold port_read. by destruct (inb p w). Qed.
End Ports.

(** Testing one bit of a register, as the sources do with a mask. *)
Lemma land_bit_eqb x k : 0 ≤ k → negb (Z.land x (Z.shiftl 1 k) =? 0) = Z.testbit x k.
Proof.
  intros Hk. destruct (Z.testbit x k) eqn:E.
  - apply negb_true_iff, Z.eqb_neq. intros H0.
    assert (Z.testbit (Z.land x (Z.shiftl 1 k)) k = true) as Hb.
    { rewrite Z.land_spec, E, Z.shiftl_spec, Z.sub_diag by lia. done. }
    rewrite H0, Z.bits_0 in Hb. done.
  - apply negb_false_iff, Z.eqb_eq. apply Z.bits_inj'. intros n Hn.
    rewrite Z.land_spec, Z.bits_0. destruct (decide (n = k)) as [->|Hne].
    + by rewrite E.
    + rewrite Z.shiftl_spec by lia. destruct (Z.ltb_spec n k).
      * rewrite (Z.testbit_neg_r 1) by lia. apply andb_false_r.
      * rewrite (Z.bits_above_log2 1) by (cbn; lia). apply andb_false_r.
Qed.
