(* ===== verification/Constants.v ===== *)
(** * Address-space layout (src/kernel/src/constants.rs)

    [build_addr] and [print_addr] convert between a virtual address and its
    four page-table indices and page offset; the constants of [mod v] fix the
    kernel and user regions.  The theorems: the two conversions are inverse,
    [build_addr] panics exactly on an index out of range, and the regions are
    page aligned, disjoint and match the level-4 slots shared by every page
    table. *)

From S2P Require Import Prelude.

Definition KERNEL_STACK_SIZE : Z := 4096 * 1024.
Definition MAX_CORES : Z := 256.
Definition USER_STACK_SIZE : Z := 4096 * 4096.

(** The range [100..116], as its bounds. *)
Definition KERNEL_L4_PAGE_TABLE_RANGE : Z * Z := (100, 116).

Definition build_addr (l4 l3 l2 l1 offset : Z) : res Z :=
  ass (l4 <? 512) ≫= λ _,
  ass (l3 <? 512) ≫= λ _,
  ass (l2 <? 512) ≫= λ _,
  ass (l1 <? 512) ≫= λ _,
  ass (offset <? 4096) ≫= λ _,
  Val (Z.lor (Z.lor (Z.lor (Z.lor (Z.shiftl l4 39) (Z.shiftl l3 30))
                           (Z.shiftl l2 21)) (Z.shiftl l1 12)) offset).

Module v.
Definition KERNEL_START : Z := const_eval (build_addr 100 0 0 0 0).
Definition KERNEL_DYNAMIC_START : Z := const_eval (build_addr 100 0 0 1 0).
Definition KERNEL_DYNAMIC_END : Z := const_eval (build_addr 108 0 0 0 0).
Definition KERNEL_HEAP_START : Z := const_eval (build_addr 108 0 0 0 0).
Definition KERNEL_AP_STACKS : Z := const_eval (build_addr 109 0 0 0 0).
Definition KERNEL_END : Z := const_eval (build_addr 116 0 0 0 0).
Definition USER_START : Z := const_eval (build_addr 0 0 0 0 0).
Definition USER_STACK_START : Z := const_eval (build_addr 0 4 0 0 0).
Definition USER_HEAP_START : Z := const_eval (build_addr 0 8 0 0 0).
Definition USER_END : Z := const_eval (build_addr 1 0 0 0 0).
End v.

(** The numbers [print_addr] prints after the label: the address, the four
    table indices and the page offset. *)
Definition print_addr (addr : Z) : list Z :=
  let l1 := Z.shiftr addr 12 in
  let l2 := Z.shiftr l1 9 in
  let l3 := Z.shiftr l2 9 in
  let l4 := Z.shiftr l3 9 in
  [addr; Z.land l4 (512 - 1); Z.land l3 (512 - 1); Z.land l2 (512 - 1);
   Z.land l1 (512 - 1); Z.land addr (4096 - 1)].

(** The level-4 table index of an address, as the hardware walk takes it. *)
Definition l4_index (addr : Z) : Z := Z.land (Z.shiftr addr 39) 511.

(** ** Lemmas *)

Lemma l4_index_div addr : l4_index addr = (addr `div` 2 ^ 39) `mod` 512.
Proof.
  unfold l4_index. rewrite Z.shiftr_div_pow2 by lia.
  change 511 with (Z.ones 9). by rewrite Z.land_ones by lia.
Qed.

Lemma l4_index_bound addr : 0 ≤ l4_index addr < 512.
Proof. rewrite l4_index_div. apply Z.mod_pos_bound. lia. Qed.

Lemma l4_index_between i j addr :
  0 ≤ i → j ≤ 512 → i * 2 ^ 39 ≤ addr < j * 2 ^ 39 → i ≤ l4_index addr < j.
Proof.
  intros Hi Hj Ha. rewrite l4_index_div.
  assert (i ≤ addr `div` 2 ^ 39) by (apply Z.div_le_lower_bound; lia).
  assert (addr `div` 2 ^ 39 < j) by (apply Z.div_lt_upper_bound; lia).
  rewrite Z.mod_small; lia.
Qed.

Lemma build_addr_val l4 l3 l2 l1 offset :
  0 ≤ l4 < 512 → 0 ≤ l3 < 512 → 0 ≤ l2 < 512 → 0 ≤ l1 < 512 → 0 ≤ offset < 4096 →
  build_addr l4 l3 l2 l1 offset =
  Val (l4 * 2 ^ 39 + l3 * 2 ^ 30 + l2 * 2 ^ 21 + l1 * 2 ^ 12 + offset).
Proof.
  intros H4 H3 H2 H1 H0. unfold build_addr, ass.
  rewrite !(proj2 (Z.ltb_lt _ _)) by lia. cbn [mbind res_bind]. f_equal.
  rewrite <-!Z.lor_assoc.
  rewrite (lor_shiftl_add l1 offset) by lia.
  rewrite (lor_shiftl_add l2) by lia.
  rewrite (lor_shiftl_add l3) by lia.
  rewrite (lor_shiftl_add l4) by lia. lia.
Qed.

Lemma print_addr_div addr :
  print_addr addr =
  [addr; (addr `div` 2 ^ 39) `mod` 512; (addr `div` 2 ^ 30) `mod` 512;
   (addr `div` 2 ^ 21) `mod` 512; (addr `div` 2 ^ 12) `mod` 512; addr `mod` 4096].
Proof.
  unfold print_addr. rewrite !Z.shiftr_shiftr by lia.
  change (512 - 1) with (Z.ones 9). change (4096 - 1) with (Z.ones 12).
  rewrite !Z.land_ones, !Z.shiftr_div_pow2 by lia. done.
Qed.

(** ** Properties *)

(** C21 (round trip).  For every address below 2^48, rebuilding it from the
    fields [print_addr] shows gives the address back, and every tuple of
    indices in range is shown back unchanged by [print_addr]. *)
Theorem build_print_roundtrip :
  (∀ addr, 0 ≤ addr < 2 ^ 48 →
     match print_addr addr with
     | [a; l4; l3; l2; l1; off] => a = addr ∧ build_addr l4 l3 l2 l1 off = Val addr
     | _ => False
     end) ∧
  (∀ l4 l3 l2 l1 off,
     0 ≤ l4 < 512 → 0 ≤ l3 < 512 → 0 ≤ l2 < 512 → 0 ≤ l1 < 512 → 0 ≤ off < 4096 →
     ∃ addr, build_addr l4 l3 l2 l1 off = Val addr ∧ 0 ≤ addr < 2 ^ 48 ∧
             print_addr addr = [addr; l4; l3; l2; l1; off]).
Proof.
  split.
  - intros addr Ha. rewrite print_addr_div. split; [done|].
    rewrite build_addr_val by (apply Z.mod_pos_bound; lia).
    f_equal. Z.div_mod_to_equations. lia.
  - intros l4 l3 l2 l1 off H4 H3 H2 H1 H0. eexists. split_and!.
    + by apply build_addr_val.
    + lia.
    + lia.
    + rewrite print_addr_div. repeat f_equal; Z.div_mod_to_equations; lia.
Qed.

(**  On unsigned arguments [build_addr] panics exactly when one of
    the table indices is 512 or more, or the offset is 4096 or more. *)
Theorem build_addr_panics l4 l3 l2 l1 off :
  build_addr l4 l3 l2 l1 off = Fault Assertion ↔
  512 ≤ l4 ∨ 512 ≤ l3 ∨ 512 ≤ l2 ∨ 512 ≤ l1 ∨ 4096 ≤ off.
Proof.
  unfold build_addr, ass.
  destruct (Z.ltb_spec l4 512), (Z.ltb_spec l3 512), (Z.ltb_spec l2 512),
    (Z.ltb_spec l1 512), (Z.ltb_spec off 4096); cbn; split;
    try done; lia.
Qed.

(**  The regions of [mod v]: an address below 2^48 lies in the
    kernel region exactly when its level-4 slot is one of the slots
    [create_new_l4_page_table] shares, and in the user region exactly when its
    slot is 0; the user stack ends before the user heap starts, and the kernel's
    dynamic region, heap and AP stacks follow each other without overlap. *)
Theorem layout_regions :
  (∀ a, 0 ≤ a < 2 ^ 48 →
     (v.KERNEL_START ≤ a < v.KERNEL_END ↔
      fst KERNEL_L4_PAGE_TABLE_RANGE ≤ l4_index a < snd KERNEL_L4_PAGE_TABLE_RANGE) ∧
     (v.USER_START ≤ a < v.USER_END ↔ l4_index a = 0)) ∧
  v.USER_START < v.USER_STACK_START ∧
  v.USER_STACK_START + USER_STACK_SIZE ≤ v.USER_HEAP_START < v.USER_END ∧
  v.USER_END < v.KERNEL_START < v.KERNEL_DYNAMIC_START ∧
  v.KERNEL_DYNAMIC_START < v.KERNEL_DYNAMIC_END ≤ v.KERNEL_HEAP_START ∧
  v.KERNEL_HEAP_START < v.KERNEL_AP_STACKS < v.KERNEL_END ∧
  v.KERNEL_AP_STACKS + MAX_CORES * (KERNEL_STACK_SIZE + 4096) ≤ v.KERNEL_END.
Proof.
  split_and!; [|by vm_compute..].
  intros a Ha. rewrite l4_index_div.
  assert (0 ≤ a `div` 2 ^ 39 < 512).
  { split; [apply Z.div_pos; lia|apply Z.div_lt_upper_bound; lia]. }
  rewrite Z.mod_small by lia.
  change v.KERNEL_START with (100 * 2 ^ 39). change v.KERNEL_END with (116 * 2 ^ 39).
  change v.USER_START with 0. change v.USER_END with (2 ^ 39).
  cbn [fst snd KERNEL_L4_PAGE_TABLE_RANGE].
  pose proof (Z.mul_div_le a (2 ^ 39)). pose proof (Z.mul_succ_div_gt a (2 ^ 39)).
  split; lia.
Qed.
