(* ===== verification/Platform.v ===== *)
(** * The platform interface

    What the kernel takes from outside src/: the address arithmetic of the
    x86_64 crate ([VirtAddr], [PhysAddr], [Page], [PhysFrame], [align_up],
    [align_down]) as a class of operations [X86Addr] with their documented
    behaviour in [X86AddrLaws], the architecture's page-table flags and entry,
    and the boot information the bootloader passes.  [ref_x86] is a concrete
    instance; only witnesses and examples use it. *)

From S2P Require Import Prelude Constants.

(** Addresses, pages and frames are [Z]; a page or frame is its start address. *)
Class X86Addr := {
  align_up : Z → Z → res Z;
  align_down : Z → Z → res Z;
  VirtAddr_new : Z → res Z;
  PhysAddr_new : Z → res Z;
  VirtAddr_add : Z → Z → res Z;                 (** [VirtAddr + u64] *)
  VirtAddr_sub : Z → Z → res Z;                 (** [VirtAddr - u64] *)
  Page_containing_address : Z → Z;
  Page_from_start_address : Z → option Z;
  Page_range_inclusive : Z → Z → list Z;        (** its iteration *)
  PhysFrame_from_start_address : Z → option Z }.

(** The documented behaviour, on the addresses the kernel uses: virtual
    addresses of the lower canonical half, physical addresses below 2^52. *)
Class X86AddrLaws `{X86Addr} : Prop := {
  align_up_law a al : is_pow2 al → 0 ≤ a → al * ((a + al - 1) `div` al) < 2 ^ 64 →
    align_up a al = Val (al * ((a + al - 1) `div` al));
  align_down_law a al : is_pow2 al → 0 ≤ a < 2 ^ 64 →
    align_down a al = Val (al * (a `div` al));
  VirtAddr_new_law a : 0 ≤ a < 2 ^ 47 → VirtAddr_new a = Val a;
  VirtAddr_new_noncanonical a : 2 ^ 47 ≤ a < 2 ^ 64 - 2 ^ 47 → VirtAddr_new a = Fault Extern;
  PhysAddr_new_law a : 0 ≤ a < 2 ^ 52 → PhysAddr_new a = Val a;
  PhysAddr_new_wide a : 2 ^ 52 ≤ a < 2 ^ 64 → PhysAddr_new a = Fault Extern;
  VirtAddr_add_law a b : 0 ≤ a → 0 ≤ b → a + b < 2 ^ 47 → VirtAddr_add a b = Val (a + b);
  VirtAddr_sub_law a b : a < 2 ^ 47 → 0 ≤ b ≤ a → VirtAddr_sub a b = Val (a - b);
  VirtAddr_sub_underflow a b : 0 ≤ a < b → b < 2 ^ 47 → VirtAddr_sub a b = Fault Extern;
  Page_containing_law a : 0 ≤ a → Page_containing_address a = 4096 * (a `div` 4096);
  Page_from_start_law a : 0 ≤ a →
    Page_from_start_address a = if a `mod` 4096 =? 0 then Some a else None;
  Page_range_inclusive_law a b : 0 ≤ a → (4096 | a) → (4096 | b) →
    Page_range_inclusive a b = range_step a (b + 1) 4096;
  PhysFrame_from_start_law a : 0 ≤ a →
    PhysFrame_from_start_address a = if a `mod` 4096 =? 0 then Some a else None }.

(** [PageTableFlags] of the x86-64 architecture. *)
Module PageTableFlags.
Definition PRESENT : Z := 1.
Definition WRITABLE : Z := 2.
Definition USER_ACCESSIBLE : Z := 4.
Definition WRITE_THROUGH : Z := 8.
Definition NO_CACHE : Z := 16.
Definition HUGE_PAGE : Z := 128.
Definition NO_EXECUTE : Z := 2 ^ 63.
End PageTableFlags.

(** A page-table entry: the frame it points at and its flags. *)
Record PageTableEntry := mkPTE { pte_addr : Z; pte_flags : Z }.

#[export] Instance PageTableEntry_eq_dec : EqDecision PageTableEntry.
Proof. solve_decision. Defined.

(** [PageTableEntry::is_unused]: "returns whether this entry is zero". *)
Definition pte_zero : PageTableEntry := mkPTE 0 0.
Definition is_unused (e : PageTableEntry) : bool := (pte_addr e =? 0) && (pte_flags e =? 0).

(** [PageTableEntry::frame]: the table an entry points at, if it does. *)
Inductive FrameError := FrameNotPresent | HugeFrame.

Definition pte_frame (e : PageTableEntry) : result Z FrameError :=
  if Z.land (pte_flags e) PageTableFlags.PRESENT =? 0 then Err FrameNotPresent
  else if Z.land (pte_flags e) PageTableFlags.HUGE_PAGE =? 0 then Ok (pte_addr e) else Err HugeFrame.

(** ** Boot information (bootloader_api::BootInfo), the fields the kernel reads *)

Record MemoryRegion := mkRegion {
  region_start : Z;
  region_end : Z;
  region_usable : bool   (** [kind == MemoryRegionKind::Usable] *) }.

Record BootInfo := mkBootInfo {
  bi_physical_memory_offset : option Z;
  bi_memory_regions : list MemoryRegion;
  bi_ramdisk_addr : option Z;
  bi_ramdisk_len : Z }.

Class Boot := boot_info : BootInfo.

(** ** A concrete instance *)

Module RefX86.
Definition is_pow2b (n : Z) : bool := (0 <? n) && (2 ^ Z.log2 n =? n).

Definition canon (a : Z) : res Z :=
  if (0 <=? a) && ((a <? 2 ^ 47) || ((2 ^ 64 - 2 ^ 47 <=? a) && (a <? 2 ^ 64)))
  then Val a else Fault Extern.

#[export] Instance ref_x86 : X86Addr := {
  align_up a al := if is_pow2b al then
      let r := al * ((a + al - 1) `div` al) in
      if r <? 2 ^ 64 then Val r else Fault Extern else Fault Extern;
  align_down a al := if is_pow2b al then Val (al * (a `div` al)) else Fault Extern;
  VirtAddr_new a := canon a;
  PhysAddr_new a := if (0 <=? a) && (a <? 2 ^ 52) then Val a else Fault Extern;
  VirtAddr_add a b := canon (a + b);
  VirtAddr_sub a b := canon (a - b);
  Page_containing_address a := 4096 * (a `div` 4096);
  Page_from_start_address a := if a `mod` 4096 =? 0 then Some a else None;
  Page_range_inclusive a b := range_step a (b + 1) 4096;
  PhysFrame_from_start_address a := if a `mod` 4096 =? 0 then Some a else None }.

Lemma is_pow2b_true n : is_pow2 n → is_pow2b n = true.
Proof.
  intros (k & Hk & ->). unfold is_pow2b. rewrite Z.log2_pow2 by lia.
  rewrite Z.eqb_refl, andb_true_r. apply Z.ltb_lt. apply Z.pow_pos_nonneg; lia.
Qed.

#[export] Instance ref_x86_laws : X86AddrLaws.
Proof.
  split; intros; cbn [align_up align_down VirtAddr_new PhysAddr_new VirtAddr_add
    VirtAddr_sub Page_containing_address Page_from_start_address
    Page_range_inclusive PhysFrame_from_start_address ref_x86]; try done;
    rewrite ?is_pow2b_true by done; try done; unfold canon;
    repeat match goal with
    | |- context [?a <? ?b] => destruct (Z.ltb_spec a b)
    | |- context [?a <=? ?b] => destruct (Z.leb_spec a b)
    end; cbn; try done; lia.
Qed.
End RefX86.

(** ** Physical memory seen through the offset mapping (memory.rs) *)

Section PhysToVirt.
Context `{X86Addr} `{Boot}.

(** src/kernel/src/memory.rs, [physical_memory_offset]: [unwrap_unchecked] on
    a missing offset is undefined behaviour. *)
Definition physical_memory_offset : res Z :=
  match bi_physical_memory_offset boot_info with
  | Some a => VirtAddr_new a
  | None => Fault Undefined
  end.

Definition phys_to_virt (phys : Z) : res Z :=
  physical_memory_offset ≫= λ off, VirtAddr_add off phys.
End PhysToVirt.

(** The boot information is usable: [pmo] is the offset of the physical-memory
    mapping, and it keeps every physical address below [2 ^ 46] in the lower half. *)
Class BootOk `{Boot} (pmo : Z) : Prop := {
  boot_pmo : bi_physical_memory_offset boot_info = Some pmo;
  boot_pmo_range : 0 ≤ pmo < 2 ^ 46 }.

Section PhysToVirtLemmas.
Context `{X86AddrLaws} `{BootOk pmo}.

Lemma physical_memory_offset_val : physical_memory_offset = Val pmo.
Proof.
  unfold physical_memory_offset. rewrite boot_pmo.
  pose proof boot_pmo_range. apply VirtAddr_new_law. lia.
Qed.

Lemma phys_to_virt_val phys : 0 ≤ phys < 2 ^ 46 → phys_to_virt phys = Val (pmo + phys).
Proof.
  intros Hp. unfold phys_to_virt. rewrite physical_memory_offset_val. cbn.
  pose proof boot_pmo_range. apply VirtAddr_add_law; lia.
Qed.
End PhysToVirtLemmas.

(** A concrete machine: physical memory mapped at level-4 slot 101, a usable
    region at address 0, one of five pages at 0x1800, a reserved one, and a
    ram disk of two pages. *)
Module RefBoot.
Definition pmo : Z := 101 * 2 ^ 39.
#[export] Instance ref_boot : Boot := {|
  bi_physical_memory_offset := Some pmo;
  bi_memory_regions := [mkRegion 0 0x1000 true; mkRegion 0x1800 0x7000 true;
                        mkRegion 0x8000 0x9000 false];
  bi_ramdisk_addr := Some (102 * 2 ^ 39 + 8);
  bi_ramdisk_len := 5000 |}.
#[export] Instance ref_boot_ok : BootOk pmo.
Proof. split; [done|vm_compute; done]. Qed.
End RefBoot.
