(* ===== verification/FrameAlloc.v ===== *)
(** * The physical frame allocator (src/kernel/src/memory.rs, lines 97-265)

    [BootInfoFrameAllocator] keeps the free frames in a singly linked list whose
    nodes live in the free frames themselves, reached through the mapping of
    physical memory.  The direct-mapped memory is a finite map from node
    pointers to the typed object last written there; writing an object of
    another kind over a node destroys it, which is how the model sees the
    owner of an allocated frame use it. *)

From S2P Require Import Prelude Constants Platform.

(** ** Data *)

Record FreeNode := mkNode { next : option Z; frame : Z }.

#[export] Instance FreeNode_eq_dec : EqDecision FreeNode.
Proof. solve_decision. Defined.

(** What a direct-mapped frame holds: a free-list node, a level-4 page table,
    the lower page tables of one level-4 slot (page start to leaf entry), or the
    bytes of a user frame. *)
Inductive cell :=
  | CNode (n : FreeNode)
  | CTable (entries : list PageTableEntry)
  | CSub (leaves : gmap Z (Z * Z))
  | CBytes (bytes : gmap Z Z).

Abbreviation DM := (gmap Z cell).

Record BootInfoFrameAllocator := mkAlloc {
  free_memory_head : option Z;
  total_frames : Z;
  free_frames : Z }.

(** The allocator together with the memory its list lives in. *)
Record Phys := mkPhys { alloc : BootInfoFrameAllocator; dm : DM }.

Definition with_dm (g : DM → DM) (ph : Phys) : Phys := mkPhys (alloc ph) (g (dm ph)).
Definition put_dm (d : DM) (ph : Phys) : Phys := mkPhys (alloc ph) d.
Definition put_alloc (a : BootInfoFrameAllocator) (ph : Phys) : Phys := mkPhys a (dm ph).

Section FrameAlloc.
Context `{Profile} `{X86Addr} `{Boot}.

Definition phys_addr_to_node_ref (addr : Z) : res Z :=
  PhysAddr_new addr ≫= λ phys_addr, phys_to_virt phys_addr.

(** *** [initialize_free_memory] *)

(** One iteration of the loop over the ram disk's pages; the accumulator is
    [(first_phys_addr, last_phys_addr)]. *)
Definition ramdisk_page (translate_page : Z → option Z) (base_addr : Z)
    (acc : option Z * option Z) (i : Z) : res (option Z * option Z) :=
  mul64 i 4096 ≫= λ off,
  add64 base_addr off ≫= λ a,
  VirtAddr_new a ≫= λ va,
  unwrap (Page_from_start_address va) ≫= λ page,
  unwrap (translate_page page) ≫= λ phys_addr,
  match acc with
  | (first_phys_addr, Some last_phys_addr) =>
      add64 last_phys_addr 4096 ≫= λ expected,
      ass (phys_addr =? expected) ≫= λ _,
      Val (first_phys_addr, Some phys_addr)
  | (_, None) => Val (Some phys_addr, Some phys_addr)
  end.

(** The physical range [first..=last] of the ram disk. *)
Definition already_mapped_range (translate_page : Z → option Z) : res (Z * Z) :=
  unwrap (bi_ramdisk_addr boot_info) ≫= λ ramdisk_addr,
  align_down ramdisk_addr 4096 ≫= λ base_addr,
  align_up (bi_ramdisk_len boot_info) 4096 ≫= λ len,
  fold_res (ramdisk_page translate_page base_addr) (range 0 (len `div` 4096)) (None, None)
    ≫= λ fl,
  unwrap (fst fl) ≫= λ first_phys_addr,
  unwrap (snd fl) ≫= λ last_phys_addr,
  Val (first_phys_addr, last_phys_addr).

Definition region_frames (r : MemoryRegion) : res (list Z) :=
  align_up (region_start r) 4096 ≫= λ s,
  align_down (region_end r) 4096 ≫= λ e,
  Val (range_step s e 4096).

Definition in_mapped_range (rng : Z * Z) (a : Z) : bool :=
  (fst rng <=? a) && (a <=? snd rng).

(** The iterator [raw_usable_frame_addresses]; its [removed_page_count] is an
    [i32] incremented once for each removed frame. *)
Definition raw_usable_frame_addresses (rng : Z * Z) : res (list Z) :=
  mapM region_frames
    (filter (λ r, region_usable r && (region_start r >? 0) = true)
            (bi_memory_regions boot_info)) ≫= λ fss,
  arith_i32 (Z.of_nat (length (filter (λ a, in_mapped_range rng a = true) (concat fss))))
    ≫= λ _,
  Val (filter (λ a, in_mapped_range rng a = false) (concat fss)).

(** The [while let] loop that writes one node into each usable frame, linked
    to the node of the next one ([peek]). *)
Fixpoint write_nodes (addrs : list Z) (frame_count : Z) : M DM Z :=
  match addrs with
  | [] => mret frame_count
  | phys_addr :: rest =>
      liftr (phys_addr_to_node_ref phys_addr) ≫= λ node_ref,
      liftr (match rest with
             | [] => Val None
             | p :: _ => Some <$> phys_addr_to_node_ref p
             end) ≫= λ node_next_ref,
      liftr (PhysAddr_new phys_addr) ≫= λ pa,
      liftr (unwrap (PhysFrame_from_start_address pa)) ≫= λ fr,
      modify (<[node_ref := CNode (mkNode node_next_ref fr)]>) ≫= λ _,
      liftr (add64 frame_count 1) ≫= λ c,
      write_nodes rest c
  end.

Definition initialize_free_memory (translate_page : Z → option Z) : M DM (option Z * Z) :=
  liftr (already_mapped_range translate_page) ≫= λ rng,
  liftr (raw_usable_frame_addresses rng) ≫= λ addrs,
  liftr (match addrs with
         | [] => Val None
         | p :: _ => Some <$> phys_addr_to_node_ref p
         end) ≫= λ free_memory_head,
  write_nodes addrs 0 ≫= λ frame_count,
  mret (free_memory_head, frame_count).

(** [BootInfoFrameAllocator::new]; the multiplication is in its [println!]. *)
Definition BootInfoFrameAllocator_new (translate_page : Z → option Z)
    : M DM BootInfoFrameAllocator :=
  initialize_free_memory translate_page ≫= λ '(free_memory_head, frame_count),
  liftr (mul64 frame_count 4096) ≫= λ _,
  mret (mkAlloc free_memory_head frame_count frame_count).

(** *** Operations *)

(** Reading [*node]: undefined unless a node was written there last. *)
Definition read_node (p : Z) : M Phys FreeNode := λ ph,
  match dm ph !! p with
  | Some (CNode n) => Val (n, ph)
  | _ => Fault Undefined
  end.

Definition allocate_frame : M Phys (option Z) :=
  gets (λ ph, free_memory_head (alloc ph)) ≫= λ head,
  match head with
  | None => mret None
  | Some node =>
      gets (λ ph, free_frames (alloc ph)) ≫= λ ff,
      liftr (sub64 ff 1) ≫= λ ff',
      read_node node ≫= λ n,
      modify (λ ph, put_alloc
        (mkAlloc (next n) (total_frames (alloc ph)) ff') ph) ≫= λ _,
      read_node node ≫= λ n',
      mret (Some (frame n'))
  end.

Definition deallocate_frame (fr : Z) : M Phys () :=
  liftr (phys_addr_to_node_ref fr) ≫= λ node,
  gets (λ ph, free_memory_head (alloc ph)) ≫= λ head,
  modify (with_dm (<[node := CNode (mkNode head fr)]>)) ≫= λ _,
  gets (λ ph, free_frames (alloc ph)) ≫= λ ff,
  liftr (add64 ff 1) ≫= λ ff',
  modify (λ ph, put_alloc (mkAlloc (Some node) (total_frames (alloc ph)) ff') ph).

(** [Memory::get_memory_utilization] *)
Definition get_memory_utilization (a : BootInfoFrameAllocator) : res (Z * Z) :=
  sub64 (total_frames a) (free_frames a) ≫= λ used,
  Val (used, total_frames a).

(** The numbers [Memory::log_memory_utilization] prints. *)
Definition log_memory_utilization (a : BootInfoFrameAllocator) : res (list Z) :=
  get_memory_utilization a ≫= λ '(used, total),
  sub64 total used ≫= λ d,
  mul64 d 4096 ≫= λ free_bytes,
  mul64 total 4096 ≫= λ total_bytes,
  Val [used; total; free_bytes `div` 1024 `div` 1024;
       total_bytes `div` 1024 `div` 1024].
End FrameAlloc.

(** ** The free list as a list of frames *)

(** A frame the kernel can address: page aligned, within the physical range of
    [BootOk]. *)
Definition frame_ok (f : Z) : Prop := 0 ≤ f < 2 ^ 46 ∧ f `mod` 4096 = 0.

Fixpoint node_list (pmo : Z) (d : DM) (head : option Z) (l : list Z) : Prop :=
  match l with
  | [] => head = None
  | f :: l' => head = Some (pmo + f) ∧
      ∃ nx, d !! (pmo + f) = Some (CNode (mkNode nx f)) ∧ node_list pmo d nx l'
  end.

(** The allocator's invariant: [l] is the list of free frames. *)
Record fa_inv (pmo : Z) (ph : Phys) (l : list Z) : Prop := {
  fa_list : node_list pmo (dm ph) (free_memory_head (alloc ph)) l;
  fa_nodup : NoDup l;
  fa_frames : Forall frame_ok l;
  fa_free : free_frames (alloc ph) = Z.of_nat (length l);
  fa_total : Z.of_nat (length l) ≤ total_frames (alloc ph) ≤ 2 ^ 34 }.

Definition head_ptr (pmo : Z) (l : list Z) : option Z := (λ f, pmo + f) <$> head l.

Lemma node_list_ext pmo d d' hd l :
  (∀ f, f ∈ l → d' !! (pmo + f) = d !! (pmo + f)) →
  node_list pmo d hd l → node_list pmo d' hd l.
Proof.
  revert hd. induction l as [|f l IH]; intros hd Hd; [done|].
  intros [-> (nx & Hn & Hl)]. split; [done|]. exists nx. split.
  - rewrite Hd; [done|left].
  - apply IH; [|done]. intros g Hg. apply Hd. by right.
Qed.

(** The list is determined by the memory. *)
Lemma node_list_unique pmo d hd l1 l2 : node_list pmo d hd l1 → node_list pmo d hd l2 → l1 = l2.
Proof.
  revert hd l2. induction l1 as [|f l1 IH]; intros hd [|g l2]; cbn.
  - done.
  - by intros -> [? _].
  - by intros [-> _] ?.
  - intros [-> (n1 & H1 & Hl1)] [Hg (n2 & H2 & Hl2)]. assert (g = f) as -> by (injection Hg; lia).
    f_equal. rewrite H1 in H2. injection H2 as <-. by apply (IH n1).
Qed.

Lemma fa_inv_ext pmo ph d' l :
  (∀ f, f ∈ l → d' !! (pmo + f) = dm ph !! (pmo + f)) →
  fa_inv pmo ph l → fa_inv pmo (put_dm d' ph) l.
Proof.
  intros Hd []. split; try done. by eapply node_list_ext.
Qed.

Section FrameAllocLemmas.
Context `{Profile} `{X86AddrLaws} `{BootOk pmo}.

Lemma node_ref_val f : 0 ≤ f < 2 ^ 46 → phys_addr_to_node_ref f = Val (pmo + f).
Proof.
  intros Hf. unfold phys_addr_to_node_ref.
  rewrite PhysAddr_new_law by lia. cbn. by apply phys_to_virt_val.
Qed.

Lemma frame_start_val f : frame_ok f → PhysFrame_from_start_address f = Some f.
Proof.
  intros [? Hf]. rewrite PhysFrame_from_start_law by lia. by rewrite Hf.
Qed.

Lemma write_nodes_spec l c d :
  NoDup l → Forall frame_ok l → 0 ≤ c → c + Z.of_nat (length l) < 2 ^ 64 →
  ∃ d', write_nodes l c d = Val (c + Z.of_nat (length l), d') ∧
    node_list pmo d' (head_ptr pmo l) l ∧
    (∀ q, (∀ f, f ∈ l → q ≠ pmo + f) → d' !! q = d !! q).
Proof.
  revert c d. induction l as [|f l IH]; intros c d Hnd Hok Hc0 Hc.
  - exists d. cbn. by rewrite Z.add_0_r.
  - apply NoDup_cons in Hnd as [Hfl Hnd]. apply Forall_cons in Hok as [Hf Hok].
    set (nx := head_ptr pmo l).
    destruct (IH (c + 1) (<[pmo + f := CNode (mkNode nx f)]> d))
      as (d' & Hrun & Hlist & Hext); [done..|lia|cbn in Hc; lia|].
    exists d'. split_and!.
    + cbn [write_nodes]. rewrite (M_bind_run _ _ _ (pmo + f) d)
        by (apply liftr_run, node_ref_val; apply Hf).
      rewrite (M_bind_run _ _ _ nx d); cycle 1.
      { apply liftr_run. subst nx. destruct l as [|g l]; [done|].
        apply Forall_cons in Hok as [[Hg _] _]. rewrite node_ref_val by done. done. }
      rewrite (M_bind_run _ _ _ f d)
        by (apply liftr_run, PhysAddr_new_law; destruct Hf; lia).
      rewrite (M_bind_run _ _ _ f d)
        by (apply liftr_run; by rewrite frame_start_val).
      erewrite (M_bind_run (modify _)) by reflexivity.
      rewrite (M_bind_run _ _ _ (c + 1) _)
        by (apply liftr_run, add64_in; cbn in Hc; lia).
      rewrite Hrun. cbn [length]. by rewrite Nat2Z.inj_succ, <-Z.add_assoc, Z.add_1_l.
    + cbn. split; [done|]. exists nx. split; [|done].
      rewrite Hext; [apply lookup_insert_eq|].
      intros g Hg Heq. assert (g = f) as -> by lia. done.
    + intros q Hq. rewrite Hext; [|set_solver].
      apply lookup_insert_ne. intros <-. by apply (Hq f); [left|].
Qed.

Lemma allocate_frame_cons ph f l :
  fa_inv pmo ph (f :: l) →
  ∃ ph', allocate_frame ph = Val (Some f, ph') ∧ fa_inv pmo ph' l ∧ dm ph' = dm ph ∧
    total_frames (alloc ph') = total_frames (alloc ph).
Proof.
  intros [[Hhead (nx & Hn & Hl)] Hnd Hok Hfree Htot]. cbn [length] in *.
  apply NoDup_cons in Hnd as [Hfl Hnd]. apply Forall_cons in Hok as [Hf Hok].
  eexists. split_and!.
  - unfold allocate_frame, gets, modify, read_node, liftr, mbind, M_bind. rewrite Hhead.
    cbn. rewrite sub64_in by lia. rewrite Hn. cbn. rewrite Hn. done.
  - split; try done; cbn; lia.
  - done.
  - done.
Qed.

Lemma allocate_frame_nil ph : fa_inv pmo ph [] → allocate_frame ph = Val (None, ph).
Proof.
  intros [Hhead _ _ _ _]. unfold allocate_frame, gets, mbind, M_bind. cbn in Hhead.
  by rewrite Hhead.
Qed.

(** Every outcome of [allocate_frame] under the invariant. *)
Lemma allocate_frame_inv ph l o ph' :
  fa_inv pmo ph l → allocate_frame ph = Val (o, ph') →
  o = head l ∧ fa_inv pmo ph' (tail l) ∧ dm ph' = dm ph ∧
  total_frames (alloc ph') = total_frames (alloc ph).
Proof.
  intros Hinv Hrun. destruct l as [|f l].
  - rewrite allocate_frame_nil in Hrun by done. by injection Hrun as <- <-.
  - destruct (allocate_frame_cons _ _ _ Hinv) as (ph1 & Hrun1 & ? & ? & ?).
    rewrite Hrun1 in Hrun. by injection Hrun as <- <-.
Qed.

Lemma deallocate_frame_spec ph l f :
  fa_inv pmo ph l → frame_ok f → f ∉ l →
  Z.of_nat (length l) < total_frames (alloc ph) →
  ∃ ph', deallocate_frame f ph = Val ((), ph') ∧ fa_inv pmo ph' (f :: l) ∧
    total_frames (alloc ph') = total_frames (alloc ph) ∧
    (∀ q, q ≠ pmo + f → dm ph' !! q = dm ph !! q).
Proof.
  intros [Hlist Hnd Hok Hfree Htot] Hf Hfl Hlt. eexists. split_and!.
  - unfold deallocate_frame.
    rewrite (M_bind_run _ _ _ (pmo + f) ph)
      by (apply liftr_run, node_ref_val; apply Hf).
    unfold gets, modify, liftr, mbind, M_bind. cbn.
    rewrite add64_in by lia. done.
  - split; cbn.
    + split; [done|]. eexists. split; [apply lookup_insert_eq|].
      eapply node_list_ext; [|done]. intros g Hg. apply lookup_insert_ne.
      intros Heq. assert (f = g) as -> by lia. done.
    + by apply NoDup_cons.
    + by constructor.
    + lia.
    + lia.
  - done.
  - intros q Hq. cbn. by apply lookup_insert_ne.
Qed.
End FrameAllocLemmas.

(** ** Which frames become free at boot *)

(** A frame that lies entirely in a usable region; the source skips the region
    that starts at physical address 0. *)
Definition usable_frame (regions : list MemoryRegion) (f : Z) : Prop :=
  (4096 | f) ∧ ∃ r, r ∈ regions ∧ region_usable r = true ∧ 0 < region_start r ∧
    region_start r ≤ f ∧ f + 4096 ≤ region_end r.

(** What the bootloader documents of the memory map: addresses within the
    physical range, and regions that do not overlap. *)
Record regions_ok (regions : list MemoryRegion) : Prop := {
  regions_range : ∀ r, r ∈ regions → 0 ≤ region_start r ≤ region_end r ∧ region_end r ≤ 2 ^ 46;
  regions_disjoint : ∀ i j ri rj, (i < j)%nat → regions !! i = Some ri → regions !! j = Some rj →
    region_end ri ≤ region_start rj ∨ region_end rj ≤ region_start ri }.

Section BootLemmas.
Context `{Profile} `{X86AddrLaws} `{BootOk pmo}.

Lemma is_pow2_4096 : is_pow2 4096.
Proof. by exists 12. Qed.

Lemma align_up_4096 a :
  0 ≤ a → a + 4096 ≤ 2 ^ 64 → align_up a 4096 = Val (4096 * ((a + 4095) `div` 4096)).
Proof.
  intros. pose proof (align_up_law a 4096 is_pow2_4096) as Hl.
  replace (a + 4096 - 1) with (a + 4095) in Hl by lia. apply Hl; [lia|].
  pose proof (Z.mul_div_le (a + 4095) 4096). lia.
Qed.

Lemma align_down_4096 a :
  0 ≤ a < 2 ^ 64 → align_down a 4096 = Val (4096 * (a `div` 4096)).
Proof. apply align_down_law, is_pow2_4096. Qed.

(** The frames of one region. *)
Lemma region_frames_spec r :
  0 ≤ region_start r ≤ region_end r → region_end r ≤ 2 ^ 46 →
  ∃ fs, region_frames r = Val fs ∧ NoDup fs ∧
    (∀ f, f ∈ fs ↔ (4096 | f) ∧ region_start r ≤ f ∧ f + 4096 ≤ region_end r).
Proof.
  intros Hs He. unfold region_frames.
  rewrite align_up_4096, align_down_4096 by lia. cbn.
  eexists. split_and!; [done|by apply range_step_NoDup|].
  intros f. rewrite range_step_spec by lia. split.
  - intros [Hf [k Hk]].
    assert (f = 4096 * ((region_start r + 4095) `div` 4096 + k)) by lia.
    split_and!; [exists ((region_start r + 4095) `div` 4096 + k); lia| |];
      Z.div_mod_to_equations; lia.
  - intros ([k ->] & Hf & Hf'). split.
    + Z.div_mod_to_equations. lia.
    + exists (k - (region_start r + 4095) `div` 4096). lia.
Qed.

(** The frames of several disjoint regions. *)
Lemma regions_frames_spec rs :
  regions_ok rs →
  ∃ fss, mapM region_frames rs = Val fss ∧ NoDup (concat fss) ∧
    (∀ f, f ∈ concat fss ↔
       (4096 | f) ∧ ∃ r, r ∈ rs ∧ region_start r ≤ f ∧ f + 4096 ≤ region_end r).
Proof.
  intros [Hrng Hdis].
  assert (∃ fss, mapM region_frames rs = Val fss ∧
    Forall2 (λ r fs, NoDup fs ∧ (∀ f, f ∈ fs ↔
      (4096 | f) ∧ region_start r ≤ f ∧ f + 4096 ≤ region_end r)) rs fss)
    as (fss & Hm & HF).
  { clear Hdis. induction rs as [|r rs IH].
    - by exists [].
    - destruct (Hrng r) as [? ?]; [left|].
      destruct (region_frames_spec r) as (fs & Hfs & ?); [done..|].
      destruct IH as (fss & Hm & ?); [intros; apply Hrng; by right|].
      exists (fs :: fss). split; [|by constructor].
      cbn. by rewrite Hfs; cbn; rewrite Hm. }
  exists fss. split_and!; [done| |].
  - apply NoDup_concat.
    + intros l Hl. apply list_elem_of_lookup in Hl as [i Hi].
      by destruct (Forall2_lookup_r _ _ _ _ _ HF Hi) as (r & _ & [? _]).
    + intros i j l1 l2 x Hij Hi Hj Hx1 Hx2.
      destruct (Forall2_lookup_r _ _ _ _ _ HF Hi) as (ri & Hri & [_ Hfi]).
      destruct (Forall2_lookup_r _ _ _ _ _ HF Hj) as (rj & Hrj & [_ Hfj]).
      apply Hfi in Hx1 as (_ & ? & ?). apply Hfj in Hx2 as (_ & ? & ?).
      destruct (Hdis i j ri rj) as [?|?]; [done..|lia|lia].
  - intros f. rewrite list_elem_of_In, in_concat. split.
    + intros (l & Hl & Hf). apply list_elem_of_In, list_elem_of_lookup in Hl as [i Hi].
      destruct (Forall2_lookup_r _ _ _ _ _ HF Hi) as (r & Hr & [_ Hfr]).
      apply list_elem_of_In in Hf. apply Hfr in Hf. destruct Hf as (? & ? & ?).
      split; [done|].
      exists r. split_and!; [|done..]. by eapply list_elem_of_lookup_2.
    + intros (? & r & Hr & ?). apply list_elem_of_lookup in Hr as [i Hi].
      destruct (Forall2_lookup_l _ _ _ _ _ HF Hi) as (l & Hl & [_ Hfr]).
      exists l. rewrite <-!list_elem_of_In. split; [by eapply list_elem_of_lookup_2|].
      by apply Hfr.
Qed.

Lemma regions_ok_filter rs (P : MemoryRegion → Prop) (dec : ∀ r, Decision (P r)) :
  regions_ok rs → regions_ok (filter P rs).
Proof.
  intros [Hrng Hdis]. split.
  - intros r [_ Hr]%list_elem_of_filter. by apply Hrng.
  - clear Hrng. induction rs as [|r rs IH]; intros i j ri rj Hij Hi Hj; [done|].
    assert (∀ i j ri rj, (i < j)%nat → filter P rs !! i = Some ri →
      filter P rs !! j = Some rj →
      region_end ri ≤ region_start rj ∨ region_end rj ≤ region_start ri) as IH'.
    { apply IH. intros i' j' ? ? ?. apply (Hdis (S i') (S j')). lia. }
    rewrite filter_cons in Hi, Hj. destruct (decide (P r)); [|by apply (IH' i j)].
    destruct j as [|j]; [lia|]. cbn in Hj. destruct i as [|i].
    + injection Hi as <-. apply list_elem_of_lookup_2, list_elem_of_filter in Hj as [_ Hj].
      apply list_elem_of_lookup in Hj as [k Hk].
      apply (Hdis 0%nat (S k)); [lia|done..].
    + apply (IH' i j); [lia|done..].
Qed.
End BootLemmas.

(** The scan of the ram disk, for a disk whose pages start at [base]. *)
Section RamdiskScan.
Context `{Profile} `{X86AddrLaws} `{BootOk pmo}.
Context (tr : Z → option Z) (base : Z).
Context (Hbase : 0 ≤ base) (Halign : base `mod` 4096 = 0).
Context (Htr : ∀ p f, tr p = Some f → 0 ≤ f < 2 ^ 52).

Lemma ramdisk_page_val acc i :
  0 ≤ i → base + 4096 * i < 2 ^ 47 →
  (∀ l0, snd acc = Some l0 → 0 ≤ l0 < 2 ^ 52) →
  ramdisk_page tr base acc i =
    (unwrap (tr (base + 4096 * i)) ≫= λ phys_addr,
     match acc with
     | (f0, Some l0) => ass (phys_addr =? l0 + 4096) ≫= λ _, Val (f0, Some phys_addr)
     | (_, None) => Val (Some phys_addr, Some phys_addr)
     end).
Proof.
  intros Hi Hb Hl. unfold ramdisk_page.
  rewrite mul64_in by lia. cbn. rewrite add64_in by lia. cbn.
  rewrite VirtAddr_new_law by lia. cbn. rewrite Page_from_start_law by lia.
  assert ((base + i * 4096) `mod` 4096 = 0) as -> by (Z.div_mod_to_equations; lia).
  cbn. rewrite (Z.mul_comm i). destruct acc as [f0 [l0|]]; [|done].
  specialize (Hl l0 eq_refl). by rewrite add64_in by lia.
Qed.

(** The accumulator after the first [k] pages. *)
Definition scanned (k : nat) (acc : option Z * option Z) : Prop :=
  match k with
  | O => acc = (None, None)
  | S j => ∃ f, acc = (Some f, Some (f + 4096 * Z.of_nat j)) ∧
      ∀ i, 0 ≤ i < Z.of_nat k → tr (base + 4096 * i) = Some (f + 4096 * i)
  end.

Lemma scanned_last k acc : scanned k acc → ∀ l0, snd acc = Some l0 → 0 ≤ l0 < 2 ^ 52.
Proof.
  destruct k as [|j]; [by intros ->|]. intros (f & -> & Hf) l0 [= <-].
  eapply Htr, (Hf (Z.of_nat j)). lia.
Qed.

Lemma scanned_S k acc phys_addr :
  scanned k acc → tr (base + 4096 * Z.of_nat k) = Some phys_addr →
  (∀ l0, snd acc = Some l0 → phys_addr = l0 + 4096) →
  scanned (S k) (match acc with (f0, Some _) => (f0, Some phys_addr)
                              | (_, None) => (Some phys_addr, Some phys_addr) end).
Proof.
  intros Hk Hp Hl. destruct k as [|j].
  - rewrite Hk. exists phys_addr. split; [do 2 f_equal; lia|].
    intros i Hi. replace i with 0 by lia. by rewrite !Z.add_0_r in *.
  - destruct Hk as (f & -> & Hf). specialize (Hl _ eq_refl). subst phys_addr.
    exists f. split; [do 2 f_equal; lia|]. intros i Hi.
    destruct (decide (i = Z.of_nat (S j))) as [->|]; [rewrite Hp; f_equal|apply Hf]; lia.
Qed.

Lemma scanned_inv k acc : scanned (S k) acc →
  ∃ acc0 phys_addr, scanned k acc0 ∧ tr (base + 4096 * Z.of_nat k) = Some phys_addr ∧
    (∀ l0, snd acc0 = Some l0 → phys_addr = l0 + 4096) ∧
    acc = match acc0 with (f0, Some _) => (f0, Some phys_addr)
                        | (_, None) => (Some phys_addr, Some phys_addr) end.
Proof.
  intros (f & -> & Hf). destruct k as [|j].
  - exists (None, None), f. split_and!; [done| |done|by rewrite Z.add_0_r].
    change (Z.of_nat 0) with 0. rewrite (Hf 0) by lia. f_equal. lia.
  - exists (Some f, Some (f + 4096 * Z.of_nat j)), (f + 4096 * Z.of_nat (S j)).
    split_and!; [|apply Hf; lia|intros l0 [= <-]; lia|done].
    exists f. split; [done|]. intros i Hi. apply Hf. lia.
Qed.

Lemma ramdisk_fold_spec k acc :
  base + 4096 * Z.of_nat k ≤ 2 ^ 47 →
  fold_res (ramdisk_page tr base) (range 0 (Z.of_nat k)) (None, None) = Val acc ↔
  scanned k acc.
Proof.
  revert acc. induction k as [|k IH]; intros acc Hk.
  { change (range 0 (Z.of_nat 0)) with (@nil Z). cbn. split; congruence. }
  replace (Z.of_nat (S k)) with (Z.of_nat k + 1) by lia.
  rewrite range_snoc, fold_res_app, res_bind_Val by lia. setoid_rewrite IH; [|lia].
  split.
  - intros (acc0 & Hs & Hr). pose proof (scanned_last _ _ Hs).
    cbn in Hr. res_inv. rewrite ramdisk_page_val in * by (done || lia). res_inv.
    destruct acc0 as [f0 [l0|]]; res_inv; apply (scanned_S k _ _ Hs); try done.
    intros ? [= <-]. by apply Z.eqb_eq.
  - intros (acc0 & pa & Hs & Hp & Hl & ->)%scanned_inv. exists acc0. split; [done|].
    pose proof (scanned_last _ _ Hs).
    cbn. rewrite ramdisk_page_val, Hp by (done || lia). cbn.
    destruct acc0 as [f0 [l0|]]; [|done]. rewrite (Hl l0), Z.eqb_refl by done. done.
Qed.
End RamdiskScan.

(** ** Properties *)

Section BootTheorems.
Context `{Profile} `{X86AddrLaws} `{BootOk pmo}.

(**  The ram-disk scan that works around the bootloader:
    for a ram disk whose [n] pages start at page [base], [already_mapped_range]
    returns [(first, last)] exactly when the disk has at least one page and its
    pages are mapped to the [n] consecutive frames from [first] to [last]; in
    every other case it panics. *)
Theorem already_mapped_range_spec (tr : Z → option Z) addr n base first last :
  bi_ramdisk_addr boot_info = Some addr →
  n = (bi_ramdisk_len boot_info + 4095) `div` 4096 →
  base = 4096 * (addr `div` 4096) →
  0 ≤ addr < 2 ^ 47 → 0 ≤ bi_ramdisk_len boot_info < 2 ^ 47 → base + 4096 * n ≤ 2 ^ 47 →
  (∀ p f, tr p = Some f → 0 ≤ f < 2 ^ 52) →
  already_mapped_range tr = Val (first, last) ↔
  1 ≤ n ∧ last = first + 4096 * (n - 1) ∧
  ∀ i, 0 ≤ i < n → tr (base + 4096 * i) = Some (first + 4096 * i).
Proof.
  intros Haddr Hn Hb Ha Hlen Hspace Htr. unfold already_mapped_range.
  assert (0 ≤ n) by (subst n; apply Z.div_pos; lia).
  assert (0 ≤ base) by (subst base; pose proof (Z.div_pos addr 4096); lia).
  assert (base `mod` 4096 = 0) by (subst base; Z.div_mod_to_equations; lia).
  rewrite Haddr. cbn. rewrite align_down_4096, align_up_4096 by lia. cbn.
  rewrite <-Hn, <-Hb, Z.mul_comm, Z.div_mul by lia.
  rewrite <-(Z2Nat.id n) in Hspace |- * by lia. rewrite res_bind_Val.
  setoid_rewrite (ramdisk_fold_spec tr base); [|done..].
  destruct (Z.to_nat n) as [|j].
  - split; [intros (? & -> & Hr); done|lia].
  - split.
    + intros (? & (f & -> & Hf) & Hr). cbn in Hr. res_inv. split_and!; [lia..|done].
    + intros (? & -> & Hf). eexists. split; [by exists first|]. cbn. do 2 f_equal. lia.
Qed.

(** The frames kept by the filter, and their count. *)
Lemma raw_usable_frame_addresses_spec first last :
  regions_ok (bi_memory_regions boot_info) → last - first < 2 ^ 42 →
  ∃ l, raw_usable_frame_addresses (first, last) = Val l ∧ NoDup l ∧
    (∀ f, f ∈ l ↔ usable_frame (bi_memory_regions boot_info) f ∧ ¬ (first ≤ f ≤ last)).
Proof.
  intros Hreg Hsmall. unfold raw_usable_frame_addresses.
  set (rs := filter _ (bi_memory_regions boot_info)).
  destruct (regions_frames_spec rs) as (fss & -> & Hnd & Hfss).
  { by apply regions_ok_filter. }
  cbn [mbind res_bind]. set (all := concat fss) in *.
  assert (∀ f, in_mapped_range (first, last) f = true ↔ first ≤ f ≤ last) as Hin.
  { intros f. unfold in_mapped_range. cbn. rewrite andb_true_iff. lia. }
  assert (Z.of_nat (length (filter (λ a, in_mapped_range (first, last) a = true) all))
    ≤ Z.max 0 ((last + 1 - 4096 * (first `div` 4096) + 4096 - 1) `div` 4096)) as Hcount.
  { apply aligned_count; [lia|by apply NoDup_filter|].
    intros f [Hf Hall]%list_elem_of_filter. apply Hin in Hf. apply Hfss in Hall as [[k ->] _].
    split; [Z.div_mod_to_equations; lia|]. exists (k - first `div` 4096). lia. }
  rewrite arith_i32_in by (Z.div_mod_to_equations; lia). cbn [mbind res_bind].
  eexists. split_and!; [done|by apply NoDup_filter|].
  intros f. rewrite list_elem_of_filter, <-not_true_iff_false, Hin, Hfss.
  unfold usable_frame, rs. setoid_rewrite list_elem_of_filter.
  setoid_rewrite andb_true_iff. setoid_rewrite Z.gtb_lt. naive_solver.
Qed.

Lemma usable_frame_ok f :
  regions_ok (bi_memory_regions boot_info) →
  usable_frame (bi_memory_regions boot_info) f → frame_ok f ∧ 4096 ≤ f.
Proof.
  intros [Hrng _] ([k ->] & r & Hr & _ & ? & ? & ?).
  destruct (Hrng r Hr). split; [split; [lia|]|lia]. by rewrite Z.mod_mul.
Qed.

(** C30 (functional).  Boot: from a memory map without overlaps, and the ram
    disk's physical range [first..=last], [BootInfoFrameAllocator::new] builds
    an allocator whose free list is exactly the frames that lie entirely in a
    usable region not starting at address 0 and outside the ram disk, each
    once, with both counters equal to their number; it writes memory only in
    those frames. *)
Theorem boot_allocator_spec (tr : Z → option Z) first last (d : DM) :
  regions_ok (bi_memory_regions boot_info) →
  already_mapped_range tr = Val (first, last) → last - first < 2 ^ 42 →
  ∃ a d' l, BootInfoFrameAllocator_new tr d = Val (a, d') ∧
    fa_inv pmo (mkPhys a d') l ∧
    (∀ f, f ∈ l ↔ usable_frame (bi_memory_regions boot_info) f ∧ ¬ (first ≤ f ≤ last)) ∧
    total_frames a = Z.of_nat (length l) ∧
    (∀ q, (∀ f, f ∈ l → q ≠ pmo + f) → d' !! q = d !! q).
Proof.
  intros Hreg Hrng Hsmall.
  destruct (raw_usable_frame_addresses_spec first last) as (l & Hl & Hnd & Hmem); [done..|].
  assert (Forall frame_ok l) as Hok.
  { apply list.Forall_forall. intros f [Hf _]%Hmem. by destruct (usable_frame_ok f). }
  assert (Z.of_nat (length l) ≤ 2 ^ 34) as Hlen.
  { assert (Z.of_nat (length l) ≤ Z.max 0 ((2 ^ 46 - 0 + 4096 - 1) `div` 4096)) as Hc.
    { apply aligned_count; [lia|done|]. intros f Hf%Hmem.
      destruct (usable_frame_ok f) as [[? ?] ?]; [done|naive_solver|].
      split; [lia|]. rewrite Z.sub_0_r. by apply Z.mod_divide. }
    etransitivity; [exact Hc|]. by vm_compute. }
  destruct (write_nodes_spec l 0 d) as (d' & Hrun & Hlist & Hframe); [done..|lia|].
  rewrite Z.add_0_l in Hrun.
  exists (mkAlloc (head_ptr pmo l) (Z.of_nat (length l)) (Z.of_nat (length l))), d', l.
  split_and!; [|split; cbn; (done || lia)|done|done|done].
  unfold BootInfoFrameAllocator_new, initialize_free_memory.
  unfold mbind, M_bind. rewrite (liftr_run _ _ _ Hrng), (liftr_run _ _ _ Hl).
  rewrite (liftr_run _ _ (head_ptr pmo l)), Hrun; cycle 1.
  { destruct l as [|f l]; [done|]. apply Forall_cons in Hok as [[? _] _].
    by rewrite node_ref_val. }
  cbn. by rewrite mul64_in by lia.
Qed.
End BootTheorems.

(** ** Clients of the allocator

    A state is the allocator with its memory and the frames its clients hold.
    A client may allocate, give back a frame it holds, and write any object
    into a frame it holds. *)

Section Clients.
Context `{Profile} `{X86Addr} `{Boot} (pmo : Z).

Inductive fa_step : Phys * list Z → Phys * list Z → Prop :=
  | step_allocate ph held f ph' :
      allocate_frame ph = Val (Some f, ph') → fa_step (ph, held) (ph', f :: held)
  | step_out_of_memory ph held ph' :
      allocate_frame ph = Val (None, ph') → fa_step (ph, held) (ph', held)
  | step_deallocate ph h1 f h2 ph' :
      deallocate_frame f ph = Val ((), ph') → fa_step (ph, h1 ++ f :: h2) (ph', h1 ++ h2)
  | step_use ph held f c :
      f ∈ held → fa_step (ph, held) (with_dm (<[pmo + f := c]>) ph, held).

(** The abstract allocator: a finite set of free frames. *)
Inductive set_step : gset Z * list Z → gset Z * list Z → Prop :=
  | set_allocate F held f :
      f ∈ F → set_step (F, held) (F ∖ {[f]}, f :: held)
  | set_out_of_memory held : set_step (∅, held) (∅, held)
  | set_deallocate F h1 f h2 :
      f ∉ F → set_step (F, h1 ++ f :: h2) ({[f]} ∪ F, h1 ++ h2)
  | set_use F held : set_step (F, held) (F, held).
End Clients.

(** The invariant of a run that started with the free frames [l0]. *)
Definition client_inv (pmo : Z) (l0 : list Z) (st : Phys * list Z) : Prop :=
  ∃ l, fa_inv pmo (fst st) l ∧ snd st ++ l ≡ₚ l0 ∧ NoDup l0 ∧ Forall frame_ok l0 ∧
    Z.of_nat (length l0) ≤ total_frames (alloc (fst st)).

Section ClientTheorems.
Context `{Profile} `{X86AddrLaws} `{BootOk pmo}.

Lemma client_inv_init ph l : fa_inv pmo ph l → client_inv pmo l (ph, []).
Proof. intros Hinv. exists l. pose proof Hinv as []. split_and!; cbn; (done || lia). Qed.

(** A held frame is a real frame and is not free. *)
Lemma client_inv_held l0 ph h1 f h2 :
  client_inv pmo l0 (ph, h1 ++ f :: h2) →
  ∃ l, fa_inv pmo ph l ∧ frame_ok f ∧ f ∉ l ∧
    Z.of_nat (length l) < total_frames (alloc ph) ∧
    (h1 ++ h2) ++ f :: l ≡ₚ l0.
Proof.
  intros (l & Hinv & Hp & Hnd & Hok & Htot). cbn in *.
  assert ((h1 ++ h2) ++ f :: l ≡ₚ l0) as Hp'.
  { rewrite <-Hp. rewrite <-!app_assoc. cbn. by rewrite <-!Permutation_middle. }
  exists l. split_and!; [done| | | |done].
  - rewrite list.Forall_forall in Hok. apply Hok. rewrite <-Hp. set_solver.
  - rewrite <-Hp' in Hnd. apply NoDup_app in Hnd as (_ & _ & Hnd).
    by apply NoDup_cons in Hnd as [? _].
  - apply Permutation_length in Hp'. rewrite length_app in Hp'. cbn in Hp'. lia.
Qed.

Lemma fa_step_inv l0 st st' :
  client_inv pmo l0 st → fa_step pmo st st' → client_inv pmo l0 st'.
Proof.
  intros Hci Hstep. destruct Hstep as [ph held f ph' Hr|ph held ph' Hr|ph h1 f h2 ph' Hr|ph held f c Hf].
  - destruct Hci as (l & Hinv & Hp & Hnd & Hok & Htot). cbn in *.
    destruct (allocate_frame_inv _ _ _ _ Hinv Hr) as (Hhd & Hinv' & Hdm & Ht).
    destruct l as [|g l]; [done|]. injection Hhd as ->.
    exists l. cbn. rewrite Ht. split_and!; try done.
    rewrite <-Hp. by rewrite Permutation_middle.
  - destruct Hci as (l & Hinv & Hp & Hnd & Hok & Htot). cbn in *.
    destruct (allocate_frame_inv _ _ _ _ Hinv Hr) as (Hhd & Hinv' & Hdm & Ht).
    destruct l as [|g l]; [|done].
    exists []. cbn. by rewrite Ht.
  - destruct (client_inv_held _ _ _ _ _ Hci) as (l & Hinv & Hf & Hfl & Hlt & Hp).
    destruct Hci as (_ & _ & _ & Hnd & Hok & Htot).
    destruct (deallocate_frame_spec _ _ _ Hinv Hf Hfl Hlt) as (ph1 & Hr1 & Hinv1 & Ht & _).
    rewrite Hr1 in Hr. injection Hr as <-.
    exists (f :: l). cbn in *. by rewrite Ht.
  - apply list_elem_of_split in Hf as (h1 & h2 & ->).
    destruct (client_inv_held _ _ _ _ _ Hci) as (l & Hinv & Hf & Hfl & Hlt & Hp).
    destruct Hci as (_ & _ & _ & Hnd & Hok & Htot). cbn in *.
    exists l. split_and!; try done.
    + cbn. apply (fa_inv_ext _ _ (<[pmo + f := c]> (dm ph))); [|done].
      intros g Hg. apply lookup_insert_ne. intros Heq. assert (f = g) as -> by lia. done.
    + cbn. rewrite <-Hp, <-!app_assoc. cbn. by rewrite <-!Permutation_middle.
Qed.

Lemma reachable_inv ph0 l0 st :
  fa_inv pmo ph0 l0 → rtc (fa_step pmo) (ph0, []) st → client_inv pmo l0 st.
Proof.
  intros Hinit Hsteps. apply client_inv_init in Hinit.
  induction Hsteps as [|x y z Hxy _ IH]; [done|]. apply IH. by eapply fa_step_inv.
Qed.

(** C28 (safety).  Whatever clients do with the frames they hold, in every
    reachable state the held frames and the free list are disjoint and
    together are exactly the frames the allocator started with: no frame is
    ever handed out twice, lost, or invented, and the free counter is right. *)
Theorem allocator_safety ph0 l0 ph held :
  fa_inv pmo ph0 l0 → rtc (fa_step pmo) (ph0, []) (ph, held) →
  ∃ l, fa_inv pmo ph l ∧ NoDup (held ++ l) ∧ held ++ l ≡ₚ l0 ∧
    free_frames (alloc ph) = Z.of_nat (length l0) - Z.of_nat (length held).
Proof.
  intros Hinit Hsteps.
  destruct (reachable_inv _ _ _ Hinit Hsteps) as (l & Hinv & Hp & Hnd & Hok & Htot).
  exists l. cbn in *. split_and!; [done|by rewrite Hp|done|].
  rewrite (fa_free _ _ _ Hinv). apply Permutation_length in Hp.
  rewrite length_app in Hp. lia.
Qed.

(**  No operation of a well-behaved client can fault: in every
    reachable state [allocate_frame] returns, with [None] only when no frame
    is free, and [deallocate_frame] of a held frame returns. *)
Theorem allocator_never_faults ph0 l0 ph held :
  fa_inv pmo ph0 l0 → rtc (fa_step pmo) (ph0, []) (ph, held) →
  (∃ o ph', allocate_frame ph = Val (o, ph') ∧ (o = None ↔ free_frames (alloc ph) = 0)) ∧
  (∀ f, f ∈ held → ∃ ph', deallocate_frame f ph = Val ((), ph')).
Proof.
  intros Hinit Hsteps.
  pose proof (reachable_inv _ _ _ Hinit Hsteps) as Hci.
  split.
  - destruct Hci as (l & Hinv & _). cbn in *. pose proof (fa_free _ _ _ Hinv) as Hfree.
    destruct l as [|f l].
    + exists None, ph. split; [by apply (allocate_frame_nil (pmo:=pmo))|done].
    + destruct (allocate_frame_cons _ _ _ Hinv) as (ph' & Hr & _).
      exists (Some f), ph'. split; [done|]. cbn in Hfree. split; [done|lia].
  - intros f Hf. apply list_elem_of_split in Hf as (h1 & h2 & ->).
    destruct (client_inv_held _ _ _ _ _ Hci) as (l & Hinv & Hf & Hfl & Hlt & Hp).
    destruct (deallocate_frame_spec _ _ _ Hinv Hf Hfl Hlt) as (ph' & Hr & _). by exists ph'.
Qed.

(** C29 (refinement).  The linked-list allocator implements the abstract
    allocator, a set of free frames that hands out any member and takes back
    any non-member: a step from a reachable state is matched by the abstract
    step on the set of free frames. *)
Theorem allocator_refines_set ph0 l0 st st' :
  fa_inv pmo ph0 l0 → rtc (fa_step pmo) (ph0, []) st → fa_step pmo st st' →
  ∃ l l', fa_inv pmo (fst st) l ∧ fa_inv pmo (fst st') l' ∧
    set_step (list_to_set l, snd st) (list_to_set l', snd st').
Proof.
  intros Hinit Hsteps Hstep.
  pose proof (reachable_inv _ _ _ Hinit Hsteps) as Hci.
  destruct Hstep as [ph held f ph' Hr|ph held ph' Hr|ph h1 f h2 ph' Hr|ph held f c Hf].
  - destruct Hci as (l & Hinv & _). cbn in *.
    destruct (allocate_frame_inv _ _ _ _ Hinv Hr) as (Hhd & Hinv' & _ & _).
    destruct l as [|g l]; [done|]. injection Hhd as ->. cbn in Hinv'.
    pose proof (fa_nodup _ _ _ Hinv) as [Hg _]%NoDup_cons.
    exists (g :: l), l. split_and!; [done..|]. cbn.
    replace (list_to_set l : gset Z) with (({[g]} ∪ list_to_set l : gset Z) ∖ {[g]}) at 2
      by set_solver.
    apply set_allocate. set_solver.
  - destruct Hci as (l & Hinv & _). cbn in *.
    destruct (allocate_frame_inv _ _ _ _ Hinv Hr) as (Hhd & Hinv' & _ & _).
    destruct l as [|g l]; [|done].
    exists [], []. split_and!; [done..|]. apply set_out_of_memory.
  - destruct (client_inv_held _ _ _ _ _ Hci) as (l & Hinv & Hf & Hfl & Hlt & Hp).
    destruct (deallocate_frame_spec _ _ _ Hinv Hf Hfl Hlt) as (ph1 & Hr1 & Hinv1 & Ht & _).
    rewrite Hr1 in Hr. injection Hr as <-.
    exists l, (f :: l). split_and!; [done..|]. cbn. apply set_deallocate. set_solver.
  - assert (client_inv pmo l0 (with_dm (<[pmo + f:=c]>) ph, held)) as (l' & Hinv' & _).
    { eapply fa_step_inv; [done|]. by apply step_use. }
    apply list_elem_of_split in Hf as (h1 & h2 & ->).
    destruct (client_inv_held _ _ _ _ _ Hci) as (l & Hinv & Hf & Hfl & Hlt & Hp).
    exists l, l. split_and!; [done| |apply set_use].
    apply (fa_inv_ext _ _ (<[pmo + f := c]> (dm ph))); [|done].
    intros g Hg. apply lookup_insert_ne. intros Heq. assert (f = g) as -> by lia. done.
Qed.

Lemma log_memory_utilization_val ph l :
  fa_inv pmo ph l →
  log_memory_utilization (alloc ph) =
    Val [total_frames (alloc ph) - free_frames (alloc ph); total_frames (alloc ph);
         Z.of_nat (length l) `div` 256; total_frames (alloc ph) `div` 256].
Proof.
  intros Hinv. pose proof (fa_free _ _ _ Hinv) as Hf. pose proof (fa_total _ _ _ Hinv) as Ht.
  unfold log_memory_utilization, get_memory_utilization. rewrite sub64_in by lia. cbn.
  rewrite sub64_in by lia. cbn. rewrite mul64_in by lia. cbn. rewrite mul64_in by lia. cbn.
  do 2 f_equal. f_equal. rewrite !Zdiv.Zdiv_Zdiv by lia.
  f_equal; [|f_equal]; Z.div_mod_to_equations; lia.
Qed.

(**  The utilisation arithmetic never underflows or overflows:
    used and free frames add up to the total, and the megabyte figures that
    are logged are the exact floors. *)
Theorem utilization_spec ph l :
  fa_inv pmo ph l →
  ∃ used, get_memory_utilization (alloc ph) = Val (used, total_frames (alloc ph)) ∧
    used + Z.of_nat (length l) = total_frames (alloc ph) ∧
    log_memory_utilization (alloc ph) =
      Val [used; total_frames (alloc ph); Z.of_nat (length l) `div` 256;
           total_frames (alloc ph) `div` 256].
Proof.
  intros Hinv. pose proof (fa_free _ _ _ Hinv) as Hf. pose proof (fa_total _ _ _ Hinv) as Ht.
  exists (total_frames (alloc ph) - free_frames (alloc ph)).
  split_and!; [|lia|by apply log_memory_utilization_val].
  unfold get_memory_utilization. by rewrite sub64_in by lia.
Qed.
End ClientTheorems.

(** ** Witnesses on the machine of [RefBoot] *)

Module FrameAllocDemo.
#[local] Existing Instance dev_profile.
Import RefX86 RefBoot.

(** The ram disk is loaded at the frames 0x3000 and 0x4000. *)
Definition tr (p : Z) : option Z :=
  if p =? 102 * 2 ^ 39 then Some 0x3000
  else if p =? 102 * 2 ^ 39 + 4096 then Some 0x4000 else None.

(** The allocator after boot: frames 0x2000, 0x5000 and 0x6000 are free. *)
Definition booted : Phys :=
  match BootInfoFrameAllocator_new tr ∅ with
  | Val (a, d) => mkPhys a d
  | Fault _ => mkPhys (mkAlloc None 0 0) ∅
  end.

Lemma regions : regions_ok (bi_memory_regions boot_info).
Proof.
  split.
  - intros r Hr. cbn in Hr. repeat (apply elem_of_cons in Hr as [->|Hr]; [by vm_compute|]).
    by apply elem_of_nil in Hr.
  - intros i j ri rj Hij Hi Hj.
    destruct i as [|[|[|i]]], j as [|[|[|j]]]; cbn in Hi, Hj; simplify_eq; try lia;
      vm_compute; left; done.
Qed.

Lemma booted_inv : fa_inv pmo booted [0x2000; 0x5000; 0x6000].
Proof.
  split; [|apply (bool_decide_unpack _); by vm_compute|repeat constructor; by vm_compute|by vm_compute..].
  split; [by vm_compute|exists (Some (pmo + 0x5000))]. split; [by vm_compute|].
  split; [by vm_compute|exists (Some (pmo + 0x6000))]. split; [by vm_compute|].
  split; [by vm_compute|exists None]. split; by vm_compute.
Qed.

Lemma already_mapped_range_spec_witness :
  already_mapped_range tr = Val (0x3000, 0x4000).
Proof.
  apply (already_mapped_range_spec tr (102 * 2 ^ 39 + 8) 2 (102 * 2 ^ 39) 0x3000 0x4000);
    [reflexivity..|lia|cbn; lia|lia| |].
  - intros p f. unfold tr. repeat case_match; intros; simplify_eq; lia.
  - split_and!; [lia..|]. intros i Hi.
    assert (i = 0 ∨ i = 1) as [-> | ->] by lia; by vm_compute.
Defined.

Lemma boot_allocator_spec_witness :
  ∃ a d' l, BootInfoFrameAllocator_new tr ∅ = Val (a, d') ∧
    fa_inv pmo (mkPhys a d') l ∧
    (∀ f, f ∈ l ↔ usable_frame (bi_memory_regions boot_info) f ∧ ¬ (0x3000 ≤ f ≤ 0x4000)) ∧
    total_frames a = Z.of_nat (length l) ∧
    (∀ q, (∀ f, f ∈ l → q ≠ pmo + f) → d' !! q = (∅ : DM) !! q).
Proof. apply boot_allocator_spec; [exact regions|by vm_compute|lia]. Defined.

(** One run: allocate two frames, write into the first, free it. *)
Definition after (ph : Phys) (m : M Phys (option Z)) : Phys :=
  match m ph with Val (_, ph') => ph' | Fault _ => ph end.
Definition ph1 : Phys := after booted allocate_frame.
Definition ph2 : Phys := after ph1 allocate_frame.
Definition ph3 : Phys := with_dm (<[pmo + 0x2000 := CBytes ∅]>) ph2.

Lemma run3 : rtc (fa_step pmo) (booted, []) (ph3, [0x5000; 0x2000]).
Proof.
  eapply rtc_l; [apply (step_allocate _ _ _ 0x2000 ph1); by vm_compute|].
  eapply rtc_l; [apply (step_allocate _ _ _ 0x5000 ph2); by vm_compute|].
  apply rtc_once. apply step_use. set_solver.
Qed.

Lemma allocator_safety_witness :
  ∃ l, fa_inv pmo ph3 l ∧ NoDup ([0x5000; 0x2000] ++ l) ∧
    [0x5000; 0x2000] ++ l ≡ₚ [0x2000; 0x5000; 0x6000] ∧ free_frames (alloc ph3) = 3 - 2.
Proof. exact (allocator_safety booted _ ph3 _ booted_inv run3). Defined.

Lemma allocator_never_faults_witness :
  (∃ o ph', allocate_frame ph3 = Val (o, ph') ∧ (o = None ↔ free_frames (alloc ph3) = 0)) ∧
  (∀ f, f ∈ [0x5000; 0x2000] → ∃ ph', deallocate_frame f ph3 = Val ((), ph')).
Proof. exact (allocator_never_faults booted _ ph3 _ booted_inv run3). Defined.

Lemma allocator_refines_set_witness :
  ∃ l l', fa_inv pmo ph3 l ∧ fa_inv pmo (after ph3 allocate_frame) l' ∧
    set_step (list_to_set l, [0x5000; 0x2000]) (list_to_set l', [0x6000; 0x5000; 0x2000]).
Proof.
  apply (allocator_refines_set booted _ (ph3, [0x5000; 0x2000])
    (after ph3 allocate_frame, [0x6000; 0x5000; 0x2000]) booted_inv run3).
  apply step_allocate. by vm_compute.
Defined.

Lemma utilization_spec_witness :
  ∃ used, get_memory_utilization (alloc booted) = Val (used, total_frames (alloc booted)) ∧
    used + 3 = total_frames (alloc booted) ∧
    log_memory_utilization (alloc booted) =
      Val [used; total_frames (alloc booted); 3 `div` 256; total_frames (alloc booted) `div` 256].
Proof. exact (utilization_spec booted _ booted_inv). Defined.
End FrameAllocDemo.
