(* ===== verification/Paging.v ===== *)
(** * Page tables and the mapper interface

    The kernel touches level-4 tables itself and leaves the tables below to
    [OffsetPageTable] of the x86_64 crate.  So a level-4 table is a [CTable] in
    the direct-mapped memory, the tables below one of its slots are a [CSub],
    and [walk] is the hardware's translation through both.  [Mapper] is the
    crate's trait with its documented behaviour on these objects; [ref_mapper]
    is a concrete mapper for witnesses. *)

From S2P Require Import Prelude Constants Platform FrameAlloc.

(** ** The hardware walk *)

(** The level-4 entry of [page] in the table at pointer [tp]. *)
Definition l4_slot (page : Z) : nat := Z.to_nat (l4_index page).

Definition l4_entry (d : DM) (tp page : Z) : option PageTableEntry :=
  match d !! tp with
  | Some (CTable t) => t !! l4_slot page
  | _ => None
  end.

Definition sub_leaf (c : option cell) (page : Z) : option (Z * Z) :=
  match c with Some (CSub m) => m !! page | _ => None end.

(** The frame and flags [page] translates to in the address space of [tp]. *)
Definition walk (pmo : Z) (d : DM) (tp page : Z) : option (Z * Z) :=
  match l4_entry d tp page with
  | Some e => if is_unused e then None else sub_leaf (d !! (pmo + pte_addr e)) page
  | None => None
  end.

(** ** The mapper *)

Inductive MapToError := FrameAllocationFailed | MapParentHuge | PageAlreadyMapped (f : Z).
Inductive UnmapError := UnmapParentHuge | UnmapNotMapped | InvalidFrameAddress.
Inductive FlagUpdateError := FlagNotMapped | FlagParentHuge.
Inductive TranslateError := TranslateNotMapped | TranslateParentHuge | TranslateInvalid.

(** Operations of an [OffsetPageTable]: its offset, its level-4 table pointer,
    then the arguments.  [map_to] takes the frame allocator. *)
Class Mapper := {
  map_to : Z → M Phys (option Z) → Z → Z → Z → Z → M Phys (result () MapToError);
  update_flags : Z → Z → Z → Z → M DM (result () FlagUpdateError);
  unmap : Z → Z → Z → M DM (result Z UnmapError);
  translate_page : Z → Z → Z → DM → result Z TranslateError }.

(** A used slot points at lower tables: it is present, and no huge page. *)
Definition slot_ok (pmo : Z) (d : DM) (e : PageTableEntry) : Prop :=
  is_unused e = true ∨
  pte_frame e = Ok (pte_addr e) ∧ ∃ m, d !! (pmo + pte_addr e) = Some (CSub m).

(** The leaves below an entry; none below an unused one. *)
Definition leaves_of (pmo : Z) (d : DM) (e : PageTableEntry) : gmap Z (Z * Z) :=
  if is_unused e then ∅
  else match d !! (pmo + pte_addr e) with Some (CSub m) => m | _ => ∅ end.

(** A successful [map_to]: up to three page-table frames are taken from the
    front of the free list; the slot points at the same tables as before, or at
    a taken frame if it was unused; the leaf is added; nothing else changes
    except the contents of taken frames. *)
Definition map_to_post (pmo tp page fr flags : Z) (t : list PageTableEntry)
    (e : PageTableEntry) (ph : Phys) (l : list Z) (ph' : Phys) : Prop :=
  ∃ k e', (k ≤ 3)%nat ∧ fa_inv pmo ph' (drop k l) ∧
    total_frames (alloc ph') = total_frames (alloc ph) ∧
    is_unused e' = false ∧ pte_frame e' = Ok (pte_addr e') ∧
    (if is_unused e then pte_addr e' ∈ take k l else pte_addr e' = pte_addr e) ∧
    dm ph' !! tp = Some (CTable (<[l4_slot page := e']> t)) ∧
    dm ph' !! (pmo + pte_addr e') =
      Some (CSub (<[page := (fr, flags)]> (leaves_of pmo (dm ph) e))) ∧
    (∀ q, q ≠ tp → q ≠ pmo + pte_addr e' → (∀ f, f ∈ take k l → q ≠ pmo + f) →
       dm ph' !! q = dm ph !! q).

Class MapperLaws `{Profile} `{X86Addr} `{Boot} `{Mapper} (pmo : Z) : Prop := {
  (** A page that is mapped is refused. *)
  map_to_mapped tp page fr flags ph t e :
    dm ph !! tp = Some (CTable t) → t !! l4_slot page = Some e → slot_ok pmo (dm ph) e →
    walk pmo (dm ph) tp page ≠ None →
    ∃ err ph', map_to pmo allocate_frame tp page fr flags ph = Val (Err err, ph');
  (** Another page is mapped, unless a page-table frame is missing. *)
  map_to_unmapped tp page fr flags ph l t e :
    fa_inv pmo ph l → (∀ f, f ∈ l → tp ≠ pmo + f) →
    dm ph !! tp = Some (CTable t) → t !! l4_slot page = Some e → slot_ok pmo (dm ph) e →
    (is_unused e = false → pte_addr e ∉ l) →
    walk pmo (dm ph) tp page = None →
    ∃ r ph', map_to pmo allocate_frame tp page fr flags ph = Val (r, ph') ∧
      match r with
      | Ok _ => map_to_post pmo tp page fr flags t e ph l ph'
      | Err err => err = FrameAllocationFailed ∧ (length l < 3)%nat
      end;
  update_flags_law tp page flags d t e :
    d !! tp = Some (CTable t) → t !! l4_slot page = Some e → slot_ok pmo d e →
    match walk pmo d tp page with
    | Some (fr, _) => ∃ d', update_flags pmo tp page flags d = Val (Ok (), d') ∧
        d' = <[pmo + pte_addr e := CSub (<[page := (fr, flags)]> (leaves_of pmo d e))]> d
    | None => ∃ err d', update_flags pmo tp page flags d = Val (Err err, d')
    end;
  unmap_law tp page d t e :
    d !! tp = Some (CTable t) → t !! l4_slot page = Some e → slot_ok pmo d e →
    match walk pmo d tp page with
    | Some (fr, _) => ∃ d', unmap pmo tp page d = Val (Ok fr, d') ∧
        d' = <[pmo + pte_addr e := CSub (delete page (leaves_of pmo d e))]> d
    | None => ∃ err d', unmap pmo tp page d = Val (Err err, d')
    end;
  translate_page_law tp page d t e :
    d !! tp = Some (CTable t) → t !! l4_slot page = Some e → slot_ok pmo d e →
    match walk pmo d tp page with
    | Some (fr, _) => translate_page pmo tp page d = Ok fr
    | None => ∃ err, translate_page pmo tp page d = Err err
    end }.

(** ** Facts about [walk] *)

Lemma l4_slot_lt page : (l4_slot page < 512)%nat.
Proof. unfold l4_slot. pose proof (l4_index_bound page). lia. Qed.

Lemma walk_leaves pmo d tp t e page :
  d !! tp = Some (CTable t) → t !! l4_slot page = Some e →
  walk pmo d tp page = leaves_of pmo d e !! page.
Proof.
  intros Ht He. unfold walk, l4_entry, leaves_of. rewrite Ht, He.
  destruct (is_unused e); [by rewrite lookup_empty|]. unfold sub_leaf.
  repeat case_match; simplify_eq; by rewrite ?lookup_empty.
Qed.

(** Two tables whose slots for [page] agree translate it alike. *)
Lemma walk_same_slot pmo d tp1 tp2 page :
  l4_entry d tp1 page = l4_entry d tp2 page → walk pmo d tp1 page = walk pmo d tp2 page.
Proof. unfold walk. by intros ->. Qed.

Lemma walk_unused pmo d tp t e page :
  d !! tp = Some (CTable t) → t !! l4_slot page = Some e → is_unused e = true →
  walk pmo d tp page = None.
Proof. intros Ht He Hu. unfold walk, l4_entry. by rewrite Ht, He, Hu. Qed.

(** ** A concrete mapper *)

Module RefMapper.
Definition table_flags : Z := 7.

#[export] Instance ref_mapper : Mapper := {
  map_to pmo allocate tp page fr flags ph :=
    match dm ph !! tp with
    | Some (CTable t) =>
        match t !! l4_slot page with
        | Some e =>
            if is_unused e then
              match allocate ph with
              | Val (Some f, ph1) => Val (Ok (), with_dm (λ d,
                  <[pmo + f := CSub {[page := (fr, flags)]}]>
                    (<[tp := CTable (<[l4_slot page := mkPTE f table_flags]> t)]> d)) ph1)
              | Val (None, ph1) => Val (Err FrameAllocationFailed, ph1)
              | Fault x => Fault x
              end
            else
              match dm ph !! (pmo + pte_addr e) with
              | Some (CSub m) =>
                  match m !! page with
                  | Some (f0, _) => Val (Err (PageAlreadyMapped f0), ph)
                  | None => Val (Ok (), with_dm
                      <[pmo + pte_addr e := CSub (<[page := (fr, flags)]> m)]> ph)
                  end
              | _ => Val (Err MapParentHuge, ph)
              end
        | None => Fault Undefined
        end
    | _ => Fault Undefined
    end;
  update_flags pmo tp page flags d :=
    match walk pmo d tp page, l4_entry d tp page with
    | Some (fr, _), Some e =>
        Val (Ok (), <[pmo + pte_addr e := CSub (<[page := (fr, flags)]> (leaves_of pmo d e))]> d)
    | _, _ => Val (Err FlagNotMapped, d)
    end;
  unmap pmo tp page d :=
    match walk pmo d tp page, l4_entry d tp page with
    | Some (fr, _), Some e =>
        Val (Ok fr, <[pmo + pte_addr e := CSub (delete page (leaves_of pmo d e))]> d)
    | _, _ => Val (Err UnmapNotMapped, d)
    end;
  translate_page pmo tp page d :=
    match walk pmo d tp page with
    | Some (fr, _) => Ok fr
    | None => Err TranslateNotMapped
    end }.

Lemma ref_map_to_unused `{Profile} `{X86AddrLaws} `{BootOk pmo} tp page fr flags ph l t e :
  fa_inv pmo ph l → (∀ f, f ∈ l → tp ≠ pmo + f) →
  dm ph !! tp = Some (CTable t) → t !! l4_slot page = Some e → is_unused e = true →
  ∃ r ph', map_to pmo allocate_frame tp page fr flags ph = Val (r, ph') ∧
    match r with
    | Ok _ => map_to_post pmo tp page fr flags t e ph l ph'
    | Err err => err = FrameAllocationFailed ∧ (length l < 3)%nat
    end.
Proof.
  intros Hinv Htp Ht He Hu. unfold map_to, ref_mapper. rewrite Ht, He, Hu.
  destruct l as [|f l].
  - rewrite (allocate_frame_nil (pmo:=pmo)) by done. eexists _, _. split; [done|]. split; [done|cbn; lia].
  - destruct (allocate_frame_cons _ _ _ Hinv) as (ph1 & -> & Hinv1 & Hdm & Htot).
    eexists _, _. split; [done|]. exists 1%nat, (mkPTE f table_flags).
    pose proof (fa_nodup _ _ _ Hinv) as [Hfl _]%NoDup_cons.
    assert (tp ≠ pmo + f) by (apply Htp; left).
    split_and!; [lia| |done|by unfold is_unused, table_flags; cbn; rewrite andb_false_r|done| | | |].
    + apply (fa_inv_ext _ _ (<[_:=_]> (<[_:=_]> (dm ph1)))); [|done].
      intros g Hg. rewrite !lookup_insert_ne; [done| |]; [apply Htp; by right|].
      intros Heq. assert (f = g) as -> by lia. done.
    + rewrite Hu. cbn. left.
    + cbn. rewrite lookup_insert_ne by done. apply lookup_insert_eq.
    + cbn. rewrite lookup_insert_eq. unfold leaves_of. by rewrite Hu.
    + intros q Hq1 Hq2 _. cbn in *. by rewrite !lookup_insert_ne, Hdm by done.
Qed.

#[export] Instance ref_mapper_laws `{Profile} `{X86AddrLaws} `{BootOk pmo} : MapperLaws pmo.
Proof.
  split.
  - intros tp page fr flags ph t e Ht He Hok Hw. unfold map_to, ref_mapper. rewrite Ht, He.
    rewrite (walk_leaves _ _ _ _ _ _ Ht He) in Hw. unfold leaves_of in Hw.
    destruct (is_unused e) eqn:Hu; [done|]. destruct Hok as [?|[Hpr [m Hm]]]; [congruence|].
    rewrite Hm in *. destruct (m !! page) as [[]|]; [by eexists _, _|done].
  - intros tp page fr flags ph l t e Hinv Htp Ht He Hok Hl Hw.
    destruct (is_unused e) eqn:Hu; [by apply ref_map_to_unused|].
    destruct Hok as [?|[Hpr [m Hm]]]; [congruence|]. specialize (Hl eq_refl).
    rewrite (walk_leaves _ _ _ _ _ _ Ht He) in Hw.
    assert (leaves_of pmo (dm ph) e = m) as Hlv by (unfold leaves_of; by rewrite Hu, Hm).
    rewrite Hlv in Hw. unfold map_to, ref_mapper. rewrite Ht, He, Hu, Hm, Hw.
    eexists _, _. split; [done|]. exists 0%nat, e.
    assert (tp ≠ pmo + pte_addr e) by congruence.
    split_and!; [lia| |done|done|done|by rewrite Hu| | |].
    + apply (fa_inv_ext _ _ (<[_:=_]> (dm ph))); [|done]. intros g Hg.
      apply lookup_insert_ne. intros Heq. assert (pte_addr e = g) as <- by lia. done.
    + cbn. rewrite lookup_insert_ne by done. by rewrite Ht, list_insert_id.
    + cbn. by rewrite lookup_insert_eq, Hlv.
    + intros q Hq1 Hq2 _. cbn. by rewrite lookup_insert_ne by done.
  - intros tp page flags d t e Ht He Hok. unfold update_flags, ref_mapper.
    destruct (walk pmo d tp page) as [[fr fl]|]; [|by eexists _, _].
    unfold l4_entry. rewrite Ht, He. by eexists.
  - intros tp page d t e Ht He Hok. unfold unmap, ref_mapper.
    destruct (walk pmo d tp page) as [[fr fl]|]; [|by eexists _, _].
    unfold l4_entry. rewrite Ht, He. by eexists.
  - intros tp page d t e Ht He Hok. unfold translate_page, ref_mapper.
    destruct (walk pmo d tp page) as [[fr fl]|]; [done|by eexists].
Qed.
End RefMapper.
