(* ===== verification/Memory.v ===== *)
(** * Address spaces (src/kernel/src/memory.rs)

    The [Memory] object: creating and switching address spaces, mapping,
    unmapping and re-protecting pages.  The state is the physical memory with
    its allocator, the active level-4 frame (CR3) and the kernel's own table;
    the TLB is not modelled ([flush] has no effect).  The theorems keep one
    invariant, [kinv]: every address space has its own tables below the user
    slots and shares the tables below the kernel slots. *)

From S2P Require Import Prelude Constants Platform FrameAlloc Paging.

Record OffsetPageTable := mkOPT { opt_table : Z; opt_offset : Z }.

Record Kernel := mkKernel {
  k_phys : Phys;
  k_cr3 : Z;                           (** the frame CR3 holds *)
  kernel_page_table : OffsetPageTable }.

Definition k_dm (st : Kernel) : DM := dm (k_phys st).
Definition put_phys (p : Phys) (st : Kernel) : Kernel :=
  mkKernel p (k_cr3 st) (kernel_page_table st).
Definition on_phys {A} (m : M Phys A) : M Kernel A := zoom k_phys put_phys m.
Definition on_dm {A} (m : M DM A) : M Kernel A := on_phys (zoom dm put_dm m).

Definition fail {S A} (f : fault) : M S A := λ _, Fault f.

Section Memory.
Context `{Profile} `{X86Addr} `{Boot} `{Mapper}.

(** ** Tables and address spaces *)

Definition page_table_from_frame (frame : Z) : res Z := phys_to_virt frame.

Definition active_level_4_table_phys_addr : M Kernel Z := gets k_cr3.

Definition active_level_4_table : M Kernel Z :=
  gets k_cr3 ≫= λ level_4_table_frame, liftr (page_table_from_frame level_4_table_frame).

Definition frame_from_page_table (page_table : Z) : res Z :=
  physical_memory_offset ≫= λ off,
  sub64 page_table off ≫= λ a,
  PhysAddr_new a ≫= λ phys,
  unwrap (PhysFrame_from_start_address phys).

Definition get_active_l4_page_table : M Kernel OffsetPageTable :=
  active_level_4_table ≫= λ l4_table,
  liftr physical_memory_offset ≫= λ off,
  mret (mkOPT l4_table off).

(** Indexing a [PageTable] at a pointer, for reading and for writing. *)
Definition read_entry (tp i : Z) : M DM PageTableEntry := λ d,
  match d !! tp with
  | Some (CTable t) =>
      match t !! Z.to_nat i with Some e => Val (e, d) | None => Fault Bounds end
  | _ => Fault Undefined
  end.
Definition write_entry (tp i : Z) (e : PageTableEntry) : M DM () := λ d,
  match d !! tp with
  | Some (CTable t) =>
      if i <? Z.of_nat (length t)
      then Val ((), <[tp := CTable (<[Z.to_nat i := e]> t)]> d) else Fault Bounds
  | _ => Fault Undefined
  end.

Definition copy_entry (src dst i : Z) : M DM () :=
  read_entry src i ≫= λ e, write_entry dst i e.

Definition create_new_l4_page_table : M Kernel OffsetPageTable :=
  get_active_l4_page_table ≫= λ active_l4_table,
  on_phys allocate_frame ≫= λ o,
  liftr (unwrap o) ≫= λ fr,
  liftr (page_table_from_frame fr) ≫= λ new_l4_table,
  on_dm (modify <[new_l4_table := CTable (replicate 512 pte_zero)]>) ≫= λ _,
  on_dm (for_each (range (fst KERNEL_L4_PAGE_TABLE_RANGE) (snd KERNEL_L4_PAGE_TABLE_RANGE))
    (copy_entry (opt_table active_l4_table) new_l4_table)) ≫= λ _,
  liftr physical_memory_offset ≫= λ off,
  mret (mkOPT new_l4_table off).

Definition switch_l4_page_table (l4_table : OffsetPageTable) : M Kernel () :=
  liftr (frame_from_page_table (opt_table l4_table)) ≫= λ frame,
  modify (λ st, mkKernel (k_phys st) frame (kernel_page_table st)).

Definition create_user_page_table : M Kernel OffsetPageTable := create_new_l4_page_table.

Definition switch_to_user_page_table (t : OffsetPageTable) : M Kernel () :=
  switch_l4_page_table t.

Definition switch_to_kernel_page_table : M Kernel () :=
  gets kernel_page_table ≫= switch_l4_page_table.

(** ** Mapping *)

Definition map_frame (page flags frame : Z) : M Kernel () :=
  get_active_l4_page_table ≫= λ t,
  on_phys (map_to (opt_offset t) allocate_frame (opt_table t) page frame flags) ≫= λ r,
  match r with Ok _ => mret () | Err _ => fail Explicit end.

(** The allocation shared by [map_ram_kernel] and [map_ram_user]. *)
Definition allocate_or_panic : M Kernel Z :=
  on_phys allocate_frame ≫= λ o,
  match o with
  | Some frame => mret frame
  | None =>
      gets (λ st, alloc (k_phys st)) ≫= λ a,
      liftr (log_memory_utilization a) ≫= λ _,
      fail Explicit
  end.

Definition map_ram_kernel (page flags : Z) : M Kernel Z :=
  liftr (ass ((v.KERNEL_START <=? page) && (page <? v.KERNEL_END))) ≫= λ _,
  allocate_or_panic ≫= λ frame,
  map_frame page (Z.lor flags PageTableFlags.PRESENT) frame ≫= λ _,
  mret frame.

Definition map_ram_user (page flags : Z) : M Kernel Z :=
  liftr (ass ((v.USER_START <=? page) && (page <? v.USER_END))) ≫= λ _,
  allocate_or_panic ≫= λ frame,
  map_frame page
    (Z.lor (Z.lor flags PageTableFlags.USER_ACCESSIBLE) PageTableFlags.PRESENT) frame ≫= λ _,
  mret frame.

Definition change_flags (page flags : Z) : M Kernel () :=
  get_active_l4_page_table ≫= λ t,
  on_dm (update_flags (opt_offset t) (opt_table t) page flags) ≫= λ r,
  match r with Ok _ => mret () | Err _ => fail Explicit end.

Definition unmap_page (page : Z) : M Kernel Z :=
  get_active_l4_page_table ≫= λ t,
  on_dm (unmap (opt_offset t) (opt_table t) page) ≫= λ r,
  match r with Ok frame => mret frame | Err _ => fail Explicit end.

Definition unmap_ram (page : Z) : M Kernel () :=
  unmap_page page ≫= λ frame, on_phys (deallocate_frame frame).

(** The pages from the one containing [start] to the one containing the last
    byte of [size] bytes, as the sources compute them. *)
Definition region_bounds (start size : Z) : res (Z * Z) :=
  VirtAddr_new start ≫= λ region_start,
  VirtAddr_add region_start size ≫= λ e,
  VirtAddr_sub e 1 ≫= λ region_end,
  Val (Page_containing_address region_start, Page_containing_address region_end).

Definition region_pages (start size : Z) : res (list Z) :=
  region_bounds start size ≫= λ '(first, last), Val (Page_range_inclusive first last).

Definition frame_buffer_flags : Z :=
  Z.lor (Z.lor (Z.lor (Z.lor PageTableFlags.PRESENT PageTableFlags.WRITABLE)
    PageTableFlags.NO_EXECUTE) PageTableFlags.WRITE_THROUGH) PageTableFlags.NO_CACHE.

(** [update_flags(..).unwrap()] on the active table. *)
Definition update_flags_unwrap (page flags : Z) : M Kernel () :=
  get_active_l4_page_table ≫= λ t,
  on_dm (update_flags (opt_offset t) (opt_table t) page flags) ≫= λ r,
  match r with Ok _ => mret () | Err _ => fail Unwrap end.

Definition set_frame_buffer_cache_to_write_combining (buffer_addr buffer_len : Z) : M Kernel () :=
  liftr (if buffer_len =? 0 then Fault Bounds else Val ()) ≫= λ _,
  liftr (region_pages buffer_addr buffer_len) ≫= λ page_range,
  for_each page_range (λ page, update_flags_unwrap page frame_buffer_flags).

(** [Memory::new], given the translation the bootloader set up. *)
Definition Memory_new (d : DM) (cr3 : Z) : res Kernel :=
  phys_to_virt cr3 ≫= λ l4_table,
  physical_memory_offset ≫= λ off,
  let translate p := match translate_page off l4_table p d with Ok f => Some f | Err _ => None end in
  BootInfoFrameAllocator_new translate d ≫= λ '(a, d'),
  Val (mkKernel (mkPhys a d') cr3 (mkOPT l4_table off)).
End Memory.

(** ** The invariant *)

(** Entry [i] of the table in frame [r]. *)
Definition entry_at (pmo : Z) (d : DM) (r : Z) (i : nat) : option PageTableEntry :=
  match d !! (pmo + r) with Some (CTable t) => t !! i | _ => None end.

(** The level-4 slots every address space shares. *)
Definition kernel_slot (i : nat) : Prop :=
  fst KERNEL_L4_PAGE_TABLE_RANGE ≤ Z.of_nat i < snd KERNEL_L4_PAGE_TABLE_RANGE.

#[export] Instance kernel_slot_dec i : Decision (kernel_slot i).
Proof. unfold kernel_slot. apply _. Defined.

(** [roots] are the frames of the existing level-4 tables, [l] the free frames. *)
Record kinv (pmo : Z) (st : Kernel) (roots l : list Z) : Prop := {
  ki_fa : fa_inv pmo (k_phys st) l;
  ki_active : k_cr3 st ∈ roots;
  ki_own : ∃ r, r ∈ roots ∧ kernel_page_table st = mkOPT (pmo + r) pmo;
  ki_roots r : r ∈ roots → frame_ok r ∧ r ∉ l ∧
    ∃ t, k_dm st !! (pmo + r) = Some (CTable t) ∧ length t = 512%nat;
  ki_subs r i e : r ∈ roots → entry_at pmo (k_dm st) r i = Some e → is_unused e = false →
    pte_addr e ∉ l ∧ ∃ m, k_dm st !! (pmo + pte_addr e) = Some (CSub m);
  ki_present r i e : r ∈ roots → entry_at pmo (k_dm st) r i = Some e → is_unused e = false →
    frame_ok (pte_addr e) ∧ pte_frame e = Ok (pte_addr e);
  ki_private r1 r2 i e1 e2 : r1 ∈ roots → r2 ∈ roots → r1 ≠ r2 → ¬ kernel_slot i →
    entry_at pmo (k_dm st) r1 i = Some e1 → entry_at pmo (k_dm st) r2 i = Some e2 →
    is_unused e1 = false → is_unused e2 = false → pte_addr e1 ≠ pte_addr e2;
  ki_shared r1 r2 i e1 e2 : r1 ∈ roots → r2 ∈ roots → kernel_slot i →
    entry_at pmo (k_dm st) r1 i = Some e1 → entry_at pmo (k_dm st) r2 i = Some e2 →
    is_unused e1 = is_unused e2 ∧ (is_unused e1 = false → pte_addr e1 = pte_addr e2) }.

(** The translation of [page] in the address space of root frame [r]. *)
Definition space (pmo : Z) (st : Kernel) (r page : Z) : option (Z * Z) :=
  walk pmo (k_dm st) (pmo + r) page.

Lemma kinv_table pmo st roots l r :
  kinv pmo st roots l → r ∈ roots →
  ∃ t, k_dm st !! (pmo + r) = Some (CTable t) ∧ length t = 512%nat ∧
    (∀ i, entry_at pmo (k_dm st) r i = t !! i).
Proof.
  intros Hk Hr. destruct (ki_roots _ _ _ _ Hk r Hr) as (_ & _ & t & Ht & Hlen).
  exists t. split_and!; [done..|]. intros i. unfold entry_at. by rewrite Ht.
Qed.

Lemma kinv_slot pmo st roots l r page :
  kinv pmo st roots l → r ∈ roots →
  ∃ e, entry_at pmo (k_dm st) r (l4_slot page) = Some e ∧ slot_ok pmo (k_dm st) e ∧
    space pmo st r page = leaves_of pmo (k_dm st) e !! page.
Proof.
  intros Hk Hr. destruct (kinv_table _ _ _ _ _ Hk Hr) as (t & Ht & Hlen & Hent).
  destruct (lookup_lt_is_Some_2 t (l4_slot page)) as [e He].
  { rewrite Hlen. apply l4_slot_lt. }
  exists e. rewrite Hent. split_and!; [done| |by apply (walk_leaves _ _ _ t)].
  destruct (is_unused e) eqn:Hu; [by left|right].
  split; [eapply (ki_present _ _ _ _ Hk r)|eapply (ki_subs _ _ _ _ Hk r)]; by rewrite ?Hent.
Qed.
