(* ===== verification/AddressSpace.v ===== *)
(** * Properties of the address spaces (src/kernel/src/memory.rs)

    How each operation of [Memory] changes every address space: the lemmas keep
    [kinv] and describe [space] afterwards.  On top of them an invariant of the
    user spaces, [user_inv], over every sequence of kernel steps [mem_step]
    gives the isolation of applications. *)

From S2P Require Import Prelude Constants Platform FrameAlloc Paging Memory.

(** ** Slots of user and kernel pages *)

Definition user_page (p : Z) : Prop := v.USER_START ≤ p < v.USER_END.

Lemma user_slot p : user_page p → l4_slot p = 0%nat.
Proof.
  intros Hp. unfold l4_slot, user_page in *.
  pose proof (l4_index_between 0 1 p ltac:(lia) ltac:(lia)) as Hl.
  change v.USER_START with 0 in Hp. change v.USER_END with (2 ^ 39) in Hp.
  specialize (Hl ltac:(lia)). lia.
Qed.

Lemma user_not_kernel p : user_page p → ¬ kernel_slot (l4_slot p).
Proof. intros Hp. rewrite user_slot by done. unfold kernel_slot. cbn. lia. Qed.

Lemma kernel_page_slot p : v.KERNEL_START ≤ p < v.KERNEL_END → kernel_slot (l4_slot p).
Proof.
  intros Hp. unfold kernel_slot, l4_slot. cbn [fst snd KERNEL_L4_PAGE_TABLE_RANGE].
  change v.KERNEL_START with (100 * 2 ^ 39) in Hp. change v.KERNEL_END with (116 * 2 ^ 39) in Hp.
  pose proof (l4_index_between 100 116 p ltac:(lia) ltac:(lia) Hp). lia.
Qed.

(** ** Changes that leave the level-4 tables alone *)

Lemma entry_at_ext pmo d d' r i :
  d' !! (pmo + r) = d !! (pmo + r) → entry_at pmo d' r i = entry_at pmo d r i.
Proof. unfold entry_at. by intros ->. Qed.

Lemma kinv_cells pmo st st' roots l l' :
  kinv pmo st roots l → fa_inv pmo (k_phys st') l' → k_cr3 st' ∈ roots →
  kernel_page_table st' = kernel_page_table st →
  (∀ r, r ∈ roots → r ∉ l' ∧ k_dm st' !! (pmo + r) = k_dm st !! (pmo + r)) →
  (∀ r i e, r ∈ roots → entry_at pmo (k_dm st) r i = Some e → is_unused e = false →
     pte_addr e ∉ l' ∧ ∃ m, k_dm st' !! (pmo + pte_addr e) = Some (CSub m)) →
  kinv pmo st' roots l'.
Proof.
  intros [] Hfa Ha Hkpt Hr He.
  assert (∀ r i, r ∈ roots → entry_at pmo (k_dm st') r i = entry_at pmo (k_dm st) r i) as Hent.
  { intros r i Hin. apply entry_at_ext. by apply Hr. }
  split; try done.
  - by rewrite Hkpt.
  - intros r Hin. destruct (Hr r Hin) as [? ->]. destruct (ki_roots r Hin) as (? & _ & ?). done.
  - intros r i e Hin. rewrite Hent by done. by apply He.
  - intros r i e Hin. rewrite Hent by done. by apply ki_present.
  - intros r1 r2 i e1 e2 H1 H2. rewrite !Hent by done. by apply ki_private.
  - intros r1 r2 i e1 e2 H1 H2. rewrite !Hent by done. by apply ki_shared.
Qed.

(** A table of a root is never the lower table of an entry. *)
Lemma kinv_root_sub pmo st roots l r r' i e :
  kinv pmo st roots l → r ∈ roots → r' ∈ roots →
  entry_at pmo (k_dm st) r' i = Some e → is_unused e = false → pte_addr e ≠ r.
Proof.
  intros Hk Hr Hr' He Hu Heq. destruct (kinv_table _ _ _ _ _ Hk Hr) as (t & Ht & _).
  destruct (ki_subs _ _ _ _ Hk _ _ _ Hr' He Hu) as (_ & m & Hm). rewrite Heq in Hm. congruence.
Qed.

(** Two spaces that reach [page] through the same lower tables. *)
Definition same_table (pmo : Z) (d : DM) (a r page : Z) : Prop :=
  r = a ∨ ∃ ea er, entry_at pmo d a (l4_slot page) = Some ea ∧
    entry_at pmo d r (l4_slot page) = Some er ∧
    is_unused ea = false ∧ is_unused er = false ∧ pte_addr er = pte_addr ea.

#[export] Instance same_table_dec pmo d a r page : Decision (same_table pmo d a r page).
Proof.
  unfold same_table. destruct (decide (r = a)) as [->|Hne]; [by left; left|].
  destruct (entry_at pmo d a (l4_slot page)) as [ea|]; [|right; naive_solver].
  destruct (entry_at pmo d r (l4_slot page)) as [er|]; [|right; naive_solver].
  destruct (decide (is_unused ea = false ∧ is_unused er = false ∧ pte_addr er = pte_addr ea));
    [left; right; eauto|right; naive_solver].
Defined.

Lemma same_table_user pmo st roots l a r page :
  kinv pmo st roots l → a ∈ roots → r ∈ roots → user_page page →
  same_table pmo (k_dm st) a r page ↔ r = a.
Proof.
  intros Hk Ha Hr Hp. split; [|by left].
  intros [?|(ea & er & Hea & Her & Hua & Hur & Heq)]; [done|].
  destruct (decide (r = a)) as [|Hne]; [done|].
  by destruct (ki_private _ _ _ _ Hk r a _ _ _ Hr Ha Hne (user_not_kernel _ Hp) Her Hea).
Qed.

Lemma same_table_kernel pmo st roots l a r page ea :
  kinv pmo st roots l → a ∈ roots → r ∈ roots → kernel_slot (l4_slot page) →
  entry_at pmo (k_dm st) a (l4_slot page) = Some ea → is_unused ea = false →
  same_table pmo (k_dm st) a r page.
Proof.
  intros Hk Ha Hr Hs Hea Hu. right.
  destruct (kinv_slot _ _ _ _ r page Hk Hr) as (er & Her & _).
  destruct (ki_shared _ _ _ _ Hk a r _ _ _ Ha Hr Hs Hea Her) as [Hus Hadd].
  exists ea, er. split_and!; [done..| |]; [congruence|by rewrite Hadd].
Qed.

(** Rewriting the leaf of [page] in the space of [a]. *)
Section SubUpdate.
Context (pmo : Z) (st : Kernel) (roots l : list Z) (Hk : kinv pmo st roots l).
Context (a page : Z) (Ha : a ∈ roots) (e : PageTableEntry) (m' : gmap Z (Z * Z)).
Context (He : entry_at pmo (k_dm st) a (l4_slot page) = Some e) (Hu : is_unused e = false).
Context (Hm' : ∀ p, p ≠ page → m' !! p = leaves_of pmo (k_dm st) e !! p).

Definition sub_updated : Kernel :=
  put_phys (with_dm <[pmo + pte_addr e := CSub m']> (k_phys st)) st.

Lemma sub_updated_kinv : kinv pmo sub_updated roots l.
Proof using Hk Ha He Hu.
  destruct (ki_subs _ _ _ _ Hk _ _ _ Ha He Hu) as (Hl & m & Hm).
  apply (kinv_cells _ st _ _ l); [done| |by apply (ki_active _ _ _ _ Hk)|done| |].
  - apply (fa_inv_ext _ _ (<[_:=_]> (k_dm st))); [|by apply ki_fa with roots].
    intros f Hf. apply lookup_insert_ne. intros Heq. assert (pte_addr e = f) as <- by lia. done.
  - intros r Hr. split; [by apply (ki_roots _ _ _ _ Hk)|]. apply lookup_insert_ne.
    pose proof (kinv_root_sub _ _ _ _ _ _ _ _ Hk Hr Ha He Hu). lia.
  - intros r j e2 Hr He2 Hu2. destruct (ki_subs _ _ _ _ Hk _ _ _ Hr He2 Hu2) as (Hl2 & m2 & Hm2).
    split; [done|]. unfold k_dm. cbn.
    destruct (decide (pte_addr e = pte_addr e2)) as [->|Hne];
      [rewrite lookup_insert_eq|rewrite lookup_insert_ne by lia]; eauto.
Qed.

Lemma sub_updated_space r p :
  r ∈ roots →
  space pmo sub_updated r p =
    if decide (p = page ∧ same_table pmo (k_dm st) a r page) then m' !! page
    else space pmo st r p.
Proof using All.
  intros Hr. destruct (kinv_table _ _ _ _ _ Hk Hr) as (t & Ht & Hlen & Hent).
  destruct (kinv_slot _ _ _ _ r p Hk Hr) as (e2 & He2 & _ & ->).
  assert (k_dm sub_updated !! (pmo + r) = Some (CTable t)) as Ht'.
  { unfold k_dm. cbn. rewrite lookup_insert_ne; [done|].
    pose proof (kinv_root_sub _ _ _ _ _ _ _ _ Hk Hr Ha He Hu). lia. }
  unfold space. rewrite (walk_leaves _ _ _ t e2) by (by rewrite <-?Hent).
  unfold leaves_of. destruct (is_unused e2) eqn:Hu2.
  - rewrite decide_False; [done|].
    intros (-> & [->|(? & ? & ? & ? & ? & ? & ?)]); congruence.
  - unfold k_dm. cbn. destruct (decide (pte_addr e2 = pte_addr e)) as [Heq|Hne].
    + rewrite Heq, lookup_insert_eq. cbn. case_decide as Hd; [by destruct Hd as [-> _]|].
      rewrite Hm'; [unfold leaves_of; by rewrite Hu, <-?Heq|].
      intros ->. apply Hd. split; [done|]. right. eauto 10.
    + rewrite lookup_insert_ne by lia. rewrite decide_False; [done|].
      intros (-> & [->|(? & ? & ? & ? & ? & ? & ?)]); change (dm (k_phys st)) with (k_dm st) in *; congruence.
Qed.
End SubUpdate.

(** ** The effect of a successful [map_to] on every address space *)

(** The effect of mapping [page] in the active space; [l'] is what is left of
    the free list. *)
Record mapped_to (pmo : Z) (st : Kernel) (roots l : list Z) (page fr flags : Z)
    (st' : Kernel) (l' : list Z) : Prop := {
  mt_kinv : kinv pmo st' roots l';
  mt_cr3 : k_cr3 st' = k_cr3 st;
  mt_kpt : kernel_page_table st' = kernel_page_table st;
  mt_total : total_frames (alloc (k_phys st')) = total_frames (alloc (k_phys st));
  mt_free : ∃ k, (k ≤ 3)%nat ∧ l' = drop k l;
  mt_space r p : r ∈ roots → space pmo st' r p =
    if decide (p = page ∧ same_table pmo (k_dm st) (k_cr3 st) r page)
    then Some (fr, flags) else space pmo st r p;
  mt_cells f : f ∉ l → f ∉ roots → (∀ r i e, r ∈ roots →
      entry_at pmo (k_dm st) r i = Some e → is_unused e = false → f ≠ pte_addr e) →
    k_dm st' !! (pmo + f) = k_dm st !! (pmo + f);
  mt_tables r i e : r ∈ roots → entry_at pmo (k_dm st') r i = Some e → is_unused e = false →
    pte_addr e ∈ l ∨ ∃ r0 i0 e0, r0 ∈ roots ∧ entry_at pmo (k_dm st) r0 i0 = Some e0 ∧
      is_unused e0 = false ∧ pte_addr e0 = pte_addr e;
  mt_used r i e : r ∈ roots → entry_at pmo (k_dm st) r i = Some e → is_unused e = false →
    ∃ e', entry_at pmo (k_dm st') r i = Some e' ∧ is_unused e' = false }.

Section MapEffect.
Context `{Profile} `{X86AddrLaws} `{BootOk pmo} `{Mapper} `{!MapperLaws pmo}.
Context (st : Kernel) (roots l : list Z) (Hk : kinv pmo st roots l).
Context (a : Z) (Ha : a ∈ roots).                       (* the space being changed *)
Context (t : list PageTableEntry) (e : PageTableEntry) (page fr flags : Z) (ph' : Phys).
Context (Ht : k_dm st !! (pmo + a) = Some (CTable t)) (He : t !! l4_slot page = Some e).
Context (Hpost : map_to_post pmo (pmo + a) page fr flags t e (k_phys st) l ph').

Lemma map_post_root r : r ∈ roots → r ≠ a → dm ph' !! (pmo + r) = k_dm st !! (pmo + r).
Proof using All.
  intros Hr Hne. destruct Hpost as (k & e' & _ & _ & _ & Hu' & _ & Haddr & _ & _ & Hframe).
  destruct (ki_roots _ _ _ _ Hk r Hr) as (_ & Hrl & tr & Htr & _).
  assert (∀ f, f ∈ take k l → r ≠ f) as Htake.
  { intros f Hf%elem_of_take_l ->. by apply Hrl. }
  apply Hframe; [lia| |intros f Hf; specialize (Htake f Hf); lia].
  destruct (is_unused e) eqn:Hu; [specialize (Htake _ Haddr); lia|].
  rewrite Haddr. intros Heq.
  destruct (ki_subs _ _ _ _ Hk a (l4_slot page) e) as [_ [m Hm]];
    [done|unfold entry_at; by rewrite Ht|done|].
  rewrite <-Heq, Htr in Hm. done.
Qed.

(** A used entry of an old table: its leaves change only if it points at the
    tables that were extended. *)
Lemma map_post_leaves r i e0 e' :
  r ∈ roots → entry_at pmo (k_dm st) r i = Some e0 → is_unused e0 = false →
  entry_at pmo (dm ph') a (l4_slot page) = Some e' →
  leaves_of pmo (dm ph') e0 =
    if decide (is_unused e = false ∧ pte_addr e0 = pte_addr e)
    then <[page := (fr, flags)]> (leaves_of pmo (k_dm st) e0)
    else leaves_of pmo (k_dm st) e0.
Proof using All.
  intros Hr He0 Hu0 He'.
  destruct Hpost as (k & e1 & _ & _ & _ & Hu' & _ & Haddr & Htab & Hsub & Hframe).
  assert (e' = e1) as ->.
  { unfold entry_at in He'. rewrite Htab, list_lookup_insert_eq in He'; [congruence|].
    by eapply lookup_lt_Some. }
  destruct (ki_subs _ _ _ _ Hk r i e0) as [Hl0 [m0 Hm0]]; [done..|].
  assert (∀ f, f ∈ take k l → pte_addr e0 ≠ f) as Htake.
  { intros f Hf%elem_of_take_l Heq. subst f. by apply Hl0. }
  assert (pmo + pte_addr e0 ≠ pmo + a) as Hna.
  { intros Heq. rewrite Heq, Ht in Hm0. done. }
  case_decide as Hdec.
  - destruct Hdec as [Hu Heq]. rewrite Hu in Haddr.
    unfold leaves_of at 1. rewrite Hu0. rewrite Heq, <-Haddr, Hsub.
    unfold leaves_of. by rewrite Hu, Hu0, Heq.
  - unfold leaves_of. rewrite Hu0. rewrite Hframe; [done|done| |].
    + destruct (is_unused e) eqn:Hu; [specialize (Htake _ Haddr); lia|].
      rewrite Haddr. intros Heq. apply Hdec. split; [done|lia].
    + intros f Hf. specialize (Htake f Hf). lia.
Qed.

Lemma map_post_entry :
  ∃ e', entry_at pmo (dm ph') a (l4_slot page) = Some e' ∧ is_unused e' = false ∧
    leaves_of pmo (dm ph') e' = <[page := (fr, flags)]> (leaves_of pmo (k_dm st) e) ∧
    (∀ i, i ≠ l4_slot page → entry_at pmo (dm ph') a i = entry_at pmo (k_dm st) a i).
Proof using Ht He Hpost.
  destruct Hpost as (k & e1 & _ & _ & _ & Hu' & _ & Haddr & Htab & Hsub & Hframe).
  exists e1. unfold entry_at. rewrite Htab, Ht. split_and!; [|done| |].
  - apply list_lookup_insert_eq. by eapply lookup_lt_Some.
  - unfold leaves_of at 1. by rewrite Hu', Hsub.
  - intros i Hi. by apply list_lookup_insert_ne.
Qed.

(** Every translation after the mapping. *)
Lemma map_post_walk r page' :
  r ∈ roots →
  walk pmo (dm ph') (pmo + r) page' =
    if decide (page' = page ∧ same_table pmo (k_dm st) a r page)
    then Some (fr, flags) else space pmo st r page'.
Proof using All.
  intros Hr. destruct map_post_entry as (e' & He' & Hu' & Hlv' & Hother).
  destruct (kinv_slot _ _ _ _ r page' Hk Hr) as (e0 & He0 & _ & ->).
  destruct (decide (r = a ∧ l4_slot page' = l4_slot page)) as [[-> Hs]|Hne].
  - (* the changed slot of the changed table *)
    rewrite Hs in He0. unfold entry_at in He', He0. rewrite Ht, He in He0. injection He0 as <-.
    destruct (dm ph' !! (pmo + a)) as [[]|] eqn:Htab; try done.
    rewrite (walk_leaves _ _ _ entries e'), Hlv' by (by rewrite ?Hs).
    case_decide as Hd.
    + destruct Hd as [-> _]. apply lookup_insert_eq.
    + apply lookup_insert_ne. intros <-. apply Hd. split; [done|by left].
  - (* an entry that is not written *)
    assert (entry_at pmo (dm ph') r (l4_slot page') = Some e0) as He0'.
    { destruct (decide (r = a)) as [->|Hra].
      - rewrite Hother; [done|]. intros Heq. by apply Hne.
      - unfold entry_at in *. by rewrite map_post_root. }
    unfold entry_at in He0'.
    destruct (dm ph' !! (pmo + r)) as [[]|] eqn:Htab; try done.
    rewrite (walk_leaves _ _ _ entries e0) by done.
    destruct (is_unused e0) eqn:Hu0.
    + unfold leaves_of. rewrite Hu0, lookup_empty. rewrite decide_False; [done|].
      intros (-> & [->|(? & ? & ? & ? & ? & ? & ?)]); [by apply Hne|congruence].
    + rewrite (map_post_leaves r _ e0 e' Hr He0 Hu0 He').
      destruct (decide (page' = page)) as [->|Hp].
      * assert (entry_at pmo (k_dm st) a (l4_slot page) = Some e) as Hea
          by (unfold entry_at; by rewrite Ht).
        case_decide as Hd1; case_decide as Hd2; try done.
        -- apply lookup_insert_eq.
        -- exfalso. apply Hd2. split; [done|right]. destruct Hd1. eauto 10.
        -- exfalso. destruct Hd2 as [_ [->|(? & ? & ? & ? & ? & ? & ?)]]; [by apply Hne|].
           apply Hd1. split; congruence.
      * rewrite (decide_False (P := page' = page ∧ _)) by (intros [? _]; done). case_decide; [|done].
        by rewrite lookup_insert_ne.
Qed.
(** The level-4 entries after the mapping, and the lower tables they point at. *)
Lemma map_post_tables :
  ∃ k e', (k ≤ 3)%nat ∧ fa_inv pmo ph' (drop k l) ∧
    total_frames (alloc ph') = total_frames (alloc (k_phys st)) ∧ is_unused e' = false ∧
    (frame_ok (pte_addr e') ∧ pte_frame e' = Ok (pte_addr e')) ∧
    (if is_unused e then pte_addr e' ∈ l else pte_addr e' = pte_addr e) ∧
    pte_addr e' ∉ drop k l ∧
    (∃ m, dm ph' !! (pmo + pte_addr e') = Some (CSub m)) ∧
    (∀ r i, r ∈ roots → entry_at pmo (dm ph') r i =
       if decide (r = a ∧ i = l4_slot page) then Some e' else entry_at pmo (k_dm st) r i) ∧
    (∀ r i e0, r ∈ roots → entry_at pmo (k_dm st) r i = Some e0 → is_unused e0 = false →
       ∃ m, dm ph' !! (pmo + pte_addr e0) = Some (CSub m)).
Proof using All.
  destruct map_post_entry as (e' & He' & Hu' & _ & Hother).
  destruct Hpost as (k & e1 & Hk3 & Hfa & Htot & _ & Hpr & Haddr & Htab & Hsub & Hframe).
  assert (e' = e1) as <-.
  { unfold entry_at in He'. rewrite Htab, list_lookup_insert_eq in He'; [congruence|].
    by eapply lookup_lt_Some. }
  assert (∀ f, f ∈ take k l → f ∈ l) as Htake by (intros f; apply elem_of_take_l).
  assert (entry_at pmo (k_dm st) a (l4_slot page) = Some e) as Hea by (unfold entry_at; by rewrite Ht).
  exists k, e'. split_and!; [done..| | | | |by eexists| |].
  - destruct (is_unused e) eqn:Hu; [|rewrite Haddr; by eapply (ki_present _ _ _ _ Hk)].
    pose proof (fa_frames _ _ _ (ki_fa _ _ _ _ Hk)) as Hok. rewrite Forall_forall in Hok. by apply Hok, Htake.
  - done.
  - destruct (is_unused e); [by apply Htake|done].
  - destruct (is_unused e) eqn:Hu.
    + pose proof (fa_nodup _ _ _ (ki_fa _ _ _ _ Hk)) as Hnd.
      rewrite <-(take_drop k l) in Hnd. apply NoDup_app in Hnd as (_ & Hnd & _). by apply Hnd.
    + rewrite Haddr. intros Hin. apply (ki_subs _ _ _ _ Hk _ _ _ Ha Hea Hu).
      by apply (elem_of_drop_l k).
  - intros r i Hr. case_decide as Hd; [by destruct Hd as [-> ->]|].
    destruct (decide (r = a)) as [->|Hra]; [apply Hother; intros ->; by apply Hd|].
    apply entry_at_ext. by apply map_post_root.
  - intros r i e0 Hr He0 Hu0. destruct (ki_subs _ _ _ _ Hk _ _ _ Hr He0 Hu0) as (Hl0 & m & Hm).
    destruct (decide (pte_addr e0 = pte_addr e')) as [->|Hne]; [by eexists|].
    exists m. rewrite Hframe; [done| |lia|].
    + pose proof (kinv_root_sub _ _ _ _ _ _ _ _ Hk Ha Hr He0 Hu0). lia.
    + intros f Hf Heq. apply Hl0. replace (pte_addr e0) with f by lia. by apply Htake.
Qed.

(** The lower tables of an application stay its own. *)
Lemma map_post_private r1 r2 i e1 e2 :
  r1 ∈ roots → r2 ∈ roots → r1 ≠ r2 → ¬ kernel_slot i →
  entry_at pmo (dm ph') r1 i = Some e1 → entry_at pmo (dm ph') r2 i = Some e2 →
  is_unused e1 = false → is_unused e2 = false → pte_addr e1 ≠ pte_addr e2.
Proof using All.
  intros Hr1 Hr2 Hne Hs.
  destruct map_post_tables as (k & e' & _ & _ & _ & _ & _ & Haddr & _ & _ & Hent & _). rewrite !Hent by done.
  assert (entry_at pmo (k_dm st) a (l4_slot page) = Some e) as Hea by (unfold entry_at; by rewrite Ht).
  assert (∀ r e0, r ∈ roots → r ≠ a → i = l4_slot page → entry_at pmo (k_dm st) r i = Some e0 →
    is_unused e0 = false → pte_addr e' ≠ pte_addr e0) as Hfresh.
  { intros r e0 Hr Hra -> He0 Hu0. destruct (is_unused e) eqn:Hu.
    - intros Heq. apply (ki_subs _ _ _ _ Hk _ _ _ Hr He0 Hu0). by rewrite <-Heq.
    - rewrite Haddr. by apply (ki_private _ _ _ _ Hk a r _ _ _ Ha Hr (not_eq_sym Hra) Hs Hea He0). }
  case_decide as Hd1; case_decide as Hd2.
  - destruct Hd1 as [-> _], Hd2 as [-> _]. done.
  - intros [= <-] He2 _ Hu2. destruct Hd1 as [-> Hi]. by eapply (Hfresh r2).
  - intros He1 [= <-] Hu1 _. destruct Hd2 as [-> Hi]. apply not_eq_sym. by eapply (Hfresh r1).
  - by apply (ki_private _ _ _ _ Hk).
Qed.

(** A kernel slot stays shared, provided it is in use already or no other space
    exists yet. *)
Lemma map_post_shared r1 r2 i e1 e2 :
  (kernel_slot (l4_slot page) → is_unused e = false ∨ roots = [a]) →
  r1 ∈ roots → r2 ∈ roots → kernel_slot i →
  entry_at pmo (dm ph') r1 i = Some e1 → entry_at pmo (dm ph') r2 i = Some e2 →
  is_unused e1 = is_unused e2 ∧ (is_unused e1 = false → pte_addr e1 = pte_addr e2).
Proof using All.
  intros Hslot Hr1 Hr2 Hs.
  destruct map_post_tables as (k & e' & _ & _ & _ & Hu' & _ & Haddr & _ & _ & Hent & _).
  assert (entry_at pmo (k_dm st) a (l4_slot page) = Some e) as Hea by (unfold entry_at; by rewrite Ht).
  assert (∀ r x, r ∈ roots → entry_at pmo (dm ph') r i = Some x → roots = [a] ∨
    ∃ x0, entry_at pmo (k_dm st) r i = Some x0 ∧ is_unused x0 = is_unused x ∧
          pte_addr x0 = pte_addr x) as Hsame.
  { intros r x Hr. rewrite Hent by done. case_decide as Hd; [|by eauto].
    destruct Hd as [-> ->]. intros [= <-]. destruct (Hslot Hs) as [Hu|]; [right|by left].
    rewrite Hu in Haddr. exists e. by rewrite Hu, Hu', Haddr. }
  intros He1 He2. destruct (decide (roots = [a])) as [Hone|Hne].
  { rewrite Hone in Hr1, Hr2. apply list_elem_of_singleton in Hr1, Hr2.
    assert (e1 = e2) as -> by congruence. by split. }
  destruct (Hsame r1 e1 Hr1 He1) as [|(x1 & Hx1 & <- & <-)]; [done|].
  destruct (Hsame r2 e2 Hr2 He2) as [|(x2 & Hx2 & <- & <-)]; [done|].
  by apply (ki_shared _ _ _ _ Hk r1 r2 i).
Qed.

(** Mapping keeps the invariant. *)
Lemma map_post_kinv :
  (kernel_slot (l4_slot page) → is_unused e = false ∨ roots = [a]) →
  ∃ k, (k ≤ 3)%nat ∧ kinv pmo (put_phys ph' st) roots (drop k l).
Proof using All.
  intros Hslot.
  destruct map_post_tables as (k & e' & Hk3 & Hfa & _ & Hu' & Hpr & _ & Hnl & Hm' & Hent & Hold).
  pose proof (elem_of_drop_l k l) as Hdrop.
  exists k. split; [done|]. split; [done|by apply (ki_active _ _ _ _ Hk)|by apply (ki_own _ _ _ _ Hk)| | | | |].
  - intros r Hr. destruct (ki_roots _ _ _ _ Hk r Hr) as (Hok & Hrl & _).
    split_and!; [done|by intros ?%Hdrop|]. unfold k_dm. cbn.
    destruct (decide (r = a)) as [->|Hra].
    + destruct Hpost as (? & e1 & _ & _ & _ & _ & _ & _ & -> & _). eexists. split; [done|].
      rewrite length_insert. destruct (kinv_table _ _ _ _ _ Hk Ha) as (t0 & Ht0 & ? & _). congruence.
    + rewrite map_post_root by done. by apply (ki_roots _ _ _ _ Hk r Hr).
  - intros r i e0 Hr. unfold k_dm. cbn. rewrite Hent by done. case_decide as Hd.
    + intros [= <-] _. done.
    + intros He0 Hu0. destruct (ki_subs _ _ _ _ Hk _ _ _ Hr He0 Hu0) as (Hl0 & _).
      split; [by intros ?%Hdrop|]. by eapply Hold.
  - intros r i e0 Hr. unfold k_dm. cbn. rewrite Hent by done. case_decide; [by intros [= <-] _|].
    by apply (ki_present _ _ _ _ Hk).
  - intros r1 r2 i e1 e2. apply map_post_private.
  - intros r1 r2 i e1 e2. by apply map_post_shared.
Qed.

Lemma map_post_mapped_to :
  a = k_cr3 st →
  (kernel_slot (l4_slot page) → is_unused e = false ∨ roots = [a]) →
  ∃ l', mapped_to pmo st roots l page fr flags (put_phys ph' st) l'.
Proof using All.
  intros Haa Hslot. destruct (map_post_kinv Hslot) as (k & Hk3 & Hk').
  assert (entry_at pmo (k_dm st) a (l4_slot page) = Some e) as Hea by (unfold entry_at; by rewrite Ht).
  exists (drop k l). split; [done..|by destruct Hpost as (? & ? & ? & ? & ? & _)|by eexists| | | |].
  - intros r p Hr. rewrite <-Haa. by apply map_post_walk.
  - intros f Hfl Hfr Hfe. destruct Hpost as (k0 & e1 & _ & _ & _ & _ & _ & Haddr & _ & _ & Hframe).
    assert (∀ g, g ∈ take k0 l → f ≠ g) as Htake.
    { intros g Hg%elem_of_take_l ->. by apply Hfl. }
    apply Hframe; [intros ?; assert (f = a) as -> by lia; done| |intros g Hg; specialize (Htake g Hg); lia].
    destruct (is_unused e) eqn:Hu; [specialize (Htake _ Haddr); lia|].
    rewrite Haddr. specialize (Hfe _ _ _ Ha Hea Hu). lia.
  - intros r i e2 Hr. destruct map_post_tables as (_ & e' & _ & _ & _ & Hu' & _ & Haddr & _ & _ & Hent & _).
    unfold k_dm at 1. cbn. rewrite Hent by done. case_decide as Hd; [|by right; eauto 10].
    intros [= <-] _. destruct (is_unused e) eqn:Hu; [by left|right]. eauto 10.
  - intros r i e2 Hr He2 Hu2. destruct map_post_tables as (_ & e' & _ & _ & _ & Hu' & _ & _ & _ & _ & Hent & _).
    unfold k_dm. cbn. rewrite Hent by done. case_decide as Hd; [by exists e'|by exists e2].
Qed.
End MapEffect.

(** ** Operations of [Memory] *)

(** A kernel page may be mapped when its slot is in use, so that every space
    sees the mapping, or when no other space exists yet. *)
Definition mappable (pmo : Z) (st : Kernel) (roots : list Z) (page : Z) : Prop :=
  kernel_slot (l4_slot page) →
  (∃ e, entry_at pmo (k_dm st) (k_cr3 st) (l4_slot page) = Some e ∧ is_unused e = false) ∨
  roots = [k_cr3 st].

Lemma mappable_user pmo st roots page : user_page page → mappable pmo st roots page.
Proof. intros Hp Hs. by destruct (user_not_kernel _ Hp). Qed.

Section Operations.
Context `{Profile} `{X86AddrLaws} `{BootOk pmo} `{Mapper} `{!MapperLaws pmo}.

Lemma frame_ptr r : frame_ok r → phys_to_virt r = Val (pmo + r).
Proof. intros [? _]. by apply phys_to_virt_val. Qed.

Lemma get_active_run st roots l :
  kinv pmo st roots l →
  get_active_l4_page_table st = Val (mkOPT (pmo + k_cr3 st) pmo, st).
Proof.
  intros Hk. destruct (ki_roots _ _ _ _ Hk _ (ki_active _ _ _ _ Hk)) as (Hok & _).
  unfold get_active_l4_page_table, active_level_4_table, page_table_from_frame.
  unfold mbind, M_bind, gets. unfold liftr. rewrite frame_ptr by done.
  by rewrite physical_memory_offset_val.
Qed.

Lemma map_frame_effect st roots l page fr flags :
  kinv pmo st roots l → mappable pmo st roots page →
  match space pmo st (k_cr3 st) page with
  | Some _ => map_frame page flags fr st = Fault Explicit
  | None =>
      (map_frame page flags fr st = Fault Explicit ∧ (length l < 3)%nat) ∨
      ∃ st' l', map_frame page flags fr st = Val ((), st') ∧
        mapped_to pmo st roots l page fr flags st' l'
  end.
Proof.
  intros Hk Hmap. pose proof (ki_active _ _ _ _ Hk) as Ha.
  destruct (kinv_table _ _ _ _ _ Hk Ha) as (t & Ht & _ & Hent).
  destruct (kinv_slot _ _ _ _ _ page Hk Ha) as (e & He & Hok & _).
  assert (t !! l4_slot page = Some e) as Het by (by rewrite <-Hent).
  assert (is_unused e = false → pte_addr e ∉ l) as Hl
    by (intros Hu; by apply (ki_subs _ _ _ _ Hk _ _ _ Ha He Hu)).
  assert (∀ r, map_to pmo allocate_frame (pmo + k_cr3 st) page fr flags (k_phys st) = r →
    map_frame page flags fr st = match r with
      | Val (Ok _, ph') => Val ((), put_phys ph' st)
      | Val (Err _, _) => Fault Explicit | Fault f => Fault f end) as Hrun.
  { intros r Hr. unfold map_frame. rewrite (M_bind_run _ _ _ _ _ (get_active_run _ _ _ Hk)).
    unfold on_phys, zoom, mbind, M_bind. cbn [opt_offset opt_table]. rewrite Hr.
    by destruct r as [[[] ph']|]. }
  destruct (space pmo st (k_cr3 st) page) as [x|] eqn:Hsp.
  - destruct (map_to_mapped (pmo + k_cr3 st) page fr flags (k_phys st) t e)
      as (err & ph' & Hr); [by eapply Ht|done..| |].
    { unfold space, k_dm in Hsp. by rewrite Hsp. }
    by rewrite (Hrun _ Hr).
  - destruct (map_to_unmapped (pmo + k_cr3 st) page fr flags (k_phys st) l t e)
      as (r & ph' & Hr & Hpost); [by eapply ki_fa| |done..|].
    { intros f Hf Heq. assert (k_cr3 st = f) as <- by lia.
      by destruct (ki_roots _ _ _ _ Hk _ Ha) as (_ & ? & _). }
    rewrite (Hrun _ Hr). destruct r as [[]|err]; [right|left; by destruct Hpost].
    destruct (map_post_mapped_to st roots l Hk (k_cr3 st) Ha t e page fr flags ph')
      as (l' & Hm); [done..| |by eexists _, _].
    intros Hs. destruct (Hmap Hs) as [(e2 & He2 & Hu2)|?]; [left; congruence|by right].
Qed.

Lemma allocate_or_panic_nil st roots :
  kinv pmo st roots [] → allocate_or_panic st = Fault Explicit.
Proof.
  intros Hk. pose proof (ki_fa _ _ _ _ Hk) as Hfa. unfold allocate_or_panic.
  rewrite (M_bind_run _ _ _ None st); cycle 1.
  { unfold on_phys, zoom. rewrite (allocate_frame_nil (pmo:=pmo)) by done. by destruct st. }
  unfold gets, mbind, M_bind. by rewrite (liftr_run _ _ _ (log_memory_utilization_val _ _ Hfa)).
Qed.

Lemma allocate_or_panic_cons st roots f l :
  kinv pmo st roots (f :: l) →
  ∃ st1, allocate_or_panic st = Val (f, st1) ∧ kinv pmo st1 roots l ∧ k_dm st1 = k_dm st ∧
    k_cr3 st1 = k_cr3 st ∧ kernel_page_table st1 = kernel_page_table st ∧
    total_frames (alloc (k_phys st1)) = total_frames (alloc (k_phys st)).
Proof.
  intros Hk. destruct (allocate_frame_cons _ _ _ (ki_fa _ _ _ _ Hk)) as (ph1 & Hr & Hfa & Hdm & Ht).
  exists (put_phys ph1 st). split_and!; [|  |done..].
  - unfold allocate_or_panic. by rewrite (M_bind_run _ _ _ (Some f) (put_phys ph1 st))
      by (unfold on_phys, zoom; by rewrite Hr).
  - assert (k_dm (put_phys ph1 st) = k_dm st) as Hd by done.
    apply (kinv_cells _ st _ _ (f :: l)); [done..|by apply (ki_active _ _ _ _ Hk)|done| |].
    + intros r Hrt. destruct (ki_roots _ _ _ _ Hk r Hrt) as (_ & ? & _). rewrite Hd. set_solver.
    + intros r i e Hrt He Hu. rewrite Hd.
      destruct (ki_subs _ _ _ _ Hk _ _ _ Hrt He Hu) as (? & ?). split; [set_solver|done].
Qed.

Lemma mapped_to_ext st1 st roots l page fr flags st' l' :
  k_dm st1 = k_dm st → k_cr3 st1 = k_cr3 st → kernel_page_table st1 = kernel_page_table st →
  total_frames (alloc (k_phys st1)) = total_frames (alloc (k_phys st)) →
  mapped_to pmo st1 roots l page fr flags st' l' → mapped_to pmo st roots l page fr flags st' l'.
Proof.
  intros Hd Hc Hkpt Ht []. unfold space in *. rewrite Hd, ?Hc in *.
  split; try done; congruence.
Qed.

(** [map_ram_kernel] and [map_ram_user] after their range check. *)
Definition map_ram (page flags : Z) : M Kernel Z :=
  allocate_or_panic ≫= λ frame, map_frame page flags frame ≫= λ _, mret frame.

Lemma map_ram_effect st roots l page flags :
  kinv pmo st roots l → mappable pmo st roots page →
  match l, space pmo st (k_cr3 st) page with
  | f :: l0, None =>
      (map_ram page flags st = Fault Explicit ∧ (length l0 < 3)%nat) ∨
      ∃ st' l', map_ram page flags st = Val (f, st') ∧
        mapped_to pmo st roots l0 page f flags st' l'
  | _, _ => map_ram page flags st = Fault Explicit
  end.
Proof.
  intros Hk Hmap. unfold map_ram. destruct l as [|f l0].
  { apply M_bind_fault. by apply (allocate_or_panic_nil _ roots). }
  destruct (allocate_or_panic_cons _ _ _ _ Hk) as (st1 & Hr & Hk1 & Hd & Hc & Hkpt & Ht).
  rewrite (M_bind_run _ _ _ _ _ Hr).
  assert (mappable pmo st1 roots page) as Hmap1 by (unfold mappable; by rewrite Hd, Hc).
  pose proof (map_frame_effect st1 roots l0 page f flags Hk1 Hmap1) as He.
  unfold space in *. rewrite Hc, Hd in He.
  destruct (walk pmo (k_dm st) (pmo + k_cr3 st) page); [by apply M_bind_fault|].
  destruct He as [[He Hlen]|(st' & l' & He & Hm)]; [left|right].
  - split; [by apply M_bind_fault|done].
  - exists st', l'. rewrite (M_bind_run _ _ _ _ _ He). split; [done|].
    by apply (mapped_to_ext st1).
Qed.

(** In a slot that is not in use the active space gets tables of its own: the
    other spaces do not see the page. *)
Lemma map_ram_unused st roots l page flags f st' e r :
  kinv pmo st roots l → map_ram page flags st = Val (f, st') →
  entry_at pmo (k_dm st) (k_cr3 st) (l4_slot page) = Some e → is_unused e = true →
  r ∈ roots → r ≠ k_cr3 st →
  space pmo st' r page = space pmo st r page ∧ space pmo st' (k_cr3 st) page = Some (f, flags).
Proof.
  intros Hk Hrun He Hu Hr Hne. unfold map_ram in Hrun. destruct l as [|f0 l0].
  { by rewrite (M_bind_fault _ _ _ _ (allocate_or_panic_nil _ roots Hk)) in Hrun. }
  destruct (allocate_or_panic_cons _ _ _ _ Hk) as (st1 & Hr1 & Hk1 & Hd & Hc & _ & _).
  rewrite (M_bind_run _ _ _ _ _ Hr1) in Hrun. apply M_bind_Val in Hrun as ([] & st2 & Hmap & Hret).
  apply mret_Val in Hret as [-> ->]. rewrite <-Hc, <-Hd in He. rewrite <-Hc in Hne.
  pose proof (ki_active _ _ _ _ Hk1) as Ha. destruct (kinv_table _ _ _ _ _ Hk1 Ha) as (t & Ht & _ & Hent).
  destruct (kinv_slot _ _ _ _ _ page Hk1 Ha) as (e1 & He1 & Hok & Hsp). assert (e1 = e) as -> by congruence.
  rewrite Hent in He. unfold leaves_of in Hsp. rewrite Hu, lookup_empty in Hsp.
  destruct (map_to_unmapped (pmo + k_cr3 st1) page f0 flags (k_phys st1) l0 t e) as (res & ph' & Hto & Hpost);
    [by eapply ki_fa| |done..|congruence|exact Hsp|].
  { intros g Hg Heq. assert (k_cr3 st1 = g) as <- by lia.
    by destruct (ki_roots _ _ _ _ Hk1 _ Ha) as (_ & ? & _). }
  unfold map_frame in Hmap. rewrite (M_bind_run _ _ _ _ _ (get_active_run _ _ _ Hk1)) in Hmap.
  unfold on_phys, zoom, mbind, M_bind in Hmap. cbn [opt_offset opt_table] in Hmap. rewrite Hto in Hmap.
  destruct res as [[]|]; [|done]. injection Hmap as <-.
  pose proof (map_post_walk st1 roots l0 Hk1 (k_cr3 st1) Ha t e page f0 flags ph' Ht He Hpost) as Hw.
  unfold space in *. rewrite <-Hd, <-Hc. cbn [k_phys put_phys]. unfold k_dm at 1 3. cbn [k_phys put_phys].
  rewrite !Hw by done. unfold space, same_table. split; [|by rewrite decide_True by (split; [done|by left])].
  rewrite decide_False; [done|]. intros [_ [?|(ea & er & Hea & _ & Hua & _)]]; [done|].
  rewrite Hent in Hea. congruence.
Qed.

Lemma map_ram_user_run page flags st :
  map_ram_user page flags st =
    if bool_decide (user_page page)
    then map_ram page (Z.lor (Z.lor flags PageTableFlags.USER_ACCESSIBLE) PageTableFlags.PRESENT) st
    else Fault Assertion.
Proof.
  unfold map_ram_user, map_ram, user_page, ass, liftr, mbind, M_bind.
  case_bool_decide as Hp.
  - destruct Hp as [Hp1 Hp2]. apply Z.leb_le in Hp1. apply Z.ltb_lt in Hp2. by rewrite Hp1, Hp2.
  - destruct (Z.leb_spec v.USER_START page), (Z.ltb_spec page v.USER_END); try done.
    by destruct Hp.
Qed.

Lemma map_ram_kernel_run page flags st :
  map_ram_kernel page flags st =
    if bool_decide (v.KERNEL_START ≤ page < v.KERNEL_END)
    then map_ram page (Z.lor flags PageTableFlags.PRESENT) st
    else Fault Assertion.
Proof.
  unfold map_ram_kernel, map_ram, ass, liftr, mbind, M_bind.
  case_bool_decide as Hp.
  - destruct Hp as [Hp1 Hp2]. apply Z.leb_le in Hp1. apply Z.ltb_lt in Hp2. by rewrite Hp1, Hp2.
  - destruct (Z.leb_spec v.KERNEL_START page), (Z.ltb_spec page v.KERNEL_END); try done.
    by destruct Hp.
Qed.

Lemma switch_run st roots l r :
  kinv pmo st roots l → r ∈ roots →
  switch_l4_page_table (mkOPT (pmo + r) pmo) st =
    Val ((), mkKernel (k_phys st) r (kernel_page_table st)).
Proof.
  intros Hk Hr. destruct (ki_roots _ _ _ _ Hk r Hr) as (Hok & _). pose proof boot_pmo_range.
  unfold switch_l4_page_table. cbn [opt_table]. rewrite (M_bind_run _ _ _ r st); [done|].
  apply liftr_run. unfold frame_from_page_table. rewrite physical_memory_offset_val.
  destruct Hok as [Hb Hal]. cbn [mbind res_bind]. rewrite sub64_in by lia. cbn [mbind res_bind].
  replace (pmo + r - pmo) with r by lia.
  rewrite PhysAddr_new_law by lia. cbn [mbind res_bind]. by rewrite frame_start_val.
Qed.

Lemma switch_kinv st roots l r :
  kinv pmo st roots l → r ∈ roots →
  kinv pmo (mkKernel (k_phys st) r (kernel_page_table st)) roots l.
Proof. intros [] Hr. by split. Qed.

(** The slot behind a page that is mapped. *)
Lemma mapped_slot st roots l a page x :
  kinv pmo st roots l → a ∈ roots → space pmo st a page = Some x →
  ∃ t e m, k_dm st !! (pmo + a) = Some (CTable t) ∧ t !! l4_slot page = Some e ∧
    entry_at pmo (k_dm st) a (l4_slot page) = Some e ∧ is_unused e = false ∧
    k_dm st !! (pmo + pte_addr e) = Some (CSub m) ∧ leaves_of pmo (k_dm st) e = m ∧
    m !! page = Some x.
Proof.
  intros Hk Ha Hsp. destruct (kinv_table _ _ _ _ _ Hk Ha) as (t & Ht & _ & Hent).
  destruct (kinv_slot _ _ _ _ a page Hk Ha) as (e & He & Hok & Hsp').
  rewrite Hsp' in Hsp. unfold leaves_of in Hsp. destruct (is_unused e) eqn:Hu; [done|].
  destruct Hok as [?|[_ [m Hm]]]; [congruence|]. rewrite Hm in Hsp.
  exists t, e, m. rewrite <-Hent. split_and!; try done. unfold leaves_of. by rewrite Hu, Hm.
Qed.

(** The effect of rewriting the leaf of a mapped [page] in the active space:
    [x] is the new translation. *)
Record remapped (st : Kernel) (roots l : list Z) (page : Z) (x : option (Z * Z))
    (st' : Kernel) : Prop := {
  rm_kinv : kinv pmo st' roots l;
  rm_cr3 : k_cr3 st' = k_cr3 st;
  rm_kpt : kernel_page_table st' = kernel_page_table st;
  rm_total : total_frames (alloc (k_phys st')) = total_frames (alloc (k_phys st));
  rm_space r p : r ∈ roots → space pmo st' r p =
    if decide (p = page ∧ same_table pmo (k_dm st) (k_cr3 st) r page) then x
    else space pmo st r p;
  rm_cells f : f ∉ l → (∀ r i e, r ∈ roots → entry_at pmo (k_dm st) r i = Some e →
      is_unused e = false → f ≠ pte_addr e) →
    k_dm st' !! (pmo + f) = k_dm st !! (pmo + f);
  rm_tables r i : r ∈ roots → entry_at pmo (k_dm st') r i = entry_at pmo (k_dm st) r i }.

Lemma sub_updated_remapped st roots l page e m' :
  kinv pmo st roots l →
  entry_at pmo (k_dm st) (k_cr3 st) (l4_slot page) = Some e → is_unused e = false →
  (∀ p, p ≠ page → m' !! p = leaves_of pmo (k_dm st) e !! p) →
  remapped st roots l page (m' !! page) (sub_updated pmo st e m').
Proof.
  intros Hk He Hu Hm'. pose proof (ki_active _ _ _ _ Hk) as Ha. split; try done.
  - by apply (sub_updated_kinv _ _ _ _ Hk (k_cr3 st) page).
  - intros r p Hr. by apply (sub_updated_space _ _ _ _ Hk).
  - intros f _ Hf. apply lookup_insert_ne. specialize (Hf _ _ _ Ha He Hu). lia.
  - intros r i Hr. apply entry_at_ext, lookup_insert_ne.
    pose proof (kinv_root_sub _ _ _ _ _ _ _ _ Hk Hr Ha He Hu). lia.
Qed.

Lemma change_flags_effect st roots l page flags :
  kinv pmo st roots l →
  match space pmo st (k_cr3 st) page with
  | Some (fr, _) => ∃ st', change_flags page flags st = Val ((), st') ∧
      remapped st roots l page (Some (fr, flags)) st'
  | None => change_flags page flags st = Fault Explicit
  end.
Proof.
  intros Hk. pose proof (ki_active _ _ _ _ Hk) as Ha.
  unfold change_flags. rewrite (M_bind_run _ _ _ _ _ (get_active_run _ _ _ Hk)).
  unfold on_dm, on_phys, zoom, mbind, M_bind. cbn [opt_offset opt_table].
  destruct (kinv_table _ _ _ _ _ Hk Ha) as (t & Ht & _ & Hent).
  destruct (kinv_slot _ _ _ _ (k_cr3 st) page Hk Ha) as (e & He & Hok & _).
  pose proof (update_flags_law (pmo + k_cr3 st) page flags (k_dm st) t e Ht
    ltac:(by rewrite <-Hent) Hok) as Hlaw.
  destruct (space pmo st (k_cr3 st) page) as [[fr fl]|] eqn:Hsp; unfold space in Hsp; rewrite Hsp in Hlaw.
  - destruct Hlaw as (d' & Hrun & ->). unfold k_dm in Hrun. rewrite Hrun.
    destruct (mapped_slot _ _ _ _ _ _ Hk Ha Hsp) as (t0 & e0 & m & _ & _ & He0 & Hu & _ & Hlv & _).
    assert (e0 = e) as -> by congruence.
    eexists. split; [done|]. unfold k_dm in Hlv. rewrite Hlv.
    rewrite <-(lookup_insert_eq m page (fr, flags)).
    apply (sub_updated_remapped st roots l page e); [done..|].
    intros p Hp. unfold k_dm. by rewrite Hlv, lookup_insert_ne.
  - destruct Hlaw as (err & d' & Hrun). unfold k_dm in Hrun. by rewrite Hrun.
Qed.

Lemma unmap_page_effect st roots l page :
  kinv pmo st roots l →
  match space pmo st (k_cr3 st) page with
  | Some (fr, _) => ∃ st', unmap_page page st = Val (fr, st') ∧ remapped st roots l page None st'
  | None => unmap_page page st = Fault Explicit
  end.
Proof.
  intros Hk. pose proof (ki_active _ _ _ _ Hk) as Ha.
  unfold unmap_page. rewrite (M_bind_run _ _ _ _ _ (get_active_run _ _ _ Hk)).
  unfold on_dm, on_phys, zoom, mbind, M_bind. cbn [opt_offset opt_table].
  destruct (kinv_table _ _ _ _ _ Hk Ha) as (t & Ht & _ & Hent).
  destruct (kinv_slot _ _ _ _ (k_cr3 st) page Hk Ha) as (e & He & Hok & _).
  pose proof (unmap_law (pmo + k_cr3 st) page (k_dm st) t e Ht
    ltac:(by rewrite <-Hent) Hok) as Hlaw.
  destruct (space pmo st (k_cr3 st) page) as [[fr fl]|] eqn:Hsp; unfold space in Hsp; rewrite Hsp in Hlaw.
  - destruct Hlaw as (d' & Hrun & ->). unfold k_dm in Hrun. rewrite Hrun.
    destruct (mapped_slot _ _ _ _ _ _ Hk Ha Hsp) as (t0 & e0 & m & _ & _ & He0 & Hu & _ & Hlv & _).
    assert (e0 = e) as -> by congruence.
    eexists. split; [done|]. unfold k_dm in Hlv. rewrite Hlv.
    rewrite <-(lookup_delete_eq m page).
    apply (sub_updated_remapped st roots l page e); [done..|].
    intros p Hp. unfold k_dm. by rewrite Hlv, lookup_delete_ne.
  - destruct Hlaw as (err & d' & Hrun). unfold k_dm in Hrun. by rewrite Hrun.
Qed.

(** A frame that holds no page table. *)
Definition not_table (st : Kernel) (roots : list Z) (f : Z) : Prop :=
  f ∉ roots ∧ ∀ r i e, r ∈ roots → entry_at pmo (k_dm st) r i = Some e →
    is_unused e = false → f ≠ pte_addr e.

Lemma unmap_ram_effect st roots l page fr fl :
  kinv pmo st roots l → space pmo st (k_cr3 st) page = Some (fr, fl) →
  frame_ok fr → fr ∉ l → not_table st roots fr →
  Z.of_nat (length l) < total_frames (alloc (k_phys st)) →
  ∃ st', unmap_ram page st = Val ((), st') ∧ remapped st roots (fr :: l) page None st'.
Proof.
  intros Hk Hsp Hok Hfl [Hfr Hft] Hlt.
  pose proof (unmap_page_effect _ _ _ page Hk) as Hun. rewrite Hsp in Hun.
  destruct Hun as (st1 & Hrun & Hrm). destruct Hrm as [Hk1 Hc Hkpt Ht Hspace Hcells Htab].
  destruct (deallocate_frame_spec (k_phys st1) l fr) as (ph2 & Hrun2 & Hfa2 & Ht2 & Hd2);
    [by eapply ki_fa|done|done|lia|].
  exists (put_phys ph2 st1). split.
  { unfold unmap_ram. rewrite (M_bind_run _ _ _ _ _ Hrun). unfold on_phys, zoom. by rewrite Hrun2. }
  assert (∀ f, f ≠ fr → k_dm (put_phys ph2 st1) !! (pmo + f) = k_dm st1 !! (pmo + f)) as Hd.
  { intros f Hf. apply Hd2. lia. }
  assert (∀ r i, r ∈ roots → entry_at pmo (k_dm (put_phys ph2 st1)) r i = entry_at pmo (k_dm st) r i)
    as Hent.
  { intros r i Hr. rewrite <-Htab by done. apply entry_at_ext, Hd. by intros ->. }
  assert (kinv pmo (put_phys ph2 st1) roots (fr :: l)) as Hk2.
  { apply (kinv_cells _ st1 _ _ l); [done..|by apply (ki_active _ _ _ _ Hk1)|done| |].
    - intros r Hr. destruct (ki_roots _ _ _ _ Hk1 r Hr) as (_ & ? & _).
      assert (r ≠ fr) by (by intros ->). split; [by apply not_elem_of_cons|by apply Hd].
    - intros r i e Hr He Hu. destruct (ki_subs _ _ _ _ Hk1 _ _ _ Hr He Hu) as (Hl & Hm).
      rewrite Htab in He by done. specialize (Hft _ _ _ Hr He Hu).
      split; [by apply not_elem_of_cons|by rewrite Hd]. }
  split; [done..|cbn in *; lia| | |done].
  - intros r p Hr. rewrite <-Hspace by done. unfold space, walk, l4_entry.
    destruct (kinv_table _ _ _ _ _ Hk1 Hr) as (t & Ht1 & _ & Hent1).
    rewrite Hd by (by intros ->). rewrite Ht1. destruct (t !! l4_slot p) as [e|] eqn:He; [|done].
    destruct (is_unused e) eqn:Hu; [done|]. rewrite Hd; [done|].
    rewrite <-Hent1, Htab in He by done. by apply not_eq_sym, (Hft r (l4_slot p)).
  - intros f Hf Hft'. rewrite Hd by (intros ->; apply Hf; left).
    apply Hcells; [|done]. intros ?. apply Hf. by right.
Qed.

(** Writing a frame that is neither free nor a table. *)
Lemma write_frame_effect st roots l f bytes :
  kinv pmo st roots l → f ∉ l → not_table st roots f →
  let st' := put_phys (with_dm <[pmo + f := CBytes bytes]> (k_phys st)) st in
  kinv pmo st' roots l ∧
  (∀ g, g ≠ f → k_dm st' !! (pmo + g) = k_dm st !! (pmo + g)) ∧
  (∀ r i, r ∈ roots → entry_at pmo (k_dm st') r i = entry_at pmo (k_dm st) r i) ∧
  ∀ r p, r ∈ roots → space pmo st' r p = space pmo st r p.
Proof.
  intros Hk Hfl [Hfr Hft] st'.
  assert (∀ g, g ≠ f → k_dm st' !! (pmo + g) = k_dm st !! (pmo + g)) as Hd.
  { intros g Hg. apply lookup_insert_ne. lia. }
  assert (∀ r i, r ∈ roots → entry_at pmo (k_dm st') r i = entry_at pmo (k_dm st) r i) as Hent.
  { intros r i Hr. apply entry_at_ext, Hd. by intros ->. }
  assert (kinv pmo st' roots l) as Hk'.
  { apply (kinv_cells _ st _ _ l); [done| |by apply (ki_active _ _ _ _ Hk)|done| |].
    - apply (fa_inv_ext _ _ (<[_:=_]> (k_dm st))); [|by apply (ki_fa _ _ _ _ Hk)].
      intros g Hg. apply Hd. by intros ->.
    - intros r Hr. destruct (ki_roots _ _ _ _ Hk _ Hr) as (_ & ? & _). split; [done|].
      apply Hd. by intros ->.
    - intros r i e Hr He Hu. rewrite Hd by (by apply not_eq_sym, (Hft r i)).
      by apply (ki_subs _ _ _ _ Hk r i). }
  split_and!; [done..|]. intros r p Hr.
  destruct (kinv_slot _ _ _ _ r p Hk' Hr) as (e & He & _ & ->). rewrite Hent in He by done.
  destruct (kinv_slot _ _ _ _ r p Hk Hr) as (e0 & He0 & _ & ->). assert (e0 = e) as -> by congruence.
  unfold leaves_of. destruct (is_unused e) eqn:Hu; [done|].
  by rewrite Hd by (by apply not_eq_sym, (Hft r (l4_slot p))).
Qed.

Lemma on_dm_run {A} (m : M DM A) st x d' :
  m (k_dm st) = Val (x, d') →
  on_dm m st = Val (x, put_phys (put_dm d' (k_phys st)) st).
Proof. intros Hm. unfold on_dm, on_phys, zoom. unfold k_dm in Hm. by rewrite Hm. Qed.

(** The loop of [create_new_l4_page_table]. *)
Lemma copy_kernel_entries d (src dst : Z) t :
  d !! src = Some (CTable t) → length t = 512%nat → src ≠ dst →
  ∃ tn, for_each (range (fst KERNEL_L4_PAGE_TABLE_RANGE) (snd KERNEL_L4_PAGE_TABLE_RANGE))
      (copy_entry src dst) (<[dst := CTable (replicate 512 pte_zero)]> d) =
      Val ((), <[dst := CTable tn]> d) ∧ length tn = 512%nat ∧
    ∀ i, (i < 512)%nat → tn !! i = if decide (kernel_slot i) then t !! i else Some pte_zero.
Proof.
  intros Ht Hlen Hne.
  destruct (for_each_ind (copy_entry src dst) (λ done d1, ∃ tn, d1 = <[dst := CTable tn]> d ∧
      length tn = 512%nat ∧ ∀ i, (i < 512)%nat →
        tn !! i = if decide (Z.of_nat i ∈ done) then t !! i else Some pte_zero)
    (range (fst KERNEL_L4_PAGE_TABLE_RANGE) (snd KERNEL_L4_PAGE_TABLE_RANGE))
    (<[dst := CTable (replicate 512 pte_zero)]> d)) as (d' & Hrun & tn & -> & Hl & Htn).
  - eexists. split; [done|]. split; [done|]. intros i Hi.
    rewrite decide_False by apply not_elem_of_nil. by apply lookup_replicate_2.
  - intros l1 x l2 d1 Hr (tn & -> & Hl & Htn).
    assert (x ∈ range (fst KERNEL_L4_PAGE_TABLE_RANGE) (snd KERNEL_L4_PAGE_TABLE_RANGE)) as Hx
      by (rewrite Hr; apply elem_of_app; right; left).
    apply elem_of_range in Hx. cbn in Hx.
    destruct (lookup_lt_is_Some_2 t (Z.to_nat x)) as [e He]; [lia|].
    exists (<[dst := CTable (<[Z.to_nat x := e]> tn)]> d). split.
    + unfold copy_entry, read_entry, write_entry, mbind, M_bind.
      rewrite lookup_insert_ne, Ht, He by done. rewrite lookup_insert_eq.
      rewrite (proj2 (Z.ltb_lt _ _)) by lia. by rewrite insert_insert_eq.
    + eexists. split; [done|]. rewrite length_insert. split; [done|]. intros i Hi.
      destruct (decide (i = Z.to_nat x)) as [->|Hix].
      * rewrite list_lookup_insert_eq by lia. rewrite decide_True, He; [done|].
        rewrite Z2Nat.id by lia. apply elem_of_app. right. left.
      * rewrite list_lookup_insert_ne by done. rewrite Htn by done.
        apply decide_ext. rewrite elem_of_app, list_elem_of_singleton.
        split; [by left|intros [?|?]; [done|lia]].
  - exists tn. split_and!; [done..|]. intros i Hi. rewrite Htn by done. apply decide_ext.
    by rewrite elem_of_range.
Qed.

(** The effect of creating the space of root [f]. *)
Record created (st : Kernel) (roots l : list Z) (f : Z) (st' : Kernel) : Prop := {
  cr_kinv : kinv pmo st' (f :: roots) l;
  cr_cr3 : k_cr3 st' = k_cr3 st;
  cr_kpt : kernel_page_table st' = kernel_page_table st;
  cr_total : total_frames (alloc (k_phys st')) = total_frames (alloc (k_phys st));
  cr_old r p : r ∈ roots → space pmo st' r p = space pmo st r p;
  cr_new p : space pmo st' f p =
    if decide (kernel_slot (l4_slot p)) then space pmo st (k_cr3 st) p else None;
  cr_cells g : g ≠ f → k_dm st' !! (pmo + g) = k_dm st !! (pmo + g);
  cr_tables r i e : r ∈ f :: roots → entry_at pmo (k_dm st') r i = Some e → is_unused e = false →
    ∃ r0, r0 ∈ roots ∧ entry_at pmo (k_dm st) r0 i = Some e }.

Lemma create_nil st roots : kinv pmo st roots [] → create_user_page_table st = Fault Unwrap.
Proof.
  intros Hk. unfold create_user_page_table, create_new_l4_page_table.
  rewrite (M_bind_run _ _ _ _ _ (get_active_run _ _ _ Hk)).
  rewrite (M_bind_run _ _ _ None st); [done|]. pose proof (ki_fa _ _ _ _ Hk) as Hfa.
  unfold on_phys, zoom. rewrite (allocate_frame_nil (pmo:=pmo)) by done. by destruct st.
Qed.

Lemma create_run st roots f l :
  kinv pmo st roots (f :: l) →
  ∃ ph1 t tn st', create_user_page_table st = Val (mkOPT (pmo + f) pmo, st') ∧
    st' = put_phys (put_dm (<[pmo + f := CTable tn]> (k_dm st)) ph1) st ∧
    fa_inv pmo ph1 l ∧ dm ph1 = k_dm st ∧
    total_frames (alloc ph1) = total_frames (alloc (k_phys st)) ∧
    k_dm st !! (pmo + k_cr3 st) = Some (CTable t) ∧ length tn = 512%nat ∧
    ∀ i, (i < 512)%nat → tn !! i = if decide (kernel_slot i) then t !! i else Some pte_zero.
Proof.
  intros Hk. pose proof (ki_active _ _ _ _ Hk) as Ha.
  destruct (kinv_table _ _ _ _ _ Hk Ha) as (t & Ht & Hlen & _).
  destruct (ki_roots _ _ _ _ Hk _ Ha) as (_ & Hal & _).
  destruct (allocate_frame_cons _ _ _ (ki_fa _ _ _ _ Hk)) as (ph1 & Hr & Hfa & Hdm & Htot).
  destruct (copy_kernel_entries (k_dm st) (pmo + k_cr3 st) (pmo + f) t) as (tn & Hcopy & Hltn & Htn);
    [done..|intros ?; apply Hal; replace (k_cr3 st) with f by lia; left|].
  eexists ph1, t, tn, _. split_and!; [|done..].
  unfold create_user_page_table, create_new_l4_page_table.
  rewrite (M_bind_run _ _ _ _ _ (get_active_run _ _ _ Hk)).
  rewrite (M_bind_run _ _ _ (Some f) (put_phys ph1 st)) by (unfold on_phys, zoom; by rewrite Hr).
  pose proof (fa_frames _ _ _ (ki_fa _ _ _ _ Hk)) as [Hf _]%Forall_cons.
  rewrite (M_bind_run _ _ _ f _) by done.
  rewrite (M_bind_run _ _ _ (pmo + f) _) by (apply liftr_run; unfold page_table_from_frame; by rewrite frame_ptr).
  cbn beta.
  etransitivity; [eapply M_bind_run, on_dm_run; reflexivity|].
  unfold k_dm at 1. cbn [put_phys k_phys]. rewrite Hdm. cbn [opt_table].
  etransitivity; [eapply M_bind_run, on_dm_run; exact Hcopy|].
  by rewrite physical_memory_offset_val.
Qed.

(** The entries of the new table are unused or those of the active one. *)
Lemma create_entries st roots l f ph1 t tn :
  kinv pmo st roots l → k_dm st !! (pmo + k_cr3 st) = Some (CTable t) → length tn = 512%nat →
  (∀ i, (i < 512)%nat → tn !! i = if decide (kernel_slot i) then t !! i else Some pte_zero) →
  let st' := put_phys (put_dm (<[pmo + f := CTable tn]> (k_dm st)) ph1) st in
  (∀ i, kernel_slot i → entry_at pmo (k_dm st') f i = entry_at pmo (k_dm st) (k_cr3 st) i) ∧
  (∀ i e, ¬ kernel_slot i → entry_at pmo (k_dm st') f i = Some e → is_unused e = true).
Proof.
  intros Hk Ht Hlen Htn st'. unfold entry_at, st', k_dm. cbn. unfold k_dm in Ht.
  rewrite lookup_insert_eq, Ht. split.
  - intros i Hi. assert (i < 512)%nat by (unfold kernel_slot in Hi; cbn in Hi; lia).
    rewrite Htn by done. by rewrite decide_True.
  - intros i e Hi He. assert (i < 512)%nat by (rewrite <-Hlen; by eapply lookup_lt_Some).
    rewrite Htn, decide_False in He by done. by injection He as <-.
Qed.

Section Create.
Context (st : Kernel) (roots : list Z) (f : Z) (l : list Z) (Hk : kinv pmo st roots (f :: l)).
Context (st' : Kernel) (Hfa : fa_inv pmo (k_phys st') l).
Context (Hc : k_cr3 st' = k_cr3 st) (Hkpt : kernel_page_table st' = kernel_page_table st).
Context (Hcells : ∀ g, g ≠ f → k_dm st' !! (pmo + g) = k_dm st !! (pmo + g)).
Context (Hnew : ∃ tn, k_dm st' !! (pmo + f) = Some (CTable tn) ∧ length tn = 512%nat).
Context (Hfk : ∀ i, kernel_slot i →
  entry_at pmo (k_dm st') f i = entry_at pmo (k_dm st) (k_cr3 st) i).
Context (Hfu : ∀ i e, ¬ kernel_slot i → entry_at pmo (k_dm st') f i = Some e → is_unused e = true).

Lemma create_old_entry r i : r ∈ roots → entry_at pmo (k_dm st') r i = entry_at pmo (k_dm st) r i.
Proof using All.
  intros Hr. apply entry_at_ext, Hcells. intros ->.
  destruct (ki_roots _ _ _ _ Hk _ Hr) as (_ & Hn & _). apply Hn. left.
Qed.

Lemma create_used r i e :
  r ∈ f :: roots → entry_at pmo (k_dm st') r i = Some e → is_unused e = false →
  ∃ r0, r0 ∈ roots ∧ entry_at pmo (k_dm st) r0 i = Some e.
Proof using All.
  intros [->|Hr]%elem_of_cons He Hu.
  - destruct (decide (kernel_slot i)) as [Hs|Hs]; [|rewrite (Hfu _ _ Hs He) in Hu; done].
    exists (k_cr3 st). rewrite <-Hfk by done. split; [by apply (ki_active _ _ _ _ Hk)|done].
  - exists r. by rewrite <-create_old_entry.
Qed.

(** An entry of a kernel slot of the new state, as an entry of the old one. *)
Lemma create_kernel_entry r i :
  r ∈ f :: roots → kernel_slot i →
  ∃ r0, r0 ∈ roots ∧ entry_at pmo (k_dm st') r i = entry_at pmo (k_dm st) r0 i.
Proof using All.
  intros [->|Hr]%elem_of_cons Hs.
  - exists (k_cr3 st). split; [by apply (ki_active _ _ _ _ Hk)|by apply Hfk].
  - exists r. by rewrite create_old_entry.
Qed.

Lemma create_sub r i e :
  r ∈ roots → entry_at pmo (k_dm st) r i = Some e → is_unused e = false →
  pte_addr e ≠ f ∧ pte_addr e ∉ l ∧ k_dm st' !! (pmo + pte_addr e) = k_dm st !! (pmo + pte_addr e).
Proof using All.
  intros Hr He Hu. destruct (ki_subs _ _ _ _ Hk _ _ _ Hr He Hu) as ([Hn1 Hn2]%not_elem_of_cons & _).
  split_and!; [done..|by apply Hcells].
Qed.

Lemma create_kinv : kinv pmo st' (f :: roots) l.
Proof using All.
  pose proof (ki_fa _ _ _ _ Hk) as Hfa0. split.
  - done.
  - rewrite Hc. right. apply (ki_active _ _ _ _ Hk).
  - rewrite Hkpt. destruct (ki_own _ _ _ _ Hk) as (r & Hr & ?). exists r. split; [by right|done].
  - intros r [->|Hr]%elem_of_cons.
    + pose proof (fa_frames _ _ _ Hfa0) as [? _]%Forall_cons.
      by pose proof (fa_nodup _ _ _ Hfa0) as [? _]%NoDup_cons.
    + destruct (ki_roots _ _ _ _ Hk _ Hr) as (? & [Hn1 Hn2]%not_elem_of_cons & ?).
      by rewrite Hcells.
  - intros r i e Hr He Hu. destruct (create_used _ _ _ Hr He Hu) as (r0 & Hr0 & He0).
    destruct (create_sub _ _ _ Hr0 He0 Hu) as (_ & ? & ->).
    split; [done|]. by apply (ki_subs _ _ _ _ Hk r0 i).
  - intros r i e Hr He Hu. destruct (create_used _ _ _ Hr He Hu) as (r0 & Hr0 & He0).
    by apply (ki_present _ _ _ _ Hk r0 i).
  - intros r1 r2 i e1 e2 [->|Hr1]%elem_of_cons [->|Hr2]%elem_of_cons Hne Hs He1 He2 Hu1 Hu2; [done| | |].
    + by rewrite (Hfu _ _ Hs He1) in Hu1.
    + by rewrite (Hfu _ _ Hs He2) in Hu2.
    + rewrite create_old_entry in He1, He2 by done. by apply (ki_private _ _ _ _ Hk r1 r2 i).
  - intros r1 r2 i e1 e2 Hr1 Hr2 Hs.
    destruct (create_kernel_entry _ _ Hr1 Hs) as (r3 & Hr3 & ->).
    destruct (create_kernel_entry _ _ Hr2 Hs) as (r4 & Hr4 & ->).
    by apply (ki_shared _ _ _ _ Hk).
Qed.

Lemma create_slot_space r r0 p :
  r ∈ f :: roots → r0 ∈ roots →
  entry_at pmo (k_dm st') r (l4_slot p) = entry_at pmo (k_dm st) r0 (l4_slot p) →
  space pmo st' r p = space pmo st r0 p.
Proof using All.
  intros Hr Hr0 Heq.
  destruct (kinv_slot _ _ _ _ r p create_kinv Hr) as (e & He & _ & ->).
  destruct (kinv_slot _ _ _ _ r0 p Hk Hr0) as (e0 & He0 & _ & ->).
  assert (e0 = e) as -> by congruence.
  unfold leaves_of. destruct (is_unused e) eqn:Hu; [done|].
  by destruct (create_sub _ _ _ Hr0 He0 Hu) as (_ & _ & ->).
Qed.
End Create.

Lemma create_effect st roots f l :
  kinv pmo st roots (f :: l) →
  ∃ st', create_user_page_table st = Val (mkOPT (pmo + f) pmo, st') ∧ created st roots l f st'.
Proof.
  intros Hk. destruct (create_run _ _ _ _ Hk) as
    (ph1 & t & tn & st' & Hrun & Hst' & Hfa & Hdm & Htot & Ht & Hlen & Htn).
  exists st'. split; [done|].
  destruct (create_entries _ _ _ f ph1 _ _ Hk Ht Hlen Htn) as [Hfk Hfu]. rewrite <-Hst' in Hfk, Hfu.
  pose proof (fa_nodup _ _ _ (ki_fa _ _ _ _ Hk)) as [Hfl _]%NoDup_cons.
  assert (∀ g, g ≠ f → k_dm st' !! (pmo + g) = k_dm st !! (pmo + g)) as Hcells.
  { intros g Hg. subst st'. apply lookup_insert_ne. lia. }
  assert (fa_inv pmo (k_phys st') l) as Hfa'.
  { subst st'. apply fa_inv_ext; [|done]. intros g Hg. rewrite Hdm. apply lookup_insert_ne.
    intros Heq. apply Hfl. by replace f with g by lia. }
  assert (∃ tn, k_dm st' !! (pmo + f) = Some (CTable tn) ∧ length tn = 512%nat) as Hnew.
  { exists tn. subst st'. split; [apply lookup_insert_eq|done]. }
  assert (k_cr3 st' = k_cr3 st ∧ kernel_page_table st' = kernel_page_table st) as [Hc Hkpt]
    by by subst st'.
  split; [by apply (create_kinv st)|done..|by subst st'| | |done|].
  - intros r p Hr. apply (create_slot_space st roots f l); try done; [by right|].
    by apply (create_old_entry st roots f l).
  - intros p. case_decide as Hs.
    + apply (create_slot_space st roots f l); try done; [left|by apply (ki_active _ _ _ _ Hk)|by apply Hfk].
    + destruct (kinv_slot _ _ _ _ f p (create_kinv st roots f l Hk st' Hfa' Hc Hkpt Hcells Hnew Hfk Hfu))
        as (e & He & _ & ->); [left|].
      unfold leaves_of. rewrite (Hfu _ _ Hs He). apply lookup_empty.
  - intros r i e. by apply (create_used st roots f l).
Qed.
End Operations.
