(* ===== verification/PageTableInfo.v ===== *)
(** * The listing of a page table (src/kernel/src/memory.rs)

    [log_page_table_info] goes through the active level-4 table and writes a
    line to the log for each entry in use: where its table lies, and how many
    entries of that are in use.  The tables below the top are the mapper's, so
    that count is a parameter; the text of a line is the logger's part. *)

From Stdlib Require Import Sorting.Sorted.
From S2P Require Import Prelude Constants Platform FrameAlloc Paging Memory AddressSpace.

(** The entries in use of the table at a pointer. *)
Class LowerTables := { l3_entry_count : DM → Z → Z }.

(** What a line says: "L3[{i}]: virt:{ptr} phys:{phys} entry_count:{..} flags:{..}". *)
Record L3Info := mkL3 { l3_index : nat; l3_ptr : Z; l3_phys : Z; l3_count : Z; l3_flags : Z }.

Section Listing.
Context `{Profile} `{X86Addr} `{Boot} `{LowerTables}.

(** The table behind a reference; using one that is none is undefined. *)
Definition l3_table (ptr : Z) : M DM () := λ d,
  match d !! ptr with Some (CSub _) => Val ((), d) | _ => Fault Undefined end.

Definition l3_line (i : nat) (l3 : PageTableEntry) : M DM L3Info :=
  liftr (match pte_frame l3 with Ok frame => Val frame | Err _ => Fault Unwrap end) ≫= λ phys,
  liftr (phys_to_virt phys) ≫= λ ptr,
  l3_table ptr ≫= λ _,
  gets (λ d, l3_entry_count d ptr) ≫= λ count,
  mret (mkL3 i ptr phys count (pte_flags l3)).

(** The loop, from entry [i] on. *)
Fixpoint l3_lines (i : nat) (entries : list PageTableEntry) : M DM (list L3Info) :=
  match entries with
  | [] => mret []
  | l3 :: rest =>
      if is_unused l3 then l3_lines (S i) rest
      else l3_line i l3 ≫= λ line, l3_lines (S i) rest ≫= λ lines, mret (line :: lines)
  end.

Definition level_4_entries (table : Z) : M DM (list PageTableEntry) := λ d,
  match d !! table with Some (CTable t) => Val (t, d) | _ => Fault Undefined end.

(** The lines that are logged, before an empty one. *)
Definition log_page_table_info : M Kernel (list L3Info) :=
  get_active_l4_page_table ≫= λ t,
  on_dm (level_4_entries (opt_table t) ≫= l3_lines 0).
End Listing.

Section Spec.
Context `{Profile} `{X86AddrLaws} `{BootOk pmo} `{LowerTables}.

(** The line of entry [i]. *)
Definition entry_line (d : DM) (i : nat) (e : PageTableEntry) : L3Info :=
  mkL3 i (pmo + pte_addr e) (pte_addr e) (l3_entry_count d (pmo + pte_addr e)) (pte_flags e).

Definition entry_lines (d : DM) (i : nat) (es : list PageTableEntry) : list L3Info :=
  omap (λ '(j, e), if is_unused e then None else Some (entry_line d j e)) (zip (seq i (length es)) es).

Lemma l3_line_run d i e :
  frame_ok (pte_addr e) → pte_frame e = Ok (pte_addr e) → (∃ m, d !! (pmo + pte_addr e) = Some (CSub m)) →
  l3_line i e d = Val (entry_line d i e, d).
Proof.
  intros Hok Hf [m Hm]. unfold l3_line. rewrite Hf. rewrite (M_bind_run _ _ _ (pte_addr e) d) by done.
  rewrite (M_bind_run _ _ _ (pmo + pte_addr e) d) by (by apply liftr_run, frame_ptr).
  rewrite (M_bind_run _ _ _ () d) by (unfold l3_table; by rewrite Hm). done.
Qed.

Lemma l3_lines_run d es i :
  (∀ e, e ∈ es → is_unused e = false →
     frame_ok (pte_addr e) ∧ pte_frame e = Ok (pte_addr e) ∧ ∃ m, d !! (pmo + pte_addr e) = Some (CSub m)) →
  l3_lines i es d = Val (entry_lines d i es, d).
Proof.
  revert i. induction es as [|e es IH]; intros i He; [done|]. cbn [l3_lines].
  assert (l3_lines (S i) es d = Val (entry_lines d (S i) es, d)) as Hrest
    by (apply IH; intros e' He'; apply He; by right).
  destruct (is_unused e) eqn:Hu.
  - rewrite Hrest. unfold entry_lines. cbn [length seq zip zip_with omap list_omap]. by rewrite Hu.
  - destruct (He e ltac:(left) Hu) as (Hok & Hf & Hm).
    rewrite (M_bind_run _ _ _ _ _ (l3_line_run d i e Hok Hf Hm)), (M_bind_run _ _ _ _ _ Hrest).
    unfold entry_lines. cbn [length seq zip zip_with omap list_omap]. by rewrite Hu.
Qed.

Lemma elem_of_entry_lines d i es line :
  line ∈ entry_lines d i es ↔
    ∃ j e, es !! j = Some e ∧ is_unused e = false ∧ line = entry_line d (i + j) e.
Proof.
  unfold entry_lines. rewrite list_elem_of_omap. split.
  - intros ([k e] & (j & Hj)%list_elem_of_lookup & Hl). apply lookup_zip_Some in Hj as [Hk He].
    apply lookup_seq in Hk as [-> _]. destruct (is_unused e) eqn:Hu; [done|]. injection Hl as <-. by exists j, e.
  - intros (j & e & He & Hu & ->). exists ((i + j)%nat, e). rewrite Hu. split; [|done].
    apply (list_elem_of_lookup_2 _ j). apply lookup_zip_Some. split; [|done].
    apply lookup_seq. split; [done|by eapply lookup_lt_Some].
Qed.

(** The lines are in the order of their entries, one for each. *)
Lemma entry_lines_sorted d i es : StronglySorted lt (l3_index <$> entry_lines d i es).
Proof.
  revert i. induction es as [|e es IH]; intros i; [constructor|].
  change (entry_lines d i (e :: es)) with
    (match (if is_unused e then None else Some (entry_line d i e)) with
     | Some y => y :: entry_lines d (S i) es | None => entry_lines d (S i) es end).
  destruct (is_unused e); [done|]. rewrite fmap_cons. constructor; [done|].
  apply Forall_fmap, Forall_forall. intros line (j & e0 & _ & _ & ->)%elem_of_entry_lines. cbn. lia.
Qed.

Lemma listing_run st roots l r :
  kinv pmo st roots l → r ∈ roots →
  let st' := mkKernel (k_phys st) r (kernel_page_table st) in
  ∃ lines, log_page_table_info st' = Val (lines, st') ∧ StronglySorted lt (l3_index <$> lines) ∧
    ∀ line, line ∈ lines ↔ ∃ i e, entry_at pmo (k_dm st) r i = Some e ∧
      is_unused e = false ∧ line = entry_line (k_dm st) i e.
Proof.
  intros Hk Hr. destruct (kinv_table _ _ _ _ _ Hk Hr) as (t & Ht & _ & Hent). cbv zeta.
  exists (entry_lines (k_dm st) 0 t). split_and!; [|apply entry_lines_sorted|].
  - unfold log_page_table_info.
    rewrite (M_bind_run _ _ _ _ _ (get_active_run _ _ _ (switch_kinv _ _ _ r Hk Hr))). cbn [opt_table k_cr3].
    assert ((level_4_entries (pmo + r) ≫= l3_lines 0) (k_dm st) = Val (entry_lines (k_dm st) 0 t, k_dm st)) as Hrun.
    { rewrite (M_bind_run _ _ _ t (k_dm st)) by (unfold level_4_entries; by rewrite Ht). apply l3_lines_run.
      intros e (i & Hi)%list_elem_of_lookup Hu. rewrite <-Hent in Hi.
      destruct (ki_present _ _ _ _ Hk _ _ _ Hr Hi Hu), (ki_subs _ _ _ _ Hk _ _ _ Hr Hi Hu). done. }
    rewrite (on_dm_run _ (mkKernel (k_phys st) r (kernel_page_table st)) _ _ Hrun). by destruct st as [[al d] c kp].
  - intros line. rewrite elem_of_entry_lines. by setoid_rewrite Hent.
Qed.

(** Listing the active space succeeds and changes nothing. *)
Lemma page_table_log_run st roots l :
  kinv pmo st roots l → ∃ lines, log_page_table_info st = Val (lines, st).
Proof.
  intros Hk. destruct (listing_run _ _ _ _ Hk (ki_active _ _ _ _ Hk)) as (lines & Hrun & _).
  exists lines. by destruct st.
Qed.

(** The listing of the active space [k_cr3 st] reports every entry in use, once
    and in order, with the place of its table, and changes nothing.  Every
    mapped page lies below an entry that is listed, and listings of different
    spaces show the same tables in the kernel's slots. *)
Theorem log_page_table_info_spec st roots l :
  kinv pmo st roots l →
  ∃ lines, log_page_table_info st = Val (lines, st) ∧
    StronglySorted lt (l3_index <$> lines) ∧
    (∀ line, line ∈ lines ↔ ∃ i e, entry_at pmo (k_dm st) (k_cr3 st) i = Some e ∧
       is_unused e = false ∧ line = entry_line (k_dm st) i e) ∧
    (∀ p x, space pmo st (k_cr3 st) p = Some x → ∃ line, line ∈ lines ∧ l3_index line = l4_slot p) ∧
    (∀ r, r ∈ roots → ∃ lines', log_page_table_info (mkKernel (k_phys st) r (kernel_page_table st)) =
         Val (lines', mkKernel (k_phys st) r (kernel_page_table st)) ∧
       ∀ line, line ∈ lines → kernel_slot (l3_index line) →
         ∃ line', line' ∈ lines' ∧ l3_index line' = l3_index line ∧ l3_phys line' = l3_phys line).
Proof.
  intros Hk. pose proof (λ r, listing_run st roots l r Hk) as Hlist.
  destruct (Hlist _ (ki_active _ _ _ _ Hk)) as (lines & Hrun & Hsorted & Hin).
  exists lines. split_and!; [by destruct st|done|done| |].
  - intros p x Hsp. destruct (mapped_slot _ _ _ _ _ _ Hk (ki_active _ _ _ _ Hk) Hsp) as (_ & e & _ & _ & _ & He & Hu & _).
    exists (entry_line (k_dm st) (l4_slot p) e). split; [|done]. apply Hin. by exists (l4_slot p), e.
  - intros r Hr. destruct (Hlist r Hr) as (lines' & Hrun' & _ & Hin'). exists lines'. split; [done|].
    intros line (i & e & He & Hu & ->)%Hin Hs. cbn [l3_index entry_line l3_phys] in *.
    destruct (kinv_table _ _ _ _ _ Hk Hr) as (t & _ & Hlen & Hent).
    destruct (lookup_lt_is_Some_2 t i) as [e' He'].
    { rewrite Hlen. unfold kernel_slot in Hs. cbn in Hs. lia. }
    rewrite <-Hent in He'. destruct (ki_shared _ _ _ _ Hk _ r _ _ _ (ki_active _ _ _ _ Hk) Hr Hs He He') as [Hu' Ha].
    exists (entry_line (k_dm st) i e'). split; [|by rewrite (Ha Hu)]. apply Hin'. exists i, e'. by rewrite <-Hu'.
Qed.
End Spec.
