(* ===== verification/Isolation.v ===== *)
(** * Isolation of applications (src/kernel/src/memory.rs)

    The kernel as a step relation on its memory state and the list of the user
    spaces it has created.  The invariant [user_inv] is kept by every step; it
    gives the isolation theorems: no frame is mapped at two user pages, no user
    frame is free or holds a page table, and a step made while one space is
    active changes neither the user pages of another space nor their contents. *)

From S2P Require Import Prelude Constants Platform FrameAlloc Paging Memory AddressSpace.

Section Steps.
Context `{Profile} `{X86Addr} `{Boot} `{Mapper} (pmo : Z).

(** [us] are the roots of the user spaces.  [ms_write] is an application that
    writes to one of its pages; programs run in ring 0, so that this is a
    property of memory-safe programs and not of the hardware.  [ms_map_kernel] has a condition that
    [map_ram_kernel] does not check, a slot in use: without it the kernel halves
    come apart ([kernel_half_shared]).  The slots of the kernel's image, heap and
    stacks are in use before the first user space, and the heap stays in its
    slot ([kernel_heap_slot]). *)
Inductive mem_step : Kernel * list Z → Kernel * list Z → Prop :=
  | ms_create st us r st' :
      create_user_page_table st = Val (mkOPT (pmo + r) pmo, st') →
      mem_step (st, us) (st', r :: us)
  | ms_to_user st us r st' :
      r ∈ us → switch_to_user_page_table (mkOPT (pmo + r) pmo) st = Val ((), st') →
      mem_step (st, us) (st', us)
  | ms_to_kernel st us st' :
      switch_to_kernel_page_table st = Val ((), st') → mem_step (st, us) (st', us)
  | ms_map_user st us page flags f st' :
      k_cr3 st ∈ us → map_ram_user page flags st = Val (f, st') → mem_step (st, us) (st', us)
  | ms_unmap_user st us page st' :
      k_cr3 st ∈ us → user_page page → unmap_ram page st = Val ((), st') →
      mem_step (st, us) (st', us)
  | ms_protect_user st us page flags st' :
      k_cr3 st ∈ us → user_page page → change_flags page flags st = Val ((), st') →
      mem_step (st, us) (st', us)
  | ms_map_kernel st us e page flags f st' :
      entry_at pmo (k_dm st) (k_cr3 st) (l4_slot page) = Some e → is_unused e = false →
      map_ram_kernel page flags st = Val (f, st') → mem_step (st, us) (st', us)
  | ms_write st us page f fl bytes :
      k_cr3 st ∈ us → user_page page → space pmo st (k_cr3 st) page = Some (f, fl) →
      mem_step (st, us) (put_phys (with_dm <[pmo + f := CBytes bytes]> (k_phys st)) st, us).
End Steps.

(** The invariant: [k0] is the kernel's root, [pool] the frames that were free
    at boot, [l] the free list. *)
Record user_inv (pmo k0 : Z) (pool : list Z) (st : Kernel) (us l : list Z) : Prop := {
  ui_kinv : kinv pmo st (k0 :: us) l;
  ui_kernel : kernel_page_table st = mkOPT (pmo + k0) pmo ∧ k0 ∉ us;
  ui_pool : NoDup pool ∧ Forall frame_ok pool ∧
    Z.of_nat (length pool) ≤ total_frames (alloc (k_phys st));
  ui_free f : f ∈ l → f ∈ pool;
  ui_leaf r p f fl : r ∈ us → user_page p → space pmo st r p = Some (f, fl) →
    f ∈ pool ∧ f ∉ l ∧ not_table (pmo:=pmo) st (k0 :: us) f;
  ui_inj r1 r2 p1 p2 f fl1 fl2 : r1 ∈ us → r2 ∈ us → user_page p1 → user_page p2 →
    space pmo st r1 p1 = Some (f, fl1) → space pmo st r2 p2 = Some (f, fl2) →
    r1 = r2 ∧ p1 = p2 }.

(** What one step leaves alone: the user pages of the inactive spaces and the
    contents of their frames. *)
Definition others_kept (pmo : Z) (st : Kernel) (us : list Z) (st' : Kernel) : Prop :=
  ∀ r p, r ∈ us → r ≠ k_cr3 st → user_page p →
    space pmo st' r p = space pmo st r p ∧
    ∀ f fl, space pmo st r p = Some (f, fl) →
      k_dm st' !! (pmo + f) = k_dm st !! (pmo + f).

Section Preservation.
Context `{Profile} `{X86AddrLaws} `{BootOk pmo} `{Mapper} `{!MapperLaws pmo}.
Context (k0 : Z) (pool : list Z).

Lemma user_inv_boot st l :
  kinv pmo st [k0] l → kernel_page_table st = mkOPT (pmo + k0) pmo → pool = l →
  user_inv pmo k0 pool st [] l.
Proof.
  intros Hk Hkpt ->. pose proof (ki_fa _ _ _ _ Hk) as Hfa.
  split; [done|split; [done|apply not_elem_of_nil]| |done|..].
  - split_and!; [by apply Hfa..|]. destruct Hfa. lia.
  - intros ? ? ? ? []%elem_of_nil.
  - intros ? ? ? ? ? ? ? []%elem_of_nil.
Qed.

(** Switching. *)
Lemma user_inv_switch st us l r :
  user_inv pmo k0 pool st us l → r ∈ k0 :: us →
  user_inv pmo k0 pool (mkKernel (k_phys st) r (kernel_page_table st)) us l.
Proof. intros [] Hr. split; try done. by apply switch_kinv. Qed.

(** A user frame never becomes a table, nor its contents change, when it is not
    taken from the free list. *)
Lemma user_frame_cells st us l r p f fl :
  user_inv pmo k0 pool st us l → r ∈ us → user_page p → space pmo st r p = Some (f, fl) →
  f ∉ l ∧ f ∉ k0 :: us ∧ (∀ r i e, r ∈ k0 :: us → entry_at pmo (k_dm st) r i = Some e →
    is_unused e = false → f ≠ pte_addr e).
Proof. intros Hi Hr Hp Hsp. by destruct (ui_leaf _ _ _ _ _ _ Hi _ _ _ _ Hr Hp Hsp) as (_ & ? & ? & ?). Qed.

(** Creating a space. *)
Lemma user_inv_create st us f l st' :
  user_inv pmo k0 pool st us (f :: l) → created (pmo:=pmo) st (k0 :: us) l f st' →
  user_inv pmo k0 pool st' (f :: us) l ∧ others_kept pmo st us st'.
Proof.
  intros Hi [Hk' Hc Hkpt Ht Hold Hnew Hcells Htabs]. pose proof (ui_kinv _ _ _ _ _ _ Hi) as Hk.
  assert (f ∉ k0 :: us) as Hfr.
  { intros Hin. destruct (ki_roots _ _ _ _ Hk _ Hin) as (_ & Hn & _). apply Hn. left. }
  assert (f ≠ k0 ∧ f ∉ us) as [Hfk0 Hfus] by (by apply not_elem_of_cons in Hfr).
  assert (∀ r p, r ∈ us → space pmo st' r p = space pmo st r p) as Hold'.
  { intros r p Hr. apply Hold. by right. }
  assert (∀ p, user_page p → space pmo st' f p = None) as Hnew'.
  { intros p Hp. rewrite Hnew. by rewrite decide_False by (by apply user_not_kernel). }
  assert (∀ r p g fl, r ∈ f :: us → user_page p → space pmo st' r p = Some (g, fl) →
    r ∈ us ∧ space pmo st r p = Some (g, fl)) as Hback.
  { intros r p g fl [->|Hr]%elem_of_cons Hp Hsp; [by rewrite Hnew' in Hsp|].
    by rewrite Hold' in Hsp. }
  assert (∀ r, r ∈ k0 :: f :: us ↔ r ∈ f :: k0 :: us) as Hperm.
  { intros r. rewrite !elem_of_cons. tauto. }
  split.
  - split.
    + destruct Hk'. split; try done.
      * by rewrite Hperm.
      * destruct ki_own as (r & Hr & ?). exists r. by rewrite Hperm.
      * intros r Hr%Hperm. by apply ki_roots.
      * intros r i e Hr%Hperm. by apply ki_subs.
      * intros r i e Hr%Hperm. by apply ki_present.
      * intros r1 r2 i e1 e2 Hr1%Hperm Hr2%Hperm. by apply ki_private.
      * intros r1 r2 i e1 e2 Hr1%Hperm Hr2%Hperm. by apply ki_shared.
    + rewrite Hkpt. destruct (ui_kernel _ _ _ _ _ _ Hi) as [? ?].
      split; [done|]. by apply not_elem_of_cons.
    + rewrite Ht. by apply (ui_pool _ _ _ _ _ _ Hi).
    + intros g Hg. apply (ui_free _ _ _ _ _ _ Hi). by right.
    + intros r p g fl Hr Hp Hsp. destruct (Hback _ _ _ _ Hr Hp Hsp) as [Hr0 Hsp0].
      destruct (ui_leaf _ _ _ _ _ _ Hi _ _ _ _ Hr0 Hp Hsp0) as (? & [Hgf ?]%not_elem_of_cons & Hnt & Hnt').
      split_and!; [done..|]. split.
      * rewrite Hperm. by apply not_elem_of_cons.
      * intros r2 i e Hr2%Hperm He Hu. destruct (Htabs _ _ _ Hr2 He Hu) as (r3 & Hr3 & He3). by apply (Hnt' r3 i).
    + intros r1 r2 p1 p2 g fl1 fl2 Hr1 Hr2 Hp1 Hp2 Hs1 Hs2.
      destruct (Hback _ _ _ _ Hr1 Hp1 Hs1), (Hback _ _ _ _ Hr2 Hp2 Hs2).
      by apply (ui_inj _ _ _ _ _ _ Hi r1 r2 p1 p2 g fl1 fl2).
  - intros r p Hr _ Hp. split; [by apply Hold'|]. intros g fl Hsp. apply Hcells. intros ->.
    destruct (user_frame_cells _ _ _ _ _ _ _ Hi Hr Hp Hsp) as (Hn & _). apply Hn. left.
Qed.

(** Mapping a page with the first free frame. *)
Lemma mapped_not_table st roots f l0 page flags st' l' g :
  kinv pmo st roots (f :: l0) → mapped_to pmo st roots l0 page f flags st' l' →
  g ∉ l0 → g = f ∨ not_table (pmo:=pmo) st roots g →
  g ∉ l' ∧ not_table (pmo:=pmo) st' roots g.
Proof.
  intros Hk [Hk' _ _ _ (k & _ & ->) _ _ Htabs] Hgl Hg.
  split; [intros Hin; apply Hgl; by apply (elem_of_drop_l k)|].
  split.
  - destruct Hg as [->|[? _]]; [|done]. intros Hin.
    destruct (ki_roots _ _ _ _ Hk _ Hin) as (_ & Hn & _). apply Hn. left.
  - intros r i e Hr He Hu Heq. subst g.
    destruct (Htabs _ _ _ Hr He Hu) as [?|(r0 & i0 & e0 & Hr0 & He0 & Hu0 & Heq)]; [done|].
    destruct (ki_subs _ _ _ _ Hk _ _ _ Hr0 He0 Hu0) as (Hn & _). rewrite Heq in Hn.
    destruct Hg as [<-|[_ Hnt]]; [apply Hn; left|]. by apply (Hnt _ _ _ Hr0 He0 Hu0).
Qed.

Lemma user_inv_mapped st us f l0 page flags st' l' :
  user_inv pmo k0 pool st us (f :: l0) → (user_page page → k_cr3 st ∈ us) →
  mapped_to pmo st (k0 :: us) l0 page f flags st' l' →
  user_inv pmo k0 pool st' us l' ∧ others_kept pmo st us st'.
Proof.
  intros Hi Hact Hm. pose proof (ui_kinv _ _ _ _ _ _ Hi) as Hk.
  pose proof (fa_nodup _ _ _ (ki_fa _ _ _ _ Hk)) as [Hfl _]%NoDup_cons.
  assert (∀ r p, r ∈ us → user_page p → space pmo st' r p =
    if decide (p = page ∧ r = k_cr3 st) then Some (f, flags) else space pmo st r p) as Hspace.
  { intros r p Hr Hp. rewrite (mt_space _ _ _ _ _ _ _ _ _ Hm) by (by right).
    apply decide_ext. split; intros [-> Hs]; (split; [done|]).
    - apply (same_table_user pmo st (k0 :: us) (f :: l0) (k_cr3 st) r page); [done|by right; auto..|done|done].
    - by left. }
  assert (∀ r p g fl, r ∈ us → user_page p → space pmo st' r p = Some (g, fl) →
    (g = f ∧ p = page ∧ r = k_cr3 st) ∨
    (space pmo st r p = Some (g, fl) ∧ g ∈ pool ∧ g ≠ f ∧ g ∉ l0 ∧
      not_table (pmo:=pmo) st (k0 :: us) g)) as Hback.
  { intros r p g fl Hr Hp. rewrite Hspace by done. case_decide as Hd; [naive_solver|]. intros Hsp.
    destruct (ui_leaf _ _ _ _ _ _ Hi _ _ _ _ Hr Hp Hsp) as (? & [? ?]%not_elem_of_cons & ?).
    right. by split_and!. }
  split.
  - split.
    + by apply Hm.
    + rewrite (mt_kpt _ _ _ _ _ _ _ _ _ Hm). by apply (ui_kernel _ _ _ _ _ _ Hi).
    + rewrite (mt_total _ _ _ _ _ _ _ _ _ Hm). by apply (ui_pool _ _ _ _ _ _ Hi).
    + destruct (mt_free _ _ _ _ _ _ _ _ _ Hm) as (k & _ & ->). intros g Hg.
      apply (ui_free _ _ _ _ _ _ Hi). right. by apply (elem_of_drop_l k).
    + intros r p g fl Hr Hp Hsp.
      destruct (Hback _ _ _ _ Hr Hp Hsp) as [(-> & _)|(_ & ? & _ & ? & ?)].
      * split; [apply (ui_free _ _ _ _ _ _ Hi); left|]. apply (mapped_not_table st (k0 :: us) f l0 page flags); auto.
      * split; [done|]. apply (mapped_not_table st (k0 :: us) f l0 page flags); auto.
    + intros r1 r2 p1 p2 g fl1 fl2 Hr1 Hr2 Hp1 Hp2 Hs1 Hs2.
      destruct (Hback _ _ _ _ Hr1 Hp1 Hs1) as [(? & ? & ?)|(? & _ & ? & _)],
        (Hback _ _ _ _ Hr2 Hp2 Hs2) as [(? & ? & ?)|(? & _ & ? & _)]; [by subst|done|done|].
      by apply (ui_inj _ _ _ _ _ _ Hi r1 r2 p1 p2 g fl1 fl2).
  - intros r p Hr Hne Hp. rewrite Hspace, decide_False by (done || by intros [_ ?]).
    split; [done|]. intros g fl Hsp.
    destruct (ui_leaf _ _ _ _ _ _ Hi _ _ _ _ Hr Hp Hsp) as (_ & [? ?]%not_elem_of_cons & ? & ?).
    by apply (mt_cells _ _ _ _ _ _ _ _ _ Hm).
Qed.

(** Rewriting the leaf of a user page: to nothing, giving its frame back, or to
    the same frame with other flags. *)
Lemma user_inv_remapped st us l page f fl x l' st' :
  user_inv pmo k0 pool st us l → user_page page → k_cr3 st ∈ us →
  space pmo st (k_cr3 st) page = Some (f, fl) →
  (x = None ∧ l' = f :: l ∨ (∃ fl', x = Some (f, fl')) ∧ l' = l) →
  remapped (pmo:=pmo) st (k0 :: us) l' page x st' →
  user_inv pmo k0 pool st' us l' ∧ others_kept pmo st us st'.
Proof.
  intros Hi Hpage Hact Hf Hx [Hk' Hc Hkpt Ht Hsp' Hcells Htabs].
  pose proof (ui_kinv _ _ _ _ _ _ Hi) as Hk.
  destruct (ui_leaf _ _ _ _ _ _ Hi _ _ _ _ Hact Hpage Hf) as (Hfpool & Hfl & _).
  assert (∀ r p, r ∈ us → user_page p → space pmo st' r p =
    if decide (p = page ∧ r = k_cr3 st) then x else space pmo st r p) as Hspace.
  { intros r p Hr Hp. rewrite Hsp' by (by right).
    apply decide_ext. split; intros [-> Hs]; (split; [done|]).
    - apply (same_table_user pmo st (k0 :: us) l (k_cr3 st) r page); [done|by right|by right|done|done].
    - by left. }
  assert (∀ r p g fl2, r ∈ us → user_page p → space pmo st' r p = Some (g, fl2) →
    ∃ fl3, space pmo st r p = Some (g, fl3) ∧ g ∉ l') as Hback.
  { intros r p g fl2 Hr Hp. rewrite Hspace by done. case_decide as Hd.
    - destruct Hd as [-> ->]. intros ->. destruct Hx as [[? _]|[[fl' [= -> ->]] ->]]; [done|eauto].
    - intros Hs. exists fl2. split; [done|].
      destruct (ui_leaf _ _ _ _ _ _ Hi _ _ _ _ Hr Hp Hs) as (_ & Hgl & _).
      destruct Hx as [[_ ->]|[_ ->]]; [|done]. apply not_elem_of_cons. split; [|done]. intros ->.
      destruct (ui_inj _ _ _ _ _ _ Hi _ _ _ _ _ _ _ Hr Hact Hp Hpage Hs Hf). by apply Hd. }
  split.
  - split.
    + done.
    + rewrite Hkpt. by apply (ui_kernel _ _ _ _ _ _ Hi).
    + rewrite Ht. by apply (ui_pool _ _ _ _ _ _ Hi).
    + intros g Hg. destruct Hx as [[_ ->]|[_ ->]]; [|by apply (ui_free _ _ _ _ _ _ Hi)].
      apply elem_of_cons in Hg as [->|Hg]; [done|by apply (ui_free _ _ _ _ _ _ Hi)].
    + intros r p g fl2 Hr Hp Hs. destruct (Hback _ _ _ _ Hr Hp Hs) as (fl3 & Hs3 & Hgl).
      destruct (ui_leaf _ _ _ _ _ _ Hi _ _ _ _ Hr Hp Hs3) as (? & _ & ? & Hnt).
      split_and!; [done..|]. split; [done|]. intros r2 i e Hr2. rewrite Htabs by done. by apply Hnt.
    + intros r1 r2 p1 p2 g fl1 fl2 Hr1 Hr2 Hp1 Hp2 Hs1 Hs2.
      destruct (Hback _ _ _ _ Hr1 Hp1 Hs1) as (? & ? & _), (Hback _ _ _ _ Hr2 Hp2 Hs2) as (? & ? & _).
      by eapply (ui_inj _ _ _ _ _ _ Hi r1 r2 p1 p2 g).
  - intros r p Hr Hne Hp. rewrite Hspace, decide_False by (done || by intros [_ ?]).
    split; [done|]. intros g fl2 Hsp.
    destruct (ui_leaf _ _ _ _ _ _ Hi _ _ _ _ Hr Hp Hsp) as (_ & ? & _ & ?).
    apply Hcells; [|done]. destruct Hx as [[_ ->]|[_ ->]]; [|done].
    apply not_elem_of_cons. split; [|done]. intros ->.
    by destruct (ui_inj _ _ _ _ _ _ Hi _ _ _ _ _ _ _ Hr Hact Hp Hpage Hsp Hf).
Qed.

(** An application writing to its own page. *)
Lemma user_inv_write st us l page f fl bytes :
  user_inv pmo k0 pool st us l → user_page page → k_cr3 st ∈ us →
  space pmo st (k_cr3 st) page = Some (f, fl) →
  let st' := put_phys (with_dm <[pmo + f := CBytes bytes]> (k_phys st)) st in
  user_inv pmo k0 pool st' us l ∧ others_kept pmo st us st' ∧
  ∀ r p, r ∈ k0 :: us → space pmo st' r p = space pmo st r p.
Proof.
  intros Hi Hpage Hact Hf st'. pose proof (ui_kinv _ _ _ _ _ _ Hi) as Hk.
  destruct (ui_leaf _ _ _ _ _ _ Hi _ _ _ _ Hact Hpage Hf) as (Hfpool & Hfl & Hnt).
  destruct (write_frame_effect st (k0 :: us) l f bytes Hk Hfl Hnt) as (Hk' & Hd & Hent & Hspace).
  fold st' in Hk', Hd, Hent, Hspace.
  split_and!; [| |done].
  - split; try by apply Hi.
    + done.
    + intros r p g fl2 Hr Hp. rewrite Hspace by (by right). intros Hs.
      destruct (ui_leaf _ _ _ _ _ _ Hi _ _ _ _ Hr Hp Hs) as (? & ? & ? & Hnt2).
      split_and!; [done..|]. split; [done|]. intros r2 i e Hr2. rewrite Hent by done. by apply Hnt2.
    + intros r1 r2 p1 p2 g fl1 fl2 Hr1 Hr2. rewrite !Hspace by (by right).
      by apply (ui_inj _ _ _ _ _ _ Hi).
  - intros r p Hr Hne Hp. split; [apply Hspace; by right|]. intros g fl2 Hs. apply Hd. intros ->.
    by destruct (ui_inj _ _ _ _ _ _ Hi _ _ _ _ _ _ _ Hr Hact Hp Hpage Hs Hf).
Qed.

Lemma others_kept_refl st us : others_kept pmo st us st.
Proof. by intros r p. Qed.

Lemma map_ram_step st us l page flags f st' :
  user_inv pmo k0 pool st us l → (user_page page → k_cr3 st ∈ us) →
  mappable pmo st (k0 :: us) page → map_ram page flags st = Val (f, st') →
  ∃ l', user_inv pmo k0 pool st' us l' ∧ others_kept pmo st us st'.
Proof.
  intros Hi Hact Hmap Hrun.
  pose proof (map_ram_effect st (k0 :: us) l page flags (ui_kinv _ _ _ _ _ _ Hi) Hmap) as He.
  destruct l as [|g l0]; [congruence|].
  destruct (space pmo st (k_cr3 st) page); [congruence|].
  destruct He as [[He _]|(st2 & l' & He & Hm)]; [congruence|].
  rewrite Hrun in He. injection He as <- <-. exists l'. by eapply user_inv_mapped.
Qed.

(** A mapped user page of the active space can be unmapped. *)
Lemma user_inv_unmap st us l page f fl :
  user_inv pmo k0 pool st us l → k_cr3 st ∈ us → user_page page →
  space pmo st (k_cr3 st) page = Some (f, fl) →
  ∃ st', unmap_ram page st = Val ((), st') ∧
    remapped (pmo:=pmo) st (k0 :: us) (f :: l) page None st'.
Proof.
  intros Hi Hact Hp Hsp. pose proof (ui_kinv _ _ _ _ _ _ Hi) as Hk.
  destruct (ui_leaf _ _ _ _ _ _ Hi _ _ _ _ Hact Hp Hsp) as (Hfpool & Hfl & Hnt).
  destruct (ui_pool _ _ _ _ _ _ Hi) as (Hnd & Hok & Htot).
  apply (unmap_ram_effect _ _ _ page f fl Hk Hsp); [|done|done|].
  { by eapply list.Forall_forall. }
  assert (length (f :: l) ≤ length pool)%nat as Hle; [|cbn in Hle; lia].
  apply submseteq_length, NoDup_submseteq.
  - apply NoDup_cons. split; [done|]. apply (ki_fa _ _ _ _ Hk).
  - intros g [->|Hg]%elem_of_cons; [done|by apply (ui_free _ _ _ _ _ _ Hi)].
Qed.

Lemma mem_step_inv st us l st' us' :
  user_inv pmo k0 pool st us l → mem_step pmo (st, us) (st', us') →
  ∃ l', user_inv pmo k0 pool st' us' l' ∧ others_kept pmo st us st'.
Proof.
  intros Hi Hstep. pose proof (ui_kinv _ _ _ _ _ _ Hi) as Hk.
  inversion Hstep as [? ? r ? Hrun|? ? r ? Hr Hrun|? ? ? Hrun|? ? page flags f ? Hact Hrun|
    ? ? page ? Hact Hp Hrun|? ? page flags ? Hact Hp Hrun|? ? e page flags f ? He Hu Hrun|
    ? ? page f fl b Hact Hp Hsp]; simplify_eq.
  - destruct l as [|f l]; [by rewrite (create_nil _ _ Hk) in Hrun|].
    destruct (create_effect _ _ _ _ Hk) as (st2 & Hrun2 & Hcr). rewrite Hrun in Hrun2.
    injection Hrun2 as Hrf ->. assert (r = f) as -> by lia.
    exists l. by apply user_inv_create.
  - unfold switch_to_user_page_table in Hrun.
    rewrite (switch_run _ _ _ _ Hk) in Hrun by (by right). injection Hrun as <-.
    exists l. split; [apply user_inv_switch; [done|by right]|by intros r2 p].
  - unfold switch_to_kernel_page_table in Hrun. rewrite (M_bind_run _ _ _ _ _ eq_refl) in Hrun.
    destruct (ui_kernel _ _ _ _ _ _ Hi) as [Hkpt _]. rewrite Hkpt in Hrun.
    rewrite (switch_run _ _ _ _ Hk) in Hrun by left. injection Hrun as <-.
    exists l. split; [apply user_inv_switch; [done|left]|by intros r2 p].
  - rewrite map_ram_user_run in Hrun. case_bool_decide as Hp; [|done].
    eapply map_ram_step; [done|done|by apply mappable_user|done].
  - pose proof (unmap_page_effect _ _ _ page Hk) as Hun.
    destruct (space pmo st (k_cr3 st) page) as [[f fl]|] eqn:Hsp; cycle 1.
    { unfold unmap_ram in Hrun. by rewrite (M_bind_fault _ _ _ _ Hun) in Hrun. }
    destruct (user_inv_unmap _ _ _ _ _ _ Hi Hact Hp Hsp) as (st2 & Hrun2 & Hrm).
    rewrite Hrun in Hrun2. injection Hrun2 as ->. exists (f :: l).
    eapply user_inv_remapped; [done..| |done]. by left.
  - pose proof (change_flags_effect _ _ _ page flags Hk) as Hch.
    destruct (space pmo st (k_cr3 st) page) as [[f fl]|] eqn:Hsp; [|congruence].
    destruct Hch as (st2 & Hrun2 & Hrm). rewrite Hrun in Hrun2. injection Hrun2 as ->.
    exists l. eapply user_inv_remapped; [done..| |done]. right. eauto.
  - rewrite map_ram_kernel_run in Hrun. case_bool_decide as Hp; [|done].
    eapply map_ram_step; [done| | |done]; [|intros _; left; eauto].
    intros [_ Hlt]. change v.USER_END with (2 ^ 39) in Hlt.
    change v.KERNEL_START with (100 * 2 ^ 39) in Hp. lia.
  - exists l. by destruct (user_inv_write _ _ _ page f fl b Hi Hp Hact Hsp) as (? & ? & _).
Qed.

Lemma steps_user_inv st us l st' us' :
  user_inv pmo k0 pool st us l → rtc (mem_step pmo) (st, us) (st', us') →
  ∃ l', user_inv pmo k0 pool st' us' l'.
Proof.
  intros Hi Hsteps. remember (st, us) as s0 eqn:E0. remember (st', us') as s eqn:E.
  assert (∃ l, user_inv pmo k0 pool (fst s0) (snd s0) l) as H0' by (subst; eauto).
  clear Hi E0. assert (∃ l, user_inv pmo k0 pool (fst s) (snd s) l) as Hfin; [|by subst].
  clear E. induction Hsteps as [|[s1 u1] [s2 u2] s3 Hstep _ IH]; [done|]. apply IH.
  destruct H0' as (l1 & Hi). destruct (mem_step_inv _ _ _ _ _ Hi Hstep) as (l2 & ? & _). by exists l2.
Qed.

Lemma reachable_user_inv st0 l0 st us :
  kinv pmo st0 [k0] l0 → kernel_page_table st0 = mkOPT (pmo + k0) pmo → pool = l0 →
  rtc (mem_step pmo) (st0, []) (st, us) → ∃ l, user_inv pmo k0 pool st us l.
Proof. intros Hk Hkpt Hpool. by apply (steps_user_inv _ _ l0), user_inv_boot. Qed.
(** Switching among the spaces. *)
Lemma switch_user_run st us l r :
  user_inv pmo k0 pool st us l → r ∈ us →
  switch_to_user_page_table (mkOPT (pmo + r) pmo) st =
    Val ((), mkKernel (k_phys st) r (kernel_page_table st)).
Proof. intros Hi Hr. apply (switch_run st (k0 :: us) l); [by apply Hi|by right]. Qed.

Lemma switch_kernel_run st us l :
  user_inv pmo k0 pool st us l →
  switch_to_kernel_page_table st = Val ((), mkKernel (k_phys st) k0 (kernel_page_table st)).
Proof.
  intros Hi. unfold switch_to_kernel_page_table. rewrite (M_bind_run _ _ _ _ _ eq_refl).
  rewrite (proj1 (ui_kernel _ _ _ _ _ _ Hi)) at 1. apply (switch_run st (k0 :: us) l); [by apply Hi|by left].
Qed.

End Preservation.

(** ** Properties *)

Section Theorems.
Context `{Profile} `{X86AddrLaws} `{BootOk pmo} `{Mapper} `{!MapperLaws pmo}.

(** C2 (safety).  Isolation of applications, the state part.  After any sequence
    of kernel operations from boot, the frames behind the user pages of the
    user spaces are frames that were free at boot, are not free, hold no page
    table, and no frame is behind two user pages of the same or of different
    spaces. *)
Theorem user_isolation st0 k0 l0 st us :
  kinv pmo st0 [k0] l0 → kernel_page_table st0 = mkOPT (pmo + k0) pmo →
  rtc (mem_step pmo) (st0, []) (st, us) →
  ∃ l, kinv pmo st (k0 :: us) l ∧
    (∀ r p f fl, r ∈ us → user_page p → space pmo st r p = Some (f, fl) →
       f ∈ l0 ∧ f ∉ l ∧ not_table (pmo:=pmo) st (k0 :: us) f) ∧
    (∀ r1 r2 p1 p2 f fl1 fl2, r1 ∈ us → r2 ∈ us → user_page p1 → user_page p2 →
       space pmo st r1 p1 = Some (f, fl1) → space pmo st r2 p2 = Some (f, fl2) →
       r1 = r2 ∧ p1 = p2).
Proof.
  intros Hk Hkpt Hsteps.
  destruct (reachable_user_inv k0 l0 _ _ _ _ Hk Hkpt eq_refl Hsteps) as [l Hi].
  exists l. split_and!; [by eapply ui_kinv|intros *; by apply Hi|intros *; by apply Hi].
Qed.

(** C1 (safety).  Isolation of applications, the step part.  Whatever the
    kernel or the running application does next, an application that is not
    running keeps every translation of its user pages and the contents of the
    frames behind them. *)
Theorem step_isolation st0 k0 l0 st us st' us' :
  kinv pmo st0 [k0] l0 → kernel_page_table st0 = mkOPT (pmo + k0) pmo →
  rtc (mem_step pmo) (st0, []) (st, us) → mem_step pmo (st, us) (st', us') →
  ∀ r p, r ∈ us → r ≠ k_cr3 st → user_page p →
    space pmo st' r p = space pmo st r p ∧
    ∀ f fl, space pmo st r p = Some (f, fl) → k_dm st' !! (pmo + f) = k_dm st !! (pmo + f).
Proof.
  intros Hk Hkpt Hsteps Hstep.
  destruct (reachable_user_inv k0 l0 _ _ _ _ Hk Hkpt eq_refl Hsteps) as [l Hi].
  by destruct (mem_step_inv _ _ _ _ _ _ _ Hi Hstep) as (l' & _ & Ho).
Qed.

(** A slot of the active space that is in use. *)
Definition slot_in_use (st : Kernel) (page : Z) : Prop :=
  ∃ e, entry_at pmo (k_dm st) (k_cr3 st) (l4_slot page) = Some e ∧ is_unused e = false.

(** The kernel half is the same in all spaces. *)
Definition kernel_shared (st : Kernel) (roots : list Z) : Prop :=
  ∀ r r' p, r ∈ roots → r' ∈ roots → v.KERNEL_START ≤ p < v.KERNEL_END → space pmo st r p = space pmo st r' p.

Lemma kinv_kernel_shared st roots l : kinv pmo st roots l → kernel_shared st roots.
Proof.
  intros Hk r r' p Hr Hr' Hp. apply kernel_page_slot in Hp.
  destruct (kinv_slot _ _ _ _ r p Hk Hr) as (e1 & He1 & _ & ->).
  destruct (kinv_slot _ _ _ _ r' p Hk Hr') as (e2 & He2 & _ & ->).
  destruct (ki_shared _ _ _ _ Hk r r' _ _ _ Hr Hr' Hp He1 He2) as [Hu Ha].
  unfold leaves_of. rewrite <-Hu. destruct (is_unused e1); [done|]. by rewrite Ha.
Qed.

Lemma kernel_half_same st0 k0 l0 st us r p :
  kinv pmo st0 [k0] l0 → kernel_page_table st0 = mkOPT (pmo + k0) pmo →
  rtc (mem_step pmo) (st0, []) (st, us) → r ∈ us →
  v.KERNEL_START ≤ p < v.KERNEL_END →
  space pmo st r p = space pmo st k0 p.
Proof.
  intros Hk Hkpt Hsteps Hr Hp.
  destruct (reachable_user_inv k0 l0 _ _ _ _ Hk Hkpt eq_refl Hsteps) as [l Hi].
  by apply (kinv_kernel_shared _ _ _ (ui_kinv _ _ _ _ _ _ Hi)); [right|left|].
Qed.

(** C23 (invariant).  In every state reached by steps of [mem_step], where the
    kernel maps memory of its own only in top-level slots that are in use, the
    kernel half is the same in every space: a kernel address translates the same
    way whichever application is active.  The condition, which
    [map_ram_kernel] does not check, is exact: a mapping by [map_ram_kernel]
    in such a state keeps the kernel halves equal if and only if its slot is in
    use or there are no user spaces yet. *)
Theorem kernel_half_shared st0 k0 l0 st us :
  kinv pmo st0 [k0] l0 → kernel_page_table st0 = mkOPT (pmo + k0) pmo →
  rtc (mem_step pmo) (st0, []) (st, us) →
  kernel_shared st (k0 :: us) ∧
  ∀ page flags f st', map_ram_kernel page flags st = Val (f, st') →
    kernel_shared st' (k0 :: us) ↔ slot_in_use st page ∨ us = [].
Proof.
  intros Hk Hkpt Hsteps. destruct (reachable_user_inv k0 l0 _ _ _ _ Hk Hkpt eq_refl Hsteps) as [l Hi].
  pose proof (ui_kinv _ _ _ _ _ _ Hi) as Hk'. pose proof (ki_active _ _ _ _ Hk') as Ha.
  split; [by eapply kinv_kernel_shared|]. intros page flags f st' Hrun. split.
  - intros Hsh. destruct (decide (us = [])) as [|Hus]; [by right|left].
    destruct (kinv_slot _ _ _ _ (k_cr3 st) page Hk' Ha) as (e & He & _).
    destruct (is_unused e) eqn:Hu; [exfalso|by exists e].
    rewrite map_ram_kernel_run in Hrun. case_bool_decide as Hp; [|done].
    assert (∃ r, r ∈ k0 :: us ∧ r ≠ k_cr3 st) as (r & Hr & Hne).
    { destruct us as [|u us']; [done|]. destruct (ui_kernel _ _ _ _ _ _ Hi) as [_ Hk0].
      destruct (decide (k_cr3 st = k0)) as [->|]; [|exists k0; split; [left|done]].
      exists u. split; [right; left|]. intros ->. apply Hk0. left. }
    destruct (map_ram_unused st (k0 :: us) l page _ f st' e r Hk' Hrun He Hu Hr Hne) as [Hs1 Hs2].
    rewrite (Hsh r (k_cr3 st) page Hr Ha Hp), Hs2 in Hs1.
    rewrite (kinv_kernel_shared st (k0 :: us) l Hk' r (k_cr3 st) page Hr Ha Hp) in Hs1.
    destruct (kinv_slot _ _ _ _ (k_cr3 st) page Hk' Ha) as (e' & He' & _ & Hs3). assert (e' = e) as -> by congruence.
    unfold leaves_of in Hs3. rewrite Hu, lookup_empty in Hs3. congruence.
  - intros [(e & He & Hu)| ->].
    + destruct (mem_step_inv k0 l0 _ _ _ _ _ Hi (ms_map_kernel pmo st us e page flags f st' He Hu Hrun))
        as (l' & Hi' & _). by eapply kinv_kernel_shared, Hi'.
    + by intros r r' p ->%list_elem_of_singleton ->%list_elem_of_singleton.
Qed.

(** C21 (functional).  [create_user_page_table] panics exactly when no frame is
    free; otherwise it returns a table in the first free frame that shows the
    kernel half of the active space and maps no other page, and changes no
    existing space. *)
Theorem create_user_page_table_spec st roots l :
  kinv pmo st roots l →
  match l with
  | [] => create_user_page_table st = Fault Unwrap
  | f :: l' => ∃ st', create_user_page_table st = Val (mkOPT (pmo + f) pmo, st') ∧
      kinv pmo st' (f :: roots) l' ∧ k_cr3 st' = k_cr3 st ∧
      (∀ r p, r ∈ roots → space pmo st' r p = space pmo st r p) ∧
      (∀ p, space pmo st' f p =
         if decide (kernel_slot (l4_slot p)) then space pmo st (k_cr3 st) p else None)
  end.
Proof.
  intros Hk. destruct l as [|f l]; [by apply (create_nil st roots)|].
  destruct (create_effect _ _ _ _ Hk) as (st' & Hrun & []). by exists st'.
Qed.

(** C20 (functional).  [map_ram_user] on every branch: a page outside the user
    region fails the assertion; without a free frame, or if the page is mapped
    already, it panics; otherwise (four frames suffice: one for the page, three
    for tables) the first free frame appears at the page with the user and
    present flags added, in the active space and in no other. *)
Theorem map_ram_user_spec st roots l page flags :
  kinv pmo st roots l →
  (¬ user_page page → map_ram_user page flags st = Fault Assertion) ∧
  (user_page page → l = [] ∨ space pmo st (k_cr3 st) page ≠ None →
     map_ram_user page flags st = Fault Explicit) ∧
  (user_page page → (4 ≤ length l)%nat → space pmo st (k_cr3 st) page = None →
   ∃ f l' st', head l = Some f ∧ map_ram_user page flags st = Val (f, st') ∧
     kinv pmo st' roots l' ∧ f ∉ l' ∧
     ∀ r p, r ∈ roots → space pmo st' r p =
       if decide (p = page ∧ r = k_cr3 st)
       then Some (f, Z.lor (Z.lor flags PageTableFlags.USER_ACCESSIBLE) PageTableFlags.PRESENT)
       else space pmo st r p).
Proof.
  intros Hk. rewrite map_ram_user_run. split_and!; intros Hp; case_bool_decide; try done;
  pose proof (map_ram_effect st roots l page (Z.lor (Z.lor flags PageTableFlags.USER_ACCESSIBLE)
    PageTableFlags.PRESENT) Hk (mappable_user _ _ _ _ Hp)) as He.
  - intros Hor. destruct l as [|f l]; [done|]. destruct Hor as [?|Hne]; [done|].
    by destruct (space pmo st (k_cr3 st) page).
  - intros Hlen Hsp. destruct l as [|f l0]; [cbn in Hlen; lia|]. rewrite Hsp in He.
    destruct He as [[_ ?]|(st' & l' & Hrun & Hm)]; [cbn in Hlen; lia|].
    exists f, l', st'. split_and!; [done..|by apply Hm| |].
    + destruct (mt_free _ _ _ _ _ _ _ _ _ Hm) as (k & _ & ->). intros Hin.
      pose proof (fa_nodup _ _ _ (ki_fa _ _ _ _ Hk)) as [Hn _]%NoDup_cons. apply Hn.
      by apply (elem_of_drop_l k).
    + intros r p Hr. rewrite (mt_space _ _ _ _ _ _ _ _ _ Hm) by done. apply decide_ext.
      rewrite (same_table_user pmo st roots (f :: l0)); [done|done|by apply (ki_active _ _ _ _ Hk)|done..].
Qed.

(**  [map_ram_kernel] on every branch; when the level-4 slot of
    the page is in use the new page appears in every space at once, because the
    spaces share the tables below it. *)
Theorem map_ram_kernel_spec st roots l page flags e :
  kinv pmo st roots l →
  entry_at pmo (k_dm st) (k_cr3 st) (l4_slot page) = Some e → is_unused e = false →
  let kernel_page := v.KERNEL_START ≤ page < v.KERNEL_END in
  (¬ kernel_page → map_ram_kernel page flags st = Fault Assertion) ∧
  (kernel_page → l = [] ∨ space pmo st (k_cr3 st) page ≠ None →
     map_ram_kernel page flags st = Fault Explicit) ∧
  (kernel_page → (4 ≤ length l)%nat → space pmo st (k_cr3 st) page = None →
   ∃ f l' st', head l = Some f ∧ map_ram_kernel page flags st = Val (f, st') ∧
     kinv pmo st' roots l' ∧
     ∀ r p, r ∈ roots → space pmo st' r p =
       if decide (p = page) then Some (f, Z.lor flags PageTableFlags.PRESENT)
       else space pmo st r p).
Proof.
  intros Hk Hent Hu kernel_page. rewrite map_ram_kernel_run.
  assert (mappable pmo st roots page) as Hmap by (intros _; left; eauto).
  pose proof (map_ram_effect st roots l page (Z.lor flags PageTableFlags.PRESENT) Hk Hmap) as He.
  split_and!; intros Hp; case_bool_decide; try done.
  - intros Hor. destruct l as [|f l]; [done|]. destruct Hor as [?|Hne]; [done|].
    by destruct (space pmo st (k_cr3 st) page).
  - intros Hlen Hsp. destruct l as [|f l0]; [cbn in Hlen; lia|]. rewrite Hsp in He.
    destruct He as [[_ ?]|(st' & l' & Hrun & Hm)]; [cbn in Hlen; lia|].
    exists f, l', st'. split_and!; [done..|by apply Hm|].
    intros r p Hr. rewrite (mt_space _ _ _ _ _ _ _ _ _ Hm) by done. apply decide_ext.
    split; [by intros [? _]|intros ->; split; [done|]].
    eapply (same_table_kernel pmo st roots (f :: l0)); try done;
      [by apply (ki_active _ _ _ _ Hk)|by apply kernel_page_slot].
Qed.

(** C22 (roundtrip).  In a reachable state, [unmap_ram] right after a successful
    [map_ram_user] succeeds: the page is unmapped again, every space translates
    as before the two calls, and the frame is the next one to be allocated. *)
Theorem map_unmap_roundtrip st0 k0 l0 st us page flags f st1 :
  kinv pmo st0 [k0] l0 → kernel_page_table st0 = mkOPT (pmo + k0) pmo →
  rtc (mem_step pmo) (st0, []) (st, us) → k_cr3 st ∈ us →
  map_ram_user page flags st = Val (f, st1) →
  ∃ l st2, unmap_ram page st1 = Val ((), st2) ∧ kinv pmo st2 (k0 :: us) (f :: l) ∧
    ∀ r p, r ∈ k0 :: us → space pmo st2 r p = space pmo st r p.
Proof.
  intros Hk Hkpt Hsteps Hact Hrun.
  destruct (reachable_user_inv k0 l0 _ _ _ _ Hk Hkpt eq_refl Hsteps) as [l Hi].
  pose proof (ui_kinv _ _ _ _ _ _ Hi) as Hk0.
  rewrite map_ram_user_run in Hrun. case_bool_decide as Hp; [|done].
  set (fl := Z.lor _ PageTableFlags.PRESENT) in *.
  pose proof (map_ram_effect st _ l page fl Hk0 (mappable_user _ _ _ _ Hp)) as He.
  destruct l as [|g l1]; [by rewrite Hrun in He|].
  destruct (space pmo st (k_cr3 st) page) as [x|] eqn:Hsp; [by rewrite Hrun in He|].
  destruct He as [[He _]|(st2 & l' & He & Hm)]; [by rewrite Hrun in He|].
  rewrite Hrun in He. injection He as <- <-.
  destruct (user_inv_mapped _ _ _ _ _ _ _ _ _ _ Hi (λ _, Hact) Hm) as [Hi' _].
  assert (space pmo st1 (k_cr3 st1) page = Some (f, fl)) as Hsp1.
  { rewrite (mt_cr3 _ _ _ _ _ _ _ _ _ Hm), (mt_space _ _ _ _ _ _ _ _ _ Hm) by (by right).
    apply decide_True. split; [done|by left]. }
  assert (k_cr3 st1 ∈ us) as Hact1 by (by rewrite (mt_cr3 _ _ _ _ _ _ _ _ _ Hm)).
  destruct (user_inv_unmap _ _ _ _ _ _ _ _ Hi' Hact1 Hp Hsp1) as (st2 & Hrun2 & Hrm).
  exists l', st2. split_and!; [done|by apply Hrm|]. intros r p Hr.
  rewrite (rm_space _ _ _ _ _ _ Hrm), (mt_space _ _ _ _ _ _ _ _ _ Hm) by done.
  pose proof (same_table_user pmo _ (k0 :: us) l' (k_cr3 st) r page (ui_kinv _ _ _ _ _ _ Hi')
    ltac:(by right) Hr Hp) as Hst1.
  pose proof (same_table_user pmo _ (k0 :: us) (f :: l1) (k_cr3 st) r page Hk0
    ltac:(by right) Hr Hp) as Hst.
  rewrite (mt_cr3 _ _ _ _ _ _ _ _ _ Hm).
  case_decide as Hd; [by destruct Hd as [-> ->%Hst1]|].
  rewrite decide_False; [done|]. intros [-> Hs%Hst]. apply Hd. split; [done|]. by apply Hst1.
Qed.
End Theorems.
