(* ===== verification/IsolationDemo.v ===== *)
(** * A concrete machine for the address-space theorems

    The kernel table in frame 0x1000 with one kernel slot in use, twelve free
    frames, the mapper of [RefMapper]; a run that creates a space and maps a page
    in it.  Only witnesses use this file. *)

From S2P Require Import Prelude Constants Platform FrameAlloc Paging Memory AddressSpace Isolation.

#[local] Existing Instance dev_profile.
Import RefX86 RefBoot RefMapper.

Definition free_frames_of (n : Z) : list Z := (λ i, 0x10000 + i * 4096) <$> seqZ 0 n.

Definition kernel_table : list PageTableEntry := <[100%nat := mkPTE 0x8000 3]> (replicate 512 pte_zero).

(** The machine with [n] free frames. *)
Definition machine (n : Z) : Kernel :=
  let d := match write_nodes (free_frames_of n) 0 ∅ with Val (_, d) => d | Fault _ => ∅ end in
  mkKernel (mkPhys (mkAlloc (Some (pmo + 0x10000)) n n)
    (<[pmo + 0x8000 := CSub ∅]> (<[pmo + 0x1000 := CTable kernel_table]> d)))
    0x1000 (mkOPT (pmo + 0x1000) pmo).

Lemma free_frames_bounds n f : f ∈ free_frames_of n → 0x10000 ≤ f < 0x10000 + n * 4096 ∧ f `mod` 4096 = 0.
Proof.
  intros (i & -> & Hi%elem_of_seqZ)%list_elem_of_fmap. split; [lia|].
  replace (0x10000 + i * 4096) with ((16 + i) * 4096) by lia. by apply Z.mod_mul.
Qed.

Lemma free_frames_NoDup n : NoDup (free_frames_of n).
Proof. apply NoDup_fmap_2; [intros x y Hxy; lia|apply NoDup_seqZ]. Qed.

Lemma machine_fa n : 0 < n ≤ 2 ^ 20 → fa_inv pmo (k_phys (machine n)) (free_frames_of n).
Proof.
  intros Hn. pose proof (free_frames_NoDup n) as Hnd.
  assert (Forall frame_ok (free_frames_of n)) as Hok.
  { apply list.Forall_forall. intros f Hf%free_frames_bounds. unfold frame_ok. lia. }
  assert (Z.of_nat (length (free_frames_of n)) = n) as Hlen.
  { unfold free_frames_of. rewrite length_fmap, length_seqZ. lia. }
  destruct (write_nodes_spec (pmo:=pmo) (free_frames_of n) 0 ∅ Hnd Hok) as (d' & Hrun & Hl & _); [lia|lia|].
  unfold machine. rewrite Hrun. apply (fa_inv_ext pmo (mkPhys (mkAlloc (Some (pmo + 0x10000)) n n) d')).
  - intros f Hf%free_frames_bounds. cbn. rewrite !lookup_insert_ne by lia. done.
  - assert (head_ptr pmo (free_frames_of n) = Some (pmo + 0x10000)) as Hh.
    { unfold free_frames_of. by rewrite seqZ_cons by lia. }
    rewrite Hh in Hl. split; [exact Hl|done|done|cbn; lia|cbn; lia].
Qed.

Lemma kernel_table_used i e :
  kernel_table !! i = Some e → is_unused e = false → e = mkPTE 0x8000 3.
Proof.
  unfold kernel_table. destruct (decide (i = 100%nat)) as [->|Hne].
  - rewrite list_lookup_insert_eq by (rewrite length_replicate; lia). congruence.
  - rewrite list_lookup_insert_ne by done. by intros [-> _]%lookup_replicate_1.
Qed.

Lemma machine_inv n : 0 < n ≤ 2 ^ 20 → kinv pmo (machine n) [0x1000] (free_frames_of n).
Proof.
  intros Hn.
  assert (∀ i, entry_at pmo (k_dm (machine n)) 0x1000 i = kernel_table !! i) as Hent.
  { intros i. unfold entry_at, k_dm, machine. cbn [k_phys dm].
    rewrite lookup_insert_ne by done. by rewrite lookup_insert_eq. }
  split.
  - by apply machine_fa.
  - by left.
  - exists 0x1000. split; [left|done].
  - intros r ->%list_elem_of_singleton. split_and!; [by vm_compute|intros Hb%free_frames_bounds; lia|].
    exists kernel_table. split; [|by vm_compute]. unfold k_dm, machine. cbn [k_phys dm].
    rewrite lookup_insert_ne by done. by rewrite lookup_insert_eq.
  - intros r i e ->%list_elem_of_singleton. rewrite Hent. intros He Hu.
    rewrite (kernel_table_used _ _ He Hu). split; [intros Hb%free_frames_bounds; cbn in Hb; lia|].
    exists ∅. unfold k_dm, machine. cbn [k_phys dm pte_addr]. apply lookup_insert_eq.
  - intros r i e ->%list_elem_of_singleton. rewrite Hent. intros He Hu. by rewrite (kernel_table_used _ _ He Hu).
  - intros r1 r2 i e1 e2 ->%list_elem_of_singleton ->%list_elem_of_singleton. done.
  - intros r1 r2 i e1 e2 ->%list_elem_of_singleton ->%list_elem_of_singleton. rewrite Hent.
    intros _ He1 He2. assert (e1 = e2) as -> by congruence. by split.
Qed.

(** Only one slot of the kernel table is used. *)
Lemma machine_slot n p i :
  0 < n ≤ 2 ^ 20 → l4_slot p = i → i ≠ 100%nat → space pmo (machine n) 0x1000 p = None.
Proof.
  intros Hn Hs Hi. destruct (kinv_slot _ _ _ _ 0x1000 p (machine_inv n Hn) ltac:(left)) as (e & He & _ & ->).
  assert (entry_at pmo (k_dm (machine n)) 0x1000 (l4_slot p) = kernel_table !! l4_slot p) as Hent.
  { unfold entry_at, k_dm, machine. cbn [k_phys dm].
    rewrite lookup_insert_ne by done. by rewrite lookup_insert_eq. }
  rewrite Hent, Hs in He. unfold kernel_table in He. rewrite list_lookup_insert_ne in He by done.
  apply lookup_replicate_1 in He as [-> _]. by unfold leaves_of.
Qed.

(** Nothing is mapped in the slot of the kernel either. *)
Lemma machine_kernel_slot n p : l4_slot p = 100%nat → space pmo (machine n) 0x1000 p = None.
Proof.
  intros Hs. unfold space, walk, l4_entry, k_dm, machine. cbn [k_phys dm]. rewrite Hs.
  rewrite lookup_insert_ne, lookup_insert_eq by done.
  change (kernel_table !! 100%nat) with (Some (mkPTE 0x8000 3)). cbn [is_unused pte_addr mbind option_bind].
  by rewrite lookup_insert_eq.
Qed.

Lemma machine_unmapped n p : 0 < n ≤ 2 ^ 20 → space pmo (machine n) 0x1000 p = None.
Proof.
  intros Hn. destruct (decide (l4_slot p = 100%nat)); [by apply machine_kernel_slot|by eapply machine_slot].
Qed.

Definition free : list Z := free_frames_of 12.
Definition st0 : Kernel := machine 12.

Lemma st0_inv : kinv pmo st0 [0x1000] free.
Proof. by apply machine_inv. Qed.

Definition after {A} (st : Kernel) (m : M Kernel A) : Kernel :=
  match m st with Val (_, st') => st' | Fault _ => st end.

(** Two spaces are created; the first becomes active and maps its stack page. *)
Definition page : Z := v.USER_STACK_START.
Definition st1 : Kernel := after st0 create_user_page_table.
Definition st2 : Kernel := after st1 create_user_page_table.
Definition st3 : Kernel := after st2 (switch_to_user_page_table (mkOPT (pmo + 0x10000) pmo)).
Definition st4 : Kernel := after st3 (map_ram_user page PageTableFlags.WRITABLE).
Definition us : list Z := [0x11000; 0x10000].

Lemma mem_run3 : rtc (mem_step pmo) (st0, []) (st3, us).
Proof.
  eapply rtc_l; [apply (ms_create _ _ _ 0x10000 st1); by vm_compute|].
  eapply rtc_l; [apply (ms_create _ _ _ 0x11000 st2); by vm_compute|].
  apply rtc_once, (ms_to_user _ _ _ 0x10000); [right; left|by vm_compute].
Qed.

Lemma st3_active : k_cr3 st3 ∈ us.
Proof. apply (bool_decide_unpack _). by vm_compute. Qed.

Lemma step4 : mem_step pmo (st3, us) (st4, us).
Proof.
  apply (ms_map_user _ _ _ page PageTableFlags.WRITABLE 0x12000); [exact st3_active|by vm_compute].
Qed.

Lemma mem_run4 : rtc (mem_step pmo) (st0, []) (st4, us).
Proof. eapply rtc_r; [exact mem_run3|exact step4]. Qed.

(** ** Witnesses *)

Lemma user_isolation_witness :
  ∃ l, kinv pmo st4 (0x1000 :: us) l ∧
    (∀ r p f fl, r ∈ us → user_page p → space pmo st4 r p = Some (f, fl) →
       f ∈ free ∧ f ∉ l ∧ not_table (pmo:=pmo) st4 (0x1000 :: us) f) ∧
    (∀ r1 r2 p1 p2 f fl1 fl2, r1 ∈ us → r2 ∈ us → user_page p1 → user_page p2 →
       space pmo st4 r1 p1 = Some (f, fl1) → space pmo st4 r2 p2 = Some (f, fl2) →
       r1 = r2 ∧ p1 = p2).
Proof. exact (user_isolation st0 0x1000 free st4 us st0_inv eq_refl mem_run4). Defined.

Lemma step_isolation_witness :
  space pmo st4 0x11000 page = space pmo st3 0x11000 page.
Proof.
  apply (step_isolation st0 0x1000 free st3 us st4 us st0_inv eq_refl mem_run3 step4);
    [left|by vm_compute|by vm_compute].
Defined.

(** A kernel page in the slot in use is seen in every space, one in another slot
    is not. *)
Lemma kernel_half_shared_witness :
  space pmo st4 0x10000 v.KERNEL_START = space pmo st4 0x1000 v.KERNEL_START ∧
  kernel_shared (pmo:=pmo) (after st4 (map_ram_kernel v.KERNEL_START 0)) (0x1000 :: us) ∧
  ¬ kernel_shared (pmo:=pmo) (after st4 (map_ram_kernel v.KERNEL_HEAP_START 0)) (0x1000 :: us).
Proof.
  destruct (kernel_half_shared st0 0x1000 free st4 us st0_inv eq_refl mem_run4) as [Hs Hiff].
  split_and!.
  - apply Hs; [right; right; left|left|by vm_compute].
  - assert (is_val (map_ram_kernel v.KERNEL_START 0 st4) = true) as Hv by by vm_compute.
    destruct (map_ram_kernel v.KERNEL_START 0 st4) as [[f st']|] eqn:Hr; [|discriminate Hv]. clear Hv.
    unfold after. rewrite Hr. apply (Hiff _ _ _ _ Hr). left. exists (mkPTE 0x8000 3). split; by vm_compute.
  - assert (is_val (map_ram_kernel v.KERNEL_HEAP_START 0 st4) = true) as Hv by by vm_compute.
    destruct (map_ram_kernel v.KERNEL_HEAP_START 0 st4) as [[f st']|] eqn:Hr; [|discriminate Hv]. clear Hv.
    unfold after. rewrite Hr. rewrite (Hiff _ _ _ _ Hr). intros [(e & He & Hu)|Hn]; [|discriminate Hn].
    assert (entry_at pmo (k_dm st4) (k_cr3 st4) (l4_slot v.KERNEL_HEAP_START) = Some pte_zero) as He2 by by vm_compute.
    rewrite He2 in He. injection He as <-. discriminate Hu.
Defined.

Lemma create_user_page_table_spec_witness :
  ∃ st', create_user_page_table st0 = Val (mkOPT (pmo + 0x10000) pmo, st') ∧
    space pmo st' 0x10000 v.USER_START = None.
Proof.
  assert (user_page v.USER_START) as Hu by by vm_compute.
  destruct (create_user_page_table_spec st0 _ _ st0_inv) as (st' & Hr & _ & _ & _ & Hn).
  exists st'. split; [exact Hr|]. rewrite Hn. apply decide_False, user_not_kernel. exact Hu.
Defined.

Lemma map_ram_user_spec_witness :
  map_ram_user v.KERNEL_START 0 st0 = Fault Assertion ∧
  ∃ f l' st', head free = Some f ∧ map_ram_user page PageTableFlags.WRITABLE st0 = Val (f, st') ∧
    kinv pmo st' [0x1000] l' ∧ space pmo st' 0x1000 page = Some (f, 7).
Proof.
  destruct (map_ram_user_spec st0 _ _ v.KERNEL_START 0 st0_inv) as (Hf & _ & _).
  destruct (map_ram_user_spec st0 _ _ page PageTableFlags.WRITABLE st0_inv) as (_ & _ & Hok).
  split; [apply Hf; vm_compute; by intros []|].
  destruct Hok as (f & l' & st' & Hh & Hr & Hk & _ & Hsp); [by vm_compute|by vm_compute; lia|by vm_compute|].
  exists f, l', st'. split_and!; [exact Hh|exact Hr|exact Hk|]. by rewrite Hsp by left.
Defined.

Lemma map_ram_kernel_spec_witness :
  ∃ f st', map_ram_kernel v.KERNEL_DYNAMIC_START PageTableFlags.WRITABLE st0 = Val (f, st') ∧
    space pmo st' 0x1000 v.KERNEL_DYNAMIC_START = Some (f, 3).
Proof.
  destruct (map_ram_kernel_spec st0 _ _ v.KERNEL_DYNAMIC_START PageTableFlags.WRITABLE
    (mkPTE 0x8000 3) st0_inv) as (_ & _ & Hok); [by vm_compute|done|].
  destruct Hok as (f & l' & st' & _ & Hr & _ & Hsp); [by vm_compute|by vm_compute; lia|by vm_compute|].
  exists f, st'. split; [exact Hr|]. by rewrite Hsp by left.
Defined.

Lemma map_unmap_roundtrip_witness :
  ∃ l st5, unmap_ram page st4 = Val ((), st5) ∧ kinv pmo st5 (0x1000 :: us) (0x12000 :: l) ∧
    space pmo st5 0x10000 page = space pmo st3 0x10000 page.
Proof.
  destruct (map_unmap_roundtrip st0 0x1000 free st3 us page PageTableFlags.WRITABLE 0x12000 st4
    st0_inv eq_refl mem_run3 st3_active ltac:(by vm_compute)) as (l & st5 & Hr & Hk & Hsp).
  exists l, st5. split_and!; [exact Hr|exact Hk|]. apply Hsp. right; right; left.
Defined.
