(* ===== verification/MapPages.v ===== *)
(** * Mapping a list of pages

    The loops of the heap, the loader and the stack map consecutive pages one
    by one.  [map_pages_effect] is what such a loop does; [region_pages_spec]
    says which pages a byte region touches. *)

From S2P Require Import Prelude Constants Platform FrameAlloc Paging Memory AddressSpace Isolation.

(** ** The pages of a region *)

Definition page_of (a : Z) : Z := 4096 * (a `div` 4096).

Lemma page_of_bounds a : page_of a ≤ a < page_of a + 4096.
Proof. unfold page_of. Z.div_mod_to_equations. lia. Qed.

Lemma page_of_divide a : (4096 | page_of a).
Proof. unfold page_of. apply Z.divide_factor_l. Qed.

Lemma page_of_aligned a : (4096 | a) → page_of a = a.
Proof. intros [k ->]. unfold page_of. rewrite Z.div_mul by lia. lia. Qed.

Lemma page_of_mono a b : a ≤ b → page_of a ≤ page_of b.
Proof. intros. unfold page_of. pose proof (Z.div_le_mono a b 4096). lia. Qed.

Section Regions.
Context `{X86AddrLaws}.

Lemma region_bounds_val start size :
  0 ≤ start → 0 < size → start + size < 2 ^ 47 →
  region_bounds start size = Val (page_of start, page_of (start + size - 1)).
Proof.
  intros. unfold region_bounds. rewrite VirtAddr_new_law by lia. cbn.
  rewrite VirtAddr_add_law by lia. cbn. rewrite VirtAddr_sub_law by lia. cbn.
  by rewrite !Page_containing_law by lia.
Qed.

(** The pages from [a] to [b]. *)
Lemma page_range_spec a b :
  0 ≤ a ≤ b → (4096 | a) → (4096 | b) →
  NoDup (Page_range_inclusive a b) ∧
  Z.of_nat (length (Page_range_inclusive a b)) = (b - a) `div` 4096 + 1 ∧
  ∀ p, p ∈ Page_range_inclusive a b ↔ (4096 | p) ∧ a ≤ p ≤ b.
Proof.
  intros Hab Ha Hb. rewrite Page_range_inclusive_law by (lia || done). split_and!; [by apply range_step_NoDup| |].
  - unfold range_step. rewrite length_fmap, length_seqZ, Z2Nat.id by (apply Z.div_pos; lia).
    replace (b + 1 - a + 4096 - 1) with (b - a + 1 * 4096) by lia. by rewrite Z.div_add.
  - destruct Ha as [i ->], Hb as [j ->]. intros p. rewrite range_step_spec by lia. split.
    + intros [Hp [k Hk]]. split; [exists (k + i); lia|lia].
    + intros [[k ->] Hp]. split; [lia|]. exists (k - i). lia.
Qed.

(** The pages of a non-empty region are those that hold one of its bytes. *)
Lemma region_pages_spec start size :
  0 ≤ start → 0 < size → start + size < 2 ^ 47 →
  ∃ ps, region_pages start size = Val ps ∧ NoDup ps ∧
    Z.of_nat (length ps) = (page_of (start + size - 1) - page_of start) `div` 4096 + 1 ∧
    ∀ p, p ∈ ps ↔ ∃ a, start ≤ a < start + size ∧ p = page_of a.
Proof.
  intros Hs Hz Hlt. unfold region_pages. rewrite region_bounds_val by done. cbn.
  pose proof (page_of_bounds start). pose proof (page_of_bounds (start + size - 1)).
  pose proof (page_of_mono start (start + size - 1) ltac:(lia)).
  destruct (page_range_spec (page_of start) (page_of (start + size - 1))) as (Hnd & Hlen & Hin);
    [unfold page_of in *; Z.div_mod_to_equations; lia|apply page_of_divide..|].
  eexists. split_and!; [done..|]. intros p. rewrite Hin. split.
  - intros [Hd Hp]. exists (Z.max start p). split; [lia|].
    destruct (Z.max_spec start p) as [[_ ->]|[Hle ->]]; [by rewrite page_of_aligned|].
    destruct Hd as [k ->]. unfold page_of in *. Z.div_mod_to_equations. lia.
  - intros (a & Ha & ->). pose proof (page_of_mono start a ltac:(lia)).
    pose proof (page_of_mono a (start + size - 1) ltac:(lia)). split; [apply page_of_divide|lia].
Qed.
End Regions.

(** ** The loop *)

Section Loop.
Context `{Profile} `{X86AddrLaws} `{BootOk pmo} `{Mapper} `{!MapperLaws pmo}.

(** What mapping the pages [ps] does to the spaces. *)
Record pages_mapped (st : Kernel) (roots l ps : list Z) (flags : Z)
    (st' : Kernel) (l' : list Z) : Prop := {
  pm_kinv : kinv pmo st' roots l';
  pm_cr3 : k_cr3 st' = k_cr3 st;
  pm_kpt : kernel_page_table st' = kernel_page_table st;
  pm_free : ∃ k, (k ≤ 4 * length ps)%nat ∧ l' = drop k l;
  pm_count : (length l' + length ps ≤ length l)%nat;
  pm_new p : p ∈ ps → ∃ f, f ∈ l ∧ f ∉ l' ∧ space pmo st' (k_cr3 st) p = Some (f, flags);
  pm_inj p q f fl fl' : p ∈ ps → q ∈ ps → space pmo st' (k_cr3 st) p = Some (f, fl) →
    space pmo st' (k_cr3 st) q = Some (f, fl') → p = q;
  pm_fresh p f fl : p ∈ ps → space pmo st' (k_cr3 st) p = Some (f, fl) →
    not_table (pmo:=pmo) st' roots f;
  pm_cells f : f ∉ l → not_table (pmo:=pmo) st roots f →
    k_dm st' !! (pmo + f) = k_dm st !! (pmo + f);
  pm_old r p : r ∈ roots → p ∉ ps → space pmo st' r p = space pmo st r p;
  pm_user r p : r ∈ roots → user_page p → r ≠ k_cr3 st → space pmo st' r p = space pmo st r p;
  pm_mappable p : mappable pmo st roots p → mappable pmo st' roots p;
  pm_tables r i e : r ∈ roots → entry_at pmo (k_dm st') r i = Some e → is_unused e = false →
    pte_addr e ∈ l ∨ ∃ r0 i0 e0, r0 ∈ roots ∧ entry_at pmo (k_dm st) r0 i0 = Some e0 ∧
      is_unused e0 = false ∧ pte_addr e0 = pte_addr e }.

(** A frame that is neither free nor a table stays so. *)
Lemma pages_mapped_not_table st roots l ps flags st' l' f :
  pages_mapped st roots l ps flags st' l' → f ∉ l → not_table (pmo:=pmo) st roots f →
  f ∉ l' ∧ not_table (pmo:=pmo) st' roots f.
Proof.
  intros Hpm Hf [Hr Ht]. destruct (pm_free _ _ _ _ _ _ _ Hpm) as (k & _ & ->). split; [|split].
  - intros Hin. apply Hf. by apply (elem_of_drop_l k).
  - done.
  - intros r i e Hri He Hu Heq. subst f.
    destruct (pm_tables _ _ _ _ _ _ _ Hpm r i e Hri He Hu) as [?|(r0 & i0 & e0 & Hr0 & He0 & Hu0 & Heq)]; [done|].
    by apply (Ht r0 i0 e0).
Qed.

Lemma mapped_to_mappable st roots l0 l page fr flags st' l' p :
  kinv pmo st roots l0 → mapped_to pmo st roots l page fr flags st' l' →
  mappable pmo st roots p → mappable pmo st' roots p.
Proof.
  intros Hk Hm Hp Hs. rewrite (mt_cr3 _ _ _ _ _ _ _ _ _ Hm).
  destruct (Hp Hs) as [(e & He & Hu)|?]; [left|by right].
  by apply (mt_used _ _ _ _ _ _ _ _ _ Hm _ _ e); [apply (ki_active _ _ _ _ Hk)|..].
Qed.

(** One more page. *)
Section Cons.
Context (st : Kernel) (roots : list Z) (f : Z) (k : nat) (l0 : list Z) (p : Z) (ps : list Z) (flags : Z).
Context (st1 st' : Kernel) (l' : list Z).
Context (Hk : kinv pmo st roots (f :: l0)) (Hm : mapped_to pmo st roots l0 p f flags st1 (drop k l0)).
Context (Hp : p ∉ ps) (Hpm : pages_mapped st1 roots (drop k l0) ps flags st' l').

Lemma cons_first : f ∉ l0 ∧ f ∉ l' ∧ space pmo st' (k_cr3 st) p = Some (f, flags).
Proof using All.
  pose proof (fa_nodup _ _ _ (ki_fa _ _ _ _ Hk)) as [Hnf _]%NoDup_cons. split_and!; [done| |].
  - destruct (pm_free _ _ _ _ _ _ _ Hpm) as (k' & _ & ->). by intros ?%elem_of_drop_l%elem_of_drop_l.
  - rewrite (pm_old _ _ _ _ _ _ _ Hpm), (mt_space _ _ _ _ _ _ _ _ _ Hm) by (done || apply (ki_active _ _ _ _ Hk)).
    apply decide_True. split; [done|by left].
Qed.

Lemma cons_rest q : q ∈ ps → ∃ g, g ∈ l0 ∧ g ∉ l' ∧ space pmo st' (k_cr3 st) q = Some (g, flags).
Proof using All.
  intros Hq. destruct (pm_new _ _ _ _ _ _ _ Hpm q Hq) as (g & Hg%elem_of_drop_l & Hgl & Hsg). exists g.
  by rewrite <-(mt_cr3 _ _ _ _ _ _ _ _ _ Hm).
Qed.

(** The frames behind the pages: apart, and no tables. *)
Lemma cons_inj q1 q2 g fl fl' :
  q1 ∈ p :: ps → q2 ∈ p :: ps → space pmo st' (k_cr3 st) q1 = Some (g, fl) →
  space pmo st' (k_cr3 st) q2 = Some (g, fl') → q1 = q2.
Proof using All.
  destruct cons_first as (Hnf & _ & Hfirst).
  intros [->|Hq1]%elem_of_cons [->|Hq2]%elem_of_cons Hs1 Hs2; [done|..].
  - destruct (cons_rest q2 Hq2) as (g2 & Hg2 & _ & Hsg). congruence.
  - destruct (cons_rest q1 Hq1) as (g1 & Hg1 & _ & Hsg). congruence.
  - rewrite <-(mt_cr3 _ _ _ _ _ _ _ _ _ Hm) in Hs1, Hs2. by eapply (pm_inj _ _ _ _ _ _ _ Hpm).
Qed.

Lemma cons_fresh q g fl :
  q ∈ p :: ps → space pmo st' (k_cr3 st) q = Some (g, fl) → not_table (pmo:=pmo) st' roots g.
Proof using All.
  destruct cons_first as (Hnf & _ & Hfirst). intros [->|Hq]%elem_of_cons Hs.
  - assert (g = f) as -> by congruence.
    destruct (mapped_not_table st roots f l0 p flags st1 _ f Hk Hm Hnf) as [Hf1 Ht1]; [by left|].
    by apply (pages_mapped_not_table _ _ _ _ _ _ _ _ Hpm).
  - rewrite <-(mt_cr3 _ _ _ _ _ _ _ _ _ Hm) in Hs. by apply (pm_fresh _ _ _ _ _ _ _ Hpm q g fl).
Qed.

Lemma pages_mapped_cons :
  (k ≤ 3)%nat → mappable pmo st roots p → pages_mapped st roots (f :: l0) (p :: ps) flags st' l'.
Proof using All.
  intros Hk3 Hmap. pose proof (mt_cr3 _ _ _ _ _ _ _ _ _ Hm) as Hc.
  destruct (pm_free _ _ _ _ _ _ _ Hpm) as (k' & Hk' & Hl').
  split; [by apply Hpm|rewrite (pm_cr3 _ _ _ _ _ _ _ Hpm); done
    |rewrite (pm_kpt _ _ _ _ _ _ _ Hpm); by apply Hm| | | |exact cons_inj|exact cons_fresh| | | | |].
  - exists (S (k + k')). split; [cbn; lia|]. cbn. by rewrite Hl', drop_drop.
  - pose proof (pm_count _ _ _ _ _ _ _ Hpm) as Hcount. rewrite length_drop in Hcount. cbn. lia.
  - destruct cons_first as (_ & Hf & Hfirst). intros q [->|Hq]%elem_of_cons; [exists f; split_and!; [left|done..]|].
    destruct (cons_rest q Hq) as (g & ? & ? & ?). exists g. split_and!; [by right|done..].
  - intros g [_ Hg]%not_elem_of_cons Hgt.
    destruct (mapped_not_table st roots f l0 p flags st1 _ g Hk Hm Hg) as [Hg1 Ht1]; [by right|].
    rewrite (pm_cells _ _ _ _ _ _ _ Hpm) by done. apply (mt_cells _ _ _ _ _ _ _ _ _ Hm); [done|apply Hgt..].
  - intros r q Hr [Hqp Hq]%not_elem_of_cons.
    rewrite (pm_old _ _ _ _ _ _ _ Hpm), (mt_space _ _ _ _ _ _ _ _ _ Hm) by done.
    apply decide_False. by intros [? _].
  - intros r q Hr Hq Hne. rewrite (pm_user _ _ _ _ _ _ _ Hpm) by (done || by rewrite Hc).
    rewrite (mt_space _ _ _ _ _ _ _ _ _ Hm) by done. apply decide_False.
    intros [-> Hst]. apply Hne. by eapply (same_table_user pmo st roots (f :: l0)); [|apply (ki_active _ _ _ _ Hk)|..].
  - intros q Hq. apply (pm_mappable _ _ _ _ _ _ _ Hpm). by eapply mapped_to_mappable.
  - intros r i e Hr He Hu.
    destruct (pm_tables _ _ _ _ _ _ _ Hpm r i e Hr He Hu) as [Hd|(r1 & i1 & e1 & Hr1 & He1 & Hu1 & <-)].
    + left. right. by apply (elem_of_drop_l k).
    + destruct (mt_tables _ _ _ _ _ _ _ _ _ Hm r1 i1 e1 Hr1 He1 Hu1) as [?|?]; [left; by right|by right].
Qed.
End Cons.

(** The pages are mapped, or a frame is missing and the kernel panics. *)
Lemma map_pages_outcome (op : Z → M Kernel Z) flags ps :
  (∀ p, p ∈ ps → ∀ st, op p st = map_ram p flags st) →
  ∀ st roots l, kinv pmo st roots l → NoDup ps →
  (∀ p, p ∈ ps → mappable pmo st roots p ∧ space pmo st (k_cr3 st) p = None) →
  (for_each ps (λ p, op p ≫= λ _, mret ()) st = Fault Explicit ∧ (length l < 4 * length ps)%nat) ∨
  ∃ st' l', for_each ps (λ p, op p ≫= λ _, mret ()) st = Val ((), st') ∧
    pages_mapped st roots l ps flags st' l'.
Proof.
  induction ps as [|p ps IH]; intros Hop st roots l Hk Hnd Hps.
  - right. exists st, l. split; [done|]. split; try done; [exists 0%nat; split; [lia|done]|cbn; lia| | | |].
    + by intros ? ?%elem_of_nil.
    + by intros ? ? ? ? ? ?%elem_of_nil.
    + by intros ? ? ? ?%elem_of_nil.
    + intros r i e Hr He Hu. right. by exists r, i, e.
  - apply NoDup_cons in Hnd as [Hp Hnd]. destruct (Hps p) as [Hmap Hsp]; [left|].
    assert (∀ k, for_each (p :: ps) (λ p, op p ≫= λ _, mret ()) st = k ↔
      (map_ram p flags ≫= λ _, for_each ps (λ p, op p ≫= λ _, mret ())) st = k) as Hone.
    { intros k. cbn. unfold mbind, M_bind. rewrite Hop by left.
      by destruct (map_ram p flags st) as [[]|]. }
    pose proof (map_ram_effect st roots l p flags Hk Hmap) as He. rewrite Hsp in He.
    destruct l as [|f l0]; [left; split; [by apply Hone, M_bind_fault|cbn; lia]|].
    destruct He as [[He Hlt]|(st1 & l1 & Hrun & Hm)];
      [left; split; [by apply Hone, M_bind_fault|cbn; lia]|].
    destruct (mt_free _ _ _ _ _ _ _ _ _ Hm) as (k & Hk3 & ->).
    pose proof (mt_cr3 _ _ _ _ _ _ _ _ _ Hm) as Hc.
    destruct (IH ltac:(intros; apply Hop; by right) st1 roots (drop k l0))
      as [[Hf Hlt]|(st' & l' & Hrun' & Hpm)].
    + by apply Hm.
    + done.
    + intros q Hq. destruct (Hps q) as [Hmq Hsq]; [by right|].
      split; [by eapply mapped_to_mappable|]. rewrite Hc, (mt_space _ _ _ _ _ _ _ _ _ Hm) by
        (apply (ki_active _ _ _ _ Hk)). rewrite decide_False; [done|].
      intros [-> _]. done.
    + left. split; [by apply Hone; rewrite (M_bind_run _ _ _ _ _ Hrun)|].
      rewrite length_drop in Hlt. cbn. lia.
    + right. exists st', l'. split; [|by apply (pages_mapped_cons st roots f k l0 p ps flags st1)].
      by apply Hone; rewrite (M_bind_run _ _ _ _ _ Hrun).
Qed.

Lemma map_pages_effect (op : Z → M Kernel Z) flags ps :
  (∀ p, p ∈ ps → ∀ st, op p st = map_ram p flags st) →
  ∀ st roots l, kinv pmo st roots l → NoDup ps → (4 * length ps ≤ length l)%nat →
  (∀ p, p ∈ ps → mappable pmo st roots p ∧ space pmo st (k_cr3 st) p = None) →
  ∃ st' l', for_each ps (λ p, op p ≫= λ _, mret ()) st = Val ((), st') ∧
    pages_mapped st roots l ps flags st' l'.
Proof.
  intros Hop st roots l Hk Hnd Hlen Hps.
  destruct (map_pages_outcome op flags ps Hop st roots l Hk Hnd Hps) as [[_ ?]|?]; [lia|done].
Qed.

(** Mapping never switches the space. *)
Lemma map_ram_user_cr3 page flags st f st' :
  map_ram_user page flags st = Val (f, st') → k_cr3 st' = k_cr3 st.
Proof.
  assert (∀ st st', get_active_l4_page_table st = Val st' → snd st' = st) as Hget.
  { intros s [t s'] Hr. unfold get_active_l4_page_table, active_level_4_table in Hr. by res_inv. }
  intros Hr. unfold map_ram_user, allocate_or_panic, map_frame, on_phys in Hr. res_inv.
  repeat match goal with
  | Hg : get_active_l4_page_table _ = Val (_, _) |- _ => apply Hget in Hg; cbn in Hg; subst
  | Hm : match ?o with Some _ => _ | None => _ end _ = Val _ |- _ => destruct o
  | Hm : match ?o with Ok _ => _ | Err _ => _ end _ = Val _ |- _ => destruct o
  end; res_inv; done.
Qed.

(** A loop of [map_ram_user] is a run of the kernel's steps. *)
Lemma map_user_steps ps flags us st st' :
  k_cr3 st ∈ us →
  for_each ps (λ p, map_ram_user p flags ≫= λ _, mret ()) st = Val ((), st') →
  rtc (mem_step pmo) (st, us) (st', us) ∧ k_cr3 st' = k_cr3 st.
Proof.
  intros Hact. revert st Hact. induction ps as [|p ps IH]; intros st Hact Hrun.
  - cbn in Hrun. apply mret_Val in Hrun as [_ ->]. done.
  - cbn in Hrun. apply M_bind_Val in Hrun as ([] & st1 & Hrun1 & Hrun).
    apply M_bind_Val in Hrun1 as (f & st2 & Hmap & Hret). apply mret_Val in Hret as [_ ->].
    pose proof (map_ram_user_cr3 _ _ _ _ _ Hmap) as Hc.
    destruct (IH st2) as [Hsteps Hc']; [by rewrite Hc|done|]. split; [|congruence].
    eapply rtc_l; [by eapply ms_map_user|done].
Qed.
End Loop.
