(* ===== verification/WriteCombining.v ===== *)
(** * The cache mode of the framebuffer (src/kernel/src/memory.rs)

    The page attribute table of a core gives a memory type to each combination
    of cache flags; the kernel rewrites one entry and then sets the flags of
    the framebuffer's pages to it. *)

From S2P Require Import Prelude Platform FrameAlloc Paging Memory AddressSpace Isolation MapPages.

(** ** The page attribute table *)

(** The model-specific registers of a core. *)
Definition Msrs : Type := gmap Z Z.
Definition IA32_PAT : Z := 0x277.

Definition change_pat_so_write_through_plus_cache_disabled_is_write_combining : M Msrs () :=
  modify <[0x277 := 0x0007040601070406]>.

(** The encodings of the architecture, and the value after reset. *)
Inductive memory_type := Uncacheable | WriteCombining | WriteThrough | WriteProtected | WriteBack | UncachedMinus.

Definition memory_type_of (code : Z) : option memory_type :=
  match code with
  | 0 => Some Uncacheable | 1 => Some WriteCombining | 4 => Some WriteThrough
  | 5 => Some WriteProtected | 6 => Some WriteBack | 7 => Some UncachedMinus
  | _ => None
  end.

Definition reset_pat : Z := 0x0007040600070406.

(** The entry a 4 KiB page selects: PWT, PCD and PAT are bits 3, 4 and 7. *)
Definition pat_index (flags : Z) : Z :=
  Z.b2z (Z.testbit flags 3) + 2 * Z.b2z (Z.testbit flags 4) + 4 * Z.b2z (Z.testbit flags 7).
Definition page_type (m : Msrs) (flags : Z) : option memory_type :=
  memory_type_of (Z.shiftr (default reset_pat (m !! IA32_PAT)) (8 * pat_index flags) `mod` 256).

(** Only the combination of write-through and cache-disabled changes. *)
Lemma pat_changed m m' flags :
  change_pat_so_write_through_plus_cache_disabled_is_write_combining m = Val ((), m') →
  page_type m' flags = if decide (pat_index flags = 3) then Some WriteCombining else page_type ∅ flags.
Proof.
  intros [= <-]. unfold page_type, IA32_PAT, Msrs in *. rewrite lookup_insert_eq, lookup_empty. cbn [default].
  unfold pat_index. destruct (Z.testbit flags 3), (Z.testbit flags 4), (Z.testbit flags 7); by vm_compute.
Qed.

(** ** The loop over the framebuffer's pages *)

Section Loop.
Context `{Profile} `{X86AddrLaws} `{BootOk pmo} `{Mapper} `{!MapperLaws pmo}.

Lemma update_flags_unwrap_run page flags st :
  update_flags_unwrap page flags st =
    match change_flags page flags st with Fault Explicit => Fault Unwrap | r => r end ∨
  update_flags_unwrap page flags st = change_flags page flags st.
Proof.
  unfold update_flags_unwrap, change_flags. unfold mbind, M_bind.
  destruct (get_active_l4_page_table st) as [[t s1]|]; [|by right].
  destruct (on_dm _ s1) as [[[|] s2]|]; [by right|by left|by right].
Qed.

Lemma update_flags_unwrap_effect st k0 l page flags :
  kinv pmo st [k0] l →
  match space pmo st k0 page with
  | Some (fr, _) => ∃ st', update_flags_unwrap page flags st = Val ((), st') ∧
      remapped (pmo:=pmo) st [k0] l page (Some (fr, flags)) st' ∧
      ∀ p, space pmo st' k0 p = if decide (p = page) then Some (fr, flags) else space pmo st k0 p
  | None => update_flags_unwrap page flags st = Fault Unwrap
  end.
Proof.
  intros Hk. pose proof (ki_active _ _ _ _ Hk) as Hact. apply list_elem_of_singleton in Hact.
  pose proof (change_flags_effect st [k0] l page flags Hk) as He. rewrite Hact in He.
  destruct (space pmo st k0 page) as [[fr fl]|] eqn:Hsp.
  - destruct He as (st' & Hr & Hrm). exists st'. split; [|split; [done|]].
    + by destruct (update_flags_unwrap_run page flags st) as [-> | ->]; rewrite Hr.
    + intros p. rewrite (rm_space _ _ _ _ _ _ Hrm) by left. apply decide_ext.
      split; [by intros [? _]|]. intros ->. split; [done|left; by rewrite Hact].
  - destruct (kinv_table _ _ _ _ k0 Hk ltac:(left)) as (t & Ht & _ & Hent).
    destruct (kinv_slot _ _ _ _ k0 page Hk ltac:(left)) as (e & Hslot & Hok & _).
    unfold update_flags_unwrap. rewrite (M_bind_run _ _ _ _ _ (get_active_run _ _ _ Hk)).
    unfold on_dm, on_phys, zoom, mbind, M_bind. cbn [opt_offset opt_table]. rewrite Hact.
    pose proof (update_flags_law (pmo + k0) page flags (k_dm st) t e Ht ltac:(by rewrite <-Hent) Hok) as Hlaw.
    unfold space in Hsp. rewrite Hsp in Hlaw. destruct Hlaw as (err & d' & Hrun).
    unfold k_dm in Hrun. by rewrite Hrun.
Qed.

(** The pages in [ps] keep their frames and get the flags [flags]; nothing else
    changes. *)
Record flags_set (st : Kernel) (k0 : Z) (l ps : list Z) (flags : Z) (st' : Kernel) : Prop := {
  fs_kinv : kinv pmo st' [k0] l;
  fs_kpt : kernel_page_table st' = kernel_page_table st;
  fs_new p : p ∈ ps → ∃ f fl, space pmo st k0 p = Some (f, fl) ∧ space pmo st' k0 p = Some (f, flags);
  fs_old p : p ∉ ps → space pmo st' k0 p = space pmo st k0 p;
  fs_cells f : f ∉ l → not_table (pmo:=pmo) st [k0] f →
    not_table (pmo:=pmo) st' [k0] f ∧ k_dm st' !! (pmo + f) = k_dm st !! (pmo + f) }.

Lemma flags_set_cons st k0 l p ps fr fl flags st1 st' :
  space pmo st k0 p = Some (fr, fl) → p ∉ ps →
  remapped (pmo:=pmo) st [k0] l p (Some (fr, flags)) st1 →
  (∀ q, space pmo st1 k0 q = if decide (q = p) then Some (fr, flags) else space pmo st k0 q) →
  flags_set st1 k0 l ps flags st' → flags_set st k0 l (p :: ps) flags st'.
Proof.
  intros Hsp Hp Hrm Hs1 [Hk' Hkpt Hnew Hold Hcells]. split.
  - done.
  - by rewrite Hkpt, (rm_kpt _ _ _ _ _ _ Hrm).
  - intros q [->|Hq]%elem_of_cons.
    + exists fr, fl. split; [done|]. rewrite Hold, Hs1 by done. by apply decide_True.
    + destruct (Hnew q Hq) as (f & gl & Hs & Hs'). rewrite Hs1, decide_False in Hs by (by intros ->). by exists f, gl.
  - intros q [Hqp Hq]%not_elem_of_cons. rewrite Hold, Hs1 by done. by apply decide_False.
  - intros f Hf [Hr Ht]. destruct (Hcells f Hf) as [Ht' Hd].
    + split; [done|]. intros r i e Hri. rewrite (rm_tables _ _ _ _ _ _ Hrm) by done. by apply Ht.
    + split; [done|]. rewrite Hd. by apply (rm_cells _ _ _ _ _ _ Hrm).
Qed.

Lemma update_loop ps flags st k0 l :
  kinv pmo st [k0] l → NoDup ps →
  ((∃ p, p ∈ ps ∧ space pmo st k0 p = None) →
    for_each ps (λ p, update_flags_unwrap p flags) st = Fault Unwrap) ∧
  ((∀ p, p ∈ ps → space pmo st k0 p ≠ None) →
    ∃ st', for_each ps (λ p, update_flags_unwrap p flags) st = Val ((), st') ∧ flags_set st k0 l ps flags st').
Proof.
  revert st. induction ps as [|p ps IH]; intros st Hk Hnd.
  - split; [by intros (p & []%elem_of_nil & _)|]. intros _. exists st. split; [done|].
    split; try done. by intros p []%elem_of_nil.
  - apply NoDup_cons in Hnd as [Hp Hnd]. cbn [for_each].
    pose proof (update_flags_unwrap_effect st k0 l p flags Hk) as He.
    destruct (space pmo st k0 p) as [[fr fl]|] eqn:Hsp.
    + destruct He as (st1 & Hr & Hrm & Hs1). rewrite (M_bind_run _ _ _ _ _ Hr).
      assert (∀ q, q ∈ ps → space pmo st1 k0 q = space pmo st k0 q) as Hsame.
      { intros q Hq. rewrite Hs1. apply decide_False. by intros ->. }
      destruct (IH st1 (rm_kinv _ _ _ _ _ _ Hrm) Hnd) as [Hbad Hgood]. split.
      * intros (q & [-> |Hq]%elem_of_cons & Hn); [congruence|]. apply Hbad. exists q. by rewrite Hsame.
      * intros Hall. destruct Hgood as (st' & Hr' & Hfs).
        { intros q Hq. rewrite Hsame by done. apply Hall. by right. }
        exists st'. split; [done|]. by eapply flags_set_cons.
    + rewrite (M_bind_fault _ _ _ _ He). split; [done|]. intros Hall. by destruct (Hall p ltac:(left)).
Qed.

(** The pages with a byte of the framebuffer. *)
Definition buffer_page (addr len p : Z) : Prop := ∃ a, addr ≤ a < addr + len ∧ p = page_of a.

Lemma buffer_pages addr len :
  0 ≤ addr → 0 < len → addr + len < 2 ^ 47 →
  ∃ ps, region_pages addr len = Val ps ∧ NoDup ps ∧ ∀ p, p ∈ ps ↔ buffer_page addr len p.
Proof. intros. destruct (region_pages_spec addr len) as (ps & ? & ? & _ & ?); [done..|]. by exists ps. Qed.

Lemma set_frame_buffer_effect st k0 l addr len :
  kinv pmo st [k0] l → 0 ≤ addr → 0 < len → addr + len < 2 ^ 47 →
  (∀ p, buffer_page addr len p → space pmo st k0 p ≠ None) →
  ∃ st' ps, set_frame_buffer_cache_to_write_combining addr len st = Val ((), st') ∧
    (∀ p, p ∈ ps ↔ buffer_page addr len p) ∧ flags_set st k0 l ps frame_buffer_flags st'.
Proof.
  intros Hk Ha Hl Hlt Hall. destruct (buffer_pages addr len Ha Hl Hlt) as (ps & Hps & Hnd & Hel).
  destruct (proj2 (update_loop ps frame_buffer_flags st k0 l Hk Hnd)) as (st' & Hr & Hfs).
  { intros p Hp. by apply Hall, Hel. }
  exists st', ps. split_and!; [|done|done]. unfold set_frame_buffer_cache_to_write_combining.
  rewrite (proj2 (Z.eqb_neq len 0)) by lia. rewrite (M_bind_run _ _ _ () st), Hps by done.
  by rewrite (M_bind_run _ _ _ ps st).
Qed.

(** C37 (functional). After the two boot steps the framebuffer is write-combining
    on the core that ran them: every page with a byte of it keeps its frame and
    gets the flags that the rewritten page attribute table maps to that type,
    no other page changes, no other combination of flags changes its meaning,
    and an empty or partly unmapped framebuffer panics.  On a core that never
    rewrites its table the same flags still mean uncacheable. *)
Theorem framebuffer_write_combining st k0 l addr len m m' :
  kinv pmo st [k0] l → 0 ≤ addr → 0 ≤ len → addr + len < 2 ^ 47 →
  change_pat_so_write_through_plus_cache_disabled_is_write_combining m = Val ((), m') →
  let in_buffer := buffer_page addr len in
  (len = 0 → set_frame_buffer_cache_to_write_combining addr len st = Fault Bounds) ∧
  ((∃ p, in_buffer p ∧ space pmo st k0 p = None) →
    set_frame_buffer_cache_to_write_combining addr len st = Fault Unwrap) ∧
  (0 < len → (∀ p, in_buffer p → space pmo st k0 p ≠ None) →
    ∃ st', set_frame_buffer_cache_to_write_combining addr len st = Val ((), st') ∧ kinv pmo st' [k0] l ∧
      (∀ p, in_buffer p → ∃ f fl flags, space pmo st k0 p = Some (f, fl) ∧ space pmo st' k0 p = Some (f, flags) ∧
        page_type m' flags = Some WriteCombining ∧ page_type ∅ flags = Some Uncacheable) ∧
      ∀ p, ¬ in_buffer p → space pmo st' k0 p = space pmo st k0 p) ∧
  (∀ flags, pat_index flags ≠ 3 → page_type m' flags = page_type ∅ flags).
Proof.
  intros Hk Ha Hl0 Hlt Hpat in_buffer. split_and!.
  - intros ->. done.
  - intros (p & Hp & Hn). pose proof Hp as (a & Hin & _). unfold set_frame_buffer_cache_to_write_combining.
    destruct (buffer_pages addr len Ha ltac:(lia) Hlt) as (ps & Hps & Hnd & Hel).
    rewrite (proj2 (Z.eqb_neq len 0)) by lia. rewrite (M_bind_run _ _ _ () st), Hps by done.
    rewrite (M_bind_run _ _ _ ps st) by done. apply (update_loop _ _ _ _ l Hk Hnd).
    exists p. split; [by apply Hel|done].
  - intros Hl Hall. destruct (set_frame_buffer_effect st k0 l addr len Hk Ha Hl Hlt Hall) as (st' & ps & Hr & Hel & Hfs).
    exists st'. split_and!; [done|apply Hfs| |].
    + intros p Hp%Hel. destruct (fs_new _ _ _ _ _ _ Hfs p Hp) as (f & fl & Hs & Hs'). exists f, fl, frame_buffer_flags.
      split_and!; [done|done| |done]. by rewrite (pat_changed m m').
    + intros p Hp. apply (fs_old _ _ _ _ _ _ Hfs). by rewrite Hel.
  - intros flags Hf. rewrite (pat_changed m m' flags Hpat). by apply decide_False.
Qed.
End Loop.
