(* ===== verification/WriteCombiningDemo.v ===== *)
(** * A framebuffer on a concrete machine

    The machine of [IsolationDemo] with one kernel page mapped, which holds a
    framebuffer of 100 bytes. *)

From S2P Require Import Prelude Constants Platform FrameAlloc Paging Memory AddressSpace Isolation IsolationDemo MapPages WriteCombining.

#[local] Existing Instance dev_profile.
Import RefX86 RefBoot RefMapper.

Definition fb_page : Z := v.KERNEL_DYNAMIC_START.
Definition st_fb : Kernel := after st0 (map_ram_kernel fb_page PageTableFlags.WRITABLE).

Lemma st_fb_inv : ∃ l, kinv pmo st_fb [0x1000] l.
Proof.
  destruct (reachable_user_inv (pmo := pmo) 0x1000 free st0 free st_fb [] st0_inv eq_refl eq_refl) as [l Hi].
  - apply rtc_once, (ms_map_kernel pmo st0 [] (mkPTE 0x8000 3) fb_page PageTableFlags.WRITABLE 0x10000); by vm_compute.
  - exists l. apply Hi.
Qed.

Lemma framebuffer_write_combining_witness :
  ∃ st' l, set_frame_buffer_cache_to_write_combining (fb_page + 16) 100 st_fb = Val ((), st') ∧
    kinv pmo st' [0x1000] l ∧
    ∃ f flags, space pmo st' 0x1000 fb_page = Some (f, flags) ∧
      page_type (<[0x277 := 0x0007040601070406]> ∅) flags = Some WriteCombining.
Proof.
  destruct st_fb_inv as [l Hk].
  assert (∀ a, fb_page + 16 ≤ a < fb_page + 16 + 100 → page_of a = fb_page) as Hpage.
  { intros a Ha. unfold page_of, fb_page in *. change v.KERNEL_DYNAMIC_START with (4096 * (v.KERNEL_DYNAMIC_START `div` 4096)) in *.
    Z.div_mod_to_equations. lia. }
  destruct (framebuffer_write_combining (pmo := pmo) st_fb 0x1000 l (fb_page + 16) 100 ∅
    (<[0x277 := 0x0007040601070406]> ∅) Hk ltac:(by vm_compute) ltac:(done) ltac:(by vm_compute) eq_refl)
    as (_ & _ & Hok & _).
  destruct (Hok ltac:(done)) as (st' & Hr & Hk' & Hnew & _).
  { intros p (a & Ha & ->). rewrite Hpage by exact Ha. by vm_compute. }
  exists st', l. split; [exact Hr|split; [exact Hk'|]].
  destruct (Hnew fb_page) as (f & fl & flags & _ & Hs & Ht & _).
  { exists (fb_page + 16). split; [lia|]. symmetry. apply Hpage. lia. }
  exists f, flags. split; [exact Hs|exact Ht].
Defined.
