(* ===== verification/UserMem.v ===== *)
(** * Memory of the active address space

    Reading and writing bytes at virtual addresses, as the processor does with
    the active tables: the walk of the page, then the byte of its frame.  A
    write needs a writable page (CR0.WP is set); the contents of a frame nobody
    has written since it was allocated are not known.  The lemmas say what a
    write to a user page changes, for every space. *)

From S2P Require Import Prelude Bytes Constants Platform FrameAlloc Paging Memory AddressSpace Isolation MapPages.

Definition frame_bytes (c : option cell) : gmap Z Z :=
  match c with Some (CBytes b) => b | _ => ∅ end.

Definition offset_of (a : Z) : Z := a `mod` 4096.

(** The byte at [a] in the space of root [r]. *)
Definition vbyte (pmo : Z) (st : Kernel) (r a : Z) : option Z :=
  match space pmo st r (page_of a) with
  | Some (f, _) => frame_bytes (k_dm st !! (pmo + f)) !! offset_of a
  | None => None
  end.

Section UserMem.
Context `{X86Addr} `{Boot}.

Definition vread (a : Z) : M Kernel Z := λ st,
  match physical_memory_offset with
  | Val pmo =>
      match space pmo st (k_cr3 st) (page_of a), vbyte pmo st (k_cr3 st) a with
      | None, _ => Fault PageFault
      | Some _, Some b => Val (b, st)
      | Some _, None => Fault Undefined
      end
  | Fault f => Fault f
  end.

Definition vwrite (a b : Z) : M Kernel () := λ st,
  match physical_memory_offset with
  | Val pmo =>
      match space pmo st (k_cr3 st) (page_of a) with
      | Some (f, flags) =>
          if Z.testbit flags 1 then
            let bytes := <[offset_of a := b]> (frame_bytes (k_dm st !! (pmo + f))) in
            Val ((), put_phys (with_dm <[pmo + f := CBytes bytes]> (k_phys st)) st)
          else Fault PageFault
      | None => Fault PageFault
      end
  | Fault f => Fault f
  end.

(** Writing consecutive bytes. *)
Fixpoint vwrite_bytes (a : Z) (bs : list Z) : M Kernel () :=
  match bs with
  | [] => mret ()
  | b :: bs' => vwrite a b ≫= λ _, vwrite_bytes (a + 1) bs'
  end.

(** Reading [n] consecutive bytes. *)
Fixpoint vread_bytes (n : nat) (a : Z) : M Kernel (list Z) :=
  match n with
  | O => mret []
  | S n' => vread a ≫= λ b, vread_bytes n' (a + 1) ≫= λ bs, mret (b :: bs)
  end.

(** A [u64] through a pointer. *)
Definition vread64 (a : Z) : M Kernel Z := vread_bytes 8 a ≫= λ bs, mret (from_le_bytes bs).
Definition vwrite64 (a x : Z) : M Kernel () := vwrite_bytes a (to_le_bytes 8 x).

(** A read whose value does not matter. *)
Definition touch (a : Z) : M Kernel () := λ st,
  match physical_memory_offset with
  | Val pmo => if space pmo st (k_cr3 st) (page_of a) then Val ((), st) else Fault PageFault
  | Fault f => Fault f
  end.
End UserMem.

Section UserMemLemmas.
Context `{Profile} `{X86AddrLaws} `{BootOk pmo} `{Mapper} `{!MapperLaws pmo}.
Context (k0 : Z) (pool : list Z).

(** The active user space can be written at [a]. *)
Definition writable (st : Kernel) (us : list Z) (a : Z) : Prop :=
  k_cr3 st ∈ us ∧ user_page (page_of a) ∧
  ∃ f fl, space pmo st (k_cr3 st) (page_of a) = Some (f, fl) ∧ Z.testbit fl 1 = true.

(** What writing the byte [b] at [a] does. *)
Record written (st : Kernel) (us : list Z) (a b : Z) (st' : Kernel) : Prop := {
  wr_cr3 : k_cr3 st' = k_cr3 st;
  wr_kpt : kernel_page_table st' = kernel_page_table st;
  wr_space r p : r ∈ k0 :: us → space pmo st' r p = space pmo st r p;
  wr_byte r x : r ∈ us → user_page (page_of x) →
    vbyte pmo st' r x = if decide (r = k_cr3 st ∧ x = a) then Some b else vbyte pmo st r x }.

Lemma page_offset_inj x a : page_of x = page_of a → offset_of x = offset_of a → x = a.
Proof. unfold page_of, offset_of. intros. Z.div_mod_to_equations. lia. Qed.

Lemma vwrite_effect st us l a b :
  user_inv pmo k0 pool st us l → writable st us a →
  ∃ st', vwrite a b st = Val ((), st') ∧ mem_step pmo (st, us) (st', us) ∧
    user_inv pmo k0 pool st' us l ∧ written st us a b st'.
Proof.
  intros Hi (Hact & Hp & f & fl & Hsp & Hfl).
  eexists. split_and!.
  - unfold vwrite. rewrite physical_memory_offset_val, Hsp, Hfl. done.
  - by apply (ms_write pmo st us (page_of a) f fl).
  - by apply (user_inv_write _ _ _ _ _ _ _ _ _ Hi Hp Hact Hsp).
  - set (st' := put_phys _ st).
    destruct (user_inv_write _ _ _ _ _ (page_of a) f fl
      (<[offset_of a := b]> (frame_bytes (k_dm st !! (pmo + f)))) Hi Hp Hact Hsp) as (_ & _ & Hspace).
    fold st' in Hspace.
    split; try done.
    intros r x Hr Hx. unfold vbyte. rewrite Hspace by (by right).
    destruct (space pmo st r (page_of x)) as [[g gl]|] eqn:Hsx.
    + destruct (decide (g = f)) as [->|Hne].
      * destruct (ui_inj _ _ _ _ _ _ Hi _ _ _ _ _ _ _ Hr Hact Hx Hp Hsx Hsp) as [-> Hpg].
        unfold k_dm, st'. cbn. rewrite lookup_insert_eq. cbn.
        destruct (decide (offset_of x = offset_of a)) as [Ho|Ho].
        -- rewrite Ho, lookup_insert_eq, decide_True; [done|]. split; [done|by apply page_offset_inj].
        -- rewrite lookup_insert_ne by done. rewrite decide_False; [done|]. by intros [_ ->].
      * unfold k_dm, st'. cbn. rewrite lookup_insert_ne by lia. rewrite decide_False; [done|].
        intros [-> ->]. congruence.
    + rewrite decide_False; [done|]. intros [-> ->]. congruence.
Qed.

(** Writing a list of bytes. *)
Record written_bytes (st : Kernel) (us : list Z) (a : Z) (bs : list Z) (st' : Kernel) : Prop := {
  wb_steps : rtc (mem_step pmo) (st, us) (st', us);
  wb_cr3 : k_cr3 st' = k_cr3 st;
  wb_kpt : kernel_page_table st' = kernel_page_table st;
  wb_space r p : r ∈ k0 :: us → space pmo st' r p = space pmo st r p;
  wb_byte r x : r ∈ us → user_page (page_of x) →
    vbyte pmo st' r x =
      if decide (r = k_cr3 st ∧ a ≤ x < a + Z.of_nat (length bs)) then bs !! Z.to_nat (x - a)
      else vbyte pmo st r x }.

Lemma writable_ext st st' us a :
  k_cr3 st' = k_cr3 st → (∀ r p, r ∈ k0 :: us → space pmo st' r p = space pmo st r p) →
  writable st us a → writable st' us a.
Proof.
  intros Hc Hs (Hact & Hp & f & fl & Hsp & Hfl). split_and!; [by rewrite Hc|done|].
  exists f, fl. rewrite Hc, Hs by (by right). done.
Qed.

Lemma vwrite_bytes_effect bs st us l a :
  user_inv pmo k0 pool st us l →
  (∀ x, a ≤ x < a + Z.of_nat (length bs) → writable st us x) →
  ∃ st', vwrite_bytes a bs st = Val ((), st') ∧ user_inv pmo k0 pool st' us l ∧
    written_bytes st us a bs st'.
Proof.
  revert a st. induction bs as [|b bs IH]; intros a st Hi Hw.
  - exists st. split_and!; [done..|]. split; try done.
    intros r x _ _. rewrite decide_False; [done|]. cbn. lia.
  - cbn [length] in *. destruct (vwrite_effect st us l a b Hi) as (st1 & Hrun & Hstep & Hi1 & Hw1);
      [apply Hw; lia|].
    destruct (IH (a + 1) st1 Hi1) as (st' & Hrun' & Hi' & Hwb).
    { intros x Hx. apply (writable_ext st); [by apply Hw1..|]. apply Hw. lia. }
    exists st'. split_and!; [by cbn; rewrite (M_bind_run _ _ _ _ _ Hrun)|done|].
    destruct Hwb as [Hsteps Hc Hkpt Hs Hb]. destruct Hw1 as [Hc1 Hkpt1 Hs1 Hb1].
    split; [by eapply rtc_l|congruence|congruence| |].
    + intros r p Hr. by rewrite Hs, Hs1.
    + intros r x Hr Hx. rewrite Hb, Hb1, Hc1 by done. cbn [length].
      destruct (decide (r = k_cr3 st ∧ a + 1 ≤ x < a + 1 + Z.of_nat (length bs))) as [[-> Hx']|Hn].
      * rewrite decide_True by (split; [done|lia]).
        by replace (Z.to_nat (x - a)) with (S (Z.to_nat (x - (a + 1)))) by lia.
      * destruct (decide (r = k_cr3 st ∧ x = a)) as [[-> ->]|Hn2].
        -- rewrite decide_True by (split; [done|lia]). by rewrite Z.sub_diag.
        -- rewrite decide_False; [done|]. intros [-> Hx']. apply Hn. split; [done|].
           assert (x ≠ a) by (intros ->; by apply Hn2). lia.
Qed.

(** The word [x] at [a] in the space of root [r]. *)
Definition holds_word (st : Kernel) (r a x : Z) : Prop :=
  ∀ j b, to_le_bytes 8 x !! j = Some b → vbyte pmo st r (a + Z.of_nat j) = Some b.

Lemma vread_run st a b : vbyte pmo st (k_cr3 st) a = Some b → vread a st = Val (b, st).
Proof.
  intros Hb. unfold vread. rewrite physical_memory_offset_val, Hb. unfold vbyte in Hb.
  by destruct (space pmo st (k_cr3 st) (page_of a)).
Qed.

Lemma vread_bytes_run bs st a :
  (∀ j b, bs !! j = Some b → vbyte pmo st (k_cr3 st) (a + Z.of_nat j) = Some b) →
  vread_bytes (length bs) a st = Val (bs, st).
Proof.
  revert a. induction bs as [|b bs IH]; intros a Hb; [done|]. cbn [length vread_bytes].
  rewrite (M_bind_run _ _ _ b st).
  2:{ apply vread_run. rewrite <-(Z.add_0_r a). by apply (Hb 0%nat). }
  rewrite (M_bind_run _ _ _ bs st); [done|]. apply IH. intros j c Hc.
  rewrite <-Z.add_assoc. replace (1 + Z.of_nat j) with (Z.of_nat (S j)) by lia. by apply Hb.
Qed.

Lemma vread64_run st a x : u64 x → holds_word st (k_cr3 st) a x → vread64 a st = Val (x, st).
Proof.
  intros Hx Hw. unfold vread64. rewrite (M_bind_run _ _ _ (to_le_bytes 8 x) st).
  - by rewrite from_to_le_bytes_u64.
  - pose proof (vread_bytes_run _ st a Hw) as Hr. by rewrite length_to_le_bytes in Hr.
Qed.

Lemma vwrite64_effect st us l a x :
  user_inv pmo k0 pool st us l → (∀ y, a ≤ y < a + 8 → writable st us y) →
  ∃ st', vwrite64 a x st = Val ((), st') ∧ user_inv pmo k0 pool st' us l ∧
    written_bytes st us a (to_le_bytes 8 x) st' ∧ holds_word st' (k_cr3 st) a x.
Proof.
  intros Hi Hw. destruct (vwrite_bytes_effect (to_le_bytes 8 x) st us l a Hi) as (st' & Hr & Hi' & Hwb).
  { intros y Hy. rewrite length_to_le_bytes in Hy. by apply Hw. }
  exists st'. split_and!; [done..|]. intros j b Hj. pose proof (lookup_lt_Some _ _ _ Hj) as Hlt.
  rewrite length_to_le_bytes in Hlt. destruct (Hw (a + Z.of_nat j) ltac:(lia)) as (Hact & Hp & _).
  rewrite (wb_byte _ _ _ _ _ Hwb) by done. rewrite length_to_le_bytes.
  rewrite decide_True by (split; [done|lia]). by replace (Z.to_nat _) with j by lia.
Qed.
End UserMemLemmas.
