(* ===== verification/RawMem.v ===== *)
(** * Bytes that need not be initialised

    [ptr::write_bytes] and [ptr::copy_nonoverlapping] in the active space, and
    what they change in pages that have frames of their own. *)

From S2P Require Import Prelude Bytes Constants Platform FrameAlloc Paging Memory AddressSpace Isolation MapPages UserMem.

Section RawMem.
Context `{X86Addr} `{Boot}.

Definition vpeek (a : Z) : M Kernel (option Z) := λ st,
  match physical_memory_offset with
  | Val pmo =>
      match space pmo st (k_cr3 st) (page_of a) with
      | Some _ => Val (vbyte pmo st (k_cr3 st) a, st)
      | None => Fault PageFault
      end
  | Fault f => Fault f
  end.

Definition vput (a : Z) (o : option Z) : M Kernel () := λ st,
  match physical_memory_offset with
  | Val pmo =>
      match space pmo st (k_cr3 st) (page_of a) with
      | Some (f, flags) =>
          if Z.testbit flags 1 then
            let bytes := partial_alter (λ _, o) (offset_of a) (frame_bytes (k_dm st !! (pmo + f))) in
            Val ((), put_phys (with_dm <[pmo + f := CBytes bytes]> (k_phys st)) st)
          else Fault PageFault
      | None => Fault PageFault
      end
  | Fault f => Fault f
  end.

Fixpoint write_bytes (dst b : Z) (count : nat) : M Kernel () :=
  match count with
  | O => mret ()
  | S n => vput dst (Some b) ≫= λ _, write_bytes (dst + 1) b n
  end.

Fixpoint copy_nonoverlapping (src dst : Z) (count : nat) : M Kernel () :=
  match count with
  | O => mret ()
  | S n => vpeek src ≫= λ o, vput dst o ≫= λ _, copy_nonoverlapping (src + 1) (dst + 1) n
  end.
End RawMem.

(** ** Pages whose memory can be written *)

Section Pages.
Context `{Profile} `{X86AddrLaws} `{BootOk pmo} `{Mapper} `{!MapperLaws pmo}.

(** The pages in [P] are writable, and each has a frame of its own, which is
    neither free nor a page table. *)
Record mem_pages (P : Z → Prop) (st : Kernel) (roots l : list Z) : Prop := {
  mp_page p : P p → ∃ f fl, space pmo st (k_cr3 st) p = Some (f, fl) ∧ Z.testbit fl 1 = true;
  mp_frame p f fl : P p → space pmo st (k_cr3 st) p = Some (f, fl) →
    f ∉ l ∧ not_table (pmo:=pmo) st roots f;
  mp_inj p q f fl fl' : P p → P q → space pmo st (k_cr3 st) p = Some (f, fl) →
    space pmo st (k_cr3 st) q = Some (f, fl') → p = q }.

Lemma mem_pages_sub P Q st roots l : (∀ p, P p → Q p) → mem_pages Q st roots l → mem_pages P st roots l.
Proof. intros HPQ [Hp Hf Hi]. split; [by eauto..|]. intros p q f fl fl' Hp' Hq'. apply Hi; by apply HPQ. Qed.

(** More pages: the old ones keep their bytes, and all have frames of their own. *)
Section MorePages.
Context (P : Z → Prop) (st : Kernel) (roots l ps : list Z) (fl : Z) (st' : Kernel) (l' : list Z).
Context (Hk : kinv pmo st roots l) (Hm : mem_pages P st roots l).
Context (Hpm : pages_mapped (pmo:=pmo) st roots l ps fl st' l') (Hps : ∀ p, P p → p ∉ ps).

Lemma old_page p : P p → space pmo st' (k_cr3 st) p = space pmo st (k_cr3 st) p.
Proof using Hk Hpm Hps.
  intros Hp. apply (pm_old _ _ _ _ _ _ _ Hpm); [by apply (ki_active _ _ _ _ Hk)|by apply Hps].
Qed.

Lemma old_frame p f gl :
  P p → space pmo st (k_cr3 st) p = Some (f, gl) →
  f ∉ l ∧ f ∉ l' ∧ not_table (pmo:=pmo) st' roots f ∧ k_dm st' !! (pmo + f) = k_dm st !! (pmo + f).
Proof using Hm Hpm.
  intros Hp Hs. destruct (mp_frame _ _ _ _ Hm _ _ _ Hp Hs) as [Hf Hft].
  destruct (pages_mapped_not_table _ _ _ _ _ _ _ _ Hpm Hf Hft) as [? ?].
  split_and!; [done..|]. by apply (pm_cells _ _ _ _ _ _ _ Hpm).
Qed.

Lemma old_byte a : P (page_of a) → vbyte pmo st' (k_cr3 st) a = vbyte pmo st (k_cr3 st) a.
Proof using All.
  intros Hp. unfold vbyte. rewrite (old_page _ Hp).
  destruct (mp_page _ _ _ _ Hm _ Hp) as (f & gl & Hs & _). rewrite Hs.
  by destruct (old_frame _ _ _ Hp Hs) as (_ & _ & _ & ->).
Qed.

Lemma old_new_apart p q f gl gl' :
  P p → q ∈ ps → space pmo st' (k_cr3 st) p = Some (f, gl) → space pmo st' (k_cr3 st) q = Some (f, gl') → False.
Proof using All.
  intros Hp Hq Hsp Hsq. rewrite (old_page _ Hp) in Hsp. destruct (old_frame _ _ _ Hp Hsp) as (Hf & _).
  destruct (pm_new _ _ _ _ _ _ _ Hpm q Hq) as (g & Hg & _ & Hsg). congruence.
Qed.

Lemma mem_pages_more : Z.testbit fl 1 = true → mem_pages (λ p, P p ∨ p ∈ ps) st' roots l'.
Proof using All.
  intros Hw. split; rewrite (pm_cr3 _ _ _ _ _ _ _ Hpm).
  - intros p [Hp|Hp]; [rewrite (old_page _ Hp); by apply (mp_page _ _ _ _ Hm)|].
    destruct (pm_new _ _ _ _ _ _ _ Hpm p Hp) as (f & _ & _ & Hf). by exists f, fl.
  - intros p f gl [Hp|Hp] Hs.
    + rewrite (old_page _ Hp) in Hs. by destruct (old_frame _ _ _ Hp Hs) as (? & ? & ? & ?).
    + destruct (pm_new _ _ _ _ _ _ _ Hpm p Hp) as (f' & _ & Hfl' & Hf').
      assert (f' = f) as -> by congruence. split; [done|by eapply (pm_fresh _ _ _ _ _ _ _ Hpm)].
  - intros p q f gl gl' [Hp|Hp] [Hq|Hq] Hsp Hsq.
    + rewrite (old_page _ Hp) in Hsp. rewrite (old_page _ Hq) in Hsq. by apply (mp_inj _ _ _ _ Hm p q f gl gl').
    + by destruct (old_new_apart p q f gl gl').
    + by destruct (old_new_apart q p f gl' gl).
    + by apply (pm_inj _ _ _ _ _ _ _ Hpm p q f gl gl').
Qed.
End MorePages.

(** [st'] is [st] with the [n] bytes from [dst] replaced by those of [g]. *)
Record stored (P : Z → Prop) (st : Kernel) (roots l : list Z) (dst n : Z) (g : Z → option Z)
    (st' : Kernel) : Prop := {
  sd_kinv : kinv pmo st' roots l;
  sd_pages : mem_pages P st' roots l;
  sd_cr3 : k_cr3 st' = k_cr3 st;
  sd_kpt : kernel_page_table st' = kernel_page_table st;
  sd_entry r i : r ∈ roots → entry_at pmo (k_dm st') r i = entry_at pmo (k_dm st) r i;
  sd_space r p : r ∈ roots → space pmo st' r p = space pmo st r p;
  sd_cells f : (∀ p fl, P p → space pmo st (k_cr3 st) p ≠ Some (f, fl)) →
    k_dm st' !! (pmo + f) = k_dm st !! (pmo + f);
  sd_byte x : P (page_of x) → vbyte pmo st' (k_cr3 st) x =
    if decide (dst ≤ x < dst + n) then g (x - dst) else vbyte pmo st (k_cr3 st) x }.

Lemma stored_none P st roots l dst g :
  kinv pmo st roots l → mem_pages P st roots l → stored P st roots l dst 0 g st.
Proof. intros. split; try done. intros x _. rewrite decide_False by lia. done. Qed.

Lemma stored_ext P st roots l dst n g g' st' :
  (∀ j, 0 ≤ j < n → g j = g' j) → stored P st roots l dst n g st' → stored P st roots l dst n g' st'.
Proof.
  intros Hg [? ? ? ? ? ? ? Hb]. split; try done. intros x Hx. rewrite Hb by done.
  case_decide; [apply Hg; lia|done].
Qed.

(** One byte, then the others. *)
Lemma stored_step P st roots l dst n g st1 st' :
  0 ≤ n → stored P st roots l dst 1 g st1 →
  stored P st1 roots l (dst + 1) n (λ j, g (j + 1)) st' →
  stored P st roots l dst (n + 1) g st'.
Proof.
  intros Hn [Hk1 _ Hc1 Ht1 He1 Hs1 Hf1 Hb1] [Hk2 Hm2 Hc2 Ht2 He2 Hs2 Hf2 Hb2].
  split; [done|done|congruence|congruence| | | |].
  - intros r i Hr. by rewrite He2, He1.
  - intros r p Hr. by rewrite Hs2, Hs1.
  - intros f Hf. rewrite Hf2; [by apply Hf1|]. intros p fl Hp. rewrite Hc1.
    rewrite Hs1 by (rewrite <-Hc1; by apply (ki_active _ _ _ _ Hk1)). by apply Hf.
  - intros x Hx. rewrite <-Hc1, Hb2, Hc1, Hb1 by done.
    destruct (decide (dst + 1 ≤ x < dst + 1 + n)).
    + rewrite decide_True by lia. f_equal. lia.
    + destruct (decide (dst ≤ x < dst + 1)); [|by rewrite decide_False by lia].
      by rewrite decide_True by lia.
Qed.

Lemma vput_effect P st roots l a o :
  kinv pmo st roots l → mem_pages P st roots l → P (page_of a) →
  ∃ st', vput a o st = Val ((), st') ∧ stored P st roots l a 1 (λ _, o) st'.
Proof.
  intros Hk Hm Ha. pose proof (ki_active _ _ _ _ Hk) as Hact.
  destruct (mp_page _ _ _ _ Hm _ Ha) as (f & fl & Hsp & Hfl).
  destruct (mp_frame _ _ _ _ Hm _ _ _ Ha Hsp) as [Hf Hft].
  eexists. split; [unfold vput; by rewrite physical_memory_offset_val, Hsp, Hfl|].
  destruct (write_frame_effect st roots l f
    (partial_alter (λ _, o) (offset_of a) (frame_bytes (k_dm st !! (pmo + f)))) Hk Hf Hft)
    as (Hk' & Hd & Hent & Hs). set (st' := put_phys _ st) in *.
  split; try done.
  - split.
    + intros p Hp. rewrite Hs by done. by apply (mp_page _ _ _ _ Hm).
    + intros p g gl Hp Hg. rewrite Hs in Hg by done. destruct (mp_frame _ _ _ _ Hm _ _ _ Hp Hg) as [? [? Ht]].
      split; [done|split; [done|]]. intros r i e Hr. rewrite Hent by done. by apply Ht.
    + intros p q g gl gl' Hp Hq. rewrite !Hs by done. by apply (mp_inj _ _ _ _ Hm).
  - intros g Hg. apply Hd. intros ->. by apply (Hg _ _ Ha Hsp).
  - intros x Hx. unfold vbyte. rewrite Hs by done.
    destruct (mp_page _ _ _ _ Hm _ Hx) as (g & gl & Hsx & _). rewrite Hsx.
    destruct (decide (g = f)) as [->|Hne].
    + pose proof (mp_inj _ _ _ _ Hm _ _ _ _ _ Hx Ha Hsx Hsp) as Hpg.
      unfold k_dm, st'. cbn. rewrite lookup_insert_eq. cbn.
      destruct (decide (offset_of x = offset_of a)) as [Ho|Ho].
      * rewrite Ho, lookup_partial_alter_eq, decide_True; [done|].
        pose proof (page_offset_inj x a Hpg Ho). lia.
      * rewrite lookup_partial_alter_ne by done. rewrite decide_False; [done|].
        intros ?. apply Ho. by replace x with a by lia.
    + rewrite Hd by done. rewrite decide_False; [done|]. intros ?.
      replace x with a in Hsx by lia. congruence.
Qed.

Lemma write_bytes_effect P st roots l dst b n :
  kinv pmo st roots l → mem_pages P st roots l →
  (∀ x, dst ≤ x < dst + Z.of_nat n → P (page_of x)) →
  ∃ st', write_bytes dst b n st = Val ((), st') ∧
    stored P st roots l dst (Z.of_nat n) (λ _, Some b) st'.
Proof.
  revert st dst. induction n as [|n IH]; intros st dst Hk Hm HP.
  - exists st. split; [done|by apply stored_none].
  - destruct (vput_effect P st roots l dst (Some b) Hk Hm) as (st1 & Hr1 & Hs1); [apply HP; lia|].
    destruct (IH st1 (dst + 1)) as (st' & Hr' & Hs'); [by apply Hs1..|intros; apply HP; lia|].
    exists st'. split; [cbn; by rewrite (M_bind_run _ _ _ _ _ Hr1)|].
    rewrite Nat2Z.inj_succ, <-Z.add_1_r. by apply (stored_step _ _ _ _ _ _ _ st1); [lia|..].
Qed.

Lemma copy_effect P st roots l src dst n :
  kinv pmo st roots l → mem_pages P st roots l →
  (∀ x, dst ≤ x < dst + Z.of_nat n → P (page_of x)) →
  (∀ x, src ≤ x < src + Z.of_nat n → P (page_of x) ∧ ¬ (dst ≤ x < dst + Z.of_nat n)) →
  ∃ st', copy_nonoverlapping src dst n st = Val ((), st') ∧
    stored P st roots l dst (Z.of_nat n) (λ j, vbyte pmo st (k_cr3 st) (src + j)) st'.
Proof.
  revert st src dst. induction n as [|n IH]; intros st src dst Hk Hm HP Hsrc.
  - exists st. split; [done|by apply stored_none].
  - destruct (Hsrc src ltac:(lia)) as [Hps _].
    set (o := vbyte pmo st (k_cr3 st) src).
    assert (vpeek src st = Val (o, st)) as Hpk.
    { unfold vpeek. rewrite physical_memory_offset_val.
      by destruct (mp_page _ _ _ _ Hm _ Hps) as (f & fl & -> & _). }
    destruct (vput_effect P st roots l dst o Hk Hm) as (st1 & Hr1 & Hs1); [apply HP; lia|].
    destruct (IH st1 (src + 1) (dst + 1)) as (st' & Hr' & Hs'); [by apply Hs1..|intros; apply HP; lia| |].
    { intros x Hx. destruct (Hsrc x ltac:(lia)) as [? Hn]. split; [done|lia]. }
    exists st'. split; [cbn; by rewrite (M_bind_run _ _ _ _ _ Hpk), (M_bind_run _ _ _ _ _ Hr1)|].
    rewrite Nat2Z.inj_succ, <-Z.add_1_r.
    apply (stored_step _ _ _ _ _ _ _ st1); [lia| |].
    + apply (stored_ext _ _ _ _ _ _ (λ _, o)); [|done]. intros j Hj.
      unfold o. do 2 f_equal. lia.
    + eapply stored_ext; [|exact Hs']. intros j Hj. cbn.
      rewrite (sd_cr3 _ _ _ _ _ _ _ _ Hs1).
      destruct (Hsrc (src + 1 + j) ltac:(lia)) as [Hp Hn].
      rewrite (sd_byte _ _ _ _ _ _ _ _ Hs1) by done. rewrite decide_False by lia. f_equal. lia.
Qed.

(** Initialised bytes, as the processor stores them. *)
Lemma vwrite_bytes_stored P bs st roots l dst :
  kinv pmo st roots l → mem_pages P st roots l →
  (∀ x, dst ≤ x < dst + Z.of_nat (length bs) → P (page_of x)) →
  ∃ st', vwrite_bytes dst bs st = Val ((), st') ∧
    stored P st roots l dst (Z.of_nat (length bs)) (λ j, bs !! Z.to_nat j) st'.
Proof.
  revert st dst. induction bs as [|b bs IH]; intros st dst Hk Hm HP.
  - exists st. split; [done|by apply stored_none].
  - cbn [length] in *. destruct (vput_effect P st roots l dst (Some b) Hk Hm) as (st1 & Hr1 & Hs1); [apply HP; lia|].
    destruct (IH st1 (dst + 1)) as (st' & Hr' & Hs'); [by apply Hs1..|intros; apply HP; lia|].
    exists st'. split; [cbn; by rewrite (M_bind_run (vwrite dst b) _ _ _ _ Hr1)|].
    rewrite Nat2Z.inj_succ, <-Z.add_1_r. apply (stored_step _ _ _ _ _ _ _ st1); [lia| |].
    + apply (stored_ext _ _ _ _ _ _ (λ _, Some b)); [|done]. intros j Hj. by assert (j = 0) as -> by lia.
    + eapply stored_ext; [|exact Hs']. intros j Hj. cbn. by replace (Z.to_nat (j + 1)) with (S (Z.to_nat j)) by lia.
Qed.
End Pages.
