(* ===== verification/ApMachine.v ===== *)
(** * A starting processor (src/kernel/smp_trampoline/ap.asm, ap.bin)

    The instructions of the trampoline, their encodings, and what they do to a
    processor and the memory: from real mode, in which a processor starts at the
    page of the startup command, to 64-bit mode.  What the processor refuses (a
    jump into a segment that is not 64-bit code, paging without the physical
    address extension, a fetch from a page without execute permission) is a
    fault.  Flags other than the two that the trampoline sets, and caches, are
    left out. *)

From S2P Require Import Prelude Bytes Constants Platform FrameAlloc Paging Memory MapPages UserMem.

(** ** Instructions *)

Inductive gpr := RAX | RCX | RDX | RBX | RSP | RBP | RSI | RDI.
Inductive sreg := ES | CS | SS | DS | FS | GS.
Inductive creg := CR0 | CR3 | CR4.
Inductive osize := W16 | W32 | W64.

#[export] Instance sreg_eq_dec : EqDecision sreg.
Proof. solve_decision. Defined.

(** A register, or the memory at a displacement or behind a register. *)
Inductive rm := Reg (r : gpr) | Disp (a : Z) | At (r : gpr).

Inductive instr :=
  | Cli | Cld | Rdmsr | Wrmsr
  | MovImm (w : osize) (r : gpr) (imm : Z)
  | MovSeg (s : sreg) (r : gpr)
  | MovLoad (w : osize) (r : gpr) (src : rm)
  | MovReg (w : osize) (dst src : gpr)
  | MovFromCr (r : gpr) (c : creg)
  | MovToCr (c : creg) (r : gpr)
  | OrImm (w : osize) (r : gpr) (imm : Z)
  | AndImm (w : osize) (r : gpr) (imm : Z)
  | Lgdt (a : Z)
  | JmpFar (sel off : Z)
  | LockXadd (a r : gpr)
  | Imul (r : gpr) (src : rm)
  | Add (r : gpr) (src : rm)
  | JmpInd (src : rm)
  | JmpShort (rel : Z).

(** ** Encodings

    A prefix 0x66 exchanges the operand sizes of 16-bit code; REX.W selects 64
    bits.  Immediates and displacements are little endian. *)

Definition reg_of (n : Z) : gpr :=
  match n with 0 => RAX | 1 => RCX | 2 => RDX | 3 => RBX | 4 => RSP | 5 => RBP | 6 => RSI | _ => RDI end.
Definition seg_of (n : Z) : option sreg :=
  match n with 0 => Some ES | 1 => Some CS | 2 => Some SS | 3 => Some DS | 4 => Some FS | 5 => Some GS | _ => None end.
Definition cr_of (n : Z) : option creg :=
  match n with 0 => Some CR0 | 3 => Some CR3 | 4 => Some CR4 | _ => None end.

(** The next [n] bytes as a number. *)
Definition take_le (n : nat) (bs : list Z) : option (Z * list Z) :=
  if (n <=? length bs)%nat then Some (from_le_bytes (take n bs), drop n bs) else None.

(** Sign extension from [w] to 64 bits. *)
Definition sign_extend (w z : Z) : Z := (if z <? 2 ^ (w - 1) then z else z - 2 ^ w) `mod` 2 ^ 64.

(** The byte that names the operands: the register field, and a register or one
    of the forms of memory that are used. *)
Definition modrm (long : bool) (bs : list Z) : option (Z * rm * list Z) :=
  match bs with
  | [] => None
  | b :: bs =>
      let md := b `div` 64 in let reg := (b `div` 8) `mod` 8 in let r := b `mod` 8 in
      if md =? 3 then Some (reg, Reg (reg_of r), bs)
      else if negb (md =? 0) then None
      else if long then
        if r =? 4 then                              (* SIB: no base, no index *)
          match bs with
          | b :: bs => if b =? 0x25 then '(d, bs) ← take_le 4 bs; Some (reg, Disp (sign_extend 32 d), bs) else None
          | [] => None
          end
        else if r =? 5 then None else Some (reg, At (reg_of r), bs)
      else if r =? 6 then '(d, bs) ← take_le 2 bs; Some (reg, Disp d, bs) else None
  end.

Definition decode_two_byte (long : bool) (w : osize) (bs : list Z) : option (instr * list Z) :=
  match bs with
  | [] => None
  | op :: bs =>
      if op =? 0x30 then Some (Wrmsr, bs)
      else if op =? 0x32 then Some (Rdmsr, bs)
      else '(reg, m, bs) ← modrm long bs;
        match m with
        | Reg r =>
            if op =? 0x20 then c ← cr_of reg; Some (MovFromCr r c, bs)
            else if op =? 0x22 then c ← cr_of reg; Some (MovToCr c r, bs)
            else None
        | Disp a =>
            match w with
            | W16 => if (op =? 0x01) && (reg =? 2) then Some (Lgdt a, bs) else None
            | W32 => None
            | W64 => if op =? 0xaf then Some (Imul (reg_of reg) m, bs) else None
            end
        | At a => match w with W64 => if op =? 0xc1 then Some (LockXadd a (reg_of reg), bs) else None | _ => None end
        end
  end.

Definition decode_op (long : bool) (w : osize) (bs : list Z) : option (instr * list Z) :=
  match bs with
  | [] => None
  | op :: bs =>
      if op =? 0x0f then decode_two_byte long w bs
      else if op =? 0xfa then Some (Cli, bs)
      else if op =? 0xfc then Some (Cld, bs)
      else if op `div` 8 =? 23 then                 (* 0xb8 + register *)
        '(imm, bs) ← take_le (match w with W16 => 2 | W32 => 4 | W64 => 8 end)%nat bs;
        Some (MovImm w (reg_of (op `mod` 8)) imm, bs)
      else if op =? 0x0d then
        '(imm, bs) ← take_le (match w with W16 => 2 | _ => 4 end)%nat bs; Some (OrImm w RAX imm, bs)
      else if op =? 0xea then
        if long then None else
        '(off, bs) ← take_le (match w with W16 => 2 | _ => 4 end)%nat bs;
        '(sel, bs) ← take_le 2 bs; Some (JmpFar sel off, bs)
      else if op =? 0xeb then
        '(rel, bs) ← take_le 1 bs; Some (JmpShort (sign_extend 8 rel), bs)
      else '(reg, m, bs) ← modrm long bs;
        if op =? 0x8e then
          match m with Reg r => s ← seg_of reg; Some (MovSeg s r, bs) | _ => None end
        else if op =? 0x8b then Some (MovLoad w (reg_of reg) m, bs)
        else if op =? 0x89 then
          match m with Reg r => Some (MovReg w r (reg_of reg), bs) | _ => None end
        else if op =? 0x83 then
          '(imm, bs) ← take_le 1 bs;
          match m with
          | Reg r =>
              if reg =? 1 then Some (OrImm w r (sign_extend 8 imm), bs)
              else if reg =? 4 then Some (AndImm w r (sign_extend 8 imm), bs) else None
          | _ => None
          end
        else if op =? 0x03 then match w with W64 => Some (Add (reg_of reg) m, bs) | _ => None end
        else if (op =? 0xff) && (reg =? 4) && long then Some (JmpInd m, bs)
        else None
  end.

(** Prefixes, then the instruction: with the bytes that follow it.  Of the
    instructions here only [xadd] takes the LOCK prefix, and it always has it. *)
Definition is_locked (i : instr) : bool := match i with LockXadd _ _ => true | _ => false end.

Definition decode (long : bool) (bs : list Z) : option (instr * list Z) :=
  let rex_w bs := match bs with b :: bs' => if long && (b =? 0x48) then Some bs' else None | [] => None end in
  let plain bs :=
    match rex_w bs with
    | Some bs' => decode_op long W64 bs'
    | None => decode_op long (if long then W32 else W16) bs
    end in
  match bs with
  | [] => None
  | b :: bs' =>
      let lock := b =? 0xf0 in
      '(i, rest) ← (if b =? 0x66 then decode_op long (if long then W16 else W32) bs'
                    else plain (if lock then bs' else bs));
      if Bool.eqb lock (is_locked i) then Some (i, rest) else None
  end.

(** ** The processor *)

Record Regs := mkRegs { rax : Z; rcx : Z; rdx : Z; rbx : Z; rsp : Z; rbp : Z; rsi : Z; rdi : Z }.

(** A segment register: the selector, and the base that came with it. *)
Record Sregs := mkSregs { es : Z * Z; cs : Z * Z; ss : Z * Z; ds : Z * Z; fs : Z * Z; gs : Z * Z }.

Definition get_gpr (r : gpr) (g : Regs) : Z :=
  match r with
  | RAX => rax g | RCX => rcx g | RDX => rdx g | RBX => rbx g
  | RSP => rsp g | RBP => rbp g | RSI => rsi g | RDI => rdi g
  end.
Definition set_gpr (r : gpr) (x : Z) (g : Regs) : Regs :=
  match r with
  | RAX => mkRegs x (rcx g) (rdx g) (rbx g) (rsp g) (rbp g) (rsi g) (rdi g)
  | RCX => mkRegs (rax g) x (rdx g) (rbx g) (rsp g) (rbp g) (rsi g) (rdi g)
  | RDX => mkRegs (rax g) (rcx g) x (rbx g) (rsp g) (rbp g) (rsi g) (rdi g)
  | RBX => mkRegs (rax g) (rcx g) (rdx g) x (rsp g) (rbp g) (rsi g) (rdi g)
  | RSP => mkRegs (rax g) (rcx g) (rdx g) (rbx g) x (rbp g) (rsi g) (rdi g)
  | RBP => mkRegs (rax g) (rcx g) (rdx g) (rbx g) (rsp g) x (rsi g) (rdi g)
  | RSI => mkRegs (rax g) (rcx g) (rdx g) (rbx g) (rsp g) (rbp g) x (rdi g)
  | RDI => mkRegs (rax g) (rcx g) (rdx g) (rbx g) (rsp g) (rbp g) (rsi g) x
  end.
Definition get_seg (s : sreg) (g : Sregs) : Z * Z :=
  match s with ES => es g | CS => cs g | SS => ss g | DS => ds g | FS => fs g | GS => gs g end.
Definition set_seg (s : sreg) (x : Z * Z) (g : Sregs) : Sregs :=
  match s with
  | ES => mkSregs x (cs g) (ss g) (ds g) (fs g) (gs g)
  | CS => mkSregs (es g) x (ss g) (ds g) (fs g) (gs g)
  | SS => mkSregs (es g) (cs g) x (ds g) (fs g) (gs g)
  | DS => mkSregs (es g) (cs g) (ss g) x (fs g) (gs g)
  | FS => mkSregs (es g) (cs g) (ss g) (ds g) x (gs g)
  | GS => mkSregs (es g) (cs g) (ss g) (ds g) (fs g) x
  end.

Record Cpu := mkCpu {
  regs : Regs; sregs : Sregs;
  rip : Z;
  cr0 : Z; cr3 : Z; cr4 : Z; efer : Z;
  gdtr : Z * Z;                   (** limit and base *)
  long_cs : bool;                 (** code segment with the L bit *)
  IF : bool; DF : bool }.

Definition Machine : Type := Cpu * Kernel.

Definition PE (c : Cpu) : bool := Z.testbit (cr0 c) 0.
Definition PG (c : Cpu) : bool := Z.testbit (cr0 c) 31.
Definition PAE (c : Cpu) : bool := Z.testbit (cr4 c) 5.
Definition LME (c : Cpu) : bool := Z.testbit (efer c) 8.
Definition LMA (c : Cpu) : bool := Z.testbit (efer c) 10.
Definition NXE (c : Cpu) : bool := Z.testbit (efer c) 11.
Definition long_mode (c : Cpu) : bool := PE c && LMA c && long_cs c.

Definition set_regs (g : Regs) (c : Cpu) : Cpu :=
  mkCpu g (sregs c) (rip c) (cr0 c) (cr3 c) (cr4 c) (efer c) (gdtr c) (long_cs c) (IF c) (DF c).
Definition set_sregs (g : Sregs) (c : Cpu) : Cpu :=
  mkCpu (regs c) g (rip c) (cr0 c) (cr3 c) (cr4 c) (efer c) (gdtr c) (long_cs c) (IF c) (DF c).
Definition set_rip (a : Z) (c : Cpu) : Cpu :=
  mkCpu (regs c) (sregs c) a (cr0 c) (cr3 c) (cr4 c) (efer c) (gdtr c) (long_cs c) (IF c) (DF c).
Definition set_cr (n : creg) (x : Z) (c : Cpu) : Cpu :=
  match n with
  | CR0 => mkCpu (regs c) (sregs c) (rip c) x (cr3 c) (cr4 c) (efer c) (gdtr c) (long_cs c) (IF c) (DF c)
  | CR3 => mkCpu (regs c) (sregs c) (rip c) (cr0 c) x (cr4 c) (efer c) (gdtr c) (long_cs c) (IF c) (DF c)
  | CR4 => mkCpu (regs c) (sregs c) (rip c) (cr0 c) (cr3 c) x (efer c) (gdtr c) (long_cs c) (IF c) (DF c)
  end.
Definition set_efer (x : Z) (c : Cpu) : Cpu :=
  mkCpu (regs c) (sregs c) (rip c) (cr0 c) (cr3 c) (cr4 c) x (gdtr c) (long_cs c) (IF c) (DF c).
Definition set_gdtr (x : Z * Z) (c : Cpu) : Cpu :=
  mkCpu (regs c) (sregs c) (rip c) (cr0 c) (cr3 c) (cr4 c) (efer c) x (long_cs c) (IF c) (DF c).
Definition set_long_cs (b : bool) (c : Cpu) : Cpu :=
  mkCpu (regs c) (sregs c) (rip c) (cr0 c) (cr3 c) (cr4 c) (efer c) (gdtr c) b (IF c) (DF c).
Definition clear_flag (interrupts direction : bool) (c : Cpu) : Cpu :=
  mkCpu (regs c) (sregs c) (rip c) (cr0 c) (cr3 c) (cr4 c) (efer c) (gdtr c) (long_cs c)
    (IF c && negb interrupts) (DF c && negb direction).

(** Writing a register: 16 bits leave the rest, 32 bits clear it. *)
Definition resize (w : osize) (old x : Z) : Z :=
  match w with
  | W16 => old `div` 2 ^ 16 * 2 ^ 16 + x `mod` 2 ^ 16
  | W32 => x `mod` 2 ^ 32
  | W64 => x `mod` 2 ^ 64
  end.
Definition reg (r : gpr) (c : Cpu) : Z := get_gpr r (regs c).
Definition set_reg (w : osize) (r : gpr) (x : Z) (c : Cpu) : Cpu :=
  set_regs (set_gpr r (resize w (reg r c) x) (regs c)) c.
Definition set_sreg (s : sreg) (sel base : Z) (c : Cpu) : Cpu :=
  set_sregs (set_seg s (sel, base) (sregs c)) c.

Definition cpu {A} (g : Cpu → A) : M Machine A := gets (λ s, g (fst s)).
Definition upd (g : Cpu → Cpu) : M Machine () := modify (λ s, (g (fst s), snd s)).

(** An exception of the processor: there is no handler yet. *)
Definition exception {A} : M Machine A := liftr (Fault Undefined).
Definition require (b : bool) : M Machine () := if b then mret () else exception.

Section Exec.
Context `{X86Addr} `{Boot}.

(** The memory as the processor sees it with its own CR3. *)
Definition view (c : Cpu) (st : Kernel) : Kernel := mkKernel (k_phys st) (cr3 c) (kernel_page_table st).

(** A byte of physical memory. *)
Definition phys_read (a : Z) : M Kernel Z := λ st,
  match physical_memory_offset with
  | Val pmo =>
      match frame_bytes (k_dm st !! (pmo + page_of a)) !! offset_of a with
      | Some b => Val (b, st)
      | None => Fault Undefined
      end
  | Fault f => Fault f
  end.

Definition read_byte (a : Z) : M Machine Z := λ '(c, st),
  match (if PG c then vread a (view c st) else phys_read a st) with
  | Val (b, _) => Val (b, (c, st))
  | Fault f => Fault f
  end.

Fixpoint read_bytes (n : nat) (a : Z) : M Machine (list Z) :=
  match n with
  | O => mret []
  | S n => read_byte a ≫= λ b, read_bytes n (a + 1) ≫= λ bs, mret (b :: bs)
  end.
Definition read_le (n : nat) (a : Z) : M Machine Z := read_bytes n a ≫= λ bs, mret (from_le_bytes bs).

(** Writes are made with paging on. *)
Definition write64 (a x : Z) : M Machine () := λ '(c, st),
  if PG c then
    match vwrite64 a x (view c st) with
    | Val (_, st') => Val ((), (c, put_phys (k_phys st') st))
    | Fault f => Fault f
    end
  else Fault Undefined.

(** The linear address of [off] in the segment [s]; 64-bit code does not use the
    bases of these segments. *)
Definition linear (s : sreg) (off : Z) (c : Cpu) : Z :=
  if long_mode c then off else snd (get_seg s (sregs c)) + off.

(** A page that holds code must not be marked as data. *)
Definition executable (a : Z) (c : Cpu) (st : Kernel) : bool :=
  negb (PG c && NXE c) ||
  match physical_memory_offset with
  | Val pmo => match space pmo st (cr3 c) (page_of a) with Some (_, fl) => negb (Z.testbit fl 63) | None => true end
  | Fault _ => true
  end.

(** Up to [n] bytes from [a]: as far as memory is there. *)
Fixpoint fetch (n : nat) (a : Z) (s : Machine) : list Z :=
  match n with
  | O => []
  | S n =>
      if executable a (fst s) (snd s) then
        match read_byte a s with Val (b, _) => b :: fetch n (a + 1) s | Fault _ => [] end
      else []
  end.

(** The descriptor that a selector names. *)
Definition descriptor (sel : Z) : M Machine Z :=
  cpu gdtr ≫= λ '(limit, base),
  let off := sel `div` 8 * 8 in
  require (off + 7 <=? limit) ≫= λ _,
  read_le 8 (base + off).
Definition present (d : Z) : bool := Z.testbit d 47 && Z.testbit d 44 && negb (Z.testbit d 46) && negb (Z.testbit d 45).

Definition descriptor_base (d : Z) : Z := d `div` 2 ^ 16 `mod` 2 ^ 24 + d `div` 2 ^ 56 * 2 ^ 24.

(** Loading a segment register: in real mode the base is the selector's, in
    protected mode the descriptor must be writable data. *)
Definition load_sreg (s : sreg) (sel : Z) : M Machine () :=
  cpu PE ≫= λ protected : bool,
  if protected then
    descriptor sel ≫= λ d,
    require (present d && negb (Z.testbit d 43) && Z.testbit d 41) ≫= λ _,
    upd (set_sreg s sel (descriptor_base d))
  else upd (set_sreg s sel (sel * 16)).

(** Writing a control register. *)
Definition load_cr (n : creg) (x : Z) : M Machine () :=
  match n with
  | CR3 => upd (set_cr CR3 x)
  | CR4 => cpu LMA ≫= λ lma : bool, require (negb lma || Z.testbit x 5) ≫= λ _, upd (set_cr CR4 x)
  | CR0 =>
      gets fst ≫= λ c,
      require (negb (Z.testbit x 31) || Z.testbit x 0) ≫= λ _,
      require (negb (PG c && negb (Z.testbit x 31) && long_mode c)) ≫= λ _,
      (if negb (PG c) && Z.testbit x 31 && LME c
       then require (PAE c) ≫= λ _, upd (set_efer (Z.lor (efer c) (2 ^ 10))) else mret ()) ≫= λ _,
      upd (set_cr CR0 x)
  end.

Definition EFER : Z := 0xc0000080.

Definition operand (w : osize) (m : rm) : M Machine Z :=
  let n := (match w with W16 => 2 | W32 => 4 | W64 => 8 end)%nat in
  match m with
  | Reg r => cpu (λ c, reg r c)
  | Disp a => cpu (linear DS a) ≫= read_le n
  | At r => cpu (λ c, reg r c) ≫= read_le n
  end.

Definition exec (i : instr) : M Machine () :=
  match i with
  | Cli => upd (clear_flag true false)
  | Cld => upd (clear_flag false true)
  | MovImm w r imm => upd (set_reg w r imm)
  | MovSeg s r =>
      require (negb (bool_decide (s = CS))) ≫= λ _,
      cpu (λ c, reg r c `mod` 2 ^ 16) ≫= load_sreg s
  | MovLoad w r src => operand w src ≫= λ x, upd (set_reg w r x)
  | MovReg w dst src => cpu (λ c, reg src c) ≫= λ x, upd (set_reg w dst x)
  | MovFromCr r n =>
      gets fst ≫= λ c,
      let x := match n with CR0 => cr0 c | CR3 => cr3 c | CR4 => cr4 c end in
      upd (set_reg (if long_mode c then W64 else W32) r x)
  | MovToCr n r =>
      gets fst ≫= λ c, load_cr n (resize (if long_mode c then W64 else W32) 0 (reg r c))
  | OrImm w r imm => cpu (λ c, reg r c) ≫= λ x, upd (set_reg w r (Z.lor x imm))
  | AndImm w r imm => cpu (λ c, reg r c) ≫= λ x, upd (set_reg w r (Z.land x imm))
  | Rdmsr =>
      gets fst ≫= λ c, require (reg RCX c `mod` 2 ^ 32 =? EFER) ≫= λ _,
      upd (λ c, set_reg W32 RDX (efer c `div` 2 ^ 32) (set_reg W32 RAX (efer c) c))
  | Wrmsr =>
      gets fst ≫= λ c, require (reg RCX c `mod` 2 ^ 32 =? EFER) ≫= λ _,
      let x := reg RDX c `mod` 2 ^ 32 * 2 ^ 32 + reg RAX c `mod` 2 ^ 32 in
      require (negb (PG c) || Bool.eqb (Z.testbit x 8) (LME c)) ≫= λ _,
      upd (set_efer (if LMA c then Z.lor x (2 ^ 10) else Z.ldiff x (2 ^ 10)))
  | Lgdt a =>
      cpu (linear DS a) ≫= λ p,
      read_le 2 p ≫= λ limit, read_le 4 (p + 2) ≫= λ base,
      upd (set_gdtr (limit, base `mod` 2 ^ 24))
  | JmpFar sel off =>
      cpu PE ≫= λ protected : bool,
      (if protected then
         descriptor sel ≫= λ d,
         require (present d && Z.testbit d 43 && negb (Z.testbit d 53 && Z.testbit d 54)) ≫= λ _,
         upd (set_sreg CS sel (descriptor_base d)) ≫= λ _, upd (set_long_cs (Z.testbit d 53))
       else upd (set_sreg CS sel (sel * 16))) ≫= λ _,
      upd (set_rip off)
  | LockXadd a r =>
      cpu (λ c, reg a c) ≫= λ p,
      read_le 8 p ≫= λ old, cpu (λ c, reg r c) ≫= λ x,
      write64 p ((old + x) `mod` 2 ^ 64) ≫= λ _, upd (set_reg W64 r old)
  | Imul r src => operand W64 src ≫= λ x, upd (λ c, set_reg W64 r (reg r c * x) c)
  | Add r src => operand W64 src ≫= λ x, upd (λ c, set_reg W64 r (reg r c + x) c)
  | JmpInd src => operand W64 src ≫= λ x, upd (set_rip x)
  | JmpShort rel => upd (λ c, set_rip ((rip c + rel) `mod` 2 ^ 64) c)
  end.

(** One instruction: at most 15 bytes. *)
Definition step : M Machine () := λ s,
  let bs := fetch 15 (linear CS (rip (fst s)) (fst s)) s in
  match decode (long_mode (fst s)) bs with
  | Some (i, rest) =>
      (upd (λ c, set_rip (rip c + Z.of_nat (length bs - length rest)) c) ≫= λ _, exec i) s
  | None => Fault Undefined
  end.

Fixpoint steps (n : nat) : M Machine () :=
  match n with O => mret () | S n => step ≫= λ _, steps n end.
End Exec.
