(* ===== verification/ApCode.v ===== *)
(** * The code of the trampoline (src/kernel/smp_trampoline/ap.asm, ap.bin)

    The repository holds the assembly text and the bytes that [init_smp] copies.
    [code_is_assembled] says that they agree; [real_mode_run] is what the
    16-bit part does when the bytes are in page 0, and ApStart.v runs the rest. *)

From S2P Require Import Prelude Bytes Constants Platform FrameAlloc Paging Memory AddressSpace Isolation MapPages UserMem RawMem ApMachine.

(** The contents of [ap.bin]. *)
Definition CODE : list Z := [
  250; 252; 184; 0; 0; 142; 208; 142; 216; 142; 192; 102; 139; 14; 0; 10; 15; 34; 217; 15; 32; 224; 102; 131; 200;
  32; 15; 34; 224; 102; 185; 128; 0; 0; 192; 15; 50; 102; 13; 0; 1; 0; 0; 102; 13; 0; 8; 0; 0; 15; 48; 15; 1; 22;
  102; 0; 15; 32; 192; 102; 13; 1; 0; 0; 128; 15; 34; 192; 102; 234; 108; 0; 0; 0; 8; 0; 0; 0; 0; 0; 0; 0; 0; 0; 0;
  0; 0; 0; 0; 154; 32; 0; 0; 0; 0; 0; 0; 146; 0; 0; 0; 0; 25; 0; 76; 0; 0; 0; 102; 184; 16; 0; 142; 216; 142; 192;
  142; 224; 142; 232; 142; 208; 15; 32; 192; 72; 131; 224; 251; 72; 131; 200; 2; 15; 34; 192; 72; 139; 4; 37; 0; 11;
  0; 0; 189; 1; 0; 0; 0; 240; 72; 15; 193; 40; 72; 137; 239; 72; 15; 175; 44; 37; 16; 11; 0; 0; 72; 3; 44; 37; 32;
  11; 0; 0; 72; 137; 236; 255; 36; 37; 48; 11; 0; 0; 235; 254].

(** Where the parameters are. *)
Definition L4_TABLE_ADDR : Z := 0x0a00.
Definition CORE_COUNTER_ADDR : Z := 0x0b00.
Definition STACK_STRIDE : Z := 0x0b10.
Definition STACK_BASE_ADDR : Z := 0x0b20.
Definition ENTRY_FUNCTION_ADDR : Z := 0x0b30.

(** ** The assembly text *)

Definition GDT : Z := 76.
Definition GDT_Pointer : Z := 102.
Definition long_mode_start : Z := 108.

(** [real_mode] *)
Definition real_mode : list instr := [
  Cli; Cld;
  MovImm W16 RAX 0; MovSeg SS RAX; MovSeg DS RAX; MovSeg ES RAX;
  MovLoad W32 RCX (Disp L4_TABLE_ADDR); MovToCr CR3 RCX;
  MovFromCr RAX CR4; OrImm W32 RAX (Z.shiftl 1 5); MovToCr CR4 RAX;
  MovImm W32 RCX EFER; Rdmsr; OrImm W32 RAX (Z.shiftl 1 8); OrImm W32 RAX (Z.shiftl 1 11); Wrmsr;
  Lgdt GDT_Pointer;
  MovFromCr RAX CR0; OrImm W32 RAX 0x80000001; MovToCr CR0 RAX;
  JmpFar 0x08 long_mode_start].

(** [GDT], up to its pointer, and the pointer *)
Definition gdt_table : list Z :=
  to_le_bytes 8 0 ++ to_le_bytes 8 0x00209a0000000000 ++ to_le_bytes 8 0x0000920000000000 ++ to_le_bytes 2 0.
Definition gdt_pointer : list Z := to_le_bytes 2 (GDT_Pointer - GDT - 1) ++ to_le_bytes 4 GDT.

(** [long_mode], [setup] *)
Definition long_mode_code : list instr := [
  MovImm W16 RAX 0x10; MovSeg DS RAX; MovSeg ES RAX; MovSeg FS RAX; MovSeg GS RAX; MovSeg SS RAX;
  MovFromCr RAX CR0; AndImm W64 RAX (2 ^ 64 - 1 - Z.shiftl 1 2); OrImm W64 RAX (Z.shiftl 1 1); MovToCr CR0 RAX].
Definition setup : list instr := [
  MovLoad W64 RAX (Disp CORE_COUNTER_ADDR);
  MovImm W32 RBP 1; LockXadd RAX RBP;
  MovReg W64 RDI RBP;
  Imul RBP (Disp STACK_STRIDE);
  Add RBP (Disp STACK_BASE_ADDR);
  MovReg W64 RSP RBP;
  JmpInd (Disp ENTRY_FUNCTION_ADDR);
  JmpShort (2 ^ 64 - 2)].

(** The instructions in a list of bytes, one after the other. *)
Fixpoint disassemble (fuel : nat) (long : bool) (bs : list Z) : option (list instr) :=
  match fuel, bs with
  | _, [] => Some []
  | O, _ => None
  | S n, _ => '(i, rest) ← decode long bs; l ← disassemble n long rest; Some (i :: l)
  end.

(**  The bytes of ap.bin are those of ap.asm: the 16-bit code, the
    table with its pointer, and the 64-bit code. *)
Theorem code_is_assembled :
  disassemble 30 false (take 76 CODE) = Some real_mode ∧
  take 32 (drop 76 CODE) = gdt_table ++ gdt_pointer ∧
  disassemble 30 true (drop 108 CODE) = Some (long_mode_code ++ setup).
Proof. split_and!; by vm_compute. Qed.

(** ** Running the code *)

Section Run.
Context `{Profile} `{X86AddrLaws} `{BootOk pmo}.

(** Page 0 holds [m]: physically, and, for the tables of root [k0], virtually in
    an executable page. *)
Record page_zero_holds (k0 : Z) (m : gmap Z Z) (st : Kernel) : Prop := {
  pz_bytes : frame_bytes (k_dm st !! (pmo + 0)) = m;
  pz_space : ∃ fl, space pmo st k0 0 = Some (0, fl) ∧ Z.testbit fl 63 = false }.

(** The processor reads page 0: before paging, or through those tables. *)
Definition sees_zero (k0 : Z) (c : Cpu) : Prop := PG c = true → cr3 c = k0.

(** What it finds there is [m]; before paging the tables do not matter. *)
Definition reads_zero (k0 : Z) (m : gmap Z Z) (c : Cpu) (st : Kernel) : Prop :=
  frame_bytes (k_dm st !! (pmo + 0)) = m ∧
  (PG c = true → cr3 c = k0 ∧ ∃ fl, space pmo st k0 0 = Some (0, fl) ∧ Z.testbit fl 63 = false).

Lemma holds_reads k0 m st c : page_zero_holds k0 m st → sees_zero k0 c → reads_zero k0 m c st.
Proof. intros [Hm Hs] Hc. split; [done|]. intros Hpg. split; [by apply Hc|done]. Qed.

Lemma low_page a : 0 ≤ a < 4096 → page_of a = 0 ∧ offset_of a = a.
Proof. intros Ha. unfold page_of, offset_of. rewrite Z.div_small, Z.mod_small by lia. by split. Qed.

Lemma read_byte_low k0 m st c a b :
  reads_zero k0 m c st → 0 ≤ a < 4096 → m !! a = Some b →
  read_byte a (c, st) = Val (b, (c, st)) ∧ executable a c st = true.
Proof.
  intros [Hm Hpage] Ha Hb. destruct (low_page a Ha) as [Hp Ho]. unfold read_byte, executable.
  destruct (PG c) eqn:Hpg.
  - destruct (Hpage eq_refl) as (Hc & fl & Hs & Hx). split.
    + rewrite (vread_run (view c st) a b); [done|]. unfold vbyte, view. cbn [k_cr3].
      rewrite Hc, Hp, Ho. unfold space, k_dm in *. cbn [k_phys]. by rewrite Hs, Hm.
    + rewrite physical_memory_offset_val, Hp, Hc, Hs, Hx. by rewrite orb_true_r.
  - split; [|done]. unfold phys_read. by rewrite physical_memory_offset_val, Hp, Ho, Hm, Hb.
Qed.

(** The bytes [bs] are at [a]. *)
Definition bytes_at (m : gmap Z Z) (a : Z) (bs : list Z) : Prop :=
  0 ≤ a ∧ a + Z.of_nat (length bs) ≤ 4096 ∧ ∀ j b, bs !! j = Some b → m !! (a + Z.of_nat j) = Some b.

Lemma bytes_at_tail m a b bs : bytes_at m a (b :: bs) → bytes_at m (a + 1) bs.
Proof.
  intros (Ha & Hl & Hb). cbn [length] in Hl. split_and!; [lia|lia|]. intros j x Hj.
  replace (a + 1 + Z.of_nat j) with (a + Z.of_nat (S j)) by lia. by apply Hb.
Qed.

Lemma bytes_at_head m a b bs : bytes_at m a (b :: bs) → 0 ≤ a < 4096 ∧ m !! a = Some b.
Proof.
  intros (Ha & Hl & Hb). cbn [length] in Hl. split; [lia|]. specialize (Hb 0%nat b eq_refl).
  by rewrite Z.add_0_r in Hb.
Qed.

Lemma fetch_at k0 m st c bs : reads_zero k0 m c st →
  ∀ n a, (length bs ≤ n)%nat → bytes_at m a bs → ∃ tail, fetch n a (c, st) = bs ++ tail.
Proof.
  intros Hz. induction bs as [|b bs IH]; intros n a Hn Hb; [by eexists|].
  destruct n as [|n]; [cbn in Hn; lia|]. destruct (bytes_at_head _ _ _ _ Hb) as [Ha Hab].
  destruct (read_byte_low k0 m st c a b Hz Ha Hab) as [Hr Hx].
  destruct (IH n (a + 1)) as [tail Ht]; [cbn in Hn; lia|by eapply bytes_at_tail|].
  exists tail. cbn [fetch fst snd]. by rewrite Hx, Hr, Ht.
Qed.

Lemma read_bytes_at k0 m st c bs : reads_zero k0 m c st →
  ∀ a, bytes_at m a bs → read_bytes (length bs) a (c, st) = Val (bs, (c, st)).
Proof.
  intros Hz. induction bs as [|b bs IH]; intros a Hb; [done|].
  destruct (bytes_at_head _ _ _ _ Hb) as [Ha Hab]. cbn [length read_bytes].
  rewrite (M_bind_run _ _ _ b (c, st)) by by apply (read_byte_low k0 m).
  by rewrite (M_bind_run _ _ _ bs (c, st)) by by apply IH, (bytes_at_tail _ _ b).
Qed.

Lemma read_le_at k0 m st c n a x : reads_zero k0 m c st →
  bytes_at m a (to_le_bytes n x) → read_le n a (c, st) = Val (x `mod` 256 ^ Z.of_nat n, (c, st)).
Proof.
  intros Hz Hb. unfold read_le.
  pose proof (read_bytes_at k0 m st c _ Hz a Hb) as Hr. rewrite length_to_le_bytes in Hr.
  rewrite (M_bind_run _ _ _ _ _ Hr). unfold mret, M_ret. do 2 f_equal. apply from_to_le_bytes.
Qed.

(** The [n] bytes of the code from [p]. *)
Definition code_at (p : Z) (n : nat) : list Z := take n (drop (Z.to_nat p) CODE).

Definition code_in (m : gmap Z Z) : Prop := ∀ i b, CODE !! i = Some b → m !! Z.of_nat i = Some b.

Lemma code_bytes_at m p n : code_in m → 0 ≤ p → p + Z.of_nat n ≤ 186 → bytes_at m p (code_at p n).
Proof.
  intros Hm Hp Hn. unfold code_at. assert (length CODE = 186%nat) as Hl by done. split_and!; [done| |].
  - rewrite length_take, length_drop. lia.
  - intros j b Hj. apply lookup_take_Some in Hj as [Hj _]. rewrite lookup_drop in Hj. apply Hm in Hj.
    by replace (p + Z.of_nat j) with (Z.of_nat (Z.to_nat p + j)) by lia.
Qed.

(** *** Runs

    A processor runs from [c] to [c'] in [n] instructions that write nothing,
    whatever else the memory holds at each of them, as long as page 0 holds [m]:
    other processors may do what they like elsewhere in between.  Paging, once
    on, stays on. *)
Record at_low (k0 : Z) (c : Cpu) : Prop := {
  al_sees : sees_zero k0 c;
  al_fetch : 0 ≤ linear CS (rip c) c < 4096 }.

Inductive runs (k0 : Z) (m : gmap Z Z) : nat → Cpu → Cpu → Prop :=
  | runs_O c : runs k0 m 0 c c
  | runs_S n c c1 c2 :
      at_low k0 c → (PG c = true → PG c1 = true) →
      (∀ st, reads_zero k0 m c st → step (c, st) = Val ((), (c1, st))) →
      runs k0 m n c1 c2 → runs k0 m (S n) c c2.

Lemma runs_app k0 m n n' c c1 c2 : runs k0 m n c c1 → runs k0 m n' c1 c2 → runs k0 m (n + n') c c2.
Proof. induction 1; [done|]. intros Hr. cbn [Nat.add]. eapply runs_S; eauto. Qed.

(** With the memory unchanged in between, the run is a sequence of steps. *)
Lemma runs_steps k0 m n k c c' st :
  runs k0 m n c c' → page_zero_holds k0 m st → steps (n + k) (c, st) = steps k (c', st).
Proof.
  intros Hr Hz. induction Hr as [|n c c1 c2 [Hs _] _ Hstep _ IH]; [done|]. cbn [Nat.add steps].
  rewrite (M_bind_run _ _ _ () (c1, st)); [exact IH|]. by apply Hstep, holds_reads.
Qed.

(** One instruction of the code, of [n] bytes at [p]. *)
Lemma step_at p n i k0 m c long r :
  code_in m → 0 ≤ p → p + Z.of_nat n ≤ 186 → (n ≤ 15)%nat →
  sees_zero k0 c → long_mode c = long → snd (cs (sregs c)) = 0 → rip c = p →
  (∀ tail, decode long (code_at p n ++ tail) = Some (i, tail)) → length (code_at p n) = n →
  at_low k0 c ∧ ∀ st, reads_zero k0 m c st → exec i (set_rip (p + Z.of_nat n) c, st) = r st → step (c, st) = r st.
Proof.
  intros Hm Hp Hpn Hn Hc Hlong Hcs Hrip Hdec Hlen.
  assert (linear CS (rip c) c = p) as Hlin.
  { unfold linear. cbn [get_seg]. rewrite Hcs, Hrip. by destruct (long_mode c). }
  split; [split; [done|lia]|]. intros st Hz Hex.
  destruct (fetch_at k0 m st c (code_at p n) Hz 15 p) as [tail Ht]; [lia|by apply code_bytes_at|].
  unfold step. cbn [fst]. rewrite Hlin, Ht, Hlong, Hdec. rewrite length_app, Hlen.
  replace (n + length tail - length tail)%nat with n by lia.
  by rewrite (M_bind_run _ _ _ () (set_rip (p + Z.of_nat n) c, st)) by (by rewrite <-Hrip).
Qed.

(** Running until [Q] holds. *)
Definition reaches (k0 : Z) (m : gmap Z Z) (n : nat) (c : Cpu) (Q : Cpu → Prop) : Prop :=
  ∃ c', runs k0 m n c c' ∧ Q c'.

Lemma reaches_app k0 m n n' c (Q Q' : Cpu → Prop) :
  reaches k0 m n c Q → (∀ c1, Q c1 → reaches k0 m n' c1 Q') → reaches k0 m (n + n') c Q'.
Proof.
  intros (c1 & Hr & Hq) Hn. destruct (Hn c1 Hq) as (c2 & Hr2 & Hq2). exists c2. split; [by eapply runs_app|done].
Qed.

Lemma reaches_O k0 m c (Q : Cpu → Prop) : Q c → reaches k0 m 0 c Q.
Proof. intros Hq. exists c. split; [apply runs_O|done]. Qed.

Lemma reaches_at p n i j k0 m c long c' (Q : Cpu → Prop) :
  code_in m → 0 ≤ p → p + Z.of_nat n ≤ 186 → (n ≤ 15)%nat →
  sees_zero k0 c → long_mode c = long → snd (cs (sregs c)) = 0 → rip c = p →
  (∀ tail, decode long (code_at p n ++ tail) = Some (i, tail)) → length (code_at p n) = n →
  (∀ st, reads_zero k0 m c st → exec i (set_rip (p + Z.of_nat n) c, st) = Val ((), (c', st))) →
  (PG c = true → PG c' = true) →
  reaches k0 m j c' Q → reaches k0 m (S j) c Q.
Proof.
  intros Hm Hp Hpn Hn Hc Hlong Hcs Hrip Hdec Hlen Hex Hpg (c2 & Hr & Hq). exists c2. split; [|done].
  destruct (step_at p n i k0 m c long (λ st, Val ((), (c', st))) Hm Hp Hpn Hn Hc Hlong Hcs Hrip Hdec Hlen) as [Hl Hs].
  apply (runs_S _ _ _ _ c'); [exact Hl|exact Hpg| |exact Hr]. intros st Hz. by apply Hs, Hex.
Qed.
End Run.

(** The next instruction: [i], of [n] bytes at [p]; [see], [long] and [base] are
    the facts about the processor that stay the same, [e] the effect. *)
Ltac ap_step p n i b see long base rip e :=
  eapply (reaches_at p n i _ _ _ _ b);
    [eassumption|lia|lia|lia|see|exact long|exact base|rip
      |intros; vm_compute; reflexivity|reflexivity|intros st Hz; e
      |first [exact (λ h, h) | intros _; assumption]|].

Section Real.
Context `{Profile} `{X86AddrLaws} `{BootOk pmo}.

(** The state of a processor when the startup command for page 0 arrives; the
    general registers can hold anything. *)
Record started (c : Cpu) : Prop := {
  sr_rip : rip c = 0;
  sr_cs : cs (sregs c) = (0, 0);
  sr_real : PE c = false;
  sr_paging : PG c = false;
  sr_lma : LMA c = false;
  sr_csl : long_cs c = false }.

(** The parameters behind the code. *)
Record parameters_in (m : gmap Z Z) (k0 ctr stride base entry : Z) : Prop := {
  pi_cr3 : bytes_at m L4_TABLE_ADDR (to_le_bytes 4 k0);
  pi_counter : bytes_at m CORE_COUNTER_ADDR (to_le_bytes 8 ctr);
  pi_stride : bytes_at m STACK_STRIDE (to_le_bytes 8 stride);
  pi_base : bytes_at m STACK_BASE_ADDR (to_le_bytes 8 base);
  pi_entry : bytes_at m ENTRY_FUNCTION_ADDR (to_le_bytes 8 entry) }.

(** *** What single instructions do *)

Lemma exec_cli c st : exec Cli (c, st) = Val ((), (clear_flag true false c, st)).
Proof. done. Qed.
Lemma exec_cld c st : exec Cld (c, st) = Val ((), (clear_flag false true c, st)).
Proof. done. Qed.

Lemma exec_mov_imm w r x c st : exec (MovImm w r x) (c, st) = Val ((), (set_reg w r x c, st)).
Proof. done. Qed.

Lemma exec_or w r x y c st : reg r c = y → exec (OrImm w r x) (c, st) = Val ((), (set_reg w r (Z.lor y x) c, st)).
Proof. by intros <-. Qed.

Lemma exec_and w r x y c st : reg r c = y → exec (AndImm w r x) (c, st) = Val ((), (set_reg w r (Z.land y x) c, st)).
Proof. by intros <-. Qed.

Lemma exec_mov_reg w dst src y c st : reg src c = y → exec (MovReg w dst src) (c, st) = Val ((), (set_reg w dst y c, st)).
Proof. by intros <-. Qed.

Lemma resize_low x y : resize W16 x y `mod` 2 ^ 16 = y `mod` 2 ^ 16.
Proof. unfold resize. by rewrite Z.add_comm, Z_mod_plus_full, Z.mod_mod by lia. Qed.

Lemma exec_mov_seg_real c st s r v :
  PE c = false → s ≠ CS → reg r c `mod` 2 ^ 16 = v →
  exec (MovSeg s r) (c, st) = Val ((), (set_sreg s v (v * 16) c, st)).
Proof.
  intros Hpe Hs <-. unfold exec, require. rewrite bool_decide_eq_false_2 by done. cbn [negb].
  rewrite (M_bind_run (mret ()) _ _ () (c, st)) by done.
  rewrite (M_bind_run (cpu _) _ _ (reg r c `mod` 2 ^ 16) (c, st)) by done.
  unfold load_sreg. rewrite (M_bind_run (cpu PE) _ _ false (c, st)) by (unfold cpu, gets; cbn [fst]; by rewrite Hpe). done.
Qed.

Lemma exec_load k0 m st c w n r a x :
  reads_zero (pmo:=pmo) k0 m c st → linear DS a c = a →
  n = (match w with W16 => 2 | W32 => 4 | W64 => 8 end)%nat → bytes_at m a (to_le_bytes n x) →
  exec (MovLoad w r (Disp a)) (c, st) = Val ((), (set_reg w r (x `mod` 256 ^ Z.of_nat n) c, st)).
Proof.
  intros Hz Hl -> Hb. unfold exec, operand.
  rewrite (M_bind_run _ _ _ (x `mod` 256 ^ Z.of_nat (match w with W16 => 2 | W32 => 4 | W64 => 8 end)%nat) (c, st)); [done|].
  rewrite (M_bind_run (cpu _) _ _ a (c, st)) by (unfold cpu, gets; cbn [fst]; by rewrite Hl).
  by apply (read_le_at k0 m).
Qed.

Lemma exec_lgdt k0 m st c a limit base :
  reads_zero (pmo:=pmo) k0 m c st → linear DS a c = a →
  bytes_at m a (to_le_bytes 2 limit) → bytes_at m (a + 2) (to_le_bytes 4 base) →
  exec (Lgdt a) (c, st) = Val ((), (set_gdtr (limit `mod` 2 ^ 16, base `mod` 2 ^ 32 `mod` 2 ^ 24) c, st)).
Proof.
  intros Hz Hl Hb1 Hb2. unfold exec.
  rewrite (M_bind_run (cpu _) _ _ a (c, st)) by (unfold cpu, gets; cbn [fst]; by rewrite Hl).
  rewrite (M_bind_run _ _ _ _ _ (read_le_at k0 m st c 2 a limit Hz Hb1)).
  by rewrite (M_bind_run _ _ _ _ _ (read_le_at k0 m st c 4 (a + 2) base Hz Hb2)).
Qed.

(** A descriptor of the table in page 0. *)
Lemma descriptor_at k0 m st c sel limit base d :
  reads_zero (pmo:=pmo) k0 m c st → gdtr c = (limit, base) → sel `div` 8 * 8 + 7 ≤ limit →
  bytes_at m (base + sel `div` 8 * 8) (to_le_bytes 8 d) → u64 d →
  descriptor sel (c, st) = Val (d, (c, st)).
Proof.
  intros Hz Hg Hl Hb Hd. unfold descriptor.
  rewrite (M_bind_run (cpu gdtr) _ _ (limit, base) (c, st)) by (unfold cpu, gets; cbn [fst]; by rewrite Hg).
  unfold require. rewrite (proj2 (Z.leb_le _ _)) by done.
  rewrite (M_bind_run (mret ()) _ _ () (c, st)) by done.
  rewrite (read_le_at k0 m st c 8 _ d Hz Hb). do 2 f_equal. by apply Z.mod_small.
Qed.

Lemma exec_rdmsr c st x : reg RCX c `mod` 2 ^ 32 = EFER → efer c = x →
  exec Rdmsr (c, st) = Val ((), (set_reg W32 RDX (x `div` 2 ^ 32) (set_reg W32 RAX x c), st)).
Proof.
  intros Hr <-. unfold exec. rewrite (M_bind_run (gets fst) _ _ c (c, st)) by done.
  rewrite Hr. by rewrite (M_bind_run (require _) _ _ () (c, st)).
Qed.

Lemma exec_wrmsr c st x : reg RCX c `mod` 2 ^ 32 = EFER → PG c = false → LMA c = false →
  reg RDX c `mod` 2 ^ 32 * 2 ^ 32 + reg RAX c `mod` 2 ^ 32 = x →
  exec Wrmsr (c, st) = Val ((), (set_efer (Z.ldiff x (2 ^ 10)) c, st)).
Proof.
  intros Hr Hpg Hlma <-. unfold exec. rewrite (M_bind_run (gets fst) _ _ c (c, st)) by done.
  rewrite Hr. rewrite (M_bind_run (require _) _ _ () (c, st)) by done. cbv zeta.
  rewrite (M_bind_run (require _) _ _ () (c, st)) by by rewrite Hpg. by rewrite Hlma.
Qed.

Lemma exec_from_cr c st r n (b : bool) x :
  long_mode c = b → (match n with CR0 => cr0 c | CR3 => cr3 c | CR4 => cr4 c end) = x →
  exec (MovFromCr r n) (c, st) = Val ((), (set_reg (if b then W64 else W32) r x c, st)).
Proof. by intros <- <-. Qed.

Lemma exec_to_cr3 c st r x :
  long_mode c = false → reg r c `mod` 2 ^ 32 = x → exec (MovToCr CR3 r) (c, st) = Val ((), (set_cr CR3 x c, st)).
Proof. intros Hl <-. unfold exec. rewrite (M_bind_run (gets fst) _ _ c (c, st)) by done. by rewrite Hl. Qed.

Lemma exec_to_cr4 c st r x : LMA c = false → reg r c `mod` 2 ^ 32 = x →
  exec (MovToCr CR4 r) (c, st) = Val ((), (set_cr CR4 x c, st)).
Proof.
  intros Hl <-. unfold exec. rewrite (M_bind_run (gets fst) _ _ c (c, st)) by done. unfold load_cr.
  assert (long_mode c = false) as -> by (unfold long_mode; rewrite Hl; by destruct (PE c)).
  rewrite (M_bind_run (cpu LMA) _ _ false (c, st)) by (unfold cpu, gets; cbn [fst]; by rewrite Hl). done.
Qed.

(** Switching paging on, with the long mode prepared, activates it. *)
Lemma exec_paging_on c st r x e :
  PG c = false → LMA c = false → LME c = true → PAE c = true → efer c = e → reg r c `mod` 2 ^ 32 = x →
  Z.testbit x 31 = true → Z.testbit x 0 = true →
  exec (MovToCr CR0 r) (c, st) = Val ((), (set_cr CR0 x (set_efer (Z.lor e (2 ^ 10)) c), st)).
Proof.
  intros Hpg Hlma Hlme Hpae <- <- H31 Hb0. unfold exec. rewrite (M_bind_run (gets fst) _ _ c (c, st)) by done.
  assert (long_mode c = false) as -> by (unfold long_mode; rewrite Hlma; by destruct (PE c)).
  unfold load_cr, resize. rewrite (M_bind_run (gets fst) _ _ c (c, st)) by done.
  rewrite H31, Hb0, Hpg, Hlme, Hpae. done.
Qed.
(** Far jump to the 64-bit code segment of the table. *)
Lemma exec_jmp_far k0 m st c sel off limit base d :
  reads_zero (pmo:=pmo) k0 m c st → PE c = true → gdtr c = (limit, base) → sel `div` 8 * 8 + 7 ≤ limit →
  bytes_at m (base + sel `div` 8 * 8) (to_le_bytes 8 d) → u64 d →
  present d && Z.testbit d 43 && negb (Z.testbit d 53 && Z.testbit d 54) = true →
  exec (JmpFar sel off) (c, st) =
    Val ((), (set_rip off (set_long_cs (Z.testbit d 53) (set_sreg CS sel (descriptor_base d) c)), st)).
Proof.
  intros Hz Hpe Hg Hl Hb Hd Hok. unfold exec.
  rewrite (M_bind_run (cpu PE) _ _ true (c, st)) by (unfold cpu, gets; cbn [fst]; by rewrite Hpe).
  rewrite (M_bind_run _ _ _ () (set_long_cs (Z.testbit d 53) (set_sreg CS sel (descriptor_base d) c), st)); [done|].
  rewrite (M_bind_run _ _ _ _ _ (descriptor_at k0 m st c sel limit base d Hz Hg Hl Hb Hd)).
  unfold require. by rewrite Hok.
Qed.

(** ** The 16-bit part *)

(** At the first 64-bit instruction. *)
Record in_long_mode (k0 : Z) (c : Cpu) : Prop := {
  lm_rip : rip c = long_mode_start;
  lm_cs : cs (sregs c) = (8, 0);
  lm_long : long_mode c = true;
  lm_paging : PG c = true;
  lm_cr3 : cr3 c = k0;
  lm_nxe : NXE c = true;
  lm_gdt : gdtr c = (25, GDT);
  lm_flags : IF c = false ∧ DF c = false }.

(** Between two instructions of the 16-bit code. *)
Record in_real_mode (p : Z) (c : Cpu) : Prop := {
  rm_rip : rip c = p;
  rm_cs : snd (cs (sregs c)) = 0;
  rm_ds : snd (ds (sregs c)) = 0;
  rm_real : PE c = false;
  rm_paging : PG c = false;
  rm_lma : LMA c = false;
  rm_csl : long_cs c = false;
  rm_flags : IF c = false ∧ DF c = false }.

Lemma real_not_long c : PE c = false → long_mode c = false.
Proof. intros Hpe. unfold long_mode. by rewrite Hpe. Qed.

Lemma real_sees k0 c : PG c = false → sees_zero k0 c.
Proof. intros Hpg Ht. congruence. Qed.

(** [cli] to [mov es, ax] *)
Lemma real_segments k0 m c :
  code_in m → started c → reaches (pmo:=pmo) k0 m 6 c (in_real_mode 11).
Proof.
  intros Hm [Hrip Hcs Hpe Hpg Hlma Hcsl]. pose proof (real_not_long _ Hpe) as Hlong.
  assert (snd (cs (sregs c)) = 0) as Hbase by by rewrite Hcs.
  ap_step 0 1%nat Cli false ltac:(apply real_sees; exact Hpg) Hlong Hbase ltac:(exact Hrip) ltac:(apply exec_cli).
  ap_step 1 1%nat Cld false ltac:(apply real_sees; exact Hpg) Hlong Hbase ltac:(reflexivity) ltac:(apply exec_cld).
  ap_step 2 3%nat (MovImm W16 RAX 0) false ltac:(apply real_sees; exact Hpg) Hlong Hbase ltac:(reflexivity) ltac:(apply exec_mov_imm).
  ap_step 5 2%nat (MovSeg SS RAX) false ltac:(apply real_sees; exact Hpg) Hlong Hbase ltac:(reflexivity)
    ltac:(apply (exec_mov_seg_real _ _ _ _ 0); [exact Hpe|done|apply resize_low]).
  ap_step 7 2%nat (MovSeg DS RAX) false ltac:(apply real_sees; exact Hpg) Hlong Hbase ltac:(reflexivity)
    ltac:(apply (exec_mov_seg_real _ _ _ _ 0); [exact Hpe|done|apply resize_low]).
  ap_step 9 2%nat (MovSeg ES RAX) false ltac:(apply real_sees; exact Hpg) Hlong Hbase ltac:(reflexivity)
    ltac:(apply (exec_mov_seg_real _ _ _ _ 0); [exact Hpe|done|apply resize_low]).
  apply reaches_O. split; try done.
  split; [cbn; by rewrite andb_false_r, andb_true_r|cbn; by rewrite andb_true_r, andb_false_r].
Qed.

Lemma low_bits x i : 0 ≤ i < 32 → Z.testbit (x `mod` 2 ^ 32) i = Z.testbit x i.
Proof. intros Hi. apply Z.mod_pow2_bits_low. lia. Qed.

Lemma small_word x : 0 ≤ x < 2 ^ 32 → x `mod` 256 ^ 4 `mod` 2 ^ 32 `mod` 2 ^ 32 = x.
Proof. intros Hx. change (256 ^ 4) with (2 ^ 32). by rewrite !(Z.mod_small x) by done. Qed.

Lemma real_address c a : PE c = false → snd (ds (sregs c)) = 0 → linear DS a c = a.
Proof. intros Hpe Hds. unfold linear. rewrite (real_not_long _ Hpe). cbn [get_seg]. by rewrite Hds. Qed.

(** The page table, and the physical address extension *)
Lemma real_tables k0 m c ctr stride base entry :
  code_in m → parameters_in m k0 ctr stride base entry → 0 ≤ k0 < 2 ^ 32 → in_real_mode 11 c →
  reaches (pmo:=pmo) k0 m 5 c (λ c', in_real_mode 29 c' ∧ cr3 c' = k0 ∧ PAE c' = true).
Proof.
  intros Hm Hpar Hk0 [Hrip Hbase Hds Hpe Hpg Hlma Hcsl Hfl]. pose proof (real_not_long _ Hpe) as Hlong.
 
  ap_step 11 5%nat (MovLoad W32 RCX (Disp L4_TABLE_ADDR)) false ltac:(apply real_sees; exact Hpg) Hlong Hbase ltac:(exact Hrip)
    ltac:(apply (exec_load k0 m _ _ _ 4); [exact Hz|by apply real_address|done|apply Hpar]).
  ap_step 16 3%nat (MovToCr CR3 RCX) false ltac:(apply real_sees; exact Hpg) Hlong Hbase ltac:(reflexivity)
    ltac:(apply (exec_to_cr3 _ _ _ k0); [exact Hlong|apply small_word; lia]).
  ap_step 19 3%nat (MovFromCr RAX CR4) false ltac:(apply real_sees; exact Hpg) Hlong Hbase ltac:(reflexivity)
    ltac:(apply (exec_from_cr _ _ _ CR4 false (cr4 c)); [exact Hlong|done]).
  ap_step 22 4%nat (OrImm W32 RAX (Z.shiftl 1 5)) false ltac:(apply real_sees; exact Hpg) Hlong Hbase ltac:(reflexivity)
    ltac:(apply (exec_or _ _ _ (cr4 c `mod` 2 ^ 32)); done).
  ap_step 26 3%nat (MovToCr CR4 RAX) false ltac:(apply real_sees; exact Hpg) Hlong Hbase ltac:(reflexivity)
    ltac:(apply (exec_to_cr4 _ _ _ (Z.lor (cr4 c `mod` 2 ^ 32) 32 `mod` 2 ^ 32 `mod` 2 ^ 32)); done).
  apply reaches_O. split; [by split|]. split; [done|].
  change (Z.testbit (Z.lor (cr4 c `mod` 2 ^ 32) 32 `mod` 2 ^ 32 `mod` 2 ^ 32) 5 = true).
  rewrite !low_bits, Z.lor_spec by lia. by rewrite orb_true_r.
Qed.

Lemma high_word a b i : 0 ≤ i < 32 → Z.testbit (a * 2 ^ 32 + b) i = Z.testbit b i.
Proof.
  intros Hi. rewrite <-(low_bits (a * 2 ^ 32 + b)), <-(low_bits b) by done. f_equal.
  by rewrite Z.add_comm, Z_mod_plus_full.
Qed.

(** The register that enables long mode and execute permissions *)
Lemma real_efer k0 m c :
  code_in m → in_real_mode 29 c →
  reaches (pmo:=pmo) k0 m 5 c (λ c', in_real_mode 51 c' ∧ cr3 c' = cr3 c ∧ PAE c' = PAE c ∧
    LME c' = true ∧ NXE c' = true).
Proof.
  intros Hm [Hrip Hbase Hds Hpe Hpg Hlma Hcsl Hfl]. pose proof (real_not_long _ Hpe) as Hlong.
  set (e := efer c) in *.
  set (x1 := Z.lor (e `mod` 2 ^ 32) 256). set (x2 := Z.lor (x1 `mod` 2 ^ 32) 2048).
  set (x3 := e `div` 2 ^ 32 `mod` 2 ^ 32 `mod` 2 ^ 32 * 2 ^ 32 + x2 `mod` 2 ^ 32 `mod` 2 ^ 32).
  ap_step 29 6%nat (MovImm W32 RCX EFER) false ltac:(apply real_sees; exact Hpg) Hlong Hbase ltac:(exact Hrip)
    ltac:(apply exec_mov_imm).
  ap_step 35 2%nat Rdmsr false ltac:(apply real_sees; exact Hpg) Hlong Hbase ltac:(reflexivity)
    ltac:(by apply (exec_rdmsr _ _ e)).
  ap_step 37 6%nat (OrImm W32 RAX (Z.shiftl 1 8)) false ltac:(apply real_sees; exact Hpg) Hlong Hbase ltac:(reflexivity)
    ltac:(by apply (exec_or _ _ _ (e `mod` 2 ^ 32))).
  ap_step 43 6%nat (OrImm W32 RAX (Z.shiftl 1 11)) false ltac:(apply real_sees; exact Hpg) Hlong Hbase ltac:(reflexivity)
    ltac:(by apply (exec_or _ _ _ (x1 `mod` 2 ^ 32))).
  ap_step 49 2%nat Wrmsr false ltac:(apply real_sees; exact Hpg) Hlong Hbase ltac:(reflexivity)
    ltac:(by apply (exec_wrmsr _ _ x3)).
  apply reaches_O. split; [split; try done|split; [done|split; [done|]]].
  - change (Z.testbit (Z.ldiff x3 (2 ^ 10)) 10 = false). by rewrite Z.ldiff_spec, andb_false_r.
  - change (Z.testbit (Z.ldiff x3 (2 ^ 10)) 8 = true ∧ Z.testbit (Z.ldiff x3 (2 ^ 10)) 11 = true).
    rewrite !Z.ldiff_spec. unfold x3. rewrite !high_word, !low_bits by lia. unfold x2.
    rewrite !Z.lor_spec, !low_bits by lia. unfold x1. rewrite !Z.lor_spec. split; [|by rewrite orb_true_r].
    by rewrite orb_true_r.
Qed.

Lemma code_word m p n x : code_in m → 0 ≤ p → p + Z.of_nat n ≤ 186 → code_at p n = to_le_bytes n x →
  bytes_at m p (to_le_bytes n x).
Proof. intros Hm Hp Hn <-. by apply code_bytes_at. Qed.

(** Protection, paging and the jump *)
Lemma real_jump k0 m c :
  code_in m → in_real_mode 51 c → cr3 c = k0 → PAE c = true → LME c = true → NXE c = true →
  reaches (pmo:=pmo) k0 m 5 c (in_long_mode k0).
Proof.
  intros Hm [Hrip Hbase Hds Hpe Hpg Hlma Hcsl Hfl] Hcr3 Hpae Hlme Hnxe.
  pose proof (real_not_long _ Hpe) as Hlong.
  set (x := Z.lor (cr0 c `mod` 2 ^ 32) 0x80000001 `mod` 2 ^ 32 `mod` 2 ^ 32).
  assert (Z.testbit x 31 = true ∧ Z.testbit x 0 = true) as [H31 Hb0].
  { unfold x. rewrite !low_bits, !Z.lor_spec by lia. split; by rewrite orb_true_r. }
  ap_step 51 5%nat (Lgdt GDT_Pointer) false ltac:(apply real_sees; exact Hpg) Hlong Hbase ltac:(exact Hrip)
    ltac:(apply (exec_lgdt k0 m _ _ _ 25 GDT); [exact Hz|by apply real_address
      |by apply code_word|by apply code_word]).
  ap_step 56 3%nat (MovFromCr RAX CR0) false ltac:(apply real_sees; exact Hpg) Hlong Hbase ltac:(reflexivity)
    ltac:(apply (exec_from_cr _ _ _ CR0 false (cr0 c)); [exact Hlong|done]).
  ap_step 59 6%nat (OrImm W32 RAX 0x80000001) false ltac:(apply real_sees; exact Hpg) Hlong Hbase ltac:(reflexivity)
    ltac:(by apply (exec_or _ _ _ (cr0 c `mod` 2 ^ 32))).
  ap_step 65 3%nat (MovToCr CR0 RAX) false ltac:(apply real_sees; exact Hpg) Hlong Hbase ltac:(reflexivity)
    ltac:(apply (exec_paging_on _ _ _ x (efer c)); [exact Hpg|exact Hlma|exact Hlme|exact Hpae|done|done|done|done]).
  match goal with |- reaches _ _ _ ?c1 _ => set (c1' := c1) end.
  assert (long_mode c1' = false) as Hlong1.
  { unfold long_mode. change (long_cs c1') with (long_cs c). by rewrite Hcsl, andb_false_r. }
  ap_step 68 8%nat (JmpFar 0x08 long_mode_start) false ltac:(intros _; exact Hcr3) Hlong1 Hbase ltac:(reflexivity)
    ltac:(apply (exec_jmp_far k0 m _ _ _ _ 25 GDT 0x00209a0000000000); [exact Hz|exact Hb0
      |reflexivity|done|by apply code_word|done|done]).
  apply reaches_O. split; try done.
  - unfold long_mode. apply andb_true_iff. split; [|done]. apply andb_true_iff. split; [exact Hb0|].
    change (Z.testbit (Z.lor (efer c) (2 ^ 10)) 10 = true). by rewrite Z.lor_spec, orb_true_r.
  - change (Z.testbit (Z.lor (efer c) (2 ^ 10)) 11 = true). rewrite Z.lor_spec. unfold NXE in Hnxe. by rewrite Hnxe.
Qed.

(** The whole 16-bit part. *)
Lemma real_mode_run k0 m c ctr stride base entry :
  code_in m → parameters_in m k0 ctr stride base entry → 0 ≤ k0 < 2 ^ 32 → started c →
  reaches (pmo:=pmo) k0 m (length real_mode) c (in_long_mode k0).
Proof.
  intros Hm Hpar Hk0 Hs. apply (reaches_app k0 m 6 15 c (in_real_mode 11)); [by apply real_segments|].
  intros c1 R1. eapply (reaches_app k0 m 5 10); [by eapply real_tables|]. intros c2 (R2 & T2 & P2).
  eapply (reaches_app k0 m 5 5); [by apply real_efer|]. intros c3 (R3 & T3 & P3 & L3 & N3).
  apply real_jump; [done|done|congruence|congruence|done|done].
Qed.
End Real.
