(* ===== verification/Heap.v ===== *)
(** * The kernel and user heaps (src/kernel/src/allocator.rs)

    Both heaps are a [LockedHeapWithRescue] of the buddy_system_allocator crate
    whose rescue function grows the heap by mapping the pages that follow it.
    The crate is a parameter, [BuddyHeap], with its documented behaviour in
    [BuddyLaws]; the growth policy and the mapping are the kernel's own code. *)

From S2P Require Import Prelude Constants Platform FrameAlloc Paging Memory AddressSpace Isolation MapPages.

Record Layout := mkLayout { size : Z; align : Z }.

(** The operations of the crate's [Heap] ([heap_new] is the heap inside
    [LockedHeapWithRescue::new]), and [LockedHeapWithRescue::alloc]. *)
Class BuddyHeap (Heap : Type) := {
  heap_new : Heap;
  stats_total_bytes : Heap → Z;
  add_to_heap : Z → Z → Heap → Heap;
  heap_alloc : Layout → Heap → option (Z * Heap);
  heap_dealloc : Z → Layout → Heap → Heap;
  locked_alloc : (Layout → M (Kernel * Heap) ()) → Layout → M (Kernel * Heap) (option Z) }.

(** A buddy heap serves a request with one block of this size: a power of two
    that holds the request and one word, and is a multiple of its alignment. *)
Definition block_size (lay : Layout) : Z :=
  2 ^ Z.log2_up (Z.max (size lay) (Z.max (align lay) 8)).

(** Documented behaviour: the total counts the bytes added; an aligned block
    within the range added last can be handed out; no block exceeds the total; a
    block that was given back can be handed out again;
    a failed allocation calls the rescue function once and tries again. *)
Class BuddyLaws `{BuddyHeap Heap} : Prop := {
  total_new : stats_total_bytes heap_new = 0;
  total_nonneg h : 0 ≤ stats_total_bytes h;
  total_add s e h : 0 ≤ s ≤ e → (4096 | s) → (4096 | e) →
    stats_total_bytes (add_to_heap s e h) = stats_total_bytes h + (e - s);
  alloc_fits s e p lay h : s ≤ p → p + block_size lay ≤ e → (block_size lay | p) →
    block_size lay ≤ 2 ^ 37 → ∃ r, heap_alloc lay (add_to_heap s e h) = Some r;
  alloc_bound lay h p h' : is_pow2 (align lay) → heap_alloc lay h = Some (p, h') →
    block_size lay ≤ stats_total_bytes h ∧ stats_total_bytes h' = stats_total_bytes h ∧
    (align lay | p);
  dealloc_total p lay h : stats_total_bytes (heap_dealloc p lay h) = stats_total_bytes h;
  dealloc_again lay h p h' : is_pow2 (align lay) → heap_alloc lay h = Some (p, h') →
    ∃ r, heap_alloc lay (heap_dealloc p lay h') = Some r;
  locked_alloc_law rescue lay s h :
    locked_alloc rescue lay (s, h) =
    match heap_alloc lay h with
    | Some (p, h') => Val (Some p, (s, h'))
    | None =>
        match rescue lay (s, h) with
        | Val (_, (s1, h1)) =>
            match heap_alloc lay h1 with
            | Some (p, h2) => Val (Some p, (s1, h2))
            | None => Val (None, (s1, h1))
            end
        | Fault f => Fault f
        end
    end }.

(** ** The code *)

Section Heap.
Context `{Profile} `{X86Addr} `{Boot} `{Mapper} `{BuddyHeap Heap}.

(** [new_added_size] of the rescue closures. *)
Definition heap_growth (old_size : Z) (lay : Layout) : res Z :=
  align_up old_size (align lay) ≫= λ up,
  sub64 up old_size ≫= λ pad,
  add64 pad (size lay) ≫= λ need,
  next_power_of_two need ≫= λ min_size_to_add,
  add64 min_size_to_add old_size ≫= λ sum,
  next_power_of_two sum ≫= λ p,
  mul64 min_size_to_add 2 ≫= λ twice,
  let new_total_size := Z.max p twice in
  sub64 new_total_size old_size.

Definition heap_flags : Z :=
  Z.lor (Z.lor PageTableFlags.PRESENT PageTableFlags.WRITABLE) PageTableFlags.NO_EXECUTE.

(** The rescue closure; the two heaps differ in the mapping function and the
    start of the heap. *)
Definition rescue (map_ram : Z → Z → M Kernel Z) (heap_start : Z) (lay : Layout)
    : M (Kernel * Heap) () :=
  gets (λ s, stats_total_bytes (snd s)) ≫= λ old_size,
  liftr (heap_growth old_size lay) ≫= λ new_added_size,
  liftr (add64 heap_start old_size) ≫= λ start,
  liftr (region_bounds start new_added_size) ≫= λ '(first, last),
  zoom fst (λ k s, (k, snd s))
    (for_each (Page_range_inclusive first last)
       (λ page, map_ram page heap_flags ≫= λ _, mret ())) ≫= λ _,
  gets (λ s, alloc (k_phys (fst s))) ≫= λ a,
  liftr (log_memory_utilization a) ≫= λ _,
  liftr (add64 last 4096) ≫= λ end_addr,
  modify (λ s, (fst s, add_to_heap first end_addr (snd s))).

(** [INNER_KERNEL_ALLOC], and the heap of [create_user_heap]. *)
Definition kernel_rescue : Layout → M (Kernel * Heap) () :=
  rescue map_ram_kernel v.KERNEL_HEAP_START.
Definition user_rescue : Layout → M (Kernel * Heap) () :=
  rescue map_ram_user v.USER_HEAP_START.

(** [GlobalAlloc::alloc] of the two wrappers. *)
Definition kernel_alloc (lay : Layout) : M (Kernel * Heap) (option Z) :=
  locked_alloc kernel_rescue lay.
Definition user_alloc (lay : Layout) : M (Kernel * Heap) (option Z) :=
  locked_alloc user_rescue lay.

(** [GlobalAlloc::dealloc] of the two wrappers. *)
Definition kernel_dealloc (ptr : Z) (lay : Layout) : M (Kernel * Heap) () :=
  modify (λ s, (fst s, heap_dealloc ptr lay (snd s))).
Definition user_dealloc (ptr : Z) (lay : Layout) : M (Kernel * Heap) () :=
  modify (λ s, (fst s, heap_dealloc ptr lay (snd s))).
End Heap.

(** ** The growth policy *)

(** The sizes a heap can have: nothing, or a power of two of whole pages. *)
Definition heap_total_ok (T : Z) : Prop := T = 0 ∨ is_pow2 T ∧ 4096 ≤ T.

(** The requests the rescue function does not serve: on an empty heap the
    padding for the alignment is computed from the size 0, so a heap that grows
    for an alignment above a page and at least four times the size stays too
    small for a block so aligned. *)
Definition over_aligned (T : Z) (lay : Layout) : Prop :=
  T = 0 ∧ 4096 < align lay ∧ 4 * size lay ≤ align lay.

#[global] Instance over_aligned_dec T lay : Decision (over_aligned T lay).
Proof. unfold over_aligned. apply _. Defined.

(** Requests up to 8 GiB, on a heap of up to 128 GiB. *)
Record request_ok (T : Z) (lay : Layout) : Prop := {
  rq_total : heap_total_ok T;
  rq_limit : T ≤ 2 ^ 37;
  rq_size : 1 ≤ size lay ≤ 2 ^ 33;
  rq_align : is_pow2 (align lay) ∧ align lay ≤ 2 ^ 33 }.

Lemma pow2_double_le a b : is_pow2 a → is_pow2 b → a < b → 2 * a ≤ b.
Proof.
  intros (i & Hi & ->) (j & Hj & ->) Hlt. apply Z.pow_lt_mono_r_iff in Hlt; [|lia|lia].
  rewrite <-Z.pow_succ_r by lia. apply Z.pow_le_mono_r; lia.
Qed.

Lemma is_pow2_max a b : is_pow2 a → is_pow2 b → is_pow2 (Z.max a b).
Proof. intros. by destruct (Z.max_spec a b) as [[_ ->]|[_ ->]]. Qed.

Lemma block_size_spec lay :
  is_pow2 (block_size lay) ∧ size lay ≤ block_size lay ∧ align lay ≤ block_size lay ∧
  (∀ q, is_pow2 q → size lay ≤ q → align lay ≤ q → 8 ≤ q → block_size lay ≤ q).
Proof.
  unfold block_size. set (m := Z.max (size lay) (Z.max (align lay) 8)).
  destruct (Z.log2_up_spec m) as [_ Hup]; [lia|]. pose proof (Z.log2_up_nonneg m).
  split_and!; [by apply is_pow2_pow|lia|lia|].
  intros q (k & Hk & ->) ? ? ?. apply Z.pow_le_mono_r; [lia|].
  rewrite <-(Z.log2_up_pow2 k) by lia. apply Z.log2_up_le_mono. lia.
Qed.

Section Growth.
Context `{Profile} `{X86AddrLaws}.

(** The padding [align_up(T, align) - T]. *)
Lemma heap_padding T lay :
  request_ok T lay →
  ∃ pad, align_up T (align lay) = Val (T + pad) ∧ 0 ≤ pad ≤ 2 ^ 33 ∧
    (align lay ≤ T ∨ T = 0 → pad = 0) ∧ (0 < T < align lay → pad = align lay - T).
Proof.
  intros [HT Hlim Hsz [Hal Hal33]]. pose proof (is_pow2_pos _ Hal) as Hpos.
  assert (0 ≤ T) as HT0 by (destruct HT as [?|[_ ?]]; lia).
  assert (∀ q, T = align lay * q → align_up T (align lay) = Val (T + 0)) as Hmul.
  { intros q ->. rewrite align_up_law; [|done|lia|].
    - do 2 f_equal. rewrite Z.add_0_r. f_equal. symmetry.
      apply (Z.div_unique _ _ _ (align lay - 1)); lia.
    - replace ((align lay * q + align lay - 1) `div` align lay) with q; [lia|].
      apply (Z.div_unique _ _ _ (align lay - 1)); lia. }
  destruct (decide (align lay ≤ T ∨ T = 0)) as [Hle|Hgt].
  - exists 0. split_and!; [|lia|lia|done|lia]. destruct HT as [Hz|[HT _]]; [apply (Hmul 0); lia|].
    destruct Hle as [Hle|Hle]; [|apply (Hmul 0); lia].
    destruct (is_pow2_divide _ _ Hal HT Hle) as [q Hq]. apply (Hmul q). lia.
  - exists (align lay - T). assert (0 < T) by (destruct HT as [?|[_ ?]]; lia).
    assert ((T + align lay - 1) `div` align lay = 1) as Hd.
    { symmetry. apply (Z.div_unique _ _ _ (T - 1)); lia. }
    split_and!; [|lia|lia|lia|lia].
    rewrite align_up_law, Hd by (done || lia). f_equal. lia.
Qed.

(** [m] is [min_size_to_add] and [P] is [new_total_size]. *)
Lemma heap_growth_val T lay :
  request_ok T lay →
  ∃ pad m P, heap_growth T lay = Val (P - T) ∧ is_pow2 m ∧ is_pow2 P ∧
    pad + size lay ≤ m ∧ (∀ q, is_pow2 q → pad + size lay ≤ q → m ≤ q) ∧
    2 * m ≤ P ≤ 2 ^ 38 ∧ m + T ≤ P ∧ (T = 0 → P = 2 * m) ∧ (0 < T → 2 * T ≤ P) ∧
    0 ≤ pad ∧ (align lay ≤ T ∨ T = 0 → pad = 0) ∧ (0 < T < align lay → pad = align lay - T).
Proof.
  intros Hrq. destruct (heap_padding _ _ Hrq) as (pad & Hup & Hpad & Hpad0 & Hpad1).
  destruct Hrq as [HT Hlim Hsz [Hal Hal33]].
  assert (0 ≤ T) by (destruct HT as [?|[_ ?]]; lia).
  destruct (next_power_of_two_spec (pad + size lay)) as (m & Hm & Hm2 & Hmge & _ & Hmin); [lia|].
  assert (m ≤ 2 ^ 34) as Hm34 by (apply Hmin; [by apply is_pow2_pow|lia]).
  destruct (next_power_of_two_spec (m + T)) as (p & Hp & Hp2 & Hpge & _ & Hpmin); [lia|].
  assert (p ≤ 2 ^ 38) as Hp38 by (apply Hpmin; [by apply is_pow2_pow|lia]).
  assert (is_pow2 (m * 2)) as H2m.
  { destruct Hm2 as (k & Hk & ->). exists (k + 1). rewrite Z.pow_add_r by lia. split; lia. }
  exists pad, m, (Z.max p (m * 2)).
  split_and!; try done; try lia; [|by apply is_pow2_max| |].
  - unfold heap_growth. rewrite Hup. cbn. rewrite sub64_in by lia. cbn.
    replace (T + pad - T) with pad by lia. rewrite add64_in by lia. cbn. rewrite Hm. cbn.
    rewrite add64_in by lia. cbn. rewrite Hp. cbn. rewrite mul64_in by lia. cbn.
    apply sub64_in. lia.
  - intros ->. rewrite Z.add_0_r in *. assert (p ≤ m) by by apply Hpmin. lia.
  - intros HT0. destruct HT as [->|[HT _]]; [lia|].
    assert (2 * T ≤ p); [apply pow2_double_le; [done|done|lia]|lia].
Qed.

(** The grown region holds an aligned block for every request it serves. *)
Lemma heap_growth_block T lay base P pad m :
  request_ok T lay → (2 ^ 33 | base) →
  is_pow2 m → is_pow2 P → pad + size lay ≤ m → 2 * m ≤ P → m + T ≤ P → (0 < T → 2 * T ≤ P) →
  (0 < T < align lay → pad = align lay - T) → 0 ≤ pad →
  ¬ over_aligned T lay →
  ∃ p, base + T ≤ p ∧ p + block_size lay ≤ base + Z.max P 4096 ∧ (block_size lay | p).
Proof.
  intros [HT Hlim Hsz [Hal Hal33]] [q Hbase] Hm HP Hmge HmP HTP H2T Hpad Hpad0 Hfit.
  destruct (block_size_spec lay) as (Hb & Hbs & Hba & Hbmin). set (b := block_size lay) in *.
  assert (b ≤ 2 ^ 33) as Hb33 by (apply Hbmin; [by apply is_pow2_pow|lia..]).
  assert ((b | base)) as Hbb.
  { rewrite Hbase. apply Z.divide_mul_r, is_pow2_divide; [done|by apply is_pow2_pow|done]. }
  assert (0 < b) by by apply is_pow2_pos.
  destruct HT as [->|[HT HT4]].
  - (* the empty heap: the block is at its start *)
    exists base. split_and!; [lia| |done]. assert (b ≤ Z.max P 4096); [|lia].
    apply Hbmin; [apply is_pow2_max; [done|by exists 12]|lia| |lia].
    destruct (decide (align lay ≤ Z.max P 4096)) as [|Hlt]; [done|].
    assert (2 * P ≤ align lay) by (apply pow2_double_le; [done|done|lia]).
    exfalso. apply Hfit. unfold over_aligned. lia.
  - destruct (decide (b ≤ T)) as [HbT|HbT].
    + exists (base + T). split_and!; [lia|lia|].
      apply Z.divide_add_r; [done|by apply is_pow2_divide].
    + exists (base + b). split_and!; [lia| |by apply Z.divide_add_r; [|exists 1; lia]].
      assert (b ≤ Z.max m T); [|lia].
      apply Hbmin; [by apply is_pow2_max|lia| |lia].
      destruct (decide (T < align lay)) as [Hlt|]; [|lia].
      destruct (decide (align lay ≤ m)); [lia|].
      assert (2 * m ≤ align lay) by (apply pow2_double_le; [done|done|lia]).
      assert (2 * T ≤ align lay) by (apply pow2_double_le; [done|done|lia]). lia.
Qed.
End Growth.

(** ** One growth of a heap *)

(** The state of a heap at [base]: its pages are mapped with flags [fl] and the
    addresses after them, up to 256 GiB, are still free to map. *)
Record heap_ready `{BuddyHeap Heap} (pmo base fl : Z) (roots : list Z) (st : Kernel) (h : Heap)
    : Prop := {
  hr_total : heap_total_ok (stats_total_bytes h);
  hr_mapped p : (4096 | p) → base ≤ p < base + stats_total_bytes h →
    ∃ f, space pmo st (k_cr3 st) p = Some (f, fl);
  hr_room p : (4096 | p) → base + stats_total_bytes h ≤ p < base + 2 ^ 38 →
    mappable pmo st roots p ∧ space pmo st (k_cr3 st) p = None }.

(** The frames one growth needs: one for each page and three for its tables. *)
Definition frames_for `{Profile} `{X86Addr} (T : Z) (lay : Layout) (l : list Z) : Prop :=
  ∀ added, heap_growth T lay = Val added →
    4 * ((Z.max (T + added) 4096 - T) `div` 4096) ≤ Z.of_nat (length l).

Section Bounds.
Context `{X86AddrLaws} (base : Z) (Hbase : (4096 | base)) (Hrange : 0 ≤ base < 2 ^ 46).

Lemma heap_total_pages T P :
  heap_total_ok T → is_pow2 P → T ≤ P → (4096 | T) ∧ (4096 | Z.max P 4096).
Proof.
  intros HT HP HTP. split.
  - destruct HT as [->|[HT HT4]]; [apply Z.divide_0_r|]. by apply (is_pow2_divide 4096); [exists 12|..].
  - apply (is_pow2_divide 4096); [by exists 12|apply is_pow2_max; [done|by exists 12]|lia].
Qed.

(** The pages between the old and the new end of the heap. *)
Lemma growth_bounds T P :
  heap_total_ok T → is_pow2 P → T < P ≤ 2 ^ 38 → (T = 0 ∨ 4096 ≤ T) →
  region_bounds (base + T) (P - T) = Val (base + T, base + Z.max P 4096 - 4096).
Proof using All.
  intros HT HP HTP HT0. assert (0 ≤ T) by (destruct HT as [?|[_ ?]]; lia).
  destruct (heap_total_pages T P HT HP) as [HTd HPd]; [lia|].
  rewrite region_bounds_val by lia.
  rewrite (page_of_aligned (base + T)) by by apply Z.divide_add_r.
  do 2 f_equal. replace (base + T + (P - T) - 1) with (base + P - 1) by lia.
  destruct (decide (P < 4096)) as [Hlt|Hge].
  - rewrite Z.max_r by lia. replace (base + 4096 - 4096) with base by lia.
    unfold page_of. destruct Hbase as [k Hk]. rewrite Hk. rewrite (Z.mul_comm k). f_equal.
    symmetry. apply (Z.div_unique _ _ _ (P - 1)); lia.
  - rewrite Z.max_l in * by lia. unfold page_of.
    destruct (Z.divide_add_r _ _ _ Hbase HPd) as [k Hk]. rewrite Hk.
    replace (k * 4096 - 4096) with (4096 * (k - 1)) by lia. f_equal.
    symmetry. apply (Z.div_unique _ _ _ 4095); lia.
Qed.
End Bounds.

Section Grow.
Context `{Profile} `{X86AddrLaws} `{BootOk pmo} `{Mapper} `{!MapperLaws pmo}.
Context `{BuddyHeap Heap} `{!BuddyLaws}.
Context (op : Z → Z → M Kernel Z) (base fl : Z).
Context (Hop : ∀ p, base ≤ p < base + 2 ^ 38 → ∀ st, op p heap_flags st = map_ram p fl st).
Context (Hbase : (2 ^ 33 | base)) (Hrange : 0 ≤ base < 2 ^ 46).

Lemma base_pages : (4096 | base).
Proof using Hbase. transitivity (2 ^ 33); [by exists (2 ^ 21)|done]. Qed.

(** Growing from [T] to the power of two [P], at least a page: the pages between
    are mapped, or a frame is missing. *)
Lemma grow_by_pages st h roots l lay P :
  let T := stats_total_bytes h in
  let T' := Z.max P 4096 in
  kinv pmo st roots l → heap_ready pmo base fl roots st h →
  heap_growth T lay = Val (P - T) → is_pow2 P → T < P ≤ 2 ^ 38 →
  (rescue op base lay (st, h) = Fault Explicit ∧ Z.of_nat (length l) < 4 * ((T' - T) `div` 4096)) ∨
  ∃ ps st' l', rescue op base lay (st, h) = Val ((), (st', add_to_heap (base + T) (base + T') h)) ∧
    pages_mapped (pmo:=pmo) st roots l ps fl st' l' ∧
    (∀ p, p ∈ ps ↔ (4096 | p) ∧ base + T ≤ p < base + T').
Proof using All.
  intros T T' Hk Hready Hgrow HP HTP. pose proof (hr_total _ _ _ _ _ _ Hready) as HT. fold T in HT.
  assert (0 ≤ T ∧ (T = 0 ∨ 4096 ≤ T)) as [HT0 HT4] by (destruct HT as [?|[_ ?]]; lia).
  pose proof (growth_bounds base base_pages Hrange T P HT HP ltac:(lia) HT4) as Hbounds. fold T' in Hbounds.
  destruct (heap_total_pages T P HT HP) as [HTd HPd]; [lia|]. fold T' in HPd.
  assert ((4096 | base + T) ∧ (4096 | base + T')) as [Hd1 Hd2].
  { split; apply Z.divide_add_r; (done || apply base_pages). }
  assert (T < T') as HT' by lia.
  assert (base + T ≤ base + T' - 4096) as Hle by (destruct Hd1 as [i Hi], Hd2 as [j Hj]; lia).
  destruct (page_range_spec (base + T) (base + T' - 4096)) as (Hnd & Hlen & Hin);
    [lia|done|apply Z.divide_sub_r; [done|by exists 1]|].
  set (ps := Page_range_inclusive (base + T) (base + T' - 4096)) in *.
  assert (∀ p, p ∈ ps ↔ (4096 | p) ∧ base + T ≤ p < base + T') as Hin'.
  { intros p. rewrite Hin. destruct Hd2 as [j Hj]. split; (intros [[i ->] Hp]; split; [by exists i|lia]). }
  replace (base + T' - 4096 - (base + T)) with (T' - T + (-1) * 4096) in Hlen by lia.
  rewrite Z.div_add in Hlen by lia.
  unfold rescue. rewrite (M_bind_run (gets _) _ _ T (st, h)) by done.
  rewrite (M_bind_run _ _ _ (P - T) (st, h)) by (by apply liftr_run). m_step.
  rewrite (M_bind_run _ _ _ (base + T, base + T' - 4096) (st, h)) by (by apply liftr_run, Hbounds). fold ps.
  destruct (map_pages_outcome (λ p, op p heap_flags) fl ps) with (st := st) (roots := roots) (l := l)
    as [[Hf Hlt]|(st' & l' & Hrun & Hpm)].
  - intros p Hp%Hin' s. apply Hop. lia.
  - done.
  - done.
  - intros p [Hpd Hp]%Hin'. apply (hr_room _ _ _ _ _ _ Hready); [done|]. fold T. lia.
  - left. split; [|lia]. apply M_bind_fault. unfold zoom. cbn [fst]. by rewrite Hf.
  - right. exists ps, st', l'. split_and!; [|done..].
    rewrite (M_bind_run _ _ _ () (st', h)) by (unfold zoom; cbn [fst]; by rewrite Hrun).
    rewrite (M_bind_run (gets _) _ _ (alloc (k_phys st')) (st', h)) by done.
    erewrite M_bind_run by (apply liftr_run; eapply log_memory_utilization_val, ki_fa, Hpm).
    rewrite (M_bind_run _ _ _ (base + T') (st', h)); [done|].
    apply liftr_run. rewrite add64_in by lia. f_equal. lia.
Qed.

(** The heap grows, or a frame is missing and the kernel panics. *)
Lemma rescue_outcome st h roots l lay :
  kinv pmo st roots l → heap_ready pmo base fl roots st h →
  request_ok (stats_total_bytes h) lay →
  let T := stats_total_bytes h in
  (rescue op base lay (st, h) = Fault Explicit ∧ ¬ frames_for T lay l) ∨
  ∃ ps T' st' l', rescue op base lay (st, h) =
      Val ((), (st', add_to_heap (base + T) (base + T') h)) ∧
    pages_mapped (pmo:=pmo) st roots l ps fl st' l' ∧
    (∀ p, p ∈ ps ↔ (4096 | p) ∧ base + T ≤ p < base + T') ∧
    heap_total_ok T' ∧ T < T' ≤ 2 ^ 38 ∧
    (¬ over_aligned T lay →
       ∃ p, base + T ≤ p ∧ p + block_size lay ≤ base + T' ∧ (block_size lay | p)) ∧
    (T = 0 → ∀ q, is_pow2 q → size lay ≤ q → T' ≤ Z.max (2 * q) 4096).
Proof using All.
  intros Hk Hready Hrq T.
  destruct (heap_growth_val T lay Hrq) as (pad & m & P & Hgrow & Hm & HP & Hmge & Hmmin & HmP & HmT &
    HP0 & H2T & Hpad & Hpad0 & Hpad1).
  pose proof (hr_total _ _ _ _ _ _ Hready) as HT. fold T in HT. pose proof (is_pow2_pos _ Hm).
  destruct (grow_by_pages st h roots l lay P Hk Hready Hgrow HP) as [[Hf Hlt]|(ps & st' & l' & Hrun & Hpm & Hin)].
  - destruct HT as [?|[_ ?]]; fold T; lia.
  - left. split; [done|]. intros Hframes. specialize (Hframes _ Hgrow). fold T in Hlt.
    replace (T + (P - T)) with P in Hframes by lia. lia.
  - right. fold T in Hrun, Hin. exists ps, (Z.max P 4096), st', l'.
    assert (0 ≤ T) by (destruct HT as [?|[_ ?]]; lia).
    split_and!; try done; try lia.
    + right. split; [apply is_pow2_max; [done|by exists 12]|lia].
    + intros Hfit. destruct HmP. by apply (heap_growth_block T lay base P pad m).
    + intros HT0 q Hq Hsq. assert (m ≤ q); [apply Hmmin; [done|]|lia].
      rewrite Hpad0 by (by right). lia.
Qed.

(** What an allocation has done to the heap when it takes its block: nothing, or
    one growth. *)
Inductive grown (st : Kernel) (h : Heap) (roots l : list Z) : Kernel → Heap → list Z → Prop :=
  | grown_none : grown st h roots l st h l
  | grown_by ps T' st' l' :
      pages_mapped (pmo:=pmo) st roots l ps fl st' l' →
      (∀ p, p ∈ ps ↔ (4096 | p) ∧ base + stats_total_bytes h ≤ p < base + T') →
      heap_total_ok T' → stats_total_bytes h < T' ≤ 2 ^ 38 →
      grown st h roots l st' (add_to_heap (base + stats_total_bytes h) (base + T') h) l'.

(** What an allocation does that does not panic. *)
Record allocated (st : Kernel) (h : Heap) (roots : list Z) (lay : Layout) (o : option Z)
    (st' : Kernel) (h' : Heap) : Prop := {
  al_align ptr : o = Some ptr → (align lay | ptr);
  al_ready : heap_ready pmo base fl roots st' h';
  al_grows : stats_total_bytes h ≤ stats_total_bytes h';
  al_cr3 : k_cr3 st' = k_cr3 st;
  al_others r p : r ∈ roots →
    ¬ (base + stats_total_bytes h ≤ p < base + stats_total_bytes h') →
    space pmo st' r p = space pmo st r p }.

Lemma ready_grown st h roots l ps T' st' l' h' :
  kinv pmo st roots l → heap_ready pmo base fl roots st h →
  pages_mapped (pmo:=pmo) st roots l ps fl st' l' →
  (∀ p, p ∈ ps ↔ (4096 | p) ∧ base + stats_total_bytes h ≤ p < base + T') →
  heap_total_ok T' → stats_total_bytes h < T' → stats_total_bytes h' = T' →
  heap_ready pmo base fl roots st' h'.
Proof using All.
  intros Hk Hready Hpm Hps HT' Hlt Hh'. pose proof (ki_active _ _ _ _ Hk) as Ha.
  assert (∀ p, p ∉ ps → space pmo st' (k_cr3 st') p = space pmo st (k_cr3 st) p) as Hold.
  { intros p Hp. rewrite (pm_cr3 _ _ _ _ _ _ _ Hpm). by apply (pm_old _ _ _ _ _ _ _ Hpm). }
  split; rewrite ?Hh'.
  - done.
  - intros p Hd Hp. destruct (decide (p ∈ ps)) as [Hin|Hnin].
    + destruct (pm_new _ _ _ _ _ _ _ Hpm p Hin) as (f & _ & _ & Hf). exists f.
      by rewrite (pm_cr3 _ _ _ _ _ _ _ Hpm).
    + rewrite Hold by done. apply (hr_mapped _ _ _ _ _ _ Hready); [done|].
      destruct (decide (p < base + stats_total_bytes h)); [lia|]. exfalso. apply Hnin, Hps. split; [done|lia].
  - intros p Hd Hp. destruct (hr_room _ _ _ _ _ _ Hready p Hd) as [Hm Hs]; [lia|].
    split; [by apply (pm_mappable _ _ _ _ _ _ _ Hpm)|]. rewrite Hold; [done|].
    intros [_ ?]%Hps. lia.
Qed.

Lemma grown_total st h roots l ps T' st' l' :
  heap_ready pmo base fl roots st h → pages_mapped (pmo:=pmo) st roots l ps fl st' l' →
  heap_total_ok T' → stats_total_bytes h < T' →
  stats_total_bytes (add_to_heap (base + stats_total_bytes h) (base + T') h) = T'.
Proof using All.
  intros Hready Hpm HT' Hlt. pose proof (total_nonneg h).
  destruct HT' as [?|[HT' HT4]]; [lia|].
  destruct (heap_total_pages _ T' (hr_total _ _ _ _ _ _ Hready) HT') as [Hd1 Hd2]; [lia|].
  rewrite Z.max_l in Hd2 by lia. pose proof base_pages.
  rewrite total_add; [lia|lia|by apply Z.divide_add_r..].
Qed.

Lemma grown_limit st h roots l st' h1 l' :
  heap_ready pmo base fl roots st h → grown st h roots l st' h1 l' →
  stats_total_bytes h ≤ 2 ^ 38 → stats_total_bytes h1 ≤ 2 ^ 38.
Proof using All.
  intros Hready [|ps T' st1 l1 Hpm Hps HT' [Hlt Hle]] HT; [done|].
  by rewrite (grown_total _ _ _ _ _ _ _ _ Hready Hpm HT' Hlt).
Qed.

(** The growth keeps the heap ready, and the rest of memory. *)
Lemma grown_ready st h roots l st' h1 l' :
  kinv pmo st roots l → heap_ready pmo base fl roots st h → grown st h roots l st' h1 l' →
  kinv pmo st' roots l' ∧ heap_ready pmo base fl roots st' h1 ∧
  stats_total_bytes h ≤ stats_total_bytes h1 ∧ k_cr3 st' = k_cr3 st ∧
  (stats_total_bytes h1 - stats_total_bytes h ≤ 4096 * (Z.of_nat (length l) - Z.of_nat (length l'))) ∧
  (∀ r p, r ∈ roots → ¬ (base + stats_total_bytes h ≤ p < base + stats_total_bytes h1) →
    space pmo st' r p = space pmo st r p).
Proof using All.
  intros Hk Hready [|ps T' st1 l1 Hpm Hps HT' HTT']; [split_and!; by try lia|].
  pose proof (grown_total _ _ _ _ _ _ _ _ Hready Hpm HT' (proj1 HTT')) as Ht.
  pose proof (total_nonneg h) as HT0.
  rewrite Ht. split_and!; [by apply Hpm| |lia|by apply Hpm| |].
  - by eapply ready_grown; first [done|lia].
  - pose proof (pm_count _ _ _ _ _ _ _ Hpm) as Hcount.
    assert ((T' - stats_total_bytes h) `div` 4096 ≤ Z.of_nat (length ps)).
    { destruct HT' as [?|[HT' HT4]]; [lia|].
      destruct (heap_total_pages _ T' (hr_total _ _ _ _ _ _ Hready) HT') as [Hd1 Hd2]; [lia|].
      rewrite Z.max_l in Hd2 by lia. pose proof base_pages as Hb.
      assert (length (range_step (base + stats_total_bytes h) (base + T') 4096) ≤ length ps)%nat as Hle.
      { apply submseteq_length, NoDup_submseteq; [by apply range_step_NoDup|].
        intros p [Hp Hd]%range_step_spec; [|lia]. apply Hps. split; [|lia].
        replace p with (p - (base + stats_total_bytes h) + (base + stats_total_bytes h)) by lia.
        apply Z.divide_add_r; [done|]. by apply Z.divide_add_r. }
      unfold range_step in Hle. rewrite length_fmap, length_seqZ in Hle.
      etransitivity; [|apply inj_le, Hle]. rewrite Z2Nat.id by (apply Z.div_pos; lia).
      apply Z.div_le_mono; lia. }
    assert ((4096 | T' - stats_total_bytes h)) as [k Hkd].
    { destruct HT' as [?|[HT' HT4]]; [lia|].
      destruct (heap_total_pages _ T' (hr_total _ _ _ _ _ _ Hready) HT') as [Hd1 Hd2]; [lia|].
      rewrite Z.max_l in Hd2 by lia. by apply Z.divide_sub_r. }
    rewrite Hkd in *. rewrite Z.div_mul in * by lia. lia.
  - intros r q Hr Hq. apply (pm_old _ _ _ _ _ _ _ Hpm); [done|]. intros [_ ?]%Hps. lia.
Qed.

(** A heap that grew for an over-aligned request has no block for it. *)
Lemma over_aligned_fails st h roots l lay ps T' st' l' :
  heap_ready pmo base fl roots st h → pages_mapped (pmo:=pmo) st roots l ps fl st' l' →
  request_ok (stats_total_bytes h) lay → over_aligned (stats_total_bytes h) lay →
  heap_total_ok T' → stats_total_bytes h < T' →
  (∀ q, is_pow2 q → size lay ≤ q → T' ≤ Z.max (2 * q) 4096) →
  heap_alloc lay (add_to_heap (base + stats_total_bytes h) (base + T') h) = None.
Proof using All.
  intros Hready Hpm Hrq (H0' & Hal & Hsz) HT' HTT' Hsmall.
  destruct (heap_alloc lay _) as [[ptr h']|] eqn:Hal2; [|done]. exfalso.
  destruct Hrq as [_ _ Hsize [Hp2 Hal33]].
  destruct (alloc_bound _ _ _ _ Hp2 Hal2) as (Hb & _ & _).
  rewrite (grown_total st h roots l ps T' st' l' Hready Hpm HT' HTT') in Hb.
  destruct (block_size_spec lay) as (_ & _ & Hba & _).
  assert (is_pow2 (align lay `div` 4) ∧ align lay `div` 4 * 4 = align lay) as [Hq Hq4].
  { destruct Hp2 as (k & Hk0 & Hk2). assert (2 < k).
    { apply (Z.pow_lt_mono_r_iff 2); [lia|lia|]. rewrite <-Hk2. lia. }
    rewrite Hk2. replace k with (k - 2 + 2) by lia. rewrite Z.pow_add_r by lia.
    rewrite Z.div_mul by lia. split; [apply is_pow2_pow; lia|lia]. }
  specialize (Hsmall _ Hq ltac:(lia)). lia.
Qed.

(** An allocation takes a block, after at most one growth; or it panics because
    the growth finds no frame; or it is over-aligned, and returns null. *)
Lemma alloc_outcome st h roots l lay :
  kinv pmo st roots l → heap_ready pmo base fl roots st h → request_ok (stats_total_bytes h) lay →
  (locked_alloc (rescue op base) lay (st, h) = Fault Explicit ∧
    ¬ frames_for (stats_total_bytes h) lay l) ∨
  (∃ ptr st' h1 h' l', locked_alloc (rescue op base) lay (st, h) = Val (Some ptr, (st', h')) ∧
    grown st h roots l st' h1 l' ∧ heap_alloc lay h1 = Some (ptr, h') ∧
    ¬ over_aligned (stats_total_bytes h) lay) ∨
  ∃ st' h' l', locked_alloc (rescue op base) lay (st, h) = Val (None, (st', h')) ∧
    grown st h roots l st' h' l' ∧ over_aligned (stats_total_bytes h) lay ∧
    stats_total_bytes h < stats_total_bytes h'.
Proof using All.
  intros Hk Hready Hrq. rewrite locked_alloc_law.
  destruct (heap_alloc lay h) as [[ptr h']|] eqn:Hal.
  { right; left. exists ptr, st, h, h', l. split_and!; [done|apply grown_none|done|].
    intros (H0' & ? & ?). destruct (alloc_bound _ _ _ _ (proj1 (rq_align _ _ Hrq)) Hal) as (? & _).
    destruct (block_size_spec lay) as (_ & _ & ? & _). lia. }
  destruct (rescue_outcome st h roots l lay Hk Hready Hrq)
    as [[Hf Hn]|(ps & T' & st' & l' & Hrun & Hpm & Hps & HT' & HTT' & Hblock & Hsmall)].
  { left. by rewrite Hf. }
  right. rewrite Hrun. destruct (decide (over_aligned (stats_total_bytes h) lay)) as [Hov|Hfit].
  { right. erewrite over_aligned_fails by (done || apply HTT' || apply Hsmall, Hov).
    eexists _, _, _. split_and!; [done|by eapply grown_by|done|].
    rewrite (grown_total st h roots l ps T' st' l'); [lia|done..|lia]. }
  left. destruct (Hblock Hfit) as (p & Hp1 & Hp2 & Hp3).
  destruct (alloc_fits _ _ _ lay h Hp1 Hp2 Hp3) as [[ptr h2] Hal2].
  { destruct (rq_size _ _ Hrq), (rq_align _ _ Hrq). etransitivity; [|exact (Z.pow_le_mono_r 2 33 37 ltac:(lia) ltac:(lia))].
    apply block_size_spec; [by apply is_pow2_pow|lia..]. }
  rewrite Hal2. eexists _, _, _, _, _. split_and!; [done|by eapply grown_by|done|done].
Qed.

Lemma alloc_effect st h roots l lay :
  kinv pmo st roots l → heap_ready pmo base fl roots st h → request_ok (stats_total_bytes h) lay →
  (locked_alloc (rescue op base) lay (st, h) = Fault Explicit ∧
    ¬ frames_for (stats_total_bytes h) lay l) ∨
  ∃ o st' h' l', locked_alloc (rescue op base) lay (st, h) = Val (o, (st', h')) ∧
    kinv pmo st' roots l' ∧ allocated st h roots lay o st' h' ∧
    (o = None ↔ over_aligned (stats_total_bytes h) lay).
Proof using All.
  intros Hk Hready Hrq.
  destruct (alloc_outcome st h roots l lay Hk Hready Hrq) as [?|[(ptr & st' & h1 & h' & l' & Hrun & Hg & Hal & Hn)|
    (st' & h' & l' & Hrun & Hg & Hov & _)]]; [by left|right..];
    destruct (grown_ready _ _ _ _ _ _ _ Hk Hready Hg) as (Hk' & Hready' & Hle & Hc & _ & Hold).
  - destruct (alloc_bound _ _ _ _ (proj1 (rq_align _ _ Hrq)) Hal) as (_ & Ht & Hd).
    exists (Some ptr), st', h', l'. split_and!; [done|done| |by split].
    split; rewrite ?Ht; [by intros ? [= <-]| |done..].
    destruct Hready'. split; by rewrite Ht.
  - exists None, st', h', l'. by split_and!.
Qed.

(** A block that is given back serves the same request again: the heap does
    not grow, and no page is mapped. *)
Lemma alloc_again st h lay ptr st' h' :
  is_pow2 (align lay) → locked_alloc (rescue op base) lay (st, h) = Val (Some ptr, (st', h')) →
  ∃ ptr2 h2, locked_alloc (rescue op base) lay (st', heap_dealloc ptr lay h') = Val (Some ptr2, (st', h2)) ∧
    stats_total_bytes h2 = stats_total_bytes h'.
Proof.
  intros Hal Hr. assert (∃ h0, heap_alloc lay h0 = Some (ptr, h')) as [h0 Hh0].
  { rewrite locked_alloc_law in Hr. destruct (heap_alloc lay h) as [[p h1]|] eqn:Hp; [exists h; congruence|].
    destruct (rescue op base lay (st, h)) as [[[] [s1 h1]]|]; [|done].
    destruct (heap_alloc lay h1) as [[p h2]|] eqn:Hp2; [exists h1; congruence|done]. }
  destruct (dealloc_again _ _ _ _ Hal Hh0) as [[ptr2 h2] Hag]. exists ptr2, h2.
  rewrite locked_alloc_law, Hag. split; [done|].
  destruct (alloc_bound _ _ _ _ Hal Hag) as (_ & -> & _). apply dealloc_total.
Qed.
End Grow.

(** ** Properties *)

Definition kernel_heap_flags : Z := Z.lor heap_flags PageTableFlags.PRESENT.
Definition user_heap_flags : Z :=
  Z.lor (Z.lor heap_flags PageTableFlags.USER_ACCESSIBLE) PageTableFlags.PRESENT.

Section Theorems.
Context `{Profile} `{X86AddrLaws} `{BootOk pmo} `{Mapper} `{!MapperLaws pmo}.
Context `{BuddyHeap Heap} `{!BuddyLaws}.

Lemma kernel_heap_op p st :
  v.KERNEL_HEAP_START ≤ p < v.KERNEL_HEAP_START + 2 ^ 38 →
  map_ram_kernel p heap_flags st = map_ram p kernel_heap_flags st.
Proof.
  intros Hp. rewrite map_ram_kernel_run. rewrite bool_decide_eq_true_2; [done|].
  change v.KERNEL_HEAP_START with (108 * 2 ^ 39) in Hp.
  change v.KERNEL_START with (100 * 2 ^ 39). change v.KERNEL_END with (116 * 2 ^ 39). lia.
Qed.

Lemma user_heap_op p st :
  v.USER_HEAP_START ≤ p < v.USER_HEAP_START + 2 ^ 38 →
  map_ram_user p heap_flags st = map_ram p user_heap_flags st.
Proof.
  intros Hp. rewrite map_ram_user_run. rewrite bool_decide_eq_true_2; [done|].
  unfold user_page. change v.USER_HEAP_START with (2 ^ 33) in Hp.
  change v.USER_START with 0. change v.USER_END with (2 ^ 39). lia.
Qed.

(** Once the kernel's heap has a page, its growth maps in a slot that is in
    use, so that every address space sees it. *)
Lemma kernel_heap_slot st h roots l p :
  kinv pmo st roots l → heap_ready pmo v.KERNEL_HEAP_START kernel_heap_flags roots st h →
  0 < stats_total_bytes h → v.KERNEL_HEAP_START ≤ p < v.KERNEL_HEAP_START + 2 ^ 38 →
  slot_in_use (pmo:=pmo) st p.
Proof.
  intros Hk Hready HT Hp. assert (∀ q, v.KERNEL_HEAP_START ≤ q < v.KERNEL_HEAP_START + 2 ^ 38 → l4_slot q = 108%nat) as Hs.
  { intros q Hq. change v.KERNEL_HEAP_START with (108 * 2 ^ 39) in Hq. unfold l4_slot.
    pose proof (l4_index_between 108 109 q ltac:(lia) ltac:(lia) ltac:(lia)). lia. }
  destruct (hr_mapped _ _ _ _ _ _ Hready v.KERNEL_HEAP_START) as [f Hf]; [by exists (108 * 2 ^ 27)|lia|].
  destruct (kinv_slot _ _ _ _ (k_cr3 st) v.KERNEL_HEAP_START Hk (ki_active _ _ _ _ Hk)) as (e & He & _ & Hsp).
  rewrite Hsp in Hf. exists e. rewrite (Hs p Hp). rewrite (Hs v.KERNEL_HEAP_START) in He by lia. split; [done|].
  destruct (is_unused e) eqn:Hu; [|done]. unfold leaves_of in Hf. by rewrite Hu in Hf.
Qed.

(** C24 (functional).  A kernel allocation has three outcomes.  It panics, and
    only when the growth of the heap does not find its frames; or it returns an
    aligned pointer; or it returns null, exactly for a request that is
    over-aligned: the first on an empty heap, with an alignment above a page and
    at least four times the size.  When it returns, the heap is ready, with
    every page of it mapped writable and not executable, and no translation
    outside its growth has changed in any space. *)
Theorem kernel_alloc_spec st h roots l lay :
  kinv pmo st roots l → heap_ready pmo v.KERNEL_HEAP_START kernel_heap_flags roots st h →
  request_ok (stats_total_bytes h) lay →
  (kernel_alloc lay (st, h) = Fault Explicit ∧ ¬ frames_for (stats_total_bytes h) lay l) ∨
  ∃ o st' h' l', kernel_alloc lay (st, h) = Val (o, (st', h')) ∧
    kinv pmo st' roots l' ∧
    allocated (pmo:=pmo) v.KERNEL_HEAP_START kernel_heap_flags st h roots lay o st' h' ∧
    (o = None ↔ over_aligned (stats_total_bytes h) lay).
Proof.
  intros. apply (alloc_effect map_ram_kernel); try done.
  - by intros p Hp s; apply kernel_heap_op.
  - by exists (108 * 2 ^ 6).
Qed.

(**  The same for the heap of the running application; its
    pages get the user flag. *)
Theorem user_alloc_spec st h roots l lay :
  kinv pmo st roots l → heap_ready pmo v.USER_HEAP_START user_heap_flags roots st h →
  request_ok (stats_total_bytes h) lay →
  (user_alloc lay (st, h) = Fault Explicit ∧ ¬ frames_for (stats_total_bytes h) lay l) ∨
  ∃ o st' h' l', user_alloc lay (st, h) = Val (o, (st', h')) ∧
    kinv pmo st' roots l' ∧
    allocated (pmo:=pmo) v.USER_HEAP_START user_heap_flags st h roots lay o st' h' ∧
    (o = None ↔ over_aligned (stats_total_bytes h) lay).
Proof.
  intros. apply (alloc_effect map_ram_user); try done.
  by intros p Hp s; apply user_heap_op.
Qed.

(** C40 (bounds).  One growth of a heap of [T] bytes, a power of two of at least
    a page or nothing: the new total is again such a power of two, at least
    twice the old one, and holds the request beside the old heap; the new
    pages are exactly those from the old to the new end. *)
Theorem heap_growth_spec T lay :
  request_ok T lay →
  ∃ added, heap_growth T lay = Val added ∧
    let T' := Z.max (T + added) 4096 in
    heap_total_ok T' ∧ 2 * T ≤ T' ≤ 2 ^ 38 ∧ T + size lay ≤ T' ∧
    ∀ base, (4096 | base) → 0 ≤ base < 2 ^ 46 →
      region_bounds (base + T) added = Val (base + T, base + T' - 4096).
Proof.
  intros Hrq. destruct (heap_growth_val T lay Hrq) as
    (pad & m & P & Hgrow & Hm & HP & Hmge & Hmmin & HmP & HmT & HP0 & H2T & Hpad & Hpad0 & Hpad1).
  pose proof (rq_total _ _ Hrq) as HT. pose proof (rq_size _ _ Hrq) as Hs.
  exists (P - T). split; [done|]. replace (T + (P - T)) with P by lia. cbv zeta.
  assert (T = 0 ∨ 4096 ≤ T) as HT4 by (destruct HT as [?|[_ ?]]; lia).
  split_and!; [|lia..|].
  - right. split; [apply is_pow2_max; [done|by exists 12]|lia].
  - intros base Hb Hbr. by apply growth_bounds; [..|lia|].
Qed.

(**  The rescue function does not serve every first request: an over-aligned
    one finds its frames, the heap grows, and the allocation returns null
    although the memory for it was there. *)
Theorem first_aligned_alloc_fails st h roots l lay :
  kinv pmo st roots l → heap_ready pmo v.KERNEL_HEAP_START kernel_heap_flags roots st h →
  request_ok (stats_total_bytes h) lay → frames_for (stats_total_bytes h) lay l →
  stats_total_bytes h = 0 → 4096 < align lay → 4 * size lay ≤ align lay →
  ∃ st' h', kernel_alloc lay (st, h) = Val (None, (st', h')) ∧ 0 < stats_total_bytes h'.
Proof.
  intros Hk Hready Hrq Hframes H0' Hal Hsz. assert (over_aligned (stats_total_bytes h) lay) as Hov by done.
  destruct (alloc_outcome map_ram_kernel v.KERNEL_HEAP_START kernel_heap_flags
    (λ p Hp s, kernel_heap_op p s Hp) ltac:(by exists (108 * 2 ^ 6)) ltac:(by vm_compute)
    st h roots l lay Hk Hready Hrq) as [[_ ?]|[(ptr & st' & h1 & h' & l' & _ & _ & _ & Hn)|
    (st' & h' & l' & Hrun & _ & _ & ?)]]; [done..|].
  exists st', h'. split; [done|lia].
Qed.

(** Memory that is given back is used again, in both heaps: releasing a block
    and asking for the same once more succeeds without a new page, so a loop of
    allocations and releases never grows the heap. *)
Theorem freed_block_reused st h lay ptr st' h' :
  is_pow2 (align lay) →
  (kernel_alloc lay (st, h) = Val (Some ptr, (st', h')) →
    ∃ ptr2 h2, (kernel_dealloc ptr lay ≫= λ _, kernel_alloc lay) (st', h') = Val (Some ptr2, (st', h2)) ∧
      stats_total_bytes h2 = stats_total_bytes h') ∧
  (user_alloc lay (st, h) = Val (Some ptr, (st', h')) →
    ∃ ptr2 h2, (user_dealloc ptr lay ≫= λ _, user_alloc lay) (st', h') = Val (Some ptr2, (st', h2)) ∧
      stats_total_bytes h2 = stats_total_bytes h').
Proof. intros Hal. split; intros Hr; by apply (alloc_again _ _ st h). Qed.
End Theorems.
