(* ===== verification/KernelAlloc.v ===== *)
(** * The kernel's allocator and its memory (src/kernel/src/allocator.rs)

    The other operations of [KernelAllocatorWrapper], zeroed allocation and
    reallocation, write to the memory of the heap; the crate inherits them from
    [GlobalAlloc], whose provided methods are translated here.  The theorems say
    what a caller of the allocator relies on: a block that nobody else has, and
    memory in use that keeps its contents.  [allocator_fail_test] of
    common_main.rs allocates until it fails. *)

From S2P Require Import Prelude Bytes Constants Platform FrameAlloc Paging Memory AddressSpace Isolation MapPages UserMem RawMem Heap.

(** ** The code *)

Section Code.
Context `{Profile} `{X86Addr} `{Boot} `{Mapper} `{BuddyHeap Heap}.

Definition on_kernel {A} (m : M Kernel A) : M (Kernel * Heap) A := zoom fst (λ k s, (k, snd s)) m.

Definition kernel_alloc_zeroed (lay : Layout) : M (Kernel * Heap) (option Z) :=
  kernel_alloc lay ≫= λ o,
  match o with
  | Some ptr => on_kernel (write_bytes ptr 0 (Z.to_nat (size lay))) ≫= λ _, mret (Some ptr)
  | None => mret None
  end.

Definition kernel_realloc (ptr : Z) (lay : Layout) (new_size : Z) : M (Kernel * Heap) (option Z) :=
  kernel_alloc (mkLayout new_size (align lay)) ≫= λ o,
  match o with
  | Some new_ptr =>
      on_kernel (copy_nonoverlapping ptr new_ptr (Z.to_nat (Z.min (size lay) new_size))) ≫= λ _,
      kernel_dealloc ptr lay ≫= λ _, mret (Some new_ptr)
  | None => mret None
  end.

(** [vec![0u8; n]] and its [drop]: a vector without elements has no memory, one
    above [isize::MAX] bytes is refused, and a null pointer is a panic. *)
Definition vec_zeroed (n : Z) : M (Kernel * Heap) Z :=
  if n =? 0 then mret 1
  else if 2 ^ 63 <=? n then fail Extern
  else kernel_alloc_zeroed (mkLayout n 1) ≫= λ o,
    match o with Some ptr => mret ptr | None => fail Extern end.

Definition drop_vec (ptr n : Z) : M (Kernel * Heap) () :=
  if n =? 0 then mret () else kernel_dealloc ptr (mkLayout n 1).

(** The numbers of the message of [log_heap_stats]; the statistics of use are
    the crate's. *)
Class BuddyStats := { stats_alloc_actual : Heap → Z; stats_alloc_user : Heap → Z }.

Definition log_heap_stats `{!BuddyStats} : M (Kernel * Heap) (list Z) :=
  gets (λ s, [stats_total_bytes (snd s); stats_alloc_actual (snd s); stats_alloc_user (snd s)]).

(** One round of [allocator_fail_test] for [i] of the range [1..]; the argument
    of the log message is computed before the vector's size. *)
Definition fail_test_round : M (Z * (Kernel * Heap)) (option ()) :=
  gets fst ≫= λ i,
  liftr (add64 i 1) ≫= λ next,
  modify (λ s, (next, snd s)) ≫= λ _,
  let unit := 1000 * 1000 * 100 in
  liftr (mul64 unit i) ≫= λ _,
  liftr (mul64 unit i) ≫= λ n,
  zoom snd (λ k s, (fst s, k)) (vec_zeroed n ≫= λ v, drop_vec v n) ≫= λ _,
  mret None.

Definition allocator_fail_test (fuel : nat) : M (Kernel * Heap) () := λ s,
  match loop fuel fail_test_round (1, s) with
  | Val ((), (_, s')) => Val ((), s')
  | Fault f => Fault f
  end.
End Code.

(** ** Free memory of the heap

    [heap_free h a]: the crate may hand out the byte at [a].  [heap_ok h]: the
    heap was used as its contract demands, adding unused ranges and giving back
    blocks that were handed out.  Then a block comes from free memory, and is
    no longer free. *)
Class BuddySpace `{BuddyHeap Heap} := {
  heap_ok : Heap → Prop;
  heap_free : Heap → Z → Prop;
  ok_new : heap_ok heap_new;
  free_new a : ¬ heap_free heap_new a;
  ok_add s e h : heap_ok h → (∀ a, s ≤ a < e → ¬ heap_free h a) → heap_ok (add_to_heap s e h);
  free_add s e h a : heap_free (add_to_heap s e h) a → heap_free h a ∨ s ≤ a < e;
  ok_alloc lay h p h' : heap_ok h → heap_alloc lay h = Some (p, h') → heap_ok h';
  free_alloc lay h p h' : heap_ok h → heap_alloc lay h = Some (p, h') →
    (∀ a, p ≤ a < p + block_size lay → heap_free h a) ∧
    (∀ a, heap_free h' a → heap_free h a ∧ ¬ (p ≤ a < p + block_size lay));
  ok_dealloc p lay h : heap_ok h → (∀ a, p ≤ a < p + block_size lay → ¬ heap_free h a) →
    heap_ok (heap_dealloc p lay h);
  free_dealloc p lay h a :
    heap_free (heap_dealloc p lay h) a → heap_free h a ∨ p ≤ a < p + block_size lay }.

(** The crate keeps its free lists in the free memory itself: these are the words
    that it stores there, in order, when a range is added, when a block is taken
    and when a block is given back. *)
Class BuddyNodes (Heap : Type) := {
  add_nodes : Z → Z → Heap → list (Z * Z);
  alloc_nodes : Layout → Heap → list (Z * Z);
  dealloc_nodes : Z → Layout → Heap → list (Z * Z) }.

(** All bytes of the words of [ns] are in [P]. *)
Definition nodes_in (P : Z → Prop) (ns : list (Z * Z)) : Prop :=
  ∀ a w i, (a, w) ∈ ns → 0 ≤ i < 8 → P (a + i).

(** Documented behaviour: the words are in memory that is free, or becomes it.
    A block that is given back gets its node at its start, wherever that is. *)
Class BuddyNodesLaws `{BuddyHeap Heap} `{!BuddySpace} `{!BuddyNodes Heap} : Prop := {
  add_nodes_in s e h : heap_ok h → s ≤ e → (4096 | s) → (4096 | e) →
    nodes_in (λ a, heap_free h a ∨ s ≤ a < e) (add_nodes s e h);
  alloc_nodes_in lay h : heap_ok h → nodes_in (heap_free h) (alloc_nodes lay h);
  dealloc_nodes_in p lay h : heap_ok h → (∀ a, p ≤ a < p + block_size lay → ¬ heap_free h a) →
    nodes_in (λ a, heap_free h a ∨ p ≤ a < p + block_size lay) (dealloc_nodes p lay h);
  dealloc_node_first p lay h : ∃ w ns, dealloc_nodes p lay h = (p, w) :: ns }.

Definition store_nodes `{X86Addr} `{Boot} (ns : list (Z * Z)) : M Kernel () :=
  for_each ns (λ '(a, w), vwrite64 a w).

(** ** The memory of a heap *)

Section HeapMem.
Context `{Profile} `{X86AddrLaws} `{BootOk pmo} `{Mapper} `{!MapperLaws pmo}.
Context `{BuddyHeap Heap} `{!BuddyLaws} `{!BuddySpace}.
Context (op : Z → Z → M Kernel Z) (base fl : Z).
Context (Hop : ∀ p, base ≤ p < base + 2 ^ 38 → ∀ st, op p heap_flags st = map_ram p fl st).
Context (Hbase : (2 ^ 33 | base)) (Hrange : 0 ≤ base < 2 ^ 46) (Hfl : Z.testbit fl 1 = true).

(** The pages of a heap of [T] bytes. *)
Definition heap_page (T p : Z) : Prop := (4096 | p) ∧ base ≤ p < base + T.

(** The memory of the heap [h]: free blocks lie in its pages, and its pages are
    memory. *)
Record heap_mem (st : Kernel) (h : Heap) (roots l : list Z) : Prop := {
  hm_kinv : kinv pmo st roots l;
  hm_ready : heap_ready pmo base fl roots st h;
  hm_ok : heap_ok h;
  hm_free a : heap_free h a → base ≤ a < base + stats_total_bytes h;
  hm_pages : mem_pages (pmo:=pmo) (heap_page (stats_total_bytes h)) st roots l }.

(** The bytes that belong to a block in use. *)
Definition live (h : Heap) (a : Z) : Prop :=
  base ≤ a < base + stats_total_bytes h ∧ ¬ heap_free h a.

(** Taking the block [ptr] of layout [lay]: it is memory that nobody had, and
    all the memory in use stays in use, with its contents. *)
Record took_block (st : Kernel) (h : Heap) (lay : Layout) (ptr : Z) (st' : Kernel) (h' : Heap)
    : Prop := {
  tb_align : (align lay | ptr);
  tb_block a : ptr ≤ a < ptr + block_size lay → live h' a ∧ ¬ live h a;
  tb_live a : live h a → live h' a ∧ vbyte pmo st' (k_cr3 st) a = vbyte pmo st (k_cr3 st) a;
  tb_cr3 : k_cr3 st' = k_cr3 st;
  tb_total : stats_total_bytes h ≤ stats_total_bytes h' }.

Lemma heap_page_of T a : (4096 | T) → base ≤ a < base + T ↔ heap_page T (page_of a).
Proof using Hbase.
  intros HT. pose proof (page_of_bounds a). pose proof (page_of_divide a) as [k Hk].
  pose proof (base_pages base Hbase) as [kb Hkb]. destruct HT as [kt Hkt].
  unfold heap_page. split; [intros Ha; split; [by exists k|lia]|intros [_ Ha]; lia].
Qed.

Lemma ready_total st h roots : heap_ready pmo base fl roots st h → (4096 | stats_total_bytes h).
Proof.
  intros Hr. destruct (hr_total _ _ _ _ _ _ Hr) as [->|[Hp Hle]]; [apply Z.divide_0_r|].
  by apply (is_pow2_divide 4096); [exists 12|..].
Qed.

(** Growing the heap. *)
Lemma grown_mem st h roots l st' h1 l' :
  heap_mem st h roots l → grown (pmo:=pmo) base fl st h roots l st' h1 l' →
  heap_mem st' h1 roots l' ∧ k_cr3 st' = k_cr3 st ∧ stats_total_bytes h ≤ stats_total_bytes h1 ∧
  (∀ a, heap_free h1 a → ¬ live h a) ∧
  (∀ a, base ≤ a < base + stats_total_bytes h →
    vbyte pmo st' (k_cr3 st) a = vbyte pmo st (k_cr3 st) a).
Proof using All.
  intros Hm Hg. pose proof Hm as [Hk Hready Hok Hfree Hpages].
  pose proof (ki_active _ _ _ _ Hk) as Hact.
  destruct (grown_ready op base fl Hop Hbase Hrange _ _ _ _ _ _ _ Hk Hready Hg)
    as (Hk' & Hready' & Hle & Hc & _ & Hold).
  pose proof (ready_total _ _ _ Hready) as HT.
  destruct Hg as [|ps T' st' l' Hpm Hps HT' HTT'].
  { split_and!; try done. intros a Ha [_ Hn]. by apply Hn. }
  pose proof (grown_total op base fl Hop Hbase Hrange _ _ _ _ _ _ _ _ Hready Hpm HT' (proj1 HTT')) as Ht.
  set (h1 := add_to_heap _ _ h) in *.
  assert (∀ p, heap_page (stats_total_bytes h) p → p ∉ ps) as Hnew by (intros p [_ Hp] [_ ?]%Hps; lia).
  split_and!; try done.
  - split; [done|done| | |rewrite Ht].
    + apply ok_add; [done|]. intros a Ha Hf. specialize (Hfree a Hf). lia.
    + pose proof (total_nonneg h). intros a [Hf|Ha]%free_add; rewrite Ht; [specialize (Hfree a Hf)|]; lia.
    + eapply mem_pages_sub, (mem_pages_more (heap_page (stats_total_bytes h)) st); [|done..].
      intros p [Hd Hp]. destruct (decide (p < base + stats_total_bytes h)); [left; by split; [|lia]|].
      right. apply Hps. split; [done|lia].
  - intros a [Hf|Ha]%free_add [Hr Hn]; [done|lia].
  - intros a Ha. apply heap_page_of in Ha; [|done]. by eapply (old_byte (heap_page (stats_total_bytes h))).
Qed.

(** Memory in use stays in use, with its contents. *)
Definition keeps_live (st : Kernel) (h : Heap) (st' : Kernel) (h' : Heap) : Prop :=
  ∀ a, live h a → live h' a ∧ vbyte pmo st' (k_cr3 st) a = vbyte pmo st (k_cr3 st) a.

(** Allocation: it panics for want of a frame, or takes a block, or grows the
    heap for a request that is over-aligned and takes none. *)
Lemma alloc_mem st h roots l lay :
  heap_mem st h roots l → request_ok (stats_total_bytes h) lay →
  (locked_alloc (rescue op base) lay (st, h) = Fault Explicit ∧
    ¬ frames_for (stats_total_bytes h) lay l) ∨
  (∃ ptr st' h' l', locked_alloc (rescue op base) lay (st, h) = Val (Some ptr, (st', h')) ∧
    heap_mem st' h' roots l' ∧ took_block st h lay ptr st' h' ∧
    stats_total_bytes h' - stats_total_bytes h ≤ 4096 * (Z.of_nat (length l) - Z.of_nat (length l')) ∧
    size lay ≤ stats_total_bytes h' ≤ 2 ^ 38 ∧ ¬ over_aligned (stats_total_bytes h) lay) ∨
  ∃ st' h' l', locked_alloc (rescue op base) lay (st, h) = Val (None, (st', h')) ∧
    heap_mem st' h' roots l' ∧ k_cr3 st' = k_cr3 st ∧ keeps_live st h st' h' ∧
    stats_total_bytes h ≤ stats_total_bytes h' ≤ 2 ^ 38 ∧ over_aligned (stats_total_bytes h) lay.
Proof using All.
  intros Hm Hrq. pose proof (hm_kinv _ _ _ _ Hm) as Hk. pose proof (hm_ready _ _ _ _ Hm) as Hready.
  destruct (alloc_outcome op base fl Hop Hbase Hrange st h roots l lay Hk Hready Hrq)
    as [?|[(ptr & st' & h1 & h' & l' & Hrun & Hg & Hal & Hfit)|(st' & h' & l' & Hrun & Hg & Hov & _)]];
    [by left|right; left|right; right].
  2:{ destruct (grown_mem _ _ _ _ _ _ _ Hm Hg) as (Hm' & Hc & Hle & Hnl & Hb).
    pose proof (grown_limit op base fl Hop Hbase Hrange _ _ _ _ _ _ _ Hready Hg ltac:(pose proof (rq_limit _ _ Hrq); lia)).
    exists st', h', l'. split_and!; try done. intros a [Ha Hf]. split; [|by apply Hb].
    split; [lia|]. intros Hfree. by apply (Hnl a). }
  destruct (grown_ready op base fl Hop Hbase Hrange _ _ _ _ _ _ _ Hk Hready Hg)
    as (_ & _ & _ & _ & Hcount & _).
  pose proof (grown_limit op base fl Hop Hbase Hrange _ _ _ _ _ _ _ Hready Hg ltac:(pose proof (rq_limit _ _ Hrq); lia)).
  destruct (grown_mem _ _ _ _ _ _ _ Hm Hg) as ([Hk1 Hready1 Hok1 Hfree1 Hpages1] & Hc & Hle & Hnl & Hb).
  destruct (alloc_bound _ _ _ _ (proj1 (rq_align _ _ Hrq)) Hal) as (Hbs & Ht & Hd).
  destruct (free_alloc _ _ _ _ Hok1 Hal) as [Hblock Hrest].
  exists ptr, st', h', l'. split_and!; [done| | |lia| |lia|done].
  - split; rewrite ?Ht; try done.
    + destruct Hready1. split; by rewrite Ht.
    + by eapply ok_alloc.
    + intros a Ha. apply Hfree1. by apply Hrest.
  - split; [done| | |done|lia].
    + intros a Ha. split; [|by apply Hnl, Hblock]. split; [rewrite Ht; by apply Hfree1, Hblock|].
      intros Hf. by destruct (Hrest a Hf) as [_ ?].
    + intros a Hl. split; [|apply Hb, Hl]. split; [rewrite Ht; destruct Hl; lia|].
      intros Hf. destruct (Hrest a Hf) as [Hf1 _]. by apply (Hnl a).
  - rewrite Ht. pose proof (block_size_spec lay) as (_ & ? & _). lia.
Qed.

(** Giving back a block in use. *)
Lemma dealloc_mem st h roots l lay ptr :
  heap_mem st h roots l → (∀ a, ptr ≤ a < ptr + block_size lay → live h a) →
  heap_mem st (heap_dealloc ptr lay h) roots l ∧
  ∀ a, ¬ (ptr ≤ a < ptr + block_size lay) → live h a → live (heap_dealloc ptr lay h) a.
Proof using All.
  intros [Hk Hready Hok Hfree Hpages] Hl. pose proof (dealloc_total ptr lay h) as Ht.
  split.
  - split; rewrite ?Ht; try done.
    + destruct Hready. split; by rewrite Ht.
    + apply ok_dealloc; [done|]. intros a Ha. by apply Hl.
    + intros a [Hf|Ha]%free_dealloc; [by apply Hfree|by apply Hl].
  - intros a Hn [Ha Hf]. split; [by rewrite Ht|]. by intros [?|?]%free_dealloc.
Qed.

(** Writing to pages that contain those of the heap. *)
Lemma stored_mem P st h roots l dst n g st' :
  (∀ p, heap_page (stats_total_bytes h) p → P p) →
  heap_mem st h roots l → stored (pmo:=pmo) P st roots l dst n g st' →
  heap_mem st' h roots l ∧ k_cr3 st' = k_cr3 st ∧
  ∀ a, base ≤ a < base + stats_total_bytes h → vbyte pmo st' (k_cr3 st) a =
    if decide (dst ≤ a < dst + n) then g (a - dst) else vbyte pmo st (k_cr3 st) a.
Proof using All.
  intros HP [Hk Hready Hok Hfree Hpages] [Hk' Hm' Hc Ht He Hs Hf Hb]. split_and!; [|done|].
  - split; try done; [|by eapply mem_pages_sub]. destruct Hready as [Htot Hmap Hroom]. split; [done| |].
    + intros p Hd Hp. rewrite Hc, Hs by by apply (ki_active _ _ _ _ Hk). by apply Hmap.
    + intros p Hd Hp. destruct (Hroom p Hd Hp) as [Hmp Hn]. split.
      * intros Hsl. rewrite Hc. destruct (Hmp Hsl) as [(e & He' & Hu)|?]; [left|by right].
        exists e. rewrite He by by apply (ki_active _ _ _ _ Hk). done.
      * rewrite Hc, Hs by by apply (ki_active _ _ _ _ Hk). done.
  - intros a Ha. apply Hb, HP, heap_page_of; [by eapply ready_total|done].
Qed.

(** The nodes of the free lists are stored, and nothing else changes. *)
Lemma nodes_mem st h roots l ns :
  heap_mem st h roots l → nodes_in (λ a, base ≤ a < base + stats_total_bytes h) ns →
  ∃ st', store_nodes ns st = Val ((), st') ∧ heap_mem st' h roots l ∧ k_cr3 st' = k_cr3 st ∧
    ∀ a, base ≤ a < base + stats_total_bytes h → ¬ nodes_in (λ x, x ≠ a) ns ∨
      vbyte pmo st' (k_cr3 st) a = vbyte pmo st (k_cr3 st) a.
Proof using All.
  revert st. induction ns as [|[d w] ns IH]; intros st Hm Hns.
  - exists st. split_and!; [done|done|done|]. by right.
  - destruct (vwrite_bytes_stored (pmo:=pmo) (heap_page (stats_total_bytes h)) (to_le_bytes 8 w) st roots l d)
      as (st1 & Hr1 & Hs1); [apply Hm|apply Hm| |].
    { rewrite length_to_le_bytes. intros x Hx. apply heap_page_of; [by eapply ready_total, Hm|].
      replace x with (d + (x - d)) by lia. apply (Hns d w); [left|lia]. }
    destruct (stored_mem _ _ _ _ _ _ _ _ _ (λ p Hp, Hp) Hm Hs1) as (Hm1 & Hc1 & Hb1).
    rewrite length_to_le_bytes in Hb1.
    destruct (IH st1 Hm1) as (st' & Hr' & Hm' & Hc' & Hb').
    { intros a v i Ha. apply (Hns a v). by right. }
    rewrite Hc1 in Hb', Hc'. exists st'. split_and!; [|done|done|].
    + unfold store_nodes. cbn [for_each]. by rewrite (M_bind_run _ _ _ () st1).
    + intros a Ha. destruct (Hb' a Ha) as [Hn|Hn].
      * left. intros Hin. apply Hn. intros b v i Hb. apply (Hin b v). by right.
      * rewrite Hn, Hb1 by done. case_decide as Hd; [left|by right].
        intros Hin. apply (Hin d w (a - d)); [left|lia|lia].
Qed.

Lemma nodes_in_weaken (P Q : Z → Prop) ns : (∀ a, P a → Q a) → nodes_in P ns → nodes_in Q ns.
Proof. intros HPQ HP a w i Ha Hi. by apply HPQ, (HP a w). Qed.

Lemma nodes_in_app (P : Z → Prop) ns1 ns2 : nodes_in P ns1 → nodes_in P ns2 → nodes_in P (ns1 ++ ns2).
Proof. intros Hn1 Hn2 a w i [Ha|Ha]%elem_of_app; [by apply (Hn1 a w)|by apply (Hn2 a w)]. Qed.
End HeapMem.

(** ** The kernel's heap *)

Section Theorems.
Context `{Profile} `{X86AddrLaws} `{BootOk pmo} `{Mapper} `{!MapperLaws pmo}.
Context `{BuddyHeap Heap} `{!BuddyLaws} `{!BuddySpace}.

(** The memory of the kernel's heap, and its bytes in use. *)
Definition kernel_mem : Kernel → Heap → list Z → list Z → Prop :=
  heap_mem (pmo:=pmo) v.KERNEL_HEAP_START kernel_heap_flags.
Definition kernel_live : Heap → Z → Prop := live v.KERNEL_HEAP_START.
Definition kernel_took : Kernel → Heap → Layout → Z → Kernel → Heap → Prop :=
  took_block (pmo:=pmo) v.KERNEL_HEAP_START.

Lemma kernel_heap_base : (2 ^ 33 | v.KERNEL_HEAP_START) ∧ 0 ≤ v.KERNEL_HEAP_START < 2 ^ 46.
Proof. split; [by exists (108 * 2 ^ 6)|by vm_compute]. Qed.

Lemma kernel_alloc_mem st h roots l lay :
  kernel_mem st h roots l → request_ok (stats_total_bytes h) lay →
  ¬ over_aligned (stats_total_bytes h) lay →
  (kernel_alloc lay (st, h) = Fault Explicit ∧ ¬ frames_for (stats_total_bytes h) lay l) ∨
  ∃ ptr st' h' l', kernel_alloc lay (st, h) = Val (Some ptr, (st', h')) ∧
    kernel_mem st' h' roots l' ∧ kernel_took st h lay ptr st' h' ∧
    stats_total_bytes h' - stats_total_bytes h ≤ 4096 * (Z.of_nat (length l) - Z.of_nat (length l')) ∧
    size lay ≤ stats_total_bytes h'.
Proof.
  destruct kernel_heap_base. intros Hm Hrq Hfit.
  destruct (alloc_mem map_ram_kernel v.KERNEL_HEAP_START kernel_heap_flags (λ p Hp s, kernel_heap_op p s Hp)
    ltac:(done) ltac:(done) ltac:(done) st h roots l lay Hm Hrq)
    as [?|[(ptr & st' & h' & l' & ? & ? & ? & ? & [? _] & _)|(? & ? & ? & _ & _ & _ & _ & _ & ?)]];
    [by left|right; by exists ptr, st', h', l'|done].
Qed.

(** Filling a block that was just taken keeps what the others have. *)
Lemma kernel_fill st h lay ptr st' h' roots l n (m : M Kernel ()) g :
  kernel_mem st' h' roots l → kernel_took st h lay ptr st' h' → 0 ≤ n ≤ size lay →
  ((∀ x, ptr ≤ x < ptr + n → heap_page v.KERNEL_HEAP_START (stats_total_bytes h') (page_of x)) →
   ∃ st2, m st' = Val ((), st2) ∧
     stored (pmo:=pmo) (heap_page v.KERNEL_HEAP_START (stats_total_bytes h')) st' roots l ptr n g st2) →
  ∃ st2, on_kernel m (st', h') = Val ((), (st2, h')) ∧ kernel_mem st2 h' roots l ∧
    kernel_took st h lay ptr st2 h' ∧
    ∀ j, 0 ≤ j < n → vbyte pmo st2 (k_cr3 st) (ptr + j) = g j.
Proof.
  intros Hm [Hal Hblock Hlive Hc Ht] Hn Hop. destruct kernel_heap_base as [Hb1 Hb2].
  pose proof (block_size_spec lay) as (_ & Hbs & _).
  destruct Hop as (st2 & Hr & Hsd).
  { intros x Hx. apply heap_page_of; [done|by eapply ready_total, Hm|]. apply Hblock. lia. }
  destruct (stored_mem map_ram_kernel v.KERNEL_HEAP_START kernel_heap_flags
    (λ p Hp s, kernel_heap_op p s Hp) Hb1 Hb2 ltac:(done) _ _ _ _ _ _ _ _ _ (λ p Hp, Hp) Hm Hsd) as (Hm2 & Hc2 & Hby).
  rewrite Hc in Hby. exists st2. split_and!; [unfold on_kernel, zoom; cbn; by rewrite Hr|done| |].
  - split; [done|done| |congruence|done]. intros a Ha. destruct (Hlive a Ha) as [Ha' Hv].
    split; [done|]. rewrite Hby by apply Ha'. rewrite decide_False; [done|].
    intros Hin. destruct (Hblock a ltac:(lia)) as [_ Hna]. by apply Hna.
  - intros j Hj. destruct (Hblock (ptr + j) ltac:(lia)) as [Hl _]. rewrite Hby by apply Hl.
    rewrite decide_True by lia. f_equal. lia.
Qed.

(**  [alloc_zeroed] of a request that is not over-aligned: it panics for want of a frame, or
    returns an aligned block that nobody had, all of whose bytes are 0, while
    memory in use stays in use with its contents. *)
Theorem kernel_alloc_zeroed_spec st h roots l lay :
  kernel_mem st h roots l → request_ok (stats_total_bytes h) lay →
  ¬ over_aligned (stats_total_bytes h) lay →
  (kernel_alloc_zeroed lay (st, h) = Fault Explicit ∧ ¬ frames_for (stats_total_bytes h) lay l) ∨
  ∃ ptr st' h' l', kernel_alloc_zeroed lay (st, h) = Val (Some ptr, (st', h')) ∧
    kernel_mem st' h' roots l' ∧ kernel_took st h lay ptr st' h' ∧
    (stats_total_bytes h' - stats_total_bytes h ≤ 4096 * (Z.of_nat (length l) - Z.of_nat (length l')) ∧
      size lay ≤ stats_total_bytes h') ∧
    ∀ a, ptr ≤ a < ptr + size lay → vbyte pmo st' (k_cr3 st') a = Some 0.
Proof.
  intros Hm Hrq Hfit. pose proof (rq_size _ _ Hrq) as Hs. unfold kernel_alloc_zeroed.
  destruct (kernel_alloc_mem st h roots l lay Hm Hrq Hfit)
    as [[Hf ?]|(ptr & st1 & h1 & l1 & Hr & Hm1 & Ht & Hcount)];
    [left; split; [by apply M_bind_fault|done]|right].
  destruct (kernel_fill _ _ _ _ _ _ _ _ (size lay) (write_bytes ptr 0 (Z.to_nat (size lay)))
    (λ _, Some 0) Hm1 Ht) as (st2 & Hr2 & Hm2 & Ht2 & Hz); [lia| |].
  { intros HP. pose proof (write_bytes_effect (pmo:=pmo) (heap_page v.KERNEL_HEAP_START (stats_total_bytes h1))
      st1 roots l1 ptr 0 (Z.to_nat (size lay))) as He. rewrite Z2Nat.id in He by lia.
    apply He; [apply Hm1|apply Hm1|done]. }
  exists ptr, st2, h1, l1. split_and!; [|done|done|apply Hcount|apply Hcount|].
  - rewrite (M_bind_run _ _ _ _ _ Hr). by rewrite (M_bind_run _ _ _ _ _ Hr2).
  - intros a Ha. rewrite (tb_cr3 _ _ _ _ _ _ _ Ht2). rewrite <-(Hz (a - ptr)) by lia. f_equal. lia.
Qed.

(** C26 (functional).  [realloc] of a block in use: it panics for want of a frame, or
    returns an aligned block that nobody had, with the contents of the old block
    as far as they fit; the rest of the memory in use stays in use, with its contents. *)
Theorem kernel_realloc_spec st h roots l ptr lay new_size :
  kernel_mem st h roots l → (∀ a, ptr ≤ a < ptr + block_size lay → kernel_live h a) →
  0 ≤ size lay → request_ok (stats_total_bytes h) (mkLayout new_size (align lay)) →
  (kernel_realloc ptr lay new_size (st, h) = Fault Explicit ∧
    ¬ frames_for (stats_total_bytes h) (mkLayout new_size (align lay)) l) ∨
  ∃ new_ptr st' h' l', kernel_realloc ptr lay new_size (st, h) = Val (Some new_ptr, (st', h')) ∧
    kernel_mem st' h' roots l' ∧ (align lay | new_ptr) ∧
    (∀ j, 0 ≤ j < Z.min (size lay) new_size →
      vbyte pmo st' (k_cr3 st') (new_ptr + j) = vbyte pmo st (k_cr3 st) (ptr + j)) ∧
    (∀ a, new_ptr ≤ a < new_ptr + new_size → kernel_live h' a ∧ ¬ kernel_live h a) ∧
    (∀ a, kernel_live h a → ¬ (ptr ≤ a < ptr + block_size lay) →
      kernel_live h' a ∧ vbyte pmo st' (k_cr3 st') a = vbyte pmo st (k_cr3 st) a).
Proof.
  intros Hm Hold Hsz Hrq. pose proof (rq_size _ _ Hrq) as Hs. cbn [size] in Hs.
  set (new := mkLayout new_size (align lay)) in *. set (n := Z.min (size lay) new_size).
  destruct (block_size_spec lay) as (Hb2 & Hbs & _). apply is_pow2_pos in Hb2.
  destruct (block_size_spec new) as (_ & Hns & _). cbn [size new] in Hns.
  assert (0 < stats_total_bytes h) as HT0 by (destruct (Hold ptr) as [? _]; lia).
  unfold kernel_realloc. fold new. fold n.
  destruct (kernel_alloc_mem st h roots l new Hm Hrq ltac:(intros [? _]; lia))
    as [[Hf ?]|(np & st1 & h1 & l1 & Hr & Hm1 & Ht & _)];
    [left; split; [by apply M_bind_fault|done]|right].
  pose proof (tb_block _ _ _ _ _ _ _ Ht) as Hblock. pose proof (tb_live _ _ _ _ _ _ _ Ht) as Hlive.
  destruct (kernel_fill _ _ _ _ _ _ _ _ n (copy_nonoverlapping ptr np (Z.to_nat n))
    (λ j, vbyte pmo st (k_cr3 st) (ptr + j)) Hm1 Ht) as (st2 & Hr2 & Hm2 & Ht2 & Hcopy); [cbn; lia| |].
  { intros HP. destruct kernel_heap_base as [Hb1 _].
    destruct (copy_effect (pmo:=pmo) (heap_page v.KERNEL_HEAP_START (stats_total_bytes h1))
      st1 roots l1 ptr np (Z.to_nat n)) as (st2 & Hr2 & Hs2); rewrite ?Z2Nat.id by lia;
      [apply Hm1|apply Hm1|done| |].
    - intros x Hx. destruct (Hlive x) as [Hl _]; [apply Hold; lia|]. split.
      + apply heap_page_of; [done|by eapply ready_total, Hm1|apply Hl].
      + intros Hin. destruct (Hblock x) as [_ Hn]; [lia|]. apply Hn, Hold. lia.
    - exists st2. split; [done|]. rewrite Z2Nat.id in Hs2 by lia. eapply stored_ext; [|done].
      intros j Hj. cbn. rewrite (tb_cr3 _ _ _ _ _ _ _ Ht). apply Hlive, Hold. lia. }
  pose proof (tb_live _ _ _ _ _ _ _ Ht2) as Hlive2. pose proof (tb_cr3 _ _ _ _ _ _ _ Ht2) as Hc2.
  destruct kernel_heap_base as [Hb1 Hb3].
  destruct (dealloc_mem map_ram_kernel v.KERNEL_HEAP_START kernel_heap_flags
    (λ p Hp s, kernel_heap_op p s Hp) Hb1 Hb3 ltac:(done) st2 h1 roots l1 lay ptr Hm2) as [Hm3 Hl3].
  { intros a Ha. by apply Hlive2, Hold. }
  exists np, st2, (heap_dealloc ptr lay h1), l1. split_and!; [|done|apply Ht2| | |].
  - rewrite (M_bind_run _ _ _ _ _ Hr), (M_bind_run _ _ _ _ _ Hr2). done.
  - intros j Hj. rewrite Hc2. by apply Hcopy.
  - intros a Ha. destruct (Hblock a) as [Hl Hn]; [lia|]. split; [|done]. apply Hl3; [|done].
    intros Hin. by apply Hn, Hold.
  - intros a Ha Hn. rewrite Hc2. destruct (Hlive2 a Ha) as [Hl Hv]. split; [|done]. by apply Hl3.
Qed.

(** One round of the test: it panics for want of memory, or the heap now has the
    size of the request. *)
Lemma fail_test_round_outcome st h roots l i :
  kernel_mem st h roots l → stats_total_bytes h ≤ 2 ^ 37 → 1 ≤ i → 100000000 * i ≤ 2 ^ 33 →
  fail_test_round (i, (st, h)) = Fault Explicit ∨
  ∃ st' h' l', fail_test_round (i, (st, h)) = Val (None, (i + 1, (st', h'))) ∧
    kernel_mem st' h' roots l' ∧ 100000000 * i ≤ stats_total_bytes h' ∧
    stats_total_bytes h' + 4096 * Z.of_nat (length l') ≤ stats_total_bytes h + 4096 * Z.of_nat (length l).
Proof.
  intros Hm HT Hi Hmax. set (n := 100000000 * i).
  assert (fail_test_round (i, (st, h)) =
    (zoom snd (λ k s, (fst s, k)) (vec_zeroed n ≫= λ v, drop_vec v n) ≫= λ _, mret None)
      (i + 1, (st, h))) as Hround.
  { unfold fail_test_round. rewrite (M_bind_run _ _ _ i (i, (st, h))) by done.
    rewrite (M_bind_run _ _ _ (i + 1) (i, (st, h))) by (apply liftr_run, add64_in; lia).
    rewrite (M_bind_run _ _ _ () (i + 1, (st, h))) by done. cbv zeta.
    do 2 rewrite (M_bind_run _ _ _ n (i + 1, (st, h))) by (apply liftr_run, mul64_in; lia). done. }
  rewrite Hround. clear Hround.
  assert (request_ok (stats_total_bytes h) (mkLayout n 1)) as Hrq.
  { split; [apply (hm_ready _ _ _ _ _ _ Hm)|done|cbn; lia|split; [by exists 0|cbn; lia]]. }
  assert (vec_zeroed n (st, h) = match kernel_alloc_zeroed (mkLayout n 1) (st, h) with
    | Val (Some p, s) => Val (p, s) | Val (None, _) => Fault Extern | Fault f => Fault f end) as Hvec.
  { unfold vec_zeroed. rewrite (proj2 (Z.eqb_neq n 0)), (proj2 (Z.leb_gt (2 ^ 63) n)) by lia.
    unfold mbind, M_bind. by destruct (kernel_alloc_zeroed _ _) as [[[] []]|]. }
  destruct (kernel_alloc_zeroed_spec st h roots l (mkLayout n 1) Hm Hrq) as
    [[Hf _]|(ptr & st' & h' & l' & Hr & Hm' & Ht & [Hcount Hsize] & _)]; [intros (_ & Ha & _); cbn in Ha; lia| |].
  { left. apply M_bind_fault. unfold zoom. cbn [snd]. rewrite (M_bind_fault _ _ _ Explicit); [done|].
    by rewrite Hvec, Hf. }
  right. destruct kernel_heap_base as [Hb1 Hb3]. cbn [size] in Hsize.
  destruct (dealloc_mem map_ram_kernel v.KERNEL_HEAP_START kernel_heap_flags
    (λ p Hp s, kernel_heap_op p s Hp) Hb1 Hb3 ltac:(done) st' h' roots l' (mkLayout n 1) ptr Hm') as [Hm3 _].
  { intros a Ha. by apply (tb_block _ _ _ _ _ _ _ Ht). }
  exists st', (heap_dealloc ptr (mkLayout n 1) h'), l'. split_and!; [|done| |].
  - unfold mbind at 1, M_bind at 1. unfold zoom. cbn [snd fst].
    rewrite (M_bind_run _ _ _ ptr (st', h')) by by rewrite Hvec, Hr.
    unfold drop_vec. by rewrite (proj2 (Z.eqb_neq n 0)) by lia.
  - by rewrite dealloc_total.
  - rewrite dealloc_total. lia.
Qed.

(** C27 (termination).  [allocator_fail_test] ends in the kernel's out-of-memory panic,
    on a machine with less than 8 GiB: never in a null pointer, a page fault or
    an overflow, and after at most one round for each 100 MB of the memory. *)
Theorem allocator_fail_test_panics st h roots l fuel :
  kernel_mem st h roots l →
  stats_total_bytes h + 4096 * Z.of_nat (length l) + 100000000 ≤ 2 ^ 33 →
  stats_total_bytes h + 4096 * Z.of_nat (length l) < 100000000 * Z.of_nat fuel →
  allocator_fail_test fuel (st, h) = Fault Explicit.
Proof.
  intros Hm Hmem Hfuel. unfold allocator_fail_test.
  cut (∀ fuel st h l i, kernel_mem st h roots l → 1 ≤ i → 100000000 * (i - 1) ≤ stats_total_bytes h →
    stats_total_bytes h + 4096 * Z.of_nat (length l) + 100000000 ≤ 2 ^ 33 →
    stats_total_bytes h + 4096 * Z.of_nat (length l) < 100000000 * (i - 1 + Z.of_nat fuel) →
    loop fuel fail_test_round (i, (st, h)) = Fault Explicit).
  { intros Hloop. rewrite (Hloop fuel st h l 1); [done|done|lia| |done|lia].
    pose proof (total_nonneg h). lia. }
  clear st h l fuel Hm Hmem Hfuel. induction fuel as [|fuel IH]; intros st h l i Hm Hi Hti Hmem Hfuel; [lia|].
  rewrite loop_S.
  destruct (fail_test_round_outcome st h roots l i Hm) as [Hf|(st' & h' & l' & Hr & Hm' & Ht' & Hc')];
    [lia|done|lia|by apply M_bind_fault|].
  rewrite (M_bind_run _ _ _ _ _ Hr). apply (IH st' h' l'); [done|lia..].
Qed.
End Theorems.
