(* ===== verification/HeapDemo.v ===== *)
(** * A concrete buddy heap for the heap theorems

    Free ranges in a list; an allocation takes the first range that holds an
    aligned block.  Only witnesses use this file. *)

From S2P Require Import Prelude Constants Platform FrameAlloc Paging Memory AddressSpace Isolation IsolationDemo MapPages Heap.

#[local] Existing Instance dev_profile.
Import RefX86 RefBoot RefMapper.

Record RefHeap := mkHeap { rh_total : Z; rh_ranges : list (Z * Z) }.

Definition take_block (b : Z) (r : Z * Z) : option Z :=
  let p := b * ((fst r + b - 1) `div` b) in
  if p + b <=? snd r then Some p else None.

Fixpoint take_first (b : Z) (rs : list (Z * Z)) : option (Z * list (Z * Z)) :=
  match rs with
  | [] => None
  | r :: rs' =>
      match take_block b r with
      | Some p => Some (p, rs')
      | None => (λ '(p, rest), (p, r :: rest)) <$> take_first b rs'
      end
  end.

Definition ref_total (h : RefHeap) : Z := Z.max 0 (rh_total h).

Definition ref_alloc (lay : Layout) (h : RefHeap) : option (Z * RefHeap) :=
  if block_size lay <=? ref_total h then
    (λ '(p, rs), (p, mkHeap (rh_total h) rs)) <$> take_first (block_size lay) (rh_ranges h)
  else None.

#[export] Instance ref_heap : BuddyHeap RefHeap := {
  heap_new := mkHeap 0 [];
  stats_total_bytes := ref_total;
  add_to_heap s e h := mkHeap (ref_total h + (e - s)) ((s, e) :: rh_ranges h);
  heap_alloc := ref_alloc;
  heap_dealloc p lay h := mkHeap (ref_total h) ((p, p + block_size lay) :: rh_ranges h);
  locked_alloc grow lay '(s, h) :=
    match ref_alloc lay h with
    | Some (p, h') => Val (Some p, (s, h'))
    | None =>
        match grow lay (s, h) with
        | Val (_, (s1, h1)) =>
            match ref_alloc lay h1 with
            | Some (p, h2) => Val (Some p, (s1, h2))
            | None => Val (None, (s1, h1))
            end
        | Fault f => Fault f
        end
    end }.

Lemma take_first_divide b rs p rs' : take_first b rs = Some (p, rs') → (b | p).
Proof.
  revert rs'. induction rs as [|r rs IH]; intros rs' Ht; [done|]. cbn in Ht.
  destruct (take_block b r) as [q|] eqn:Hq.
  - unfold take_block in Hq. case_match; [|done]. simplify_eq. apply Z.divide_factor_l.
  - destruct (take_first b rs) as [[q rest]|]; [|done]. cbn in Ht. simplify_eq. by eapply IH.
Qed.

#[export] Instance ref_heap_laws : BuddyLaws.
Proof.
  split.
  - done.
  - intros h. cbn. unfold ref_total. lia.
  - intros s e h Hse _ _. cbn. unfold ref_total. cbn. lia.
  - intros s e p lay h Hsp Hpe [k Hk] Hb. destruct (block_size_spec lay) as (Hb2 & _).
    set (b := block_size lay) in *. pose proof (is_pow2_pos _ Hb2).
    change (heap_alloc lay (add_to_heap s e h)) with
      (ref_alloc lay (mkHeap (ref_total h + (e - s)) ((s, e) :: rh_ranges h))).
    unfold ref_alloc. fold b.
    assert (b <=? ref_total (mkHeap (ref_total h + (e - s)) ((s, e) :: rh_ranges h)) = true) as ->
      by (apply Z.leb_le; unfold ref_total; cbn; lia).
    cbn [take_first rh_ranges]. assert (take_block b (s, e) = Some (b * ((s + b - 1) `div` b))) as ->; [|by eexists].
    unfold take_block. cbn. rewrite (proj2 (Z.leb_le _ _)); [done|].
    assert ((s + b - 1) `div` b ≤ k); [|nia].
    assert ((s + b - 1) `div` b < k + 1); [|lia]. apply Z.div_lt_upper_bound; nia.
  - intros lay h p h' Hal Ht. cbn in Ht. unfold ref_alloc in Ht.
    destruct (Z.leb_spec (block_size lay) (ref_total h)); [|done].
    destruct (take_first _ _) as [[q rs]|] eqn:Hf; [|done]. cbn in Ht. simplify_eq.
    split_and!; [done|done|]. apply take_first_divide in Hf.
    destruct (block_size_spec lay) as (Hb2 & _ & Hba & _).
    etransitivity; [by apply is_pow2_divide|done].
  - intros p lay h. cbn. unfold ref_total. cbn. lia.
  - intros lay h p h' Hal Ht. cbn in Ht. unfold ref_alloc in Ht.
    destruct (Z.leb_spec (block_size lay) (ref_total h)); [|done].
    destruct (take_first _ _) as [[q rs]|] eqn:Hf; [|done]. cbn in Ht. simplify_eq.
    apply take_first_divide in Hf as [k ->]. destruct (block_size_spec lay) as (Hb & _). apply is_pow2_pos in Hb.
    set (b := block_size lay) in *. assert (take_block b (k * b, k * b + b) = Some (k * b)) as Htb.
    { unfold take_block. cbn. replace ((k * b + b - 1) `div` b) with k.
      - rewrite (proj2 (Z.leb_le _ _)) by lia. f_equal. lia.
      - apply (Z.div_unique _ _ _ (b - 1)); lia. }
    eexists. cbn. unfold ref_alloc. fold b. unfold ref_total in *. cbn [rh_total rh_ranges].
    rewrite (proj2 (Z.leb_le _ _)) by lia. cbn [take_first]. by rewrite Htb.
  - intros rescue lay s h. done.
Qed.

(** ** Witnesses *)

Definition empty : RefHeap := mkHeap 0 [].

Lemma st0_slot p i :
  l4_slot p = i → i ≠ 100%nat → space pmo st0 0x1000 p = None.
Proof. by apply machine_slot. Qed.

Lemma empty_ready base fl s :
  (∀ p, base ≤ p < base + 2 ^ 38 → l4_slot p = s) → s ≠ 100%nat →
  heap_ready pmo base fl [0x1000] st0 empty.
Proof.
  intros Hs Hne. split.
  - by left.
  - intros p _ Hp. cbn in Hp. unfold ref_total in Hp. cbn in Hp. lia.
  - intros p _ Hp. cbn in Hp. unfold ref_total in Hp. cbn in Hp.
    split; [by right|]. apply (st0_slot p s); [apply Hs; lia|done].
Qed.

Lemma kernel_heap_ready : heap_ready pmo v.KERNEL_HEAP_START kernel_heap_flags [0x1000] st0 empty.
Proof.
  apply (empty_ready _ _ 108%nat); [|done]. intros p Hp.
  change v.KERNEL_HEAP_START with (108 * 2 ^ 39) in Hp. unfold l4_slot.
  pose proof (l4_index_between 108 109 p ltac:(lia) ltac:(lia) ltac:(lia)). lia.
Qed.

Lemma user_heap_ready : heap_ready pmo v.USER_HEAP_START user_heap_flags [0x1000] st0 empty.
Proof.
  apply (empty_ready _ _ 0%nat); [|done]. intros p Hp.
  change v.USER_HEAP_START with (2 ^ 33) in Hp. unfold l4_slot.
  pose proof (l4_index_between 0 1 p ltac:(lia) ltac:(lia) ltac:(lia)). lia.
Qed.

Lemma small_request_ok (lay : Layout) k :
  1 ≤ size lay ≤ 2 ^ 33 → 0 ≤ k ≤ 33 → align lay = 2 ^ k → request_ok 0 lay.
Proof.
  intros Hs Hk Ha. split; [by left|lia|done|]. rewrite Ha.
  split; [apply is_pow2_pow; lia|apply Z.pow_le_mono_r; lia].
Qed.

Lemma frames_free lay added :
  heap_growth 0 lay = Val added → Z.max added 4096 ≤ 8192 → frames_for 0 lay free.
Proof.
  intros Hg Hle a Ha. assert (a = added) as -> by congruence. rewrite Z.add_0_l, Z.sub_0_r.
  change (Z.of_nat (length free)) with 12. Z.div_mod_to_equations. lia.
Qed.

(** One word is served; 8 bytes aligned to 8 KiB are not. *)
Lemma kernel_alloc_spec_witness :
  (∃ ptr st' h' l', kernel_alloc (mkLayout 24 8) (st0, empty) = Val (Some ptr, (st', h')) ∧
    kinv pmo st' [0x1000] l' ∧ (8 | ptr)) ∧
  ∃ st' h', kernel_alloc (mkLayout 8 8192) (st0, empty) = Val (None, (st', h')).
Proof.
  split.
  - destruct (kernel_alloc_spec st0 empty [0x1000] free (mkLayout 24 8) st0_inv kernel_heap_ready)
      as [[_ Hn]|(o & st' & h' & l' & Hr & Hk & Ha & Ho)].
    + apply (small_request_ok _ 3); cbn; lia.
    + exfalso. apply Hn, (frames_free _ 64); [by vm_compute|lia].
    + destruct o as [ptr|]; [exists ptr, st', h', l'; split_and!; [exact Hr|exact Hk|by apply Ha]|].
      exfalso. destruct (proj1 Ho eq_refl) as (_ & Hal & _). by vm_compute in Hal.
  - destruct (kernel_alloc_spec st0 empty [0x1000] free (mkLayout 8 8192) st0_inv kernel_heap_ready)
      as [[_ Hn]|(o & st' & h' & l' & Hr & _ & _ & Ho)].
    + apply (small_request_ok _ 13); cbn; lia.
    + exfalso. apply Hn, (frames_free _ 16); [by vm_compute|lia].
    + exists st', h'. rewrite Hr. by rewrite (proj2 Ho) by by vm_compute.
Defined.

Lemma user_alloc_spec_witness :
  ∃ ptr st' h' l', user_alloc (mkLayout 24 8) (st0, empty) = Val (Some ptr, (st', h')) ∧
    kinv pmo st' [0x1000] l' ∧ (8 | ptr).
Proof.
  destruct (user_alloc_spec st0 empty [0x1000] free (mkLayout 24 8) st0_inv user_heap_ready)
    as [[_ Hn]|(o & st' & h' & l' & Hr & Hk & Ha & Ho)].
  - apply (small_request_ok _ 3); cbn; lia.
  - exfalso. apply Hn, (frames_free _ 64); [by vm_compute|lia].
  - destruct o as [ptr|]; [exists ptr, st', h', l'; split_and!; [exact Hr|exact Hk|by apply Ha]|].
    exfalso. destruct (proj1 Ho eq_refl) as (_ & Hal & _). by vm_compute in Hal.
Defined.

Lemma heap_growth_spec_witness :
  ∃ added, heap_growth 4096 (mkLayout 5000 8) = Val added ∧ heap_total_ok (Z.max (4096 + added) 4096).
Proof.
  destruct (heap_growth_spec 4096 (mkLayout 5000 8)) as (added & Hg & Ht & _).
  - split; [right; split; [by exists 12|lia]|lia|cbn; lia|split; [by exists 3|cbn; lia]].
  - exists added. split; [exact Hg|exact Ht].
Defined.

(** 8 bytes aligned to 8 KiB: one page is added, and it cannot hold the block. *)
Lemma first_aligned_alloc_fails_witness :
  ∃ st' h', kernel_alloc (mkLayout 8 8192) (st0, empty) = Val (None, (st', h')) ∧ 0 < stats_total_bytes h'.
Proof.
  apply (first_aligned_alloc_fails st0 empty [0x1000] free (mkLayout 8 8192) st0_inv kernel_heap_ready).
  - apply (small_request_ok _ 13); cbn; lia.
  - apply (frames_free _ 16); [by vm_compute|lia].
  - reflexivity.
  - cbn; lia.
  - cbn; lia.
Defined.

Lemma freed_block_reused_witness :
  match kernel_alloc (mkLayout 24 8) (st0, empty) with
  | Val (Some ptr, (st', h')) =>
      ∃ ptr2 h2, (kernel_dealloc ptr (mkLayout 24 8) ≫= λ _, kernel_alloc (mkLayout 24 8)) (st', h') = Val (Some ptr2, (st', h2))
  | _ => False
  end.
Proof.
  destruct (kernel_alloc (mkLayout 24 8) (st0, empty)) as [[[ptr|] [st' h']]|] eqn:Hr.
  - destruct (freed_block_reused st0 empty (mkLayout 24 8) ptr st' h') as [Hk _]; [by exists 3|].
    destruct (Hk Hr) as (ptr2 & h2 & Hr2 & _). exists ptr2, h2. exact Hr2.
  - by vm_compute in Hr.
  - by vm_compute in Hr.
Defined.
