(* ===== verification/KernelAllocDemo.v ===== *)
(** * The kernel's allocator on a concrete machine

    The free memory of the concrete heap is that of its ranges, which never
    overlap.  Only witnesses use this file. *)

From S2P Require Import Prelude Constants Platform FrameAlloc Paging Memory AddressSpace Isolation IsolationDemo MapPages UserMem RawMem Heap HeapDemo KernelAlloc.

#[local] Existing Instance dev_profile.
Import RefX86 RefBoot RefMapper.

Definition in_range_of (r : Z * Z) (a : Z) : Prop := fst r ≤ a < snd r.
Definition in_ranges (rs : list (Z * Z)) (a : Z) : Prop := ∃ r, r ∈ rs ∧ in_range_of r a.

Fixpoint apart (rs : list (Z * Z)) : Prop :=
  match rs with
  | [] => True
  | r :: rs' => (∀ a, in_range_of r a → ¬ in_ranges rs' a) ∧ apart rs'
  end.

Lemma in_ranges_cons r rs a : in_ranges (r :: rs) a ↔ in_range_of r a ∨ in_ranges rs a.
Proof.
  unfold in_ranges. split.
  - intros (r' & [->|Hr]%elem_of_cons & Ha); [by left|right; by exists r'].
  - intros [Ha|(r' & Hr & Ha)]; [exists r|exists r']; split; try done; [left|by right].
Qed.

Lemma take_block_in b r p : 0 < b → take_block b r = Some p → fst r ≤ p ∧ p + b ≤ snd r.
Proof.
  intros Hb. unfold take_block. destruct (Z.leb_spec (b * ((fst r + b - 1) `div` b) + b) (snd r)); [|done].
  intros [= <-]. split; [|lia]. Z.div_mod_to_equations. nia.
Qed.

Lemma take_first_free b rs p rs' :
  0 < b → apart rs → take_first b rs = Some (p, rs') →
  apart rs' ∧ (∀ a, p ≤ a < p + b → in_ranges rs a) ∧
  (∀ a, in_ranges rs' a → in_ranges rs a ∧ ¬ (p ≤ a < p + b)).
Proof.
  intros Hb. revert rs'. induction rs as [|r rs IH]; intros rs' Hap Ht; [done|].
  destruct Hap as [Hr Hap]. cbn in Ht. destruct (take_block b r) as [q|] eqn:Hq.
  - simplify_eq. apply take_block_in in Hq as [H1 H2]; [|done]. split_and!; [done| |].
    + intros a Ha. apply in_ranges_cons. left. unfold in_range_of. lia.
    + intros a Ha. split; [apply in_ranges_cons; by right|]. intros Hin. apply (Hr a); [|done].
      unfold in_range_of. lia.
  - destruct (take_first b rs) as [[q rest]|]; [|done]. cbn in Ht. simplify_eq.
    destruct (IH _ Hap eq_refl) as (Ha1 & Hblk & Hrest). split_and!.
    + split; [|done]. intros a Ha Hin. apply (Hr a Ha). by apply Hrest.
    + intros a Ha. apply in_ranges_cons. right. by apply Hblk.
    + intros a [Ha|Ha]%in_ranges_cons.
      * split; [apply in_ranges_cons; by left|]. intros Hin. by apply (Hr a Ha), Hblk.
      * destruct (Hrest a Ha). split; [apply in_ranges_cons; by right|done].
Qed.

#[export, refine] Instance ref_heap_space : BuddySpace := {
  heap_ok h := apart (rh_ranges h);
  heap_free h := in_ranges (rh_ranges h) }.
Proof.
  - done.
  - by intros a (r & Hr%elem_of_nil & _).
  - intros s e h Hok Hn. split; [|done]. intros a Ha. by apply Hn.
  - intros s e h a [Ha|Ha]%in_ranges_cons; [by right|by left].
  - intros lay h p h' Hok Ha. cbn in Ha. unfold ref_alloc in Ha.
    destruct (block_size_spec lay) as (Hb%is_pow2_pos & _). case_match; [|done].
    destruct (take_first _ _) as [[q rs]|] eqn:Hf; [|done]. cbn in Ha. simplify_eq.
    by destruct (take_first_free _ _ _ _ Hb Hok Hf).
  - intros lay h p h' Hok Ha. cbn in Ha. unfold ref_alloc in Ha.
    destruct (block_size_spec lay) as (Hb%is_pow2_pos & _). case_match; [|done].
    destruct (take_first _ _) as [[q rs]|] eqn:Hf; [|done]. cbn in Ha. simplify_eq.
    by destruct (take_first_free _ _ _ _ Hb Hok Hf) as (_ & ? & ?).
  - intros p lay h Hok Hn. split; [|done]. intros a Ha. by apply Hn.
  - intros p lay h a [Ha|Ha]%in_ranges_cons; [by right|by left].
Defined.

(** A free list through the starts of the ranges. *)
Definition next_range (h : RefHeap) : Z := match rh_ranges h with [] => 0 | r :: _ => fst r end.

#[export] Instance ref_heap_nodes : BuddyNodes RefHeap := {
  add_nodes s e h := if s <? e then [(s, next_range h)] else [];
  alloc_nodes lay h := [];
  dealloc_nodes p lay h := [(p, next_range h)] }.

#[export] Instance ref_heap_nodes_laws : BuddyNodesLaws.
Proof.
  split.
  - intros s e h _ He [k Hk] [j Hj] a w i Hin Hi. cbn in Hin. destruct (Z.ltb_spec s e); [|by apply elem_of_nil in Hin].
    apply list_elem_of_singleton in Hin. simplify_eq. right. lia.
  - by intros lay h _ a w i Hin%elem_of_nil.
  - intros p lay h _ _ a w i Hin%list_elem_of_singleton Hi. simplify_eq. right.
    destruct (block_size_spec lay) as (_ & _ & _ & _). unfold block_size.
    pose proof (Z.log2_up_spec (Z.max (size lay) (Z.max (align lay) 8))). lia.
  - intros p lay h. by eexists _, [].
Qed.

Lemma st0_mem : kernel_mem (pmo:=pmo) st0 empty [0x1000] free.
Proof.
  split; [exact st0_inv|exact kernel_heap_ready|done| |].
  - by intros a (r & Hr%elem_of_nil & _).
  - assert (∀ p, ¬ heap_page v.KERNEL_HEAP_START (stats_total_bytes empty) p) as Hn.
    { intros p [_ Hp]. change (stats_total_bytes empty) with 0 in Hp. lia. }
    split; intros p ** ; by destruct (Hn p).
Qed.

Lemma kernel_alloc_zeroed_spec_witness :
  ∃ ptr st' h', kernel_alloc_zeroed (mkLayout 24 8) (st0, empty) = Val (Some ptr, (st', h')) ∧
    (∀ a, ptr ≤ a < ptr + 24 → vbyte pmo st' (k_cr3 st') a = Some 0).
Proof.
  destruct (kernel_alloc_zeroed_spec st0 empty [0x1000] free (mkLayout 24 8) st0_mem)
    as [[_ []]|(ptr & st' & h' & l' & Hr & _ & _ & _ & Hz)].
  - apply (small_request_ok _ 3); cbn; lia.
  - by intros (_ & Ha & _); vm_compute in Ha.
  - apply (frames_free _ 64); [by vm_compute|lia].
  - exists ptr, st', h'. split; [exact Hr|exact Hz].
Defined.

Lemma no_fault {S A B} (m : M S (option A)) (k : A → M S B) s p s1 f :
  is_val ((m ≫= λ o, liftr (unwrap o) ≫= k) s) = true → m s = Val (Some p, s1) → k p s1 = Fault f → False.
Proof.
  intros Hv Hm Hk. rewrite (M_bind_run _ _ _ _ _ Hm) in Hv.
  rewrite (M_bind_run _ _ _ p s1) in Hv by done. by rewrite Hk in Hv.
Qed.

(** A block of 24 bytes grows to 48: the heap needs another page. *)
Lemma kernel_realloc_spec_witness :
  ∃ ptr st1 h1 new_ptr st' h', kernel_alloc_zeroed (mkLayout 24 8) (st0, empty) = Val (Some ptr, (st1, h1)) ∧
    kernel_realloc ptr (mkLayout 24 8) 48 (st1, h1) = Val (Some new_ptr, (st', h')) ∧
    (∀ j, 0 ≤ j < 24 → vbyte pmo st' (k_cr3 st') (new_ptr + j) = vbyte pmo st1 (k_cr3 st1) (ptr + j)).
Proof.
  assert (request_ok 4096 (mkLayout 48 8)) as Hrq.
  { split; [right; split; [by exists 12|lia]|lia|cbn; lia|split; [by exists 3|cbn; lia]]. }
  assert (is_val ((kernel_alloc_zeroed (mkLayout 24 8) ≫= λ o, liftr (unwrap o) ≫=
    λ p, kernel_realloc p (mkLayout 24 8) 48) (st0, empty)) = true) as Hrun by by vm_compute.
  assert (match kernel_alloc_zeroed (mkLayout 24 8) (st0, empty) with
    | Val (_, s) => stats_total_bytes (snd s) | Fault _ => 0 end = 4096) as Htot by by vm_compute.
  destruct (kernel_alloc_zeroed_spec st0 empty [0x1000] free (mkLayout 24 8) st0_mem)
    as [[_ []]|(ptr & st1 & h1 & l1 & Hr & Hm & Ht & _)].
  - apply (small_request_ok _ 3); cbn; lia.
  - by intros (_ & Ha & _); vm_compute in Ha.
  - apply (frames_free _ 64); [by vm_compute|lia].
  - rewrite Hr in Htot. cbn [snd] in Htot.
    destruct (kernel_realloc_spec st1 h1 [0x1000] l1 ptr (mkLayout 24 8) 48 Hm)
      as [[Hf _]|(np & st' & h' & l' & Hr' & _ & _ & Hc & _)].
    + intros a Ha. by apply Ht.
    + cbn; lia.
    + rewrite Htot. exact Hrq.
    + exfalso. exact (no_fault _ _ _ _ _ _ Hrun Hr Hf).
    + exists ptr, st1, h1, np, st', h'. split_and!; [exact Hr|exact Hr'|exact Hc].
Defined.

(** On a machine with 12 free frames. *)
Lemma allocator_fail_test_panics_witness :
  allocator_fail_test 1 (st0, empty) = Fault Explicit.
Proof.
  apply (allocator_fail_test_panics st0 empty [0x1000] free 1 st0_mem); by vm_compute.
Defined.
