(* ===== verification/Loader.v ===== *)
(** * Loading applications (src/kernel/src/loader.rs)

    [prepare_application]: a new address space, the segments of the ELF file,
    the heap and the stack.  The ELF parser is the elf crate's, a class of
    operations.  The theorems: the mapping flags are write-xor-execute, a
    segment is loaded byte for byte, and the loader only takes the kernel's own
    memory steps, so the isolation theorems cover it. *)

From S2P Require Import Prelude Constants Platform FrameAlloc Paging Memory AddressSpace Isolation MapPages UserMem Heap Ports.

(** The program header and the operations of the elf crate. *)
Record ProgramHeader := mkPhdr { p_type : Z; p_vaddr : Z; p_memsz : Z; p_flags : Z }.

Class Elf := {
  ElfBytes : Type;
  minimal_parse : list Z → option ElfBytes;
  e_entry : ElfBytes → Z;
  segments : ElfBytes → option (list ProgramHeader);
  segment_data : ElfBytes → ProgramHeader → option (list Z) }.

(** elf::abi, from the ELF specification. *)
Module abi.
Definition PT_LOAD : Z := 1.
Definition PF_X : Z := 1.
Definition PF_W : Z := 2.
Definition PF_R : Z := 4.
End abi.

(** The page flags of a segment. *)
Definition segment_flags (raw_flags : Z) : res Z :=
  let raw_flag_exec := negb (Z.land raw_flags abi.PF_X =? 0) in
  let raw_flag_write := negb (Z.land raw_flags abi.PF_W =? 0) in
  let raw_flag_read := negb (Z.land raw_flags abi.PF_R =? 0) in
  ass (raw_flag_read || raw_flag_exec) ≫= λ _,
  let flags := 0 in
  let flags := if negb raw_flag_exec || raw_flag_write
               then Z.lor flags PageTableFlags.NO_EXECUTE else flags in
  let flags := if raw_flag_write then Z.lor flags PageTableFlags.WRITABLE else flags in
  Val flags.

Section Loader.
Context `{Profile} `{X86Addr} `{Boot} `{Mapper} `{Elf} `{BuddyHeap Heap}.

Record ApplicationResources := mkResources {
  l4_page_table : OffsetPageTable;
  entry_point_virt_addr : Z;
  heap : Heap }.

Definition map_segment (virt_addr size flags : Z) (data : list Z) : M Kernel () :=
  liftr (region_pages virt_addr size) ≫= λ page_range,
  for_each page_range (λ page,
    map_ram_user page (Z.lor flags PageTableFlags.WRITABLE) ≫= λ _, mret ()) ≫= λ _,
  vwrite_bytes virt_addr (replicate (Z.to_nat size) 0) ≫= λ _,
  (if Z.of_nat (length data) <=? size then mret () else fail Bounds) ≫= λ _,
  vwrite_bytes virt_addr data ≫= λ _,
  for_each page_range (λ page, change_flags page
    (Z.lor (Z.lor flags PageTableFlags.USER_ACCESSIBLE) PageTableFlags.PRESENT)).

Definition load_segment (file : ElfBytes) (segment : ProgramHeader) : M Kernel () :=
  if p_type segment =? abi.PT_LOAD then
    liftr (segment_flags (p_flags segment)) ≫= λ flags,
    liftr (unwrap (segment_data file segment)) ≫= λ data,
    map_segment (p_vaddr segment) (p_memsz segment) flags data
  else mret ().

Definition load (bytes : list Z) : M Kernel Z :=
  liftr (unwrap (minimal_parse bytes)) ≫= λ file,
  liftr (unwrap (segments file)) ≫= λ segs,
  for_each segs (load_segment file) ≫= λ _,
  mret (e_entry file).

Definition allocate_stack : M Kernel () :=
  liftr (add64 v.USER_STACK_START 4096) ≫= λ base_virt_addr,
  liftr (sub64 (USER_STACK_SIZE `div` 4096) 1) ≫= λ page_count,
  for_each (range 0 page_count) (λ i,
    liftr (mul64 i 4096) ≫= λ d,
    liftr (add64 base_virt_addr d) ≫= λ a,
    liftr (VirtAddr_new a) ≫= λ virt,
    liftr (unwrap (Page_from_start_address virt)) ≫= λ page,
    map_ram_user page (Z.lor PageTableFlags.WRITABLE PageTableFlags.NO_EXECUTE) ≫= λ _,
    mret ()).

Definition prepare_application (file : list Z) : M Kernel ApplicationResources :=
  create_user_page_table ≫= λ user_page_table,
  switch_to_user_page_table user_page_table ≫= λ _,
  load file ≫= λ entry_point,
  let heap := heap_new in
  allocate_stack ≫= λ _,
  switch_to_kernel_page_table ≫= λ _,
  mret (mkResources user_page_table entry_point heap).

(** [drop], which frees nothing yet, and [free_application]. *)
Definition drop_resources (resources : ApplicationResources) : M Kernel () :=
  switch_to_user_page_table (l4_page_table resources) ≫= λ _,
  switch_to_kernel_page_table.

Definition free_application (resources : ApplicationResources) : M Kernel () := drop_resources resources.
End Loader.
Arguments ApplicationResources : clear implicits.

(** ** What the loops of the loader do to the user spaces *)

(** The user pages outside [P] keep translation and contents. *)
Definition kept (pmo : Z) (us : list Z) (P : Z → Z → Prop) (st st' : Kernel) : Prop :=
  ∀ r x, r ∈ us → user_page (page_of x) → ¬ P r (page_of x) →
    space pmo st' r (page_of x) = space pmo st r (page_of x) ∧
    vbyte pmo st' r x = vbyte pmo st r x.

Lemma kept_trans pmo us (P Q R : Z → Z → Prop) st1 st2 st3 :
  kept pmo us P st1 st2 → kept pmo us Q st2 st3 →
  (∀ r p, P r p → R r p) → (∀ r p, Q r p → R r p) → kept pmo us R st1 st3.
Proof.
  intros H1 H2 HP HQ r x Hr Hx Hn.
  destruct (H1 r x Hr Hx) as [Hs1 Hb1]; [by intros ?%HP|].
  destruct (H2 r x Hr Hx) as [Hs2 Hb2]; [by intros ?%HQ|]. split; congruence.
Qed.

Lemma page_of_page p : (4096 | p) → page_of p = p.
Proof. apply page_of_aligned. Qed.

Definition user_flags (flags : Z) : Z :=
  Z.lor (Z.lor flags PageTableFlags.USER_ACCESSIBLE) PageTableFlags.PRESENT.

Section LoaderLemmas.
Context `{Profile} `{X86AddrLaws} `{BootOk pmo} `{Mapper} `{!MapperLaws pmo}.
Context (k0 : Z) (pool : list Z).

Definition in_pages (a : Z) (ps : list Z) : Z → Z → Prop := λ r p, r = a ∧ p ∈ ps.

(** One [map_ram_user] of an unmapped page. *)
Lemma map_user_page st us l p flags :
  user_inv pmo k0 pool st us l → k_cr3 st ∈ us → user_page p → (4096 | p) →
  space pmo st (k_cr3 st) p = None → (4 ≤ length l)%nat →
  ∃ f st' l', map_ram_user p flags st = Val (f, st') ∧ user_inv pmo k0 pool st' us l' ∧
    k_cr3 st' = k_cr3 st ∧ (length l ≤ length l' + 4)%nat ∧
    space pmo st' (k_cr3 st) p = Some (f, user_flags flags) ∧
    kept pmo us (in_pages (k_cr3 st) [p]) st st'.
Proof.
  intros Hi Hact Hp Hd Hsp Hlen. pose proof (ui_kinv _ _ _ _ _ _ Hi) as Hk.
  rewrite map_ram_user_run, bool_decide_eq_true_2 by done.
  pose proof (map_ram_effect st _ l p (user_flags flags) Hk (mappable_user _ _ _ _ Hp)) as He.
  destruct l as [|f l0]; [cbn in Hlen; lia|]. rewrite Hsp in He.
  destruct He as [[_ ?]|(st' & l' & Hrun & Hm)]; [cbn in Hlen; lia|].
  destruct (user_inv_mapped _ _ _ _ _ _ _ _ _ _ Hi (λ _, Hact) Hm) as [Hi' Ho].
  assert (∀ r q, r ∈ us → user_page q → ¬ (r = k_cr3 st ∧ q = p) →
    space pmo st' r q = space pmo st r q) as Hspace.
  { intros r q Hr Hq Hn. rewrite (mt_space _ _ _ _ _ _ _ _ _ Hm) by (by right).
    apply decide_False. intros [-> Hs]. apply Hn. split; [|done].
    by apply (same_table_user pmo st (k0 :: us) (f :: l0) (k_cr3 st) r p Hk ltac:(by right) ltac:(by right) Hp) in Hs. }
  exists f, st', l'. split_and!; [done|done|by apply Hm| | |].
  - destruct (mt_free _ _ _ _ _ _ _ _ _ Hm) as (k & ? & ->). rewrite length_drop. cbn. lia.
  - rewrite (mt_space _ _ _ _ _ _ _ _ _ Hm) by (by right). apply decide_True. split; [done|by left].
  - intros r x Hr Hx Hn.
    assert (¬ (r = k_cr3 st ∧ page_of x = p)) as Hn'.
    { intros [-> Hpx]. apply Hn. split; [done|]. rewrite Hpx. left. }
    rewrite Hspace by done. split; [done|]. unfold vbyte. rewrite Hspace by done.
    destruct (space pmo st r (page_of x)) as [[g gl]|] eqn:Hg; [|done].
    destruct (ui_leaf _ _ _ _ _ _ Hi _ _ _ _ Hr Hx Hg) as (_ & [? ?]%not_elem_of_cons & ? & ?).
    by rewrite (mt_cells _ _ _ _ _ _ _ _ _ Hm).
Qed.

(** The mapping loop. *)
Lemma map_user_loop ps flags st us l :
  user_inv pmo k0 pool st us l → k_cr3 st ∈ us → NoDup ps →
  (∀ p, p ∈ ps → user_page p ∧ (4096 | p) ∧ space pmo st (k_cr3 st) p = None) →
  (4 * length ps ≤ length l)%nat →
  ∃ st' l', for_each ps (λ p, map_ram_user p flags ≫= λ _, mret ()) st = Val ((), st') ∧
    user_inv pmo k0 pool st' us l' ∧ k_cr3 st' = k_cr3 st ∧
    (length l ≤ length l' + 4 * length ps)%nat ∧
    rtc (mem_step pmo) (st, us) (st', us) ∧
    (∀ p, p ∈ ps → ∃ f, space pmo st' (k_cr3 st) p = Some (f, user_flags flags)) ∧
    kept pmo us (in_pages (k_cr3 st) ps) st st'.
Proof.
  revert st l. induction ps as [|p ps IH]; intros st l Hi Hact Hnd Hps Hlen.
  - exists st, l. split_and!; [done..|lia|done| |done]. by intros p ?%elem_of_nil.
  - apply NoDup_cons in Hnd as [Hpn Hnd]. destruct (Hps p) as (Hp & Hd & Hsp); [left|].
    cbn [length] in Hlen.
    destruct (map_user_page st us l p flags Hi Hact Hp Hd Hsp)
      as (f & st1 & l1 & Hrun & Hi1 & Hc & Hl1 & Hf & Hk1); [lia|].
    assert (∀ q, user_page q → (4096 | q) → q ≠ p →
      space pmo st1 (k_cr3 st) q = space pmo st (k_cr3 st) q) as Hq1.
    { intros q Hq Hqd Hne. destruct (Hk1 (k_cr3 st) q Hact) as [Hs _].
      - by rewrite page_of_page.
      - rewrite page_of_page by done. intros [_ ?%list_elem_of_singleton]. done.
      - by rewrite page_of_page in Hs. }
    destruct (IH st1 l1 Hi1) as (st' & l' & Hrun' & Hi' & Hc' & Hl' & Hsteps & Hnew & Hk').
    { by rewrite Hc. }
    { done. }
    { intros q Hq. destruct (Hps q) as (Hqu & Hqd & Hqs); [by right|]. rewrite Hc, Hq1; [done..|].
      intros ->. done. }
    { lia. }
    rewrite Hc in *. exists st', l'. split_and!; [|done|congruence|cbn; lia| | |].
    + cbn. rewrite (M_bind_run _ _ _ () st1); [done|]. by rewrite (M_bind_run _ _ _ _ _ Hrun).
    + eapply rtc_l; [by eapply ms_map_user|done].
    + intros q [->|Hq]%elem_of_cons; [|by apply Hnew].
      exists f. destruct (Hk' (k_cr3 st) p Hact) as [Hs _].
      * by rewrite page_of_page.
      * rewrite page_of_page by done. by intros [_ ?].
      * rewrite page_of_page in Hs by done. by rewrite Hs.
    + eapply kept_trans; [done..| |].
      * intros r q [-> ->%list_elem_of_singleton]. split; [done|left].
      * intros r q [-> ?]. split; [done|by right].
Qed.

(** Re-protecting one page. *)
Lemma change_user_page p flags st us l f fl :
  user_inv pmo k0 pool st us l → k_cr3 st ∈ us → user_page p → space pmo st (k_cr3 st) p = Some (f, fl) →
  ∃ st', change_flags p flags st = Val ((), st') ∧
    user_inv pmo k0 pool st' us l ∧ k_cr3 st' = k_cr3 st ∧ mem_step pmo (st, us) (st', us) ∧
    (∀ r q, r ∈ us → user_page q → space pmo st' r q =
      if decide (q = p ∧ r = k_cr3 st) then Some (f, flags) else space pmo st r q) ∧
    (∀ r x, r ∈ us → user_page (page_of x) → vbyte pmo st' r x = vbyte pmo st r x).
Proof.
  intros Hi Hact Hp Hf. pose proof (ui_kinv _ _ _ _ _ _ Hi) as Hk.
  pose proof (change_flags_effect _ _ _ p flags Hk) as Hch. rewrite Hf in Hch.
  destruct Hch as (st1 & Hrun & Hrm).
  destruct (user_inv_remapped (pmo:=pmo) k0 pool st us l p f fl (Some (f, flags)) l st1) as [Hi1 Ho];
    [done..|right; by eauto|done|].
  assert (∀ r q, r ∈ us → user_page q → space pmo st1 r q =
    if decide (q = p ∧ r = k_cr3 st) then Some (f, flags) else space pmo st r q) as Hspace.
  { intros r q Hr Hq. rewrite (rm_space _ _ _ _ _ _ Hrm) by (by right).
    apply decide_ext. split; intros [-> Hs]; (split; [done|]); [|by left].
    by apply (same_table_user pmo st (k0 :: us) l (k_cr3 st) r p Hk ltac:(by right) ltac:(by right) Hp) in Hs. }
  exists st1. split_and!; [done|done|by apply (rm_cr3 _ _ _ _ _ _ Hrm)|by eapply ms_protect_user|done|].
  intros r x Hr Hx. unfold vbyte. rewrite Hspace by done.
  destruct (space pmo st r (page_of x)) as [[g gl]|] eqn:Hg.
  - destruct (ui_leaf _ _ _ _ _ _ Hi _ _ _ _ Hr Hx Hg) as (_ & ? & _ & ?).
    case_decide as Hdec; [|by rewrite (rm_cells _ _ _ _ _ _ Hrm)].
    destruct Hdec as [Hpx ->]. rewrite Hpx, Hf in Hg. injection Hg as <- <-.
    by rewrite (rm_cells _ _ _ _ _ _ Hrm).
  - rewrite decide_False; [done|]. intros [Hpx ->]. rewrite Hpx in Hg. congruence.
Qed.

(** The re-protecting loop. *)
Lemma change_loop ps flags st us l :
  user_inv pmo k0 pool st us l → k_cr3 st ∈ us → NoDup ps →
  (∀ p, p ∈ ps → user_page p ∧ (4096 | p) ∧ space pmo st (k_cr3 st) p ≠ None) →
  ∃ st', for_each ps (λ p, change_flags p flags) st = Val ((), st') ∧
    user_inv pmo k0 pool st' us l ∧ k_cr3 st' = k_cr3 st ∧
    rtc (mem_step pmo) (st, us) (st', us) ∧
    (∀ p, p ∈ ps → ∃ f, space pmo st' (k_cr3 st) p = Some (f, flags)) ∧
    (∀ r x, r ∈ us → user_page (page_of x) → vbyte pmo st' r x = vbyte pmo st r x) ∧
    kept pmo us (in_pages (k_cr3 st) ps) st st'.
Proof.
  revert st. induction ps as [|p ps IH]; intros st Hi Hact Hnd Hps.
  { exists st. split_and!; [done..| |done|done]. by intros p ?%elem_of_nil. }
  apply NoDup_cons in Hnd as [Hpn Hnd]. destruct (Hps p) as (Hp & Hd & Hsp); [left|].
  destruct (space pmo st (k_cr3 st) p) as [[f fl]|] eqn:Hf; [|done].
  destruct (change_user_page p flags st us l f fl Hi Hact Hp Hf) as (st1 & Hrun & Hi1 & Hc & Hstep & Hspace & Hb1).
  destruct (IH st1 Hi1) as (st' & Hrun' & Hi' & Hc' & Hsteps & Hnew & Hb' & Hk').
  { by rewrite Hc. }
  { done. }
  { intros q Hq. destruct (Hps q) as (Hqu & Hqd & Hqs); [by right|].
    rewrite Hc, Hspace by done. split_and!; [done..|]. by case_decide. }
  rewrite Hc in *. exists st'. split_and!; [|done|congruence|by eapply rtc_l| | |].
  - cbn. by rewrite (M_bind_run _ _ _ _ _ Hrun).
  - intros q [->|Hq]%elem_of_cons; [|by apply Hnew].
    exists f. destruct (Hk' (k_cr3 st) p Hact) as [Hs _].
    + by rewrite page_of_page.
    + rewrite page_of_page by done. by intros [_ ?].
    + rewrite page_of_page in Hs by done. rewrite Hs, Hspace by done. by apply decide_True.
  - intros r x Hr Hx. by rewrite Hb', Hb1.
  - apply (kept_trans _ _ (in_pages (k_cr3 st) [p]) (in_pages (k_cr3 st) ps) _ _ st1); [|done|..].
    + intros r x Hr Hx Hn. split; [|by apply Hb1]. rewrite Hspace by done. apply decide_False.
      intros [Hpx ->]. apply Hn. split; [done|]. rewrite Hpx. left.
    + intros r q [-> ->%list_elem_of_singleton]. split; [done|left].
    + intros r q [-> ?]. split; [done|by right].
Qed.

(** ** Segments *)

Definition in_region (a size x : Z) : Prop := a ≤ x < a + size.

(** The pages of a region in the space [act]. *)
Definition region_in (act a size : Z) : Z → Z → Prop := λ r p,
  r = act ∧ ∃ x, in_region a size x ∧ p = page_of x.

Definition page_count (a size : Z) : nat :=
  Z.to_nat ((page_of (a + size - 1) - page_of a) `div` 4096 + 1).

(** The byte at offset [i] of a segment with file contents [data]. *)
Definition segment_byte (data : list Z) (i : Z) : Z := default 0 (data !! Z.to_nat i).

(** A region holds the segment: its flags and its bytes. *)
Definition holds_segment (st : Kernel) (act a size flags : Z) (data : list Z) : Prop :=
  ∀ x, in_region a size x →
    (∃ f, space pmo st act (page_of x) = Some (f, user_flags flags)) ∧
    vbyte pmo st act x = Some (segment_byte data (x - a)).

Lemma user_page_of x : 0 ≤ x < v.USER_END → user_page (page_of x).
Proof.
  intros Hx. pose proof (page_of_bounds x) as Hb. split; [|lia].
  change v.USER_START with 0. unfold page_of. pose proof (Z.div_pos x 4096). lia.
Qed.

Lemma user_flags_writable flags :
  Z.testbit (user_flags (Z.lor flags PageTableFlags.WRITABLE)) 1 = true.
Proof. unfold user_flags. rewrite !Z.lor_spec. by rewrite !orb_true_r. Qed.

(** The contents of a segment: zeros, then the bytes of the file. *)
Lemma fill_segment st us l a size data :
  user_inv pmo k0 pool st us l → 0 ≤ size → Z.of_nat (length data) ≤ size →
  (∀ x, in_region a size x → writable (pmo:=pmo) st us x) →
  ∃ st1 st2, vwrite_bytes a (replicate (Z.to_nat size) 0) st = Val ((), st1) ∧
    vwrite_bytes a data st1 = Val ((), st2) ∧ user_inv pmo k0 pool st2 us l ∧ k_cr3 st2 = k_cr3 st ∧
    rtc (mem_step pmo) (st, us) (st2, us) ∧
    (∀ r p, r ∈ us → space pmo st2 r p = space pmo st r p) ∧
    (∀ r x, r ∈ us → user_page (page_of x) → vbyte pmo st2 r x =
      if decide (r = k_cr3 st ∧ in_region a size x) then Some (segment_byte data (x - a)) else vbyte pmo st r x).
Proof.
  intros Hi Hsize Hdata Hw.
  destruct (vwrite_bytes_effect k0 pool (replicate (Z.to_nat size) 0) st us l a Hi) as (st1 & Hrun1 & Hi1 & Hwb1).
  { intros x Hx. rewrite length_replicate in Hx. apply Hw. unfold in_region. lia. }
  destruct (vwrite_bytes_effect k0 pool data st1 us l a Hi1) as (st2 & Hrun2 & Hi2 & Hwb2).
  { intros x Hx. apply (writable_ext k0 st); [by apply Hwb1..|]. apply Hw. unfold in_region. lia. }
  pose proof (wb_cr3 _ _ _ _ _ _ Hwb1) as Hc1. pose proof (wb_cr3 _ _ _ _ _ _ Hwb2) as Hc2.
  exists st1, st2. split_and!; [done|done|done|congruence|by etransitivity; [apply Hwb1|apply Hwb2]| |].
  - intros r p Hr. by rewrite (wb_space _ _ _ _ _ _ Hwb2), (wb_space _ _ _ _ _ _ Hwb1) by (by right).
  - intros r x Hr Hx. rewrite (wb_byte _ _ _ _ _ _ Hwb2), (wb_byte _ _ _ _ _ _ Hwb1) by done.
    rewrite Hc1, length_replicate. unfold segment_byte, in_region.
    destruct (decide (r = k_cr3 st ∧ a ≤ x < a + size)) as [[-> Hxr]|Hn].
    + case_decide as Hd.
      * destruct (lookup_lt_is_Some_2 data (Z.to_nat (x - a))) as [b Hb]; [lia|]. by rewrite Hb.
      * rewrite (lookup_ge_None_2 data) by (apply Nat.nlt_ge; intros ?; apply Hd; split; [done|lia]).
        rewrite decide_True by (split; [done|lia]). apply lookup_replicate_2. lia.
    + rewrite !decide_False; [done|..]; intros [-> Hxr]; apply Hn; (split; [done|lia]).
Qed.

Lemma map_segment_effect st us l a size flags data :
  user_inv pmo k0 pool st us l → k_cr3 st ∈ us →
  0 ≤ a → 0 < size → a + size ≤ v.USER_END → Z.of_nat (length data) ≤ size →
  (∀ x, in_region a size x → space pmo st (k_cr3 st) (page_of x) = None) →
  (4 * page_count a size ≤ length l)%nat →
  ∃ st' l', map_segment a size flags data st = Val ((), st') ∧
    user_inv pmo k0 pool st' us l' ∧ k_cr3 st' = k_cr3 st ∧
    (length l ≤ length l' + 4 * page_count a size)%nat ∧
    rtc (mem_step pmo) (st, us) (st', us) ∧
    holds_segment st' (k_cr3 st) a size flags data ∧
    kept pmo us (region_in (k_cr3 st) a size) st st'.
Proof.
  intros Hi Hact Ha Hsize Hend Hdata Hun Hlen.
  change v.USER_END with (2 ^ 39) in Hend.
  destruct (region_pages_spec a size) as (ps & Hps & Hnd & Hcount & Hin); [lia..|].
  assert (length ps = page_count a size) as Hpc by (unfold page_count; lia). rewrite <-Hpc in *.
  assert (∀ p, p ∈ ps → user_page p ∧ (4096 | p)) as Hup.
  { intros p (x & Hx & ->)%Hin. split; [|apply page_of_divide].
    apply user_page_of. change v.USER_END with (2 ^ 39). lia. }
  destruct (map_user_loop ps (Z.lor flags PageTableFlags.WRITABLE) st us l Hi Hact Hnd)
    as (st1 & l' & Hrun1 & Hi1 & Hc1 & Hl' & Hsteps1 & Hnew1 & Hkept1).
  { intros p Hp. split_and!; [by apply Hup..|]. apply Hin in Hp as (x & Hx & ->). by apply Hun. }
  { lia. }
  assert (∀ x, in_region a size x → writable (pmo:=pmo) st1 us x) as Hw1.
  { intros x Hx. assert (page_of x ∈ ps) as Hxp by (apply Hin; by exists x).
    destruct (Hnew1 _ Hxp) as (f & Hf). split_and!; [by rewrite Hc1|by apply Hup|].
    exists f, (user_flags (Z.lor flags PageTableFlags.WRITABLE)). rewrite Hc1.
    split; [done|apply user_flags_writable]. }
  destruct (fill_segment st1 us l' a size data Hi1 ltac:(lia) Hdata Hw1)
    as (st2 & st3 & Hrun2 & Hrun3 & Hi3 & Hc3 & Hsteps3 & Hsp3 & Hb3).
  destruct (change_loop ps (user_flags flags) st3 us l' Hi3)
    as (st4 & Hrun4 & Hi4 & Hc4 & Hsteps4 & Hnew4 & Hb4 & Hkept4).
  { by rewrite Hc3, Hc1. }
  { done. }
  { intros p Hp. split_and!; [by apply Hup..|]. rewrite Hc3, Hc1, Hsp3 by done.
    destruct (Hnew1 p Hp) as (f & ->). done. }
  rewrite Hc3, Hc1 in *.
  exists st4, l'. split_and!; [|done|congruence|done|by do 2 (etransitivity; [done|])| |].
  - unfold map_segment. rewrite (M_bind_run _ _ _ _ _ (liftr_run _ _ _ Hps)).
    rewrite (M_bind_run _ _ _ _ _ Hrun1), (M_bind_run _ _ _ _ _ Hrun2).
    rewrite (proj2 (Z.leb_le _ _) Hdata). rewrite (M_bind_run _ _ _ () st2) by done.
    by rewrite (M_bind_run _ _ _ _ _ Hrun3).
  - intros x Hx. assert (page_of x ∈ ps) as Hxp by (apply Hin; by exists x).
    destruct (Hup _ Hxp) as [Hxu _]. split; [by apply Hnew4|].
    rewrite Hb4, Hb3 by done. by apply decide_True.
  - assert (∀ r p, region_in (k_cr3 st) a size r p ↔ in_pages (k_cr3 st) ps r p) as Hri.
    { intros r p. unfold region_in, in_pages. by rewrite Hin. }
    intros r x Hr Hx Hn. rewrite Hri in Hn.
    destruct (Hkept1 r x Hr Hx Hn) as [Hs1 Hb1]. destruct (Hkept4 r x Hr Hx Hn) as [Hs4 _].
    split; [by rewrite Hs4, Hsp3, Hs1|]. rewrite Hb4, Hb3 by done.
    rewrite decide_False; [done|]. intros [-> Hxr]. apply Hn. split; [done|]. apply Hin. by exists x.
Qed.

(** *** All segments *)

Section Segments.
Context `{Elf} (file : ElfBytes).

Definition is_load (seg : ProgramHeader) : Prop := p_type seg = abi.PT_LOAD.

(** What the loader needs of a loadable segment. *)
Definition seg_ok (seg : ProgramHeader) : Prop :=
  ∃ fl data, segment_flags (p_flags seg) = Val fl ∧ segment_data file seg = Some data ∧
    0 ≤ p_vaddr seg ∧ 0 < p_memsz seg ∧ p_vaddr seg + p_memsz seg ≤ v.USER_STACK_START ∧
    Z.of_nat (length data) ≤ p_memsz seg.

Definition seg_region (act : Z) (seg : ProgramHeader) : Z → Z → Prop :=
  region_in act (p_vaddr seg) (p_memsz seg).

(** No two loadable segments touch the same page. *)
Fixpoint pages_disjoint (segs : list ProgramHeader) : Prop :=
  match segs with
  | [] => True
  | s :: segs' =>
      (is_load s → ∀ s', s' ∈ segs' → is_load s' →
         ∀ p, ¬ (seg_region 0 s 0 p ∧ seg_region 0 s' 0 p)) ∧ pages_disjoint segs'
  end.

Definition seg_pages (seg : ProgramHeader) : nat :=
  if p_type seg =? abi.PT_LOAD then page_count (p_vaddr seg) (p_memsz seg) else 0%nat.

Fixpoint pages_needed (segs : list ProgramHeader) : nat :=
  match segs with
  | [] => 0%nat
  | s :: segs' => (seg_pages s + pages_needed segs')%nat
  end.

(** The space [act] holds every loadable segment. *)
Definition holds_file (st : Kernel) (act : Z) (segs : list ProgramHeader) : Prop :=
  ∀ seg, seg ∈ segs → is_load seg → ∃ fl data,
    segment_flags (p_flags seg) = Val fl ∧ segment_data file seg = Some data ∧
    holds_segment st act (p_vaddr seg) (p_memsz seg) fl data.

Definition segs_region (act : Z) (segs : list ProgramHeader) : Z → Z → Prop := λ r p,
  ∃ seg, seg ∈ segs ∧ is_load seg ∧ seg_region act seg r p.

Lemma seg_user seg x : seg_ok seg → in_region (p_vaddr seg) (p_memsz seg) x → user_page (page_of x).
Proof.
  intros (fl & data & _ & _ & Ha & _ & Hend & _) Hx. apply user_page_of. unfold in_region in Hx.
  assert (v.USER_STACK_START < v.USER_END) by by vm_compute. lia.
Qed.

Lemma holds_kept st st' us act P a size flags data :
  act ∈ us → kept pmo us P st st' → holds_segment st act a size flags data →
  (∀ x, in_region a size x → user_page (page_of x) ∧ ¬ P act (page_of x)) →
  holds_segment st' act a size flags data.
Proof.
  intros Hact Hk Hh HP x Hx. destruct (HP x Hx) as [Hu Hn]. destruct (Hh x Hx) as [[f Hf] Hb].
  destruct (Hk act x Hact Hu Hn) as [Hs Hbb]. rewrite Hs, Hbb. split; [by exists f|done].
Qed.

Lemma load_segment_effect s st us l :
  user_inv pmo k0 pool st us l → k_cr3 st ∈ us →
  (is_load s → seg_ok s) →
  (∀ p, is_load s → seg_region (k_cr3 st) s (k_cr3 st) p → space pmo st (k_cr3 st) p = None) →
  (4 * seg_pages s ≤ length l)%nat →
  ∃ st' l', load_segment file s st = Val ((), st') ∧ user_inv pmo k0 pool st' us l' ∧
    k_cr3 st' = k_cr3 st ∧ (length l ≤ length l' + 4 * seg_pages s)%nat ∧
    rtc (mem_step pmo) (st, us) (st', us) ∧ holds_file st' (k_cr3 st) [s] ∧
    kept pmo us (segs_region (k_cr3 st) [s]) st st'.
Proof.
  intros Hi Hact Hok Hun Hlen.
  unfold load_segment, seg_pages in *. destruct (Z.eqb_spec (p_type s) abi.PT_LOAD) as [Hs|Hs]; cycle 1.
  { exists st, l. split_and!; [done..|lia|done| |done].
    intros seg ->%list_elem_of_singleton Hload. done. }
  destruct (Hok Hs) as (fl & data & Hfl & Hdata & Ha & Hsz & Hend & Hd).
  destruct (map_segment_effect st us l (p_vaddr s) (p_memsz s) fl data Hi Hact)
    as (st1 & l1 & Hrun & Hi1 & Hc1 & Hl1 & Hsteps & Hh & Hk); try done.
  { assert (v.USER_STACK_START < v.USER_END) by by vm_compute. lia. }
  { intros x Hx. apply Hun; [done|]. split; [done|by exists x]. }
  exists st1, l1. split_and!; try done.
  - rewrite (M_bind_run _ _ _ _ _ (liftr_run _ _ _ Hfl)). rewrite Hdata.
    by rewrite (M_bind_run _ _ _ data st).
  - intros seg ->%list_elem_of_singleton _. by exists fl, data.
  - intros r x Hr Hx Hn. apply Hk; [done..|]. intros Hp. apply Hn. exists s.
    split_and!; [left|done..].
Qed.

Lemma load_segments_effect segs st us l :
  user_inv pmo k0 pool st us l → k_cr3 st ∈ us →
  (∀ seg, seg ∈ segs → is_load seg → seg_ok seg) → pages_disjoint segs →
  (∀ r p, segs_region (k_cr3 st) segs r p → space pmo st (k_cr3 st) p = None) →
  (4 * pages_needed segs ≤ length l)%nat →
  ∃ st' l', for_each segs (load_segment file) st = Val ((), st') ∧
    user_inv pmo k0 pool st' us l' ∧ k_cr3 st' = k_cr3 st ∧
    (length l ≤ length l' + 4 * pages_needed segs)%nat ∧
    rtc (mem_step pmo) (st, us) (st', us) ∧
    holds_file st' (k_cr3 st) segs ∧
    kept pmo us (segs_region (k_cr3 st) segs) st st'.
Proof.
  revert st l. induction segs as [|s segs IH]; intros st l Hi Hact Hok Hdis Hun Hlen.
  { exists st, l. split_and!; [done..|lia|done|by intros ? ?%elem_of_nil|done]. }
  cbn [pages_needed] in *. destruct Hdis as [Hds Hdis].
  destruct (load_segment_effect s st us l Hi Hact) as (st1 & l1 & Hrun1 & Hi1 & Hc1 & Hl1 & Hsteps1 & Hh1 & Hk1).
  { apply Hok. left. }
  { intros p Hload Hp. apply (Hun (k_cr3 st)). exists s. split_and!; [left|done..]. }
  { lia. }
  destruct (IH st1 l1 Hi1) as (st' & l' & Hrun & Hi' & Hc' & Hl' & Hsteps & Hh & Hk').
  { by rewrite Hc1. }
  { intros seg Hin. apply Hok. by right. }
  { done. }
  { rewrite Hc1. intros r p (seg & Hin & Hload & Hp).
    destruct Hp as [-> (x & Hx & ->)].
    assert (user_page (page_of x)) as Hxu by (apply (seg_user seg); [apply Hok; [by right|done]|done]).
    destruct (Hk1 (k_cr3 st) x Hact Hxu) as [-> _].
    - intros (s2 & ->%list_elem_of_singleton & Hl2 & _ & Hp2).
      apply (Hds Hl2 seg Hin Hload (page_of x)). split; (split; [done|]); [done|by exists x].
    - apply (Hun (k_cr3 st)). exists seg. split_and!; [by right|done|]. split; [done|by exists x]. }
  { lia. }
  rewrite Hc1 in *. exists st', l'. split_and!; [|done|congruence|lia|by etransitivity| |].
  - cbn. by rewrite (M_bind_run _ _ _ _ _ Hrun1).
  - intros seg [->|Hin]%elem_of_cons Hload; [|by apply Hh].
    destruct (Hh1 s) as (fl & data & Hfl & Hdata & Hs1); [left|done|].
    exists fl, data. split_and!; [done..|]. apply (holds_kept st1 _ us _ _ _ _ _ _ Hact Hk' Hs1).
    intros x Hx. split; [apply (seg_user s); [apply Hok; [left|done]|done]|].
    intros (s2 & Hin2 & Hl2 & _ & Hp2). apply (Hds Hload s2 Hin2 Hl2 (page_of x)).
    split; (split; [done|]); [by exists x|done].
  - eapply kept_trans; [done..| |].
    + intros r p (seg & ->%list_elem_of_singleton & ? & ?). exists s. split_and!; [left|done..].
    + intros r p (seg & ? & ? & ?). exists seg. split_and!; [by right|done..].
Qed.
End Segments.

(** *** The stack *)

Definition stack_pages : list Z :=
  (λ i, v.USER_STACK_START + 4096 + i * 4096) <$> range 0 (USER_STACK_SIZE `div` 4096 - 1).

Definition stack_flags : Z := Z.lor PageTableFlags.WRITABLE PageTableFlags.NO_EXECUTE.

Lemma elem_of_stack_pages p : p ∈ stack_pages ↔
  (4096 | p) ∧ v.USER_STACK_START + 4096 ≤ p < v.USER_STACK_START + USER_STACK_SIZE.
Proof.
  unfold stack_pages. rewrite list_elem_of_fmap.
  change v.USER_STACK_START with (2 ^ 32). change USER_STACK_SIZE with (4096 * 4096).
  change ((4096 * 4096) `div` 4096 - 1) with 4095. split.
  - intros (i & -> & Hi%elem_of_range). split; [|lia]. exists (2 ^ 20 + 1 + i). lia.
  - intros [[k ->] Hk]. exists (k - 2 ^ 20 - 1). split; [lia|]. apply elem_of_range. lia.
Qed.

Lemma length_stack_pages : length stack_pages = 4095%nat.
Proof. unfold stack_pages. rewrite length_fmap, range_length. done. Qed.

Lemma allocate_stack_run st :
  allocate_stack st = for_each stack_pages (λ p, map_ram_user p stack_flags ≫= λ _, mret ()) st.
Proof.
  unfold allocate_stack. change v.USER_STACK_START with (2 ^ 32).
  rewrite (M_bind_run _ _ _ (2 ^ 32 + 4096) st) by (apply liftr_run; by apply add64_in).
  change USER_STACK_SIZE with (4096 * 4096). change ((4096 * 4096) `div` 4096) with 4096.
  rewrite (M_bind_run _ _ _ (4096 - 1) st) by (apply liftr_run; by apply sub64_in).
  apply for_each_fmap. intros i Hi%elem_of_range s.
  change (USER_STACK_SIZE `div` 4096 - 1) with 4095 in Hi. change v.USER_STACK_START with (2 ^ 32).
  m_step.
  m_step.
  rewrite (M_bind_run _ _ _ (2 ^ 32 + 4096 + i * 4096) s) by (apply liftr_run, VirtAddr_new_law; lia).
  rewrite (M_bind_run _ _ _ (2 ^ 32 + 4096 + i * 4096) s); [done|].
  apply liftr_run. rewrite Page_from_start_law by lia.
  replace (2 ^ 32 + 4096 + i * 4096) with ((2 ^ 20 + 1 + i) * 4096) by lia.
  by rewrite Z.mod_mul.
Qed.

Lemma stack_page_user p : p ∈ stack_pages → user_page p ∧ (4096 | p).
Proof.
  intros [Hd Hp]%elem_of_stack_pages. split; [|done]. unfold user_page.
  change v.USER_STACK_START with (2 ^ 32) in Hp. change USER_STACK_SIZE with (4096 * 4096) in Hp.
  change v.USER_START with 0. change v.USER_END with (2 ^ 39). lia.
Qed.

Lemma stack_pages_NoDup : NoDup stack_pages.
Proof. apply NoDup_fmap_2; [intros x y Hxy; lia|apply NoDup_seqZ]. Qed.

(** *** Creating the space and switching *)

Lemma create_space_kept st us f l st' :
  user_inv pmo k0 pool st us (f :: l) → created (pmo:=pmo) st (k0 :: us) l f st' →
  kept pmo us (λ _ _, False) st st'.
Proof.
  intros Hi Hcr r x Hr Hx _.
  assert (space pmo st' r (page_of x) = space pmo st r (page_of x)) as Hs
    by (apply (cr_old _ _ _ _ _ Hcr); by right).
  split; [done|]. unfold vbyte. rewrite Hs.
  destruct (space pmo st r (page_of x)) as [[g gl]|] eqn:Hg; [|done].
  destruct (ui_leaf _ _ _ _ _ _ Hi _ _ _ _ Hr Hx Hg) as (_ & [Hgf _]%not_elem_of_cons & _).
  by rewrite (cr_cells _ _ _ _ _ Hcr).
Qed.

(** The first half of [prepare_application]: a new, empty, active space. *)
Lemma new_space_effect st us f l :
  user_inv pmo k0 pool st us (f :: l) →
  ∃ st1 st2, create_user_page_table st = Val (mkOPT (pmo + f) pmo, st1) ∧
    switch_to_user_page_table (mkOPT (pmo + f) pmo) st1 = Val ((), st2) ∧
    user_inv pmo k0 pool st2 (f :: us) l ∧ k_cr3 st2 = f ∧ f ∉ us ∧
    rtc (mem_step pmo) (st, us) (st2, f :: us) ∧
    (∀ p, user_page p → space pmo st2 f p = None) ∧
    kept pmo us (λ _ _, False) st st2.
Proof.
  intros Hi. pose proof (ui_kinv _ _ _ _ _ _ Hi) as Hk.
  destruct (create_effect _ _ _ _ Hk) as (st1 & Hrun & Hcr).
  destruct (user_inv_create _ _ _ _ _ _ _ Hi Hcr) as [Hi1 _].
  exists st1, (mkKernel (k_phys st1) f (kernel_page_table st1)).
  pose proof (switch_user_run _ _ _ _ _ f Hi1 ltac:(left)) as Hsw.
  split_and!; [done|done| |done| | | |].
  - apply user_inv_switch; [done|right; left].
  - intros Hin. destruct (ki_roots _ _ _ _ Hk f) as (_ & Hn & _); [by right|]. apply Hn. left.
  - eapply rtc_l; [by apply ms_create|]. apply rtc_once. apply (ms_to_user _ _ _ f); [left|done].
  - intros p Hp. change (space pmo st1 f p = None). rewrite (cr_new _ _ _ _ _ Hcr).
    by apply decide_False, user_not_kernel.
  - apply (create_space_kept _ _ _ _ _ Hi Hcr).
Qed.

Lemma stack_segment_disjoint `{Elf} file segs act p :
  (∀ seg, seg ∈ segs → is_load seg → seg_ok file seg) →
  v.USER_STACK_START ≤ p → (4096 | p) → ¬ segs_region act segs act p.
Proof.
  intros Hok Hp Hd (seg & Hin & Hload & _ & x & Hx & ->).
  destruct (Hok seg Hin Hload) as (fl & data & _ & _ & _ & _ & Hend & _).
  pose proof (page_of_bounds x). unfold in_region in Hx. lia.
Qed.

(** The user pages after the stack, where the heap is to grow. *)
Definition above_stack (p : Z) : Prop :=
  v.USER_STACK_START + USER_STACK_SIZE ≤ p ∧ user_page p ∧ (4096 | p).

(** The state after the stack is allocated, before the switch back. *)
Lemma load_and_stack `{Elf} file segs st us l :
  user_inv pmo k0 pool st us l → k_cr3 st ∈ us →
  (∀ seg, seg ∈ segs → is_load seg → seg_ok file seg) → pages_disjoint segs →
  (∀ p, user_page p → space pmo st (k_cr3 st) p = None) →
  (4 * pages_needed segs + 4 * 4095 ≤ length l)%nat →
  ∃ st1 st2 l', for_each segs (load_segment file) st = Val ((), st1) ∧
    allocate_stack st1 = Val ((), st2) ∧
    user_inv pmo k0 pool st2 us l' ∧ k_cr3 st2 = k_cr3 st ∧
    (length l ≤ length l' + 4 * pages_needed segs + 4 * 4095)%nat ∧
    rtc (mem_step pmo) (st, us) (st2, us) ∧
    holds_file file st2 (k_cr3 st) segs ∧
    (∀ p, p ∈ stack_pages → ∃ f, space pmo st2 (k_cr3 st) p = Some (f, user_flags stack_flags)) ∧
    space pmo st2 (k_cr3 st) v.USER_STACK_START = None ∧
    (∀ p, above_stack p → space pmo st2 (k_cr3 st) p = None) ∧
    kept pmo us (λ r _, r = k_cr3 st) st st2.
Proof.
  intros Hi Hact Hok Hdis Hun Hlen.
  destruct (load_segments_effect file segs st us l Hi Hact Hok Hdis)
    as (st1 & l1 & Hrun1 & Hi1 & Hc1 & Hl1 & Hsteps1 & Hfile & Hk1).
  { intros r p (seg & Hin & Hload & _ & x & Hx & ->). apply Hun. apply (seg_user file seg); [|done].
    by apply Hok. }
  { lia. }
  assert (∀ p, v.USER_STACK_START ≤ p → user_page p → (4096 | p) →
    space pmo st1 (k_cr3 st) p = None) as Hfree.
  { intros p Hp Hu Hd. destruct (Hk1 (k_cr3 st) p Hact) as [Hs _].
    - by rewrite page_of_page.
    - rewrite page_of_page by done. by apply (stack_segment_disjoint file).
    - rewrite page_of_page in Hs by done. rewrite Hs. by apply Hun. }
  destruct (map_user_loop stack_pages stack_flags st1 us l1 Hi1)
    as (st2 & l2 & Hrun2 & Hi2 & Hc2 & Hl2 & Hsteps2 & Hnew & Hk2).
  { by rewrite Hc1. }
  { apply stack_pages_NoDup. }
  { intros p Hp. destruct (stack_page_user p Hp) as [Hu Hd]. split_and!; [done..|]. rewrite Hc1.
    apply Hfree; [|done..]. apply elem_of_stack_pages in Hp. lia. }
  { rewrite length_stack_pages. lia. }
  rewrite Hc1 in *. exists st1, st2, l2.
  split_and!; [done|by rewrite allocate_stack_run|done|done|rewrite length_stack_pages in Hl2; lia|by etransitivity| |done| | |].
  - intros seg Hin Hload. destruct (Hfile seg Hin Hload) as (fl & data & Hfl & Hdata & Hseg).
    exists fl, data. split_and!; [done..|]. apply (holds_kept st1 _ us _ _ _ _ _ _ Hact Hk2 Hseg).
    intros x Hx. split; [apply (seg_user file seg); [by apply Hok|done]|].
    intros [_ Hp]. destruct (stack_page_user _ Hp) as [_ Hd].
    apply (stack_segment_disjoint file segs 0 (page_of x)); [done| |done|].
    + apply elem_of_stack_pages in Hp. lia.
    + exists seg. split_and!; [done..|]. split; [done|by exists x].
  - assert ((4096 | v.USER_STACK_START) ∧ user_page v.USER_STACK_START) as [Hd Hu]
      by (split; [by exists (2 ^ 20)|by vm_compute]).
    destruct (Hk2 (k_cr3 st) v.USER_STACK_START Hact) as [Hs _].
    + by rewrite page_of_page.
    + rewrite page_of_page by done. intros [_ Hp%elem_of_stack_pages]. lia.
    + rewrite page_of_page in Hs by done. rewrite Hs. by apply Hfree.
  - intros p (Hp & Hu & Hd). change USER_STACK_SIZE with (4096 * 4096) in Hp.
    destruct (Hk2 (k_cr3 st) p Hact) as [Hs _].
    + by rewrite page_of_page.
    + rewrite page_of_page by done. intros [_ Hq%elem_of_stack_pages].
      change USER_STACK_SIZE with (4096 * 4096) in Hq. lia.
    + rewrite page_of_page in Hs by done. rewrite Hs. apply Hfree; [lia|done..].
  - eapply kept_trans; [done..| |].
    + by intros r p (seg & _ & _ & -> & _).
    + by intros r p [-> _].
Qed.

(** An application that has been prepared in the space of root [r]. *)
Record prepared `{Elf} (file : ElfBytes) (segs : list ProgramHeader) (st : Kernel) (us l : list Z)
    (r : Z) (st' : Kernel) (l' : list Z) : Prop := {
  pr_inv : user_inv pmo k0 pool st' (r :: us) l';
  pr_cr3 : k_cr3 st' = k0;
  pr_new : r ∉ us;
  pr_frames : (length l ≤ length l' + 1 + 4 * pages_needed segs + 4 * 4095)%nat;
  pr_steps : rtc (mem_step pmo) (st, us) (st', r :: us);
  pr_file : holds_file file st' r segs;
  pr_stack p : p ∈ stack_pages → ∃ f, space pmo st' r p = Some (f, user_flags stack_flags);
  pr_guard : space pmo st' r v.USER_STACK_START = None;
  pr_rest p : above_stack p → space pmo st' r p = None;
  pr_kept : kept pmo us (λ _ _, False) st st' }.

Lemma prepare_effect `{Elf} `{BuddyHeap Heap} st us l bytes file segs :
  user_inv pmo k0 pool st us l →
  minimal_parse bytes = Some file → segments file = Some segs →
  (∀ seg, seg ∈ segs → is_load seg → seg_ok file seg) → pages_disjoint segs →
  (1 + 4 * pages_needed segs + 4 * 4095 ≤ length l)%nat →
  ∃ r st' l', prepare_application bytes st =
      Val (mkResources (mkOPT (pmo + r) pmo) (e_entry file) heap_new, st') ∧
    prepared file segs st us l r st' l'.
Proof.
  intros Hi Hparse Hsegs Hok Hdis Hlen. destruct l as [|f l]; [cbn in Hlen; lia|].
  destruct (new_space_effect st us f l Hi)
    as (st1 & st2 & Hrun1 & Hrun2 & Hi2 & Hc2 & Hfus & Hsteps2 & Hempty & Hk2).
  destruct (load_and_stack file segs st2 (f :: us) l Hi2)
    as (st3 & st4 & l' & Hrun3 & Hrun4 & Hi4 & Hc4 & Hl4 & Hsteps4 & Hfile & Hstack & Hguard & Hrest & Hk4).
  { rewrite Hc2. left. }
  { done. }
  { done. }
  { by rewrite Hc2. }
  { cbn in Hlen. lia. }
  rewrite Hc2 in *.
  pose proof (switch_kernel_run _ _ _ _ _ Hi4) as Hrun5.
  exists f, (mkKernel (k_phys st4) k0 (kernel_page_table st4)), l'.
  split; [|split; [by apply user_inv_switch; [|left]|done|done|cbn [length]; lia| |done|done|done|done|]].
  - unfold prepare_application.
    rewrite (M_bind_run _ _ _ _ _ Hrun1), (M_bind_run _ _ _ _ _ Hrun2).
    rewrite (M_bind_run _ _ _ (e_entry file) st3).
    + rewrite (M_bind_run _ _ _ _ _ Hrun4). by rewrite (M_bind_run _ _ _ _ _ Hrun5).
    + unfold load. rewrite Hparse. rewrite (M_bind_run _ _ _ file st2) by done.
      rewrite Hsegs. rewrite (M_bind_run _ _ _ segs st2) by done.
      by rewrite (M_bind_run _ _ _ _ _ Hrun3).
  - etransitivity; [done|]. eapply rtc_r; [done|]. by apply ms_to_kernel.
  - intros r x Hr Hx _. destruct (Hk2 r x Hr Hx) as [Hs Hb]; [by intros []|].
    destruct (Hk4 r x) as [Hs4 Hb4]; [by right|done|by intros ->|].
    split; [by rewrite <-Hs|by rewrite <-Hb].
Qed.

(** ** Properties *)

(** Dropping the resources of an application is possible at any time; it makes
    the kernel's space active and changes nothing else, so the frames of the
    application stay in use. *)
Theorem drop_keeps {Heap} st us l r entry (heap : Heap) :
  user_inv pmo k0 pool st us l → r ∈ us →
  drop_resources (mkResources (mkOPT (pmo + r) pmo) entry heap) st =
    Val ((), mkKernel (k_phys st) k0 (kernel_page_table st)).
Proof.
  intros Hi Hr. unfold drop_resources. cbn [l4_page_table].
  rewrite (M_bind_run _ _ _ _ _ (switch_user_run _ _ _ _ _ _ Hi Hr)).
  apply (switch_kernel_run k0 pool (mkKernel (k_phys st) r (kernel_page_table st)) us l).
  apply user_inv_switch; [done|by right].
Qed.

(** C4 (functional).  Preparing an application from a well-formed ELF file with
    enough free frames succeeds: the new space holds every loadable segment,
    file bytes followed by zeros, with the segment's flags; the stack is mapped
    writable and not executable above an unmapped guard page; the kernel space is active again; the frames come from
    ordinary kernel steps, and every other application keeps its pages and
    their contents. *)
Theorem prepare_application_spec `{Elf} `{BuddyHeap Heap} st us l bytes file segs :
  user_inv pmo k0 pool st us l →
  minimal_parse bytes = Some file → segments file = Some segs →
  (∀ seg, seg ∈ segs → is_load seg → seg_ok file seg) → pages_disjoint segs →
  (1 + 4 * pages_needed segs + 4 * 4095 ≤ length l)%nat →
  ∃ r st' l', prepare_application bytes st =
      Val (mkResources (mkOPT (pmo + r) pmo) (e_entry file) heap_new, st') ∧
    user_inv pmo k0 pool st' (r :: us) l' ∧ k_cr3 st' = k0 ∧ r ∉ us ∧
    rtc (mem_step pmo) (st, us) (st', r :: us) ∧
    holds_file file st' r segs ∧
    (∀ p, p ∈ stack_pages → ∃ f, space pmo st' r p = Some (f, user_flags stack_flags)) ∧
    space pmo st' r v.USER_STACK_START = None ∧
    kept pmo us (λ _ _, False) st st'.
Proof.
  intros Hi Hparse Hsegs Hok Hdis Hlen.
  destruct (prepare_effect st us l bytes file segs Hi Hparse Hsegs Hok Hdis Hlen) as (r & st' & l' & Hrun & []).
  exists r, st', l'. by split_and!.
Qed.
End LoaderLemmas.

(** C5 (safety).  Write-xor-execute: a segment that is neither readable nor
    executable is refused; otherwise the page is writable exactly when the
    segment is, and executable exactly when the segment is executable and not
    writable. *)
Theorem segment_flags_wx raw :
  let bit k := Z.testbit raw k in
  match segment_flags raw with
  | Fault f => f = Assertion ∧ bit 0 = false ∧ bit 2 = false
  | Val fl => (bit 0 || bit 2) = true ∧ Z.testbit fl 1 = bit 1 ∧
      Z.testbit fl 63 = negb (bit 0 && negb (bit 1))
  end.
Proof.
  cbv zeta. unfold segment_flags.
  change abi.PF_X with (Z.shiftl 1 0). change abi.PF_W with (Z.shiftl 1 1).
  change abi.PF_R with (Z.shiftl 1 2). rewrite !land_bit_eqb by lia.
  destruct (Z.testbit raw 0), (Z.testbit raw 1), (Z.testbit raw 2); cbn [ass orb negb andb mbind res_bind];
    split_and!; by vm_compute.
Qed.
