(* ===== verification/LoaderDemo.v ===== *)
(** * A concrete application for the loader theorem

    An ELF file with a code segment, a data segment longer than its file
    contents, and a segment that is not loaded.  Only the witness uses this file. *)

From S2P Require Import Prelude Constants Platform FrameAlloc Paging Memory AddressSpace Isolation IsolationDemo MapPages UserMem Heap HeapDemo Loader.

#[local] Existing Instance dev_profile.
Import RefX86 RefBoot RefMapper.

Definition code : ProgramHeader := mkPhdr abi.PT_LOAD 0x200000 100 (abi.PF_R + abi.PF_X).
Definition data : ProgramHeader := mkPhdr abi.PT_LOAD 0x201000 5000 (abi.PF_R + abi.PF_W).
Definition note : ProgramHeader := mkPhdr 4 0 16 abi.PF_R.

#[local] Instance demo_elf : Elf := {|
  ElfBytes := ();
  minimal_parse bytes := match bytes with [] => None | _ => Some () end;
  e_entry _ := 0x200010;
  segments _ := Some [code; note; data];
  segment_data _ seg := Some (if p_vaddr seg =? 0x200000 then [1; 2; 3] else [4; 5]) |}.

Definition file : @ElfBytes demo_elf := ().

Lemma code_ok : seg_ok file code.
Proof. exists 0, [1; 2; 3]. split_and!; by vm_compute. Qed.

Lemma data_ok : seg_ok file data.
Proof. exists (Z.lor PageTableFlags.NO_EXECUTE PageTableFlags.WRITABLE), [4; 5]. split_and!; by vm_compute. Qed.

Lemma demo_ok seg : seg ∈ [code; note; data] → is_load seg → seg_ok file seg.
Proof.
  intros Hin Hload. repeat (apply elem_of_cons in Hin as [->|Hin]); [exact code_ok|done|exact data_ok|].
  by apply elem_of_nil in Hin.
Qed.

Lemma demo_disjoint : pages_disjoint [code; note; data].
Proof.
  cbn [pages_disjoint]. split_and!; [|done|intros _ s Hs; by apply elem_of_nil in Hs|done].
  intros _ s Hs Hload p [(_ & x & Hx & ->) (_ & y & Hy & Hp)].
  apply elem_of_cons in Hs as [->|Hs]; [done|]. apply list_elem_of_singleton in Hs as ->.
  unfold in_region, code, data in *. cbn in *.
  pose proof (page_of_bounds x). pose proof (page_of_bounds y).
  assert (page_of x ≤ page_of 0x200063) by (apply page_of_mono; lia).
  assert (page_of 0x201000 ≤ page_of y) by (apply page_of_mono; lia).
  assert (page_of 0x200063 = 0x200000 ∧ page_of 0x201000 = 0x201000) as [Ha Hb] by done. lia.
Qed.

Lemma machine_user_inv n :
  0 < n ≤ 2 ^ 20 → user_inv pmo 0x1000 (free_frames_of n) (machine n) [] (free_frames_of n).
Proof. intros Hn. by apply user_inv_boot; [apply machine_inv|..]. Qed.

Lemma prepare_application_spec_witness :
  ∃ r st' l', prepare_application (Heap:=RefHeap) [0x7f] (machine 20000) =
      Val (mkResources (mkOPT (pmo + r) pmo) 0x200010 heap_new, st') ∧
    user_inv pmo 0x1000 (free_frames_of 20000) st' [r] l' ∧ k_cr3 st' = 0x1000 ∧
    holds_file (pmo:=pmo) file st' r [code; note; data].
Proof.
  destruct (prepare_application_spec (pmo:=pmo) 0x1000 (free_frames_of 20000) (Heap:=RefHeap)
    (machine 20000) [] (free_frames_of 20000) [0x7f] file [code; note; data])
    as (r & st' & l' & Hrun & Hi & Hc & _ & _ & Hfile & _).
  - apply machine_user_inv. lia.
  - reflexivity.
  - reflexivity.
  - exact demo_ok.
  - exact demo_disjoint.
  - unfold free_frames_of. rewrite length_fmap, length_seqZ. vm_compute pages_needed. lia.
  - exists r, st', l'. split; [exact Hrun|]. split; [exact Hi|]. split; [exact Hc|exact Hfile].
Defined.
