(* ===== verification/MemTest.v ===== *)
(** * The page-table test (src/kernel/src/tests/mem_test.rs)

    [simple_page_table_swap] makes two address spaces, stores a different value
    at the same address in each, and reads both back after switching. *)

From S2P Require Import Prelude Bytes Constants Platform FrameAlloc Paging Memory AddressSpace PageTableInfo Isolation MapPages UserMem Loader.

Section MemTest.
Context `{Profile} `{X86Addr} `{Boot} `{Mapper} `{LowerTables}.

(** The block after each switch to a new space. *)
Definition store_on_stack_page (x : Z) : M Kernel () :=
  liftr (VirtAddr_new v.USER_STACK_START) ≫= λ va,
  let page := Page_containing_address va in
  map_ram_user page PageTableFlags.WRITABLE ≫= λ _,
  touch page ≫= λ _,
  vwrite64 page x.

Definition expect_on_stack_page (x : Z) : M Kernel () :=
  vread64 v.USER_STACK_START ≫= λ user_ref, liftr (ass (user_ref =? x)).

(** The test, for the values [x] and [y]. *)
Definition page_table_swap (x y : Z) : M Kernel () :=
  log_page_table_info ≫= λ _,
  create_user_page_table ≫= λ user_pt_a,
  switch_to_user_page_table user_pt_a ≫= λ _,
  store_on_stack_page x ≫= λ _,
  log_page_table_info ≫= λ _,
  create_user_page_table ≫= λ user_pt_b,
  switch_to_user_page_table user_pt_b ≫= λ _,
  store_on_stack_page y ≫= λ _,
  log_page_table_info ≫= λ _,
  switch_to_kernel_page_table ≫= λ _,
  log_page_table_info ≫= λ _,
  switch_to_user_page_table user_pt_a ≫= λ _,
  expect_on_stack_page x ≫= λ _,
  switch_to_user_page_table user_pt_b ≫= λ _,
  expect_on_stack_page y.

Definition simple_page_table_swap : M Kernel () := page_table_swap 42 666.
End MemTest.

Section Spec.
Context `{Profile} `{X86AddrLaws} `{BootOk pmo} `{Mapper} `{!MapperLaws pmo} `{LowerTables}.
Context (k0 : Z) (pool : list Z).

Notation stack := v.USER_STACK_START.

Lemma stack_page_of j : 0 ≤ j < 4096 → page_of (stack + j) = stack.
Proof.
  intros Hj. unfold page_of. change stack with (1048576 * 4096).
  rewrite Z.div_add_l, Z.div_small by lia. lia.
Qed.

Lemma stack_user : user_page stack.
Proof. by vm_compute. Qed.

Lemma store_effect st us l x :
  user_inv pmo k0 pool st us l → k_cr3 st ∈ us → space pmo st (k_cr3 st) stack = None →
  (4 ≤ length l)%nat →
  ∃ st' l', store_on_stack_page x st = Val ((), st') ∧ user_inv pmo k0 pool st' us l' ∧
    k_cr3 st' = k_cr3 st ∧ (length l ≤ length l' + 4)%nat ∧
    holds_word (pmo := pmo) st' (k_cr3 st) stack x ∧
    kept pmo us (in_pages (k_cr3 st) [stack]) st st'.
Proof.
  intros Hi Hact Hnone Hlen. pose proof stack_user as Hu.
  destruct (map_user_page k0 pool st us l stack PageTableFlags.WRITABLE Hi Hact Hu)
    as (f & st1 & l1 & Hrun & Hi1 & Hc1 & Hl1 & Hsp & Hkept); [by exists (2 ^ 20)|done|done|].
  destruct (vwrite64_effect k0 pool st1 us l1 stack x Hi1) as (st2 & Hrun2 & Hi2 & Hwb & Hw).
  { intros y Hy. unfold writable. replace y with (stack + (y - stack)) by lia.
    rewrite stack_page_of by lia. rewrite Hc1. split_and!; [done..|]. by exists f, (user_flags PageTableFlags.WRITABLE). }
  rewrite Hc1 in Hw. exists st2, l1. split_and!; [|done|by rewrite (wb_cr3 _ _ _ _ _ _ Hwb)|done|done|].
  - unfold store_on_stack_page. rewrite (M_bind_run _ _ _ stack st) by (by apply liftr_run, VirtAddr_new_law).
    rewrite Page_containing_law by done. change (4096 * (stack `div` 4096)) with stack.
    rewrite (M_bind_run _ _ _ _ _ Hrun). rewrite (M_bind_run _ _ _ () st1); [exact Hrun2|].
    unfold touch. rewrite physical_memory_offset_val, Hc1.
    replace (page_of stack) with stack by (by vm_compute). by rewrite Hsp.
  - apply (kept_trans _ _ (in_pages (k_cr3 st) [stack]) (in_pages (k_cr3 st) [stack]) _ st st1 st2); [done| |done..].
    intros r z Hr Hz Hn. rewrite (wb_space _ _ _ _ _ _ Hwb) by (by right). split; [done|].
    rewrite (wb_byte _ _ _ _ _ _ Hwb) by done. rewrite length_to_le_bytes, Hc1. apply decide_False.
    intros [-> Hz']. apply Hn. split; [done|]. replace z with (stack + (z - stack)) by lia.
    rewrite stack_page_of by lia. left.
Qed.

Lemma holds_word_kept st st' us P r x :
  r ∈ us → ¬ P r stack → kept pmo us P st st' →
  holds_word (pmo := pmo) st r stack x → holds_word (pmo := pmo) st' r stack x.
Proof.
  intros Hr Hn Hk Hw j b Hj. pose proof (lookup_lt_Some _ _ _ Hj) as Hlt. rewrite length_to_le_bytes in Hlt.
  assert (page_of (stack + Z.of_nat j) = stack) as Hp by (apply stack_page_of; lia).
  destruct (Hk r (stack + Z.of_nat j) Hr) as [_ ->]; [rewrite Hp; apply stack_user|by rewrite Hp|]. by apply Hw.
Qed.

Lemma expect_run st x : u64 x → holds_word (pmo := pmo) st (k_cr3 st) stack x →
  expect_on_stack_page x st = Val ((), st).
Proof.
  intros Hx Hw. unfold expect_on_stack_page. rewrite (M_bind_run _ _ _ _ _ (vread64_run st stack x Hx Hw)).
  by rewrite Z.eqb_refl.
Qed.

(** The page-table test passes on every machine with ten free
    frames, whatever spaces exist already and whatever two values are stored:
    after storing [x] and [y] at the same virtual address of two new spaces,
    each space still reads its own value; and no page of an existing space
    changes. *)
Theorem page_table_swap_passes st us l x y :
  user_inv pmo k0 pool st us l → (10 ≤ length l)%nat → u64 x → u64 y →
  ∃ st' a b l', page_table_swap x y st = Val ((), st') ∧
    user_inv pmo k0 pool st' (b :: a :: us) l' ∧ a ≠ b ∧ a ∉ us ∧ b ∉ us ∧ k_cr3 st' = b ∧
    kept pmo us (λ _ _, False) st st'.
Proof.
  intros Hi Hlen Hx Hy. destruct l as [|a l]; [cbn in Hlen; lia|]. cbn [length] in Hlen.
  destruct (new_space_effect k0 pool st us a l Hi) as (s1 & s2 & R1 & R2 & Hi2 & Hc2 & Ha & _ & Hn2 & K2).
  destruct (store_effect s2 (a :: us) l x Hi2) as (s3 & l3 & R3 & Hi3 & Hc3 & Hl3 & W3 & K3);
    [rewrite Hc2; left|rewrite Hc2; apply Hn2, stack_user|lia|]. rewrite Hc2 in Hc3, W3, K3.
  destruct l3 as [|b l3]; [cbn in Hl3; lia|]. cbn [length] in Hl3.
  destruct (new_space_effect k0 pool s3 (a :: us) b l3 Hi3) as (s4 & s5 & R4 & R5 & Hi5 & Hc5 & Hb & _ & Hn5 & K5).
  apply not_elem_of_cons in Hb as [Hba Hbu].
  destruct (store_effect s5 (b :: a :: us) l3 y Hi5) as (s6 & l6 & R6 & Hi6 & Hc6 & _ & W6 & K6);
    [rewrite Hc5; left|rewrite Hc5; apply Hn5, stack_user|lia|]. rewrite Hc5 in Hc6, W6, K6.
  set (at_root := λ r, mkKernel (k_phys s6) r (kernel_page_table s6)).
  assert (∀ r, r ∈ k0 :: b :: a :: us → user_inv pmo k0 pool (at_root r) (b :: a :: us) l6) as Hat
    by (intros; by apply user_inv_switch).
  assert (holds_word (pmo := pmo) s6 a stack x) as Wa.
  { apply (holds_word_kept s5 _ (b :: a :: us) (in_pages b [stack])); [right; left|by intros [? _]|done|].
    apply (holds_word_kept s3 _ (a :: us) (λ _ _, False)); [left|by intros []|done|done]. }
  exists (at_root b), a, b, l6. split_and!; [|apply Hat; right; left|by apply not_eq_sym|done|done|done|].
  - destruct (page_table_log_run _ _ _ (ui_kinv _ _ _ _ _ _ Hi)) as [? L0], (page_table_log_run _ _ _ (ui_kinv _ _ _ _ _ _ Hi3)) as [? L3],
      (page_table_log_run _ _ _ (ui_kinv _ _ _ _ _ _ Hi6)) as [? L6],
      (page_table_log_run _ _ _ (ui_kinv _ _ _ _ _ _ (Hat k0 ltac:(left)))) as [? Lk].
    unfold page_table_swap. rewrite (M_bind_run _ _ _ _ _ L0), (M_bind_run _ _ _ _ _ R1), (M_bind_run _ _ _ _ _ R2),
      (M_bind_run _ _ _ _ _ R3), (M_bind_run _ _ _ _ _ L3), (M_bind_run _ _ _ _ _ R4), (M_bind_run _ _ _ _ _ R5),
      (M_bind_run _ _ _ _ _ R6), (M_bind_run _ _ _ _ _ L6).
    rewrite (M_bind_run _ _ _ _ _ (switch_kernel_run k0 pool _ _ _ Hi6)), (M_bind_run _ _ _ _ _ Lk).
    rewrite (M_bind_run _ _ _ _ _ (switch_user_run k0 pool _ _ _ a (Hat k0 ltac:(left)) ltac:(right; left))).
    rewrite (M_bind_run _ _ _ _ _ (expect_run (at_root a) x Hx Wa)).
    rewrite (M_bind_run _ _ _ _ _ (switch_user_run k0 pool _ _ _ b (Hat a ltac:(right; right; left)) ltac:(left))).
    exact (expect_run (at_root b) y Hy W6).
  - intros r z Hr Hz _.
    assert (r ≠ a ∧ r ≠ b) as [Hra Hrb] by (split; intros ->; [by apply Ha|by apply Hbu]).
    destruct (K2 r z Hr Hz (λ h, h)) as [S2 B2].
    destruct (K3 r z ltac:(by right) Hz ltac:(by intros [? _])) as [S3 B3].
    destruct (K5 r z ltac:(by right) Hz (λ h, h)) as [S5 B5].
    destruct (K6 r z ltac:(by do 2 right) Hz ltac:(by intros [? _])) as [S6 B6].
    split; [change (space pmo s6 r (page_of z) = space pmo st r (page_of z))
           |change (vbyte pmo s6 r z = vbyte pmo st r z)]; congruence.
Qed.
End Spec.
