(* ===== verification/MemTestDemo.v ===== *)
(** * The page-table test on a concrete machine

    [simple_page_table_swap] and [log_page_table_info] on the machine of
    [IsolationDemo], evaluated, and the theorem at that machine. *)

From S2P Require Import Prelude Constants Platform FrameAlloc Paging Memory AddressSpace PageTableInfo Isolation IsolationDemo UserMem Loader MemTest.

#[local] Existing Instance dev_profile.
Import RefX86 RefBoot RefMapper.

(** A used entry of a table stands for the mapped pages of one gigabyte. *)
#[local] Instance ref_lower : LowerTables := { l3_entry_count d ptr :=
  match d !! ptr with
  | Some (CSub m) => Z.of_nat (length (remove_dups ((λ '(p, _), p `div` 2 ^ 30) <$> map_to_list m)))
  | _ => 0
  end }.

(** The kernel's table has one entry in use; a new space has it, and one below
    which the page of its stack is. *)
Example kernel_listing :
  log_page_table_info st0 = Val ([mkL3 100 (pmo + 0x8000) 0x8000 0 3], st0).
Proof. by vm_compute. Qed.

Example user_listing :
  match (create_user_page_table ≫= λ t, switch_to_user_page_table t ≫= λ _,
         store_on_stack_page 42 ≫= λ _, log_page_table_info) st0 with
  | Val (lines, _) => (λ x, (l3_index x, l3_count x)) <$> lines = [(0%nat, 1); (100%nat, 0)]
  | Fault _ => False
  end.
Proof. by vm_compute. Qed.

(** With twelve free frames the test returns; with four it runs out of memory. *)
Example swap_runs : is_val (simple_page_table_swap st0) = true.
Proof. by vm_compute. Qed.

Example swap_out_of_memory : is_val (simple_page_table_swap (machine 4)) = false.
Proof. by vm_compute. Qed.

Lemma page_table_swap_passes_witness :
  ∃ st' a b l', page_table_swap 42 666 st0 = Val ((), st') ∧
    user_inv pmo 0x1000 free st' [b; a] l' ∧ a ≠ b.
Proof.
  destruct (page_table_swap_passes (pmo := pmo) 0x1000 free st0 [] free 42 666)
    as (st' & a & b & l' & Hr & Hi & Hab & _).
  - by apply user_inv_boot; [apply st0_inv|..].
  - by vm_compute; lia.
  - done.
  - done.
  - exists st', a, b, l'. split; [exact Hr|split; [exact Hi|exact Hab]].
Defined.

Lemma log_page_table_info_spec_witness :
  ∃ lines, log_page_table_info st0 = Val (lines, st0) ∧
    ∀ p x, space pmo st0 0x1000 p = Some x → ∃ line, line ∈ lines ∧ l3_index line = l4_slot p.
Proof.
  destruct (log_page_table_info_spec (pmo := pmo) st0 [0x1000] free st0_inv) as (lines & Hr & _ & _ & Hp & _).
  exists lines. split; [exact Hr|exact Hp].
Defined.
