(* ===== verification/UserApp.v ===== *)
(** * The user programs (src/user_app/src/os_functions.rs, main.rs, test.rs)

    What the two programs print and how they end, over the functions the kernel
    passes to their entry point.  The [test] program counts its runs in a
    static, so a second run of the same loaded program panics.  Allocation does
    not fail here: running out of heap is the allocator's part. *)

From Stdlib Require Import String Ascii Sorted Znumtheory.
From S2P Require Import Prelude Format.

(** ** The state of a loaded program *)

(** The statics, and what was passed to the kernel's [print] so far. *)
Record UserState := mkUser {
  _FP : option Z;                       (** the kernel's function table *)
  OUT_CONTIGUOUS : list Z;              (** the buffer of a formatted print *)
  COUNTER : Z;
  printed : list (list Z) }.

(** How a program stops before it returns: [abort], or undefined behaviour. *)
Inductive stop := AbortedWith (exit_code : Z) | UndefinedBehaviour.

Definition U (A : Type) : Type := UserState → (A + stop) * UserState.

#[export] Instance U_ret : MRet U := λ _ a s, (inl a, s).
#[export] Instance U_bind : MBind U := λ _ _ k m s,
  match m s with (inl a, s') => k a s' | (inr e, s') => (inr e, s') end.

Definition u_modify (g : UserState → UserState) : U () := λ s, (inl (), g s).

(** ** os_functions *)

(** The kernel function, through the pointer table. *)
Definition _print (string : list Z) : U () := λ s,
  match _FP s with
  | Some _ => (inl (), mkUser (_FP s) (OUT_CONTIGUOUS s) (COUNTER s) (printed s ++ [string]))
  | None => (inr UndefinedBehaviour, s)
  end.

Definition abort {A} (exit_code : Z) : U A := λ s,
  match _FP s with
  | Some _ => (inr (AbortedWith exit_code), s)
  | None => (inr UndefinedBehaviour, s)
  end.

Definition set_buffer (b : list Z) : U () :=
  u_modify (λ s, mkUser (_FP s) b (COUNTER s) (printed s)).

Definition get_buffer : U (list Z) := λ s, (inl (OUT_CONTIGUOUS s), s).

(** [_print_fmt_contiguous], of the formatted text. *)
Definition _print_fmt_contiguous (args : list Z) : U () :=
  get_buffer ≫= λ b,
  set_buffer (b ++ args) ≫= λ _,
  get_buffer ≫= λ b',
  _print b' ≫= λ _,
  set_buffer [].

(** [_print_fmt], which is not used: the formatting hands over the text in
    pieces, and [Out::write_str] passes each one on. *)
Fixpoint _print_fmt (pieces : list (list Z)) : U () :=
  match pieces with
  | [] => mret ()
  | s :: pieces' => _print s ≫= λ _, _print_fmt pieces'
  end.

Definition println (text : list Z) : U () := _print_fmt_contiguous (text ++ [10]).

(** The panic handler; [info] is the formatted [PanicInfo]. *)
Definition user_panic {A} (info : list Z) : U A :=
  println (chars "User PANIC: " ++ info) ≫= λ _, abort 42.

(** [entry_point!]: the first call keeps its table. *)
Definition __impl_start (main : U Z) (fns : Z) : U Z :=
  u_modify (λ s, mkUser (match _FP s with Some f => Some f | None => Some fns end)
    (OUT_CONTIGUOUS s) (COUNTER s) (printed s)) ≫= λ _,
  main.

Definition HELLO : list Z := chars "Hello from Steelmind OS Program!" ++ [10].

(** ** main.rs *)

Definition hello_main : U Z :=
  println (chars "Fmt " ++ HELLO) ≫= λ _, mret 666.

(** ** test.rs *)

(** [(2..n).any(|i| n % i == 0)] *)
Definition has_divisor (n : Z) : bool := existsb (λ i, n `mod` i =? 0) (range 2 n).

(** [(2..u64::MAX).filter(..).take(k)], from [n]; [None] if the range or the
    fuel ends first. *)
Fixpoint take_primes (fuel : nat) (n : Z) (k : nat) : option (list Z) :=
  match k with
  | O => Some []
  | S k' =>
      match fuel with
      | O => None
      | S f =>
          if 2 ^ 64 - 1 <=? n then None
          else if has_divisor n then take_primes f (n + 1) k
          else (λ l, n :: l) <$> take_primes f (n + 1) k'
      end
  end.

(** [enumerate] *)
Definition enumerate (l : list Z) : list (Z * Z) := imap (λ i p, (Z.of_nat i, p)) l.

(** [{e:?}] of a pair. *)
Definition debug_pair (e : Z * Z) : list Z := chars "(" ++ show (fst e) ++ chars ", " ++ show (snd e) ++ chars ")".

Fixpoint print_vec (v : list (Z * Z)) : U () :=
  match v with
  | [] => mret ()
  | e :: v' => println (debug_pair e) ≫= λ _, print_vec v'
  end.

Definition PRIME_FUEL : nat := 40.

Fixpoint rec (count : nat) : U () :=
  println (chars "Count: " ++ show (Z.of_nat count)) ≫= λ _,
  match count with
  | O => match take_primes PRIME_FUEL 2 10 with Some v => print_vec (enumerate v) | None => λ s, (inr UndefinedBehaviour, s) end
  | S count' => rec count'
  end.

Definition fetch_add_counter : U Z := λ s,
  (inl (COUNTER s), mkUser (_FP s) (OUT_CONTIGUOUS s) ((COUNTER s + 1) `mod` 2 ^ 64) (printed s)).

(** [info] is what [PanicInfo] shows of [panic!("PANIC")]. *)
Definition test_main (info : list Z) : U Z :=
  println (chars "Fmt " ++ HELLO) ≫= λ _,
  fetch_add_counter ≫= λ ret,
  (if ret =? 0 then rec 10 else user_panic info) ≫= λ _,
  mret ret.

(** ** The primes *)

Lemma has_divisor_prime n : 2 ≤ n → has_divisor n = false ↔ prime n.
Proof.
  intros Hn. unfold has_divisor. rewrite <-not_true_iff_false, existsb_exists. split.
  - intros Hno. rewrite <-prime_alt. split; [lia|]. intros i Hi Hdiv. apply Hno. exists i. split.
    + apply list_elem_of_In, elem_of_seqZ. lia.
    + apply Z.eqb_eq. by apply Z.mod_divide; [lia|].
  - intros Hp (i & Hi%list_elem_of_In%elem_of_seqZ & Hdiv%Z.eqb_eq).
    apply Z.mod_divide in Hdiv; [|lia]. apply prime_alt in Hp as [_ Hp]. apply (Hp i); [lia|done].
Qed.

Lemma take_primes_spec fuel n k l :
  2 ≤ n → take_primes fuel n k = Some l →
  ∃ m, n ≤ m ∧ length l = k ∧ StronglySorted Z.lt l ∧ ∀ p, p ∈ l ↔ prime p ∧ n ≤ p < m.
Proof.
  revert n k l. induction fuel as [|f IH]; intros n [|k] l Hn Ht; cbn in Ht; [|done| |].
  1, 2: injection Ht as <-; exists n; split_and!; [lia|done|constructor|];
    intros p; rewrite elem_of_nil; split; [done|lia].
  destruct (_ <=? n); [done|]. destruct (has_divisor n) eqn:Hd.
  - destruct (IH (n + 1) (S k) l ltac:(lia) Ht) as (m & Hm & Hl & Hs & Hp).
    exists m. split_and!; [lia|done|done|]. intros p. rewrite Hp. split; [intros []; split; [done|lia]|].
    intros [Hpr Hpm]. split; [done|]. destruct (decide (p = n)) as [->|]; [|lia].
    apply has_divisor_prime in Hpr; [congruence|done].
  - apply fmap_Some in Ht as (l' & Ht & ->).
    destruct (IH (n + 1) k l' ltac:(lia) Ht) as (m & Hm & Hl & Hs & Hp).
    apply has_divisor_prime in Hd; [|done].
    exists m. split_and!; [lia|by cbn; rewrite Hl| |].
    + constructor; [done|]. apply list.Forall_forall. intros p [_ ?]%Hp. lia.
    + intros p. rewrite elem_of_cons, Hp. split.
      * intros [->|[? ?]]; (split; [done|lia]).
      * intros [Hpr Hpm]. destruct (decide (p = n)); [by left|right; split; [done|lia]].
Qed.

(** ** What a run does *)

(** A program between two runs: its buffer is empty. *)
Definition at_rest (s : UserState) : Prop := OUT_CONTIGUOUS s = [].

Definition says (lines : list (list Z)) (s : UserState) : UserState :=
  mkUser (_FP s) [] (COUNTER s) (printed s ++ lines).

Lemma println_run text s : is_Some (_FP s) → at_rest s →
  println text s = (inl (), says [text ++ [10]] s).
Proof. destruct s as [fp b c p]. unfold at_rest. cbn. intros [f ->] ->. done. Qed.

Lemma says_says l1 l2 s : says l2 (says l1 s) = says (l1 ++ l2) s.
Proof. unfold says. cbn. by rewrite app_assoc. Qed.

Lemma U_bind_run {A B} (m : U A) (k : A → U B) s a s1 : m s = (inl a, s1) → (m ≫= k) s = k a s1.
Proof. unfold mbind, U_bind. by intros ->. Qed.

Lemma says_nil s : at_rest s → says [] s = s.
Proof. intros Hr. destruct s. unfold says, at_rest in *. cbn in *. by rewrite app_nil_r, Hr. Qed.

Lemma print_fmt_run pieces s : is_Some (_FP s) → at_rest s → _print_fmt pieces s = (inl (), says pieces s).
Proof.
  revert s. induction pieces as [|piece pieces IH]; intros s Hf Hr; [by rewrite says_nil|]. cbn [_print_fmt].
  rewrite (U_bind_run _ _ _ () (says [piece] s)).
  - rewrite IH by done. by rewrite says_says.
  - unfold _print. destruct Hf as [fp Hf]. rewrite Hf. unfold says. by rewrite Hf, Hr.
Qed.

(** Both ways of printing give the kernel the same text, [_print_fmt] in pieces
    and [_print_fmt_contiguous] in one. *)
Theorem print_fmt_same pieces s : is_Some (_FP s) → at_rest s →
  ∃ s1 s2, _print_fmt pieces s = (inl (), s1) ∧ _print_fmt_contiguous (concat pieces) s = (inl (), s2) ∧
    concat (printed s1) = concat (printed s2) ∧ printed s2 = printed s ++ [concat pieces].
Proof.
  intros Hf Hr. eexists _, (says [concat pieces] s). split_and!; [by apply print_fmt_run| | |done].
  - unfold _print_fmt_contiguous, get_buffer. destruct Hf as [fp Hf], s as [? b ? ?]. unfold at_rest in Hr.
    cbn in Hf, Hr. subst. done.
  - unfold says. cbn [printed]. rewrite !concat_app. cbn. by rewrite app_nil_r.
Qed.

Lemma print_vec_run v s : is_Some (_FP s) → at_rest s →
  print_vec v s = (inl (), says ((λ e, debug_pair e ++ [10]) <$> v) s).
Proof.
  revert s. induction v as [|e v IH]; intros s Hf Hr; cbn [print_vec fmap list_fmap].
  - by rewrite says_nil.
  - rewrite (U_bind_run _ _ _ _ _ (println_run _ _ Hf Hr)), IH by done. by rewrite says_says.
Qed.

(** The lines of [rec]. *)
Fixpoint countdown (count : nat) : list (list Z) :=
  (chars "Count: " ++ show (Z.of_nat count) ++ [10]) ::
  match count with O => [] | S count' => countdown count' end.

Lemma rec_run primes count s : is_Some (_FP s) → at_rest s → take_primes PRIME_FUEL 2 10 = Some primes →
  rec count s = (inl (), says (countdown count ++ ((λ e, debug_pair e ++ [10]) <$> enumerate primes)) s).
Proof.
  intros Hf Hr Hp. revert s Hf Hr. induction count as [|count IH]; intros s Hf Hr; cbn [rec countdown].
  - rewrite (U_bind_run _ _ _ _ _ (println_run _ _ Hf Hr)), Hp, print_vec_run by done. by rewrite says_says, <-app_assoc.
  - rewrite (U_bind_run _ _ _ _ _ (println_run _ _ Hf Hr)), IH by done. by rewrite says_says, <-app_assoc.
Qed.

Lemma impl_start_run main fns s :
  __impl_start main fns s = main (mkUser (Some (default fns (_FP s))) (OUT_CONTIGUOUS s) (COUNTER s) (printed s)).
Proof. by destruct s as [[] ? ? ?]. Qed.

Lemma test_main_run info fns s :
  at_rest s → 0 ≤ COUNTER s < 2 ^ 64 - 1 →
  let fp := Some (default fns (_FP s)) in
  let hello := chars "Fmt " ++ HELLO ++ [10] in
  if COUNTER s =? 0 then
    ∃ primes, length primes = 10%nat ∧ StronglySorted Z.lt primes ∧
      (∃ m, ∀ p, p ∈ primes ↔ prime p ∧ p < m) ∧
      __impl_start (test_main info) fns s =
        (inl 0, mkUser fp [] 1 (printed s ++ hello :: countdown 10 ++
          ((λ e, debug_pair e ++ [10]) <$> enumerate primes)))
  else
    __impl_start (test_main info) fns s =
      (inr (AbortedWith 42), mkUser fp [] (COUNTER s + 1)
        (printed s ++ [hello; chars "User PANIC: " ++ info ++ [10]])).
Proof.
  intros Hr Hc. cbv zeta. set (fp := Some (default fns (_FP s))).
  set (s1 := mkUser fp (OUT_CONTIGUOUS s) (COUNTER s) (printed s)).
  assert (is_Some (_FP s1) ∧ at_rest s1) as [Hf1 Hr1] by (split; [by eexists|done]).
  rewrite !impl_start_run. fold fp s1. unfold test_main. rewrite (U_bind_run _ _ _ _ _ (println_run _ _ Hf1 Hr1)).
  erewrite U_bind_run by reflexivity. cbn [COUNTER says s1].
  destruct (Z.eqb_spec (COUNTER s) 0) as [H0|H0].
  - destruct (take_primes PRIME_FUEL 2 10) as [primes|] eqn:Hp; [|by vm_compute in Hp].
    destruct (take_primes_spec PRIME_FUEL 2 10 primes ltac:(lia) Hp) as (m & _ & Hl & Hs & Hm).
    exists primes. split_and!; [done|done| |].
    { exists m. intros p. rewrite Hm. split; [intros [Hpr ?]; split; [done|lia]|].
      intros [Hpr ?]. split; [done|]. pose proof (prime_ge_2 p Hpr). lia. }
    erewrite U_bind_run by (apply (rec_run primes); [by eexists|done|exact Hp]).
    unfold mret, U_ret, says. cbn [_FP COUNTER printed OUT_CONTIGUOUS]. rewrite H0.
    rewrite <-!app_assoc. cbn [app]. done.
  - unfold user_panic. rewrite Z.mod_small by lia.
    unfold mbind at 1, U_bind. erewrite U_bind_run by (apply println_run; [by eexists|done]).
    unfold abort, says. cbn [_FP COUNTER printed OUT_CONTIGUOUS]. by rewrite <-!app_assoc.
Qed.

(** How a run that finds the counter at [c] ends. *)
Definition test_end (info : list Z) (fns c : Z) : Z + stop := fst (__impl_start (test_main info) fns (mkUser None [] c [])).

Lemma test_end_val info fns c : 0 ≤ c < 2 ^ 64 - 1 →
  test_end info fns c = if c =? 0 then inl 0 else inr (AbortedWith 42).
Proof.
  intros Hc. pose proof (test_main_run info fns (mkUser None [] c []) eq_refl Hc) as Hrun. unfold test_end.
  cbn [COUNTER] in Hrun. destruct (c =? 0); [destruct Hrun as (? & _ & _ & _ & Hrun)|]; by rewrite Hrun.
Qed.

(** The first run of a loaded [test] program returns 0, after printing its
    greeting, the countdown from 10, and the first ten primes with their
    positions, each line in one call of the kernel; every later run panics:
    it prints the greeting and the panic message and aborts with 42.  Both count
    the run, and leave the print buffer empty. *)
Theorem test_main_spec info fns s :
  at_rest s → 0 ≤ COUNTER s < 2 ^ 64 - 1 →
  let fp := Some (default fns (_FP s)) in
  let hello := chars "Fmt " ++ HELLO ++ [10] in
  if COUNTER s =? 0 then
    ∃ primes, length primes = 10%nat ∧ StronglySorted Z.lt primes ∧
      (∃ m, ∀ p, p ∈ primes ↔ prime p ∧ p < m) ∧
      __impl_start (test_main info) fns s =
        (inl 0, mkUser fp [] 1 (printed s ++ hello :: countdown 10 ++
          ((λ e, debug_pair e ++ [10]) <$> enumerate primes)))
  else
    __impl_start (test_main info) fns s =
      (inr (AbortedWith 42), mkUser fp [] (COUNTER s + 1)
        (printed s ++ [hello; chars "User PANIC: " ++ info ++ [10]])).
Proof. exact (test_main_run info fns s). Qed.

(** Three runs of two loads of the program, as the kernel's tests make them. *)
Example two_loads :
  let start := mkUser None [] 0 [] in
  let '(r1, a1) := __impl_start (test_main []) 0x1000 start in
  let '(r2, b1) := __impl_start (test_main []) 0x1000 start in
  let '(r3, a2) := __impl_start (test_main []) 0x1000 a1 in
  (r1, r2, r3, COUNTER a2, COUNTER b1) = (inl 0, inl 0, inr (AbortedWith 42), 2, 1).
Proof. by vm_compute. Qed.

Lemma test_main_spec_witness :
  __impl_start (test_main [33]) 0x1000 (mkUser (Some 0x1000) [] 1 []) =
    (inr (AbortedWith 42), mkUser (Some 0x1000) [] 2
      [chars "Fmt " ++ HELLO ++ [10]; chars "User PANIC: " ++ [33; 10]]).
Proof. exact (test_main_spec [33] 0x1000 (mkUser (Some 0x1000) [] 1 []) eq_refl ltac:(cbn; lia)). Defined.
