(* ===== verification/UserSwitch.v ===== *)
(** * Running an application (src/kernel/src/loader.rs)

    [run] switches to the application's address space and stack, calls its
    entry point, and comes back either when the entry point returns or when the
    application aborts from anywhere in its call chain.  The two [asm!] blocks
    are modelled as instructions of a small machine over the registers, the
    memory and the core's run record; the code between them, the application
    and the kernel functions it calls back, is an interface. *)

From S2P Require Import Prelude Bytes Constants Platform FrameAlloc Paging Memory AddressSpace Isolation MapPages UserMem Heap Loader.

(** ** The processor *)

Inductive reg :=
  rax | rbx | rcx | rdx | rsi | rdi | rbp | rsp | r8 | r9 | r10 | r11 | r12 | r13 | r14 | r15.

#[export] Instance reg_eq_dec : EqDecision reg.
Proof. solve_decision. Defined.

(** The registers of a core, its memory as the active space shows it, and
    [running_application_data] of its core local data: the pointer to the
    application's resources; the two other fields live in memory, where the
    [asm!] blocks use them. *)
Record Core := mkCore {
  regs : reg → Z;
  rip : Z;
  mem : gmap Z Z;
  running_application_data : option Z }.

Record Machine := mkMachine { kernel : Kernel; core : Core }.

Definition upd (r : reg) (v : Z) (rs : reg → Z) : reg → Z := λ r', if decide (r' = r) then v else rs r'.
Definition wrap64 (z : Z) : Z := z `mod` 2 ^ 64.

(** The instructions of the two blocks; [MovLoad d s] is [mov d, [s]] and
    [MovStore d s] is [mov [d], s]. *)
Inductive instr :=
  | Push (r : reg) | Pop (r : reg) | Mov (d s : reg) | MovLoad (d s : reg) | MovStore (d s : reg)
  | CallSip | CallReg (r : reg) | Ret.

Inductive block := SwitchAsm | SaveIp.

#[export] Instance block_eq_dec : EqDecision block.
Proof. solve_decision. Defined.

(** The [asm!] block of [switch_stack_and_execute]. *)
Definition switch_asm : list instr := [
  Push rbx; Push rbp; Push r14; Push r15;
  MovStore r8 rsp; Mov rsp r9; Mov rbp rsp; Mov rdi r10; Mov rsi r11; Mov rdx r8; Mov rcx r12;
  CallSip;
  Mov r13 rax; MovLoad rsp rdx;
  Pop r15; Pop r14; Pop rbp; Pop rbx].

(** [save_instruction_pointer] *)
Definition save_instruction_pointer : list instr := [
  MovLoad rax rsp; MovStore rdi rax; Mov r15 rdx; Mov rdi rcx; CallReg rsi; Mov rdx r15; Ret].

Definition code (b : block) : list instr :=
  match b with SwitchAsm => switch_asm | SaveIp => save_instruction_pointer end.

(** Where the linker puts the instructions, [FUNCTION_POINTERS], and the two
    words of this core's run record. *)
Class Image := {
  code_addr : block → nat → Z;
  code_at : Z → option (block * nat);
  FUNCTION_POINTERS : Z;
  saved_stack_pointer : Z;
  abort_addr : Z }.

Class ImageLaws `{Image} : Prop := {
  code_addr_u64 b n : (n ≤ length (code b))%nat → u64 (code_addr b n);
  code_at_addr b n : (n ≤ length (code b))%nat → code_at (code_addr b n) = Some (b, n);
  (** The kernel is not linked into the user half. *)
  code_at_user a : v.USER_START ≤ a < v.USER_END → code_at a = None }.

(** What an application does when it is called: it returns, it calls the
    [abort] function it was given, or it never comes back. *)
Inductive AppResult := Returned (m : Machine) | Aborted (exit_code : Z) (m : Machine) | Hangs.
Class Application := execute : Machine → AppResult.

Section Machine.
Context `{Profile} `{X86Addr} `{Boot} `{Image} `{Application}.

Definition load_word (a : Z) (c : Core) : res Z :=
  match load64 a (mem c) with Some v => Val v | None => Fault Undefined end.

(** An instruction; [next] is the address of the one after it. *)
Definition exec_instr (next : Z) (i : instr) (c : Core) : res Core :=
  let push v rip' :=
    let sp := wrap64 (regs c rsp - 8) in
    mkCore (upd rsp sp (regs c)) rip' (store64 sp v (mem c)) (running_application_data c) in
  let set r v := mkCore (upd r v (regs c)) next (mem c) (running_application_data c) in
  match i with
  | Push r => Val (push (regs c r) next)
  | Pop r => load_word (regs c rsp) c ≫= λ v,
      Val (mkCore (upd r v (upd rsp (wrap64 (regs c rsp + 8)) (regs c))) next (mem c) (running_application_data c))
  | Mov d s => Val (set d (regs c s))
  | MovLoad d s => load_word (regs c s) c ≫= λ v, Val (set d v)
  | MovStore d s => Val (mkCore (regs c) next (store64 (regs c d) (regs c s) (mem c)) (running_application_data c))
  | CallSip => Val (push next (code_addr SaveIp 0))
  | CallReg r => Val (push next (regs c r))
  | Ret => load_word (regs c rsp) c ≫= λ v,
      Val (mkCore (upd rsp (wrap64 (regs c rsp + 8)) (regs c)) v (mem c) (running_application_data c))
  end.

(** [abort]: the registers of its [asm!] block and the jump. *)
Definition abort (exit_code : Z) (c : Core) : res Core :=
  unwrap (running_application_data c) ≫= λ _,
  load_word abort_addr c ≫= λ target,
  Val (mkCore (upd r8 abort_addr (upd rdx saved_stack_pointer (upd rax exit_code (regs c)))) target
    (mem c) (running_application_data c)).

(** One step: an instruction of a block, or, outside of them, the application
    until it comes back.  The step past the last instruction ends the block. *)
Definition cpu_step : M Machine (option ()) := λ m,
  let c := core m in
  match code_at (rip c) with
  | Some (b, n) =>
      match code b !! n with
      | Some i => exec_instr (code_addr b (S n)) i c ≫= λ c', Val (None, mkMachine (kernel m) c')
      | None => if decide (b = SwitchAsm) then Val (Some (), m) else Fault Undefined
      end
  | None =>
      match execute m with
      | Returned m' => Val (None, m')
      | Aborted exit_code m' => abort exit_code (core m') ≫= λ c', Val (None, mkMachine (kernel m') c')
      | Hangs => Fault NoFuel
      end
  end.

Definition new_rsp : Z := v.USER_STACK_START + USER_STACK_SIZE - 1024.

(** The state at the start of the [asm!] block: the run record is written and
    the input registers are loaded. *)
Definition enter (resources_ptr entry_point : Z) (c : Core) : Core :=
  mkCore
    (upd r12 FUNCTION_POINTERS (upd r11 entry_point (upd r10 abort_addr
      (upd r9 new_rsp (upd r8 saved_stack_pointer (regs c))))))
    (code_addr SwitchAsm 0)
    (store64 saved_stack_pointer 0 (store64 abort_addr 0 (mem c)))
    (Some resources_ptr).

Definition switch_stack_and_execute (resources_ptr entry_point : Z) : M Machine Z :=
  modify (λ m, mkMachine (kernel m) (enter resources_ptr entry_point (core m))) ≫= λ _,
  loop 32 cpu_step ≫= λ _,
  gets (λ m, regs (core m) r13).

Definition on_kernel {A} : M Kernel A → M Machine A := zoom kernel (λ k m, mkMachine k (core m)).

(** The application's resources are at [resources_ptr]. *)
Definition run {Heap} (resources_ptr : Z) (resources : ApplicationResources Heap) : M Machine Z :=
  on_kernel (switch_to_user_page_table (l4_page_table resources)) ≫= λ _,
  switch_stack_and_execute resources_ptr (entry_point_virt_addr resources) ≫= λ ret,
  modify (λ m, mkMachine (kernel m)
    (mkCore (regs (core m)) (rip (core m)) (mem (core m)) None)) ≫= λ _,
  on_kernel switch_to_kernel_page_table ≫= λ _,
  mret ret.
End Machine.

(** A step of the system while the application in the space of root [r] runs:
    its own accesses and the kernel functions it calls; the active space stays. *)
Definition app_step `{Profile} `{X86Addr} `{Boot} `{Mapper} (pmo : Z) (us : list Z) (r : Z) (k k' : Kernel) : Prop :=
  mem_step pmo (k, us) (k', us) ∧ k_cr3 k = r ∧ k_cr3 k' = r.

(** What the application leaves alone.  [P] are the addresses of the suspended
    kernel stack and of the run record, which neither the application nor the
    kernel functions it calls, which run on its stack, ever write. *)
Class ApplicationLaws `{Profile} `{X86Addr} `{Boot} `{Mapper} `{Image} `{Application}
    (pmo k0 : Z) (pool : list Z) (P : Z → Prop) : Prop := {
  app_kernel m m' us l : execute m = Returned m' ∨ (∃ e, execute m = Aborted e m') →
    user_inv pmo k0 pool (kernel m) us l → k_cr3 (kernel m) ∈ us →
    rtc (app_step pmo us (k_cr3 (kernel m))) (kernel m) (kernel m');
  app_protected m m' a : execute m = Returned m' ∨ (∃ e, execute m = Aborted e m') →
    P a → mem (core m') !! a = mem (core m) !! a;
  app_record m m' : execute m = Returned m' ∨ (∃ e, execute m = Aborted e m') →
    running_application_data (core m') = running_application_data (core m);
  (** A return follows the calling convention. *)
  app_returns m m' ret : execute m = Returned m' → load64 (regs (core m) rsp) (mem (core m)) = Some ret →
    rip (core m') = ret ∧ regs (core m') rsp = regs (core m) rsp + 8 ∧
    (∀ r, r ∈ [rbx; rbp; r12; r13; r14; r15] → regs (core m') r = regs (core m) r) ∧
    ∀ a, regs (core m) rsp + 8 ≤ a < v.USER_STACK_START + USER_STACK_SIZE →
      mem (core m') !! a = mem (core m) !! a }.

(** ** The blocks, instruction by instruction *)

Lemma upd_eq r v rs : upd r v rs r = v.
Proof. unfold upd. by rewrite decide_True. Qed.
Lemma upd_ne r r' v rs : r' ≠ r → upd r v rs r' = rs r'.
Proof. intros. unfold upd. by rewrite decide_False. Qed.

Lemma wrap64_small z : u64 z → wrap64 z = z.
Proof. intros. by apply Z.mod_small. Qed.

(** Registers of an updated register file. *)
Ltac regs_simpl := cbn [regs rip mem running_application_data core kernel];
  repeat first [rewrite upd_eq | rewrite upd_ne by discriminate].

(** Words of an updated memory; the side conditions are linear. *)
Ltac words_simpl := repeat first [rewrite load_store64 by (unfold u64 in *; lia) | rewrite load_store64_ne by lia].

Section Blocks.
Context `{Profile} `{X86Addr} `{Boot} `{Mapper} `{ImageLaws} `{Application}.

(** [k] steps lead from [m] to [m']. *)
Definition steps (k : nat) (m m' : Machine) : Prop :=
  ∀ n, loop (k + n) cpu_step m = loop n cpu_step m'.

Lemma steps_refl m : steps 0 m m.
Proof. intros n. done. Qed.

Lemma steps_trans k1 k2 m1 m2 m3 : steps k1 m1 m2 → steps k2 m2 m3 → steps (k1 + k2) m1 m3.
Proof. intros H12 H23 n. by rewrite <-Nat.add_assoc, H12, H23. Qed.

Lemma steps_one k m m' m'' : cpu_step m = Val (None, m') → steps k m' m'' → steps (S k) m m''.
Proof.
  intros Hs Hk n. cbn [Nat.add]. rewrite loop_S, (M_bind_run _ _ _ _ _ Hs). apply Hk.
Qed.

Lemma steps_instr b n i k m c' m'' :
  rip (core m) = code_addr b n → code b !! n = Some i →
  exec_instr (code_addr b (S n)) i (core m) = Val c' →
  steps k (mkMachine (kernel m) c') m'' → steps (S k) m m''.
Proof.
  intros Hrip Hi He. apply steps_one. unfold cpu_step. rewrite Hrip.
  assert (n < length (code b))%nat by (by eapply lookup_lt_Some).
  rewrite code_at_addr, Hi by lia. by rewrite He.
Qed.

(** The last step. *)
Lemma loop_end n m :
  rip (core m) = code_addr SwitchAsm 18 → loop (S n) cpu_step m = Val ((), m).
Proof.
  intros Hrip. rewrite loop_S, (M_bind_run _ _ _ (Some ()) m); [done|].
  unfold cpu_step. by rewrite Hrip, code_at_addr by (cbn; lia).
Qed.

Lemma load_word_Val a c v : load64 a (mem c) = Some v → load_word a c = Val v.
Proof. intros Hl. unfold load_word. by rewrite Hl. Qed.

(** The saved registers on the suspended stack whose pointer was [R]. *)
Record saved (R : Z) (rs : reg → Z) (m : gmap Z Z) : Prop := {
  sv_rbx : load64 (R - 8) m = Some (rs rbx);
  sv_rbp : load64 (R - 16) m = Some (rs rbp);
  sv_r14 : load64 (R - 24) m = Some (rs r14);
  sv_r15 : load64 (R - 32) m = Some (rs r15);
  sv_rsp : load64 saved_stack_pointer m = Some (R - 32) }.

(** From the instruction after [call {sip}]: the exit code is in [rax] and
    the address of the saved stack pointer in [rdx], nothing else is known. *)
Lemma finish_steps m R rs :
  32 ≤ R < 2 ^ 64 → saved R rs (mem (core m)) →
  rip (core m) = code_addr SwitchAsm 12 → regs (core m) rdx = saved_stack_pointer →
  ∃ c', steps 6 m (mkMachine (kernel m) c') ∧ rip c' = code_addr SwitchAsm 18 ∧
    regs c' r13 = regs (core m) rax ∧ regs c' rsp = R ∧
    (∀ r, r ∈ [rbx; rbp; r14; r15] → regs c' r = rs r) ∧
    mem c' = mem (core m) ∧ running_application_data c' = running_application_data (core m).
Proof.
  intros HR Hsv Hrip Hrdx. destruct m as [k [rg ip mm ra]]. cbn in Hsv, Hrip, Hrdx |- *. subst ip.
  eexists. split.
  - eapply steps_instr; [done|done|done|]. cbn [core kernel].
    eapply steps_instr; [done|done|cbn [exec_instr]; regs_simpl; rewrite Hrdx;
      rewrite (load_word_Val _ _ (R - 32)) by apply Hsv; done|].
    eapply steps_instr; [done|done|cbn [exec_instr]; regs_simpl;
      rewrite (load_word_Val _ _ (rs r15)) by apply Hsv; cbn [mbind res_bind]; rewrite wrap64_small by (unfold u64; lia); done|].
    eapply steps_instr; [done|done|cbn [exec_instr]; regs_simpl; replace (R - 32 + 8) with (R - 24) by lia;
      rewrite (load_word_Val _ _ (rs r14)) by apply Hsv; cbn [mbind res_bind]; rewrite wrap64_small by (unfold u64; lia); done|].
    eapply steps_instr; [done|done|cbn [exec_instr]; regs_simpl; replace (R - 24 + 8) with (R - 16) by lia;
      rewrite (load_word_Val _ _ (rs rbp)) by apply Hsv; cbn [mbind res_bind]; rewrite wrap64_small by (unfold u64; lia); done|].
    eapply steps_instr; [done|done|cbn [exec_instr]; regs_simpl; replace (R - 16 + 8) with (R - 8) by lia;
      rewrite (load_word_Val _ _ (rs rbx)) by apply Hsv; cbn [mbind res_bind]; rewrite wrap64_small by (unfold u64; lia); done|].
    apply steps_refl.
  - regs_simpl. split_and!; [done|done|lia| |done|done].
    intros r Hr. repeat (apply elem_of_cons in Hr as [->|Hr]; [by regs_simpl|]). by apply elem_of_nil in Hr.
Qed.

(** The suspended stack, whose pointer is [R], and the run record are kernel
    memory, apart from each other. *)
Record layout_ok (P : Z → Prop) (R : Z) : Prop := {
  lo_stack : v.KERNEL_START + 32 ≤ R < 2 ^ 64;
  lo_record : v.KERNEL_START ≤ saved_stack_pointer < 2 ^ 64 - 8 ∧ v.KERNEL_START ≤ abort_addr < 2 ^ 64 - 8;
  lo_apart : saved_stack_pointer + 8 ≤ abort_addr ∨ abort_addr + 8 ≤ saved_stack_pointer;
  lo_apart_ssp : saved_stack_pointer + 8 ≤ R - 32 ∨ R ≤ saved_stack_pointer;
  lo_apart_abort : abort_addr + 8 ≤ R - 32 ∨ R ≤ abort_addr;
  lo_protected a : R - 32 ≤ a < R ∨ saved_stack_pointer ≤ a < saved_stack_pointer + 8 ∨
    abort_addr ≤ a < abort_addr + 8 → P a }.

(** The addresses the switch itself writes. *)
Definition switch_writes (R a : Z) : Prop :=
  R - 32 ≤ a < R ∨ saved_stack_pointer ≤ a < saved_stack_pointer + 8 ∨
  abort_addr ≤ a < abort_addr + 8 ∨ new_rsp - 16 ≤ a < new_rsp.

(** The core when the application is called. *)
Record at_entry (ptr entry : Z) (c ce : Core) : Prop := {
  en_rip : rip ce = entry;
  en_rdi : regs ce rdi = FUNCTION_POINTERS;
  en_rsp : regs ce rsp = new_rsp - 16;
  en_r15 : regs ce r15 = saved_stack_pointer;
  en_saved : saved (regs c rsp) (regs c) (mem ce);
  en_abort : load64 abort_addr (mem ce) = Some (code_addr SwitchAsm 12);
  en_return : load64 (new_rsp - 16) (mem ce) = Some (code_addr SaveIp 5) ∧
    load64 (new_rsp - 8) (mem ce) = Some (code_addr SwitchAsm 12);
  en_record : running_application_data ce = Some ptr;
  en_mem a : ¬ switch_writes (regs c rsp) a → mem ce !! a = mem c !! a }.

Lemma new_rsp_user : 2 ^ 20 ≤ new_rsp ∧ new_rsp ≤ v.USER_STACK_START + USER_STACK_SIZE ∧
  v.USER_STACK_START + USER_STACK_SIZE ≤ v.KERNEL_START.
Proof. by vm_compute. Qed.

Lemma entry_steps P k ptr entry c :
  layout_ok P (regs c rsp) → (∀ r, r ∈ [rbx; rbp; r14; r15] → u64 (regs c r)) →
  ∃ ce, steps 17 (mkMachine k (enter ptr entry c)) (mkMachine k ce) ∧ at_entry ptr entry c ce.
Proof.
  intros [HR [Hssp Habt] Hap Hap1 Hap2 _] Hu. pose proof new_rsp_user as Hnew.
  assert (u64 (regs c rbx) ∧ u64 (regs c rbp) ∧ u64 (regs c r14) ∧ u64 (regs c r15)) as (Hrbx & Hrbp & Hr14 & Hr15)
    by (split_and!; apply Hu; repeat (left || right)).
  pose proof (code_addr_u64 SwitchAsm 12 ltac:(cbn; lia)) as Hret.
  pose proof (code_addr_u64 SaveIp 5 ltac:(cbn; lia)) as Hsip.
  change v.KERNEL_START with (100 * 2 ^ 39) in *. set (T := new_rsp) in *.
  set (R := regs c rsp) in *. destruct c as [rg ip mm ra]. cbn [regs mem] in *.
  eexists. split.
  - unfold enter. cbn [regs mem].
    eapply steps_instr; [done|done|cbn [exec_instr]; regs_simpl; rewrite wrap64_small by (unfold u64; lia); done|].
    eapply steps_instr; [done|done|cbn [exec_instr]; regs_simpl; rewrite wrap64_small by (unfold u64; lia); done|].
    eapply steps_instr; [done|done|cbn [exec_instr]; regs_simpl; rewrite wrap64_small by (unfold u64; lia); done|].
    eapply steps_instr; [done|done|cbn [exec_instr]; regs_simpl; rewrite wrap64_small by (unfold u64; lia); done|].
    do 7 (eapply steps_instr; [done|done|cbn [exec_instr]; regs_simpl; done|]).
    eapply steps_instr; [done|done|cbn [exec_instr]; regs_simpl; rewrite wrap64_small by (fold T; unfold u64; lia); done|].
    eapply steps_instr; [done|done|cbn [exec_instr]; regs_simpl;
      rewrite (load_word_Val _ _ (code_addr SwitchAsm 12)) by (regs_simpl; by rewrite load_store64); done|].
    do 3 (eapply steps_instr; [done|done|cbn [exec_instr]; regs_simpl; done|]).
    eapply steps_instr; [done|done|cbn [exec_instr]; regs_simpl; rewrite wrap64_small by (fold T; unfold u64; lia); done|].
    apply steps_refl.
  - assert (R - 8 - 8 = R - 16 ∧ R - 16 - 8 = R - 24 ∧ R - 24 - 8 = R - 32 ∧ T - 8 - 8 = T - 16)
      as (E1 & E2 & E3 & E4) by lia.
    split; regs_simpl; fold R; fold T; rewrite ?E1, ?E2, ?E3, ?E4; try done.
    + split; by words_simpl.
    + by words_simpl.
    + split; by words_simpl.
    + intros a Ha. unfold switch_writes in Ha. fold T R in Ha.
      by rewrite !store64_lookup_ne by lia.
Qed.
End Blocks.

(** ** The switch as a whole *)

Section Switch.
Context `{Profile} `{X86AddrLaws} `{BootOk pmo} `{Mapper} `{!MapperLaws pmo} `{ImageLaws}.
Context (k0 : Z) (pool : list Z) (P : Z → Prop) `{!Application} `{!ApplicationLaws pmo k0 pool P}.

(** The application came back in [m'] with this exit code. *)
Definition came_back (r : AppResult) (exit_code : Z) (m' : Machine) : Prop :=
  r = Aborted exit_code m' ∨ (r = Returned m' ∧ exit_code = regs (core m') rax).

Lemma came_back_or r e m' : came_back r e m' → r = Returned m' ∨ ∃ e, r = Aborted e m'.
Proof. unfold came_back. naive_solver. Qed.

Lemma saved_ext R rs m m' :
  layout_ok P R → (∀ a, P a → m' !! a = m !! a) → saved R rs m → saved R rs m'.
Proof.
  intros Hl Hm [? ? ? ? ?].
  split; (erewrite load64_ext; [done|]); intros q Hq; apply Hm, (lo_protected _ _ Hl); lia.
Qed.

(** However the application came back, the core is after [call {sip}]. *)
Lemma back_steps ptr entry c m e m' :
  layout_ok P (regs c rsp) → at_entry ptr entry c (core m) → v.USER_START ≤ entry < v.USER_END →
  came_back (execute m) e m' →
  ∃ k c', (k ≤ 3)%nat ∧ steps k m (mkMachine (kernel m') c') ∧ rip c' = code_addr SwitchAsm 12 ∧
    regs c' rdx = saved_stack_pointer ∧ regs c' rax = e ∧ mem c' = mem (core m') ∧
    running_application_data c' = running_application_data (core m').
Proof.
  intros Hl He Hen Hcb. pose proof (came_back_or _ _ _ Hcb) as Hor. pose proof new_rsp_user as Hnew.
  assert (∀ r, execute m = r → cpu_step m =
    match r with
    | Returned m' => Val (None, m')
    | Aborted exit_code m' => abort exit_code (core m') ≫= λ c', Val (None, mkMachine (kernel m') c')
    | Hangs => Fault NoFuel
    end) as Hstep.
  { intros r <-. unfold cpu_step. by rewrite (en_rip _ _ _ _ He), code_at_user. }
  destruct Hcb as [Ha|[Hr ->]].
  - exists 1%nat. eexists. split; [lia|]. split.
    + eapply steps_one; [|apply steps_refl]. rewrite (Hstep _ Ha). unfold abort.
      rewrite (app_record _ _ Hor), (en_record _ _ _ _ He). cbn [unwrap mbind res_bind].
      rewrite (load_word_Val _ _ (code_addr SwitchAsm 12)); [done|].
      rewrite <-(en_abort _ _ _ _ He). apply load64_ext. intros q Hq.
      apply (app_protected (P:=P) _ _ _ Hor), (lo_protected _ _ Hl). lia.
    + regs_simpl. split_and!; try done. by rewrite (app_record _ _ Hor), (en_record _ _ _ _ He).
  - destruct (en_return _ _ _ _ He) as [Hret1 Hret2].
    rewrite <-(en_rsp _ _ _ _ He) in Hret1.
    destruct (app_returns _ _ _ Hr Hret1) as (Hrip & Hrsp & Hcs & Hstack).
    rewrite (en_rsp _ _ _ _ He) in Hrsp, Hstack.
    assert (regs (core m') r15 = saved_stack_pointer) as Hr15.
    { rewrite Hcs; [apply (en_r15 _ _ _ _ He)|]. do 5 right. left. }
    assert (load64 (new_rsp - 16 + 8) (mem (core m')) = Some (code_addr SwitchAsm 12)) as Hword.
    { replace (new_rsp - 16 + 8) with (new_rsp - 8) by lia. rewrite <-Hret2. apply load64_ext.
      intros q Hq. apply Hstack. lia. }
    exists 3%nat. eexists. split; [lia|]. split.
    + eapply steps_one; [by apply (Hstep _ Hr)|].
      eapply steps_instr; [done|done|done|].
      eapply steps_instr; [done|done|cbn [exec_instr]; regs_simpl|apply steps_refl].
      rewrite (load_word_Val _ _ (code_addr SwitchAsm 12)); [done|]. by rewrite Hrsp.
    + regs_simpl. by split_and!.
Qed.

(** [switch_stack_and_execute] returns what the application came back with, on
    the stack and with the registers it was called with. *)
Lemma switch_back ptr entry m :
  layout_ok P (regs (core m) rsp) → (∀ r, r ∈ [rbx; rbp; r14; r15] → u64 (regs (core m) r)) → v.USER_START ≤ entry < v.USER_END →
  ∃ ce, at_entry ptr entry (core m) ce ∧
    ∀ e m', came_back (execute (mkMachine (kernel m) ce)) e m' →
    ∃ c', switch_stack_and_execute ptr entry m = Val (e, mkMachine (kernel m') c') ∧
      regs c' rsp = regs (core m) rsp ∧
      (∀ r, r ∈ [rbx; rbp; r14; r15] → regs c' r = regs (core m) r) ∧
      (∀ a, P a → ¬ switch_writes (regs (core m) rsp) a → mem c' !! a = mem (core m) !! a) ∧
      mem c' = mem (core m').
Proof.
  intros Hl Hu Hen. pose proof Hl as [HR _ _ _ _ _]. change v.KERNEL_START with (100 * 2 ^ 39) in HR.
  destruct (entry_steps P (kernel m) ptr entry (core m) Hl Hu) as (ce & Hs1 & He).
  exists ce. split; [done|]. intros e m' Hcb. pose proof (came_back_or _ _ _ Hcb) as Hor.
  destruct (back_steps ptr entry (core m) (mkMachine (kernel m) ce) e m' Hl He Hen Hcb)
    as (k & c1 & Hk & Hs2 & Hrip & Hrdx & Hrax & Hmem & Hrec).
  destruct (finish_steps (mkMachine (kernel m') c1) (regs (core m) rsp) (regs (core m)))
    as (c' & Hs3 & Hrip' & Hr13 & Hrsp & Hregs & Hmem' & Hrec'); [lia| |done|done|].
  { cbn [core]. rewrite Hmem. eapply saved_ext; [done| |apply (en_saved _ _ _ _ He)].
    intros a Ha. by apply (app_protected (P:=P) _ _ _ Hor). }
  exists c'. split_and!; [|done|done| |by rewrite Hmem'].
  - unfold switch_stack_and_execute. erewrite (M_bind_run (modify _)) by done.
    erewrite M_bind_run.
    2:{ pose proof (steps_trans _ _ _ _ _ (steps_trans _ _ _ _ _ Hs1 Hs2) Hs3 (9 - k)%nat) as Hrun.
        replace (17 + k + 6 + (9 - k))%nat with 32%nat in Hrun by lia. rewrite Hrun.
        replace (9 - k)%nat with (S (8 - k)) by lia. by apply loop_end. }
    unfold gets. cbn [core]. rewrite Hr13. cbn [core]. by rewrite Hrax.
  - intros a Ha Hw. rewrite Hmem'. cbn [core]. rewrite Hmem. rewrite <-(en_mem _ _ _ _ He a Hw).
    by apply (app_protected (P:=P) _ _ _ Hor).
Qed.

(** A write through the active tables is a sequence of application steps. *)
Lemma vwrite_app_steps us bs a k k' :
  k_cr3 k ∈ us → (∀ x, a ≤ x < a + Z.of_nat (length bs) → user_page (page_of x)) →
  vwrite_bytes a bs k = Val ((), k') → rtc (app_step pmo us (k_cr3 k)) k k'.
Proof.
  revert a k. induction bs as [|b bs IH]; intros a k Hact Hu Hrun; cbn [vwrite_bytes length] in *.
  - by apply mret_Val in Hrun as [_ ->].
  - apply M_bind_Val in Hrun as ([] & k1 & Hw & Hrun). unfold vwrite in Hw. rewrite physical_memory_offset_val in Hw.
    destruct (space pmo k (k_cr3 k) (page_of a)) as [[f fl]|] eqn:Hs; [|done].
    destruct (Z.testbit fl 1); [|done]. injection Hw as <-.
    match type of Hrun with vwrite_bytes _ _ ?k2 = _ => apply (rtc_l _ _ k2) end.
    + split_and!; [|done|done]. eapply ms_write; [exact Hact| |exact Hs]. apply Hu. lia.
    + refine (IH (a + 1) _ _ _ Hrun); [exact Hact|]. intros x Hx. apply Hu. lia.
Qed.

(** While an application runs the invariant holds, and every other space keeps
    its user pages and their contents. *)
Lemma app_steps_effect us r k k' l :
  user_inv pmo k0 pool k us l → rtc (app_step pmo us r) k k' →
  rtc (mem_step pmo) (k, us) (k', us) ∧ (∃ l', user_inv pmo k0 pool k' us l') ∧ (k_cr3 k = r → k_cr3 k' = r) ∧
  ∀ x a, x ∈ us → x ≠ r → user_page (page_of a) →
    space pmo k' x (page_of a) = space pmo k x (page_of a) ∧ vbyte pmo k' x a = vbyte pmo k x a.
Proof.
  intros Hi Hsteps. revert l Hi. induction Hsteps as [k|k1 k2 k3 (Hstep & Hc1 & Hc2) _ IH]; intros l Hi.
  - split_and!; [done|by eauto|done|done].
  - destruct (mem_step_inv _ _ _ _ _ _ _ Hi Hstep) as (l2 & Hi2 & Ho).
    destruct (IH l2 Hi2) as (Hs & Hl & Hc & Hk). split_and!; [by eapply rtc_l|done|by intros _; apply Hc|].
    intros x a Hx Hne Hp. destruct (Hk x a Hx Hne Hp) as [Hs3 Hb3].
    destruct (Ho x (page_of a) Hx ltac:(by rewrite Hc1) Hp) as [Hs2 Hb2].
    split; [by rewrite Hs3|]. rewrite Hb3. unfold vbyte. rewrite Hs2.
    destruct (space pmo k1 x (page_of a)) as [[f fl]|]; [|done]. by rewrite (Hb2 f fl).
Qed.

(** What [run] does, when the application came back with [e] in [m']. *)
Record ran (r : Z) (us : list Z) (m m' : Machine) (k' : Kernel) (c' : Core) : Prop := {
  ran_cr3 : k_cr3 k' = k0;
  ran_record : running_application_data c' = None;
  ran_rsp : regs c' rsp = regs (core m) rsp;
  ran_regs x : x ∈ [rbx; rbp; r14; r15] → regs c' x = regs (core m) x;
  ran_mem a : P a → ¬ switch_writes (regs (core m) rsp) a → mem c' !! a = mem (core m) !! a;
  ran_steps : rtc (mem_step pmo) (kernel m, us) (k', us);
  ran_inv : ∃ l', user_inv pmo k0 pool k' us l';
  ran_kernel : k' = mkKernel (k_phys (kernel m')) k0 (kernel_page_table (kernel m'));
  ran_core : mem c' = mem (core m');
  ran_own a : space pmo k' r (page_of a) = space pmo (kernel m') r (page_of a) ∧ vbyte pmo k' r a = vbyte pmo (kernel m') r a;
  ran_others x a : x ∈ us → x ≠ r → user_page (page_of a) →
    space pmo k' x (page_of a) = space pmo (kernel m) x (page_of a) ∧ vbyte pmo k' x a = vbyte pmo (kernel m) x a }.

Lemma run_effect {Heap} ptr r entry (heap : Heap) m us l :
  user_inv pmo k0 pool (kernel m) us l → r ∈ us →
  layout_ok P (regs (core m) rsp) → (∀ x, x ∈ [rbx; rbp; r14; r15] → u64 (regs (core m) x)) →
  v.USER_START ≤ entry < v.USER_END →
  ∃ ce, at_entry ptr entry (core m) ce ∧
    let ke := mkKernel (k_phys (kernel m)) r (kernel_page_table (kernel m)) in
    ∀ e m', came_back (execute (mkMachine ke ce)) e m' →
    ∃ k' c', run ptr (mkResources (mkOPT (pmo + r) pmo) entry heap) m = Val (e, mkMachine k' c') ∧
      ran r us m m' k' c'.
Proof.
  intros Hi Hr Hl Hu Hen. set (ke := mkKernel (k_phys (kernel m)) r (kernel_page_table (kernel m))).
  pose proof (switch_user_run _ _ _ _ _ _ Hi Hr : switch_to_user_page_table _ (kernel m) = Val ((), ke)) as Hto.
  assert (user_inv pmo k0 pool ke us l) as Hike by (apply user_inv_switch; [done|by right]).
  destruct (switch_back ptr entry (mkMachine ke (core m)) Hl Hu Hen) as (ce & He & Hback).
  exists ce. split; [done|]. cbv zeta. fold ke. intros e m' Hcb. cbn [kernel core] in *.
  destruct (Hback e m' Hcb) as (c' & Hrun & Hrsp & Hregs & Hmem & Happmem).
  pose proof (app_kernel _ _ us l (came_back_or _ _ _ Hcb) Hike Hr) as Happ.
  destruct (app_steps_effect us r ke (kernel m') l Hike Happ) as (Hsteps & (l' & Hi') & _ & Ho).
  set (k' := mkKernel (k_phys (kernel m')) k0 (kernel_page_table (kernel m'))).
  pose proof (switch_kernel_run _ _ _ _ _ Hi' : switch_to_kernel_page_table (kernel m') = Val ((), k')) as Hback'.
  exists k', (mkCore (regs c') (rip c') (mem c') None). split.
  - unfold run, on_kernel, zoom. cbn [l4_page_table entry_point_virt_addr].
    rewrite (M_bind_run _ _ _ () (mkMachine ke (core m))) by (by rewrite Hto).
    rewrite (M_bind_run _ _ _ _ _ Hrun). erewrite (M_bind_run (modify _)) by done.
    erewrite M_bind_run by (cbn [kernel]; by rewrite Hback'). done.
  - split; try done.
    + eapply rtc_l; [by apply (ms_to_user pmo _ us r ke)|]. eapply rtc_r; [exact Hsteps|].
      by apply ms_to_kernel.
    + exists l'. apply user_inv_switch; [done|left].
Qed.

(** C7 (safety). Running an application whose entry point returns, or which aborts
    from anywhere in its call chain, comes back to the caller of [run]: the
    application was entered at its entry point, in its own address space, on its
    own stack, with the kernel's function table as argument; the exit code is
    the returned or the aborted value; the kernel's stack pointer, the saved
    registers and the kernel's memory are as before; the kernel address space is
    active and the run record is gone; the memory of the system only moved by
    the kernel's own steps, and every other application has its pages and their
    contents as before. *)
Theorem run_comes_back {Heap} ptr r entry (heap : Heap) m us l :
  user_inv pmo k0 pool (kernel m) us l → r ∈ us →
  layout_ok P (regs (core m) rsp) → (∀ x, x ∈ [rbx; rbp; r14; r15] → u64 (regs (core m) x)) →
  v.USER_START ≤ entry < v.USER_END →
  ∃ ce ke, at_entry ptr entry (core m) ce ∧ k_cr3 ke = r ∧
    ∀ e m', came_back (execute (mkMachine ke ce)) e m' →
    ∃ k' c', run ptr (mkResources (mkOPT (pmo + r) pmo) entry heap) m = Val (e, mkMachine k' c') ∧
      k_cr3 k' = k0 ∧ running_application_data c' = None ∧
      regs c' rsp = regs (core m) rsp ∧
      (∀ x, x ∈ [rbx; rbp; r14; r15] → regs c' x = regs (core m) x) ∧
      (∀ a, P a → ¬ switch_writes (regs (core m) rsp) a → mem c' !! a = mem (core m) !! a) ∧
      rtc (mem_step pmo) (kernel m, us) (k', us) ∧
      (∀ x a, x ∈ us → x ≠ r → user_page (page_of a) → vbyte pmo k' x a = vbyte pmo (kernel m) x a).
Proof.
  intros Hi Hr Hl Hu Hen. destruct (run_effect ptr r entry heap m us l Hi Hr Hl Hu Hen) as (ce & He & Hrun).
  exists ce, (mkKernel (k_phys (kernel m)) r (kernel_page_table (kernel m))). split_and!; [done|done|].
  intros e m' Hcb. destruct (Hrun e m' Hcb) as (k' & c' & Hr' & []). exists k', c'.
  split_and!; [exact Hr'|done..|]. intros x a Hx Hne Hp. by apply ran_others0.
Qed.
End Switch.
