(* ===== verification/UserSwitchDemo.v ===== *)
(** * Running two small applications

    An application that returns and one that aborts with every register
    destroyed, at which the theorem on [run] is instantiated. *)

From S2P Require Import Prelude Bytes Constants Platform FrameAlloc Paging Memory AddressSpace Isolation IsolationDemo Heap Loader UserSwitch.

#[local] Existing Instance dev_profile.
Import RefX86 RefBoot RefMapper.

#[export] Instance demo_image : Image := {|
  code_addr b n := 2 ^ 46 + (match b with SwitchAsm => 0 | SaveIp => 32 end) + Z.of_nat n;
  code_at a :=
    if (2 ^ 46 <=? a) && (a <? 2 ^ 46 + 32) then Some (SwitchAsm, Z.to_nat (a - 2 ^ 46))
    else if (2 ^ 46 + 32 <=? a) && (a <? 2 ^ 46 + 64) then Some (SaveIp, Z.to_nat (a - 2 ^ 46 - 32))
    else None;
  FUNCTION_POINTERS := 2 ^ 46 + 64;
  saved_stack_pointer := 2 ^ 46 + 128;
  abort_addr := 2 ^ 46 + 136 |}.

#[export] Instance demo_image_laws : ImageLaws.
Proof.
  split; intros.
  - unfold u64. destruct b; cbn in *; lia.
  - cbn [code_at code_addr demo_image]. destruct b; cbn [code length switch_asm save_instruction_pointer] in *.
    + rewrite (proj2 (Z.leb_le _ _)), (proj2 (Z.ltb_lt _ _)) by lia. cbn [andb]. repeat f_equal. lia.
    + rewrite (proj2 (Z.ltb_ge _ (2 ^ 46 + 32))), andb_false_r by lia.
      rewrite (proj2 (Z.leb_le _ _)), (proj2 (Z.ltb_lt _ _)) by lia. cbn [andb]. repeat f_equal. lia.
  - change v.USER_END with (2 ^ 39) in *. cbn [code_at demo_image].
    rewrite !(proj2 (Z.leb_gt _ _)) by lia. done.
Qed.

(** Entered below 4 MiB it returns 7, else it aborts with 42 and wrecks the
    registers. *)
#[local] Instance demo_app : Application := λ m,
  let c := core m in
  match load64 (regs c rsp) (mem c) with
  | Some ret =>
      if rip c <? 0x400000
      then Returned (mkMachine (kernel m)
        (mkCore (upd rax 7 (upd rsp (regs c rsp + 8) (regs c))) ret (mem c) (running_application_data c)))
      else Aborted 42 (mkMachine (kernel m) (mkCore (λ _, 0xdead) 0 (mem c) (running_application_data c)))
  | None => Hangs
  end.

(** The kernel half. *)
Definition kernel_memory (a : Z) : Prop := v.KERNEL_START ≤ a.

#[local] Instance demo_app_laws : ApplicationLaws pmo 0x1000 free kernel_memory.
Proof.
  split.
  - intros m m' us l Hor Hi Hcr. assert (kernel m' = kernel m) as ->; [|done].
    unfold execute, demo_app in Hor. destruct (load64 _ _); [|naive_solver].
    destruct (_ <? _); naive_solver.
  - intros m m' a Hor _. unfold execute, demo_app in Hor. destruct (load64 _ _); [|naive_solver].
    destruct (_ <? _); naive_solver.
  - intros m m' Hor. unfold execute, demo_app in Hor. destruct (load64 _ _); [|naive_solver].
    destruct (_ <? _); naive_solver.
  - intros m m' ret Hr Hl. unfold execute, demo_app in Hr. rewrite Hl in Hr.
    destruct (_ <? _); [|done]. injection Hr as <-. regs_simpl. split_and!; [done|done| |done].
    intros r Hr. repeat (apply elem_of_cons in Hr as [->|Hr]; [by regs_simpl|]). by apply elem_of_nil in Hr.
Qed.

Definition demo_core : Core := mkCore (λ r, match r with rsp => 2 ^ 47 | rbx => 1 | rbp => 2 ^ 47 + 64 | _ => 3 end) 0 ∅ None.
Definition demo_machine : Machine := mkMachine st2 demo_core.

Lemma st2_steps : rtc (mem_step pmo) (st0, []) (st2, us).
Proof.
  eapply rtc_l; [by apply (ms_create pmo st0 [] 0x10000 st1)|].
  eapply rtc_l; [by apply (ms_create pmo st1 [0x10000] 0x11000 st2)|]. done.
Qed.

Lemma demo_layout : layout_ok kernel_memory (2 ^ 47).
Proof.
  split; cbn [saved_stack_pointer abort_addr demo_image]; change v.KERNEL_START with (100 * 2 ^ 39); [lia..|].
  intros a Ha. unfold kernel_memory. change v.KERNEL_START with (100 * 2 ^ 39). lia.
Qed.

(** The aborting application, in the second space. *)
Lemma run_comes_back_witness :
  ∃ k' c', run 0 (mkResources (mkOPT (pmo + 0x11000) pmo) 0x800000 ()) demo_machine = Val (42, mkMachine k' c') ∧
    k_cr3 k' = 0x1000 ∧ running_application_data c' = None ∧ regs c' rsp = 2 ^ 47 ∧ regs c' rbx = 1.
Proof.
  destruct (reachable_user_inv 0x1000 free st0 free st2 us st0_inv eq_refl eq_refl st2_steps) as (l & Hi).
  destruct (run_comes_back 0x1000 free kernel_memory 0 0x11000 0x800000 () demo_machine us l Hi)
    as (ce & ke & He & Hcr & Hrun).
  - left.
  - exact demo_layout.
  - intros [] _; unfold u64; cbn; lia.
  - change v.USER_START with 0. change v.USER_END with (2 ^ 39). lia.
  - edestruct Hrun as (k' & c' & Hr & Hk & Hc & Hsp & Hregs & _).
    + left. unfold execute, demo_app. cbn [core]. destruct (en_return _ _ _ _ He) as [Hret _].
      rewrite (en_rsp _ _ _ _ He), Hret, (en_rip _ _ _ _ He). reflexivity.
    + exists k', c'. split_and!; [exact Hr|exact Hk|exact Hc|exact Hsp|]. apply Hregs. left.
Defined.

(** The machine run on the two applications. *)
Example demo_run_returns :
  match run 0 (mkResources (mkOPT (pmo + 0x11000) pmo) 0x200000 ()) demo_machine with
  | Val (e, m) => (e, k_cr3 (kernel m), regs (core m) rsp, regs (core m) rbp) | Fault _ => (0, 0, 0, 0)
  end = (7, 0x1000, 2 ^ 47, 2 ^ 47 + 64).
Proof. by vm_compute. Qed.

Example demo_run_aborts :
  match run 0 (mkResources (mkOPT (pmo + 0x11000) pmo) 0x800000 ()) demo_machine with
  | Val (e, m) => (e, k_cr3 (kernel m), regs (core m) rsp, regs (core m) rbp) | Fault _ => (0, 0, 0, 0)
  end = (42, 0x1000, 2 ^ 47, 2 ^ 47 + 64).
Proof. by vm_compute. Qed.
