(* ===== verification/RamDisk.v ===== *)
(** * The ram disk (src/kernel/src/ram_disk.rs and [Image] of src/bootimage/src/main.rs)

    The build tool packs files into an image; the kernel checks the image at
    boot and slices files out of it.  The layout is

      total length | crc32 | n | end_0 .. end_(n-1) | contents

    with 64-bit little-endian words.  The theorems: every packed file is read
    back unchanged, the kernel's check accepts exactly the images whose content
    is at least one byte per file, and what the check guarantees of the table.
    The CRC is the [pruefung] crate's, a class of operations. *)

From stdpp Require Import strings.
From S2P Require Import Prelude Bytes.

(** [pruefung::crc::crc32::Crc32] through [Hasher]. *)
Class Crc32 := {
  crc_state : Type;
  crc_default : crc_state;
  crc_write : crc_state → list Z → crc_state;
  crc_finish : crc_state → Z }.

(** A streaming hasher: writing in pieces is writing the concatenation; the
    result is a [u64]. *)
Class Crc32Laws `{Crc32} : Prop := {
  crc_write_app s a b : crc_write (crc_write s a) b = crc_write s (a ++ b);
  crc_finish_u64 s : u64 (crc_finish s) }.

(** ** The build tool *)

Record Image := mkImage { region_ends : list Z; buffer : list Z }.

Section ImageBuilder.
Context `{Profile} `{Crc32}.

(** The files of the build host, and its CARGO_TARGET_DIR. *)
Context (fs : string → option (list Z)) (cargo_target_dir : option string).

Definition Image_new : Image := mkImage [] [].

Definition add_file (file : string) (img : Image) : res Image :=
  unwrap (fs file) ≫= λ contents,
  let buf := buffer img ++ contents in
  Val (mkImage (region_ends img ++ [Z.of_nat (length buf)]) buf).

Definition user_app_path (name profile_name : string) : string :=
  (default "user_app/target" cargo_target_dir +:+
    "/x86_64-unknown-steelmind_os/" +:+ profile_name +:+ "/" +:+ name)%string.

Definition add_user_app (name profile_name : string) (img : Image) : res Image :=
  add_file (user_app_path name profile_name) img.

(** [add_string], on the bytes of the string. *)
Definition add_string (bytes : list Z) (img : Image) : Image :=
  let buf := buffer img ++ bytes in
  mkImage (region_ends img ++ [Z.of_nat (length buf)]) buf.

(** [build]: the bytes written to the image file. *)
Definition build (img : Image) : res (list Z) :=
  let region_ends' := Z.of_nat (length (region_ends img)) :: region_ends img in
  let region_lengths_buf := words region_ends' in
  let checksum := crc_finish (crc_write (crc_write crc_default region_lengths_buf) (buffer img)) in
  add64 (Z.of_nat (length region_lengths_buf)) (Z.of_nat (length (buffer img))) ≫= λ l0,
  add64 l0 8 ≫= λ l1,
  add64 l1 8 ≫= λ len,
  Val (to_le_bytes 8 len ++ to_le_bytes 8 checksum ++ region_lengths_buf ++ buffer img).

(** A chain of calls on one image, and what each puts into it. *)
Inductive pack_call := AddFile (file : string) | AddUserApp (name profile_name : string) | AddString (bytes : list Z).

Definition pack (c : pack_call) (img : Image) : res Image :=
  match c with
  | AddFile file => add_file file img
  | AddUserApp name profile_name => add_user_app name profile_name img
  | AddString bytes => Val (add_string bytes img)
  end.

Fixpoint pack_all (cs : list pack_call) (img : Image) : res Image :=
  match cs with [] => Val img | c :: cs' => pack c img ≫= pack_all cs' end.

Definition packed (c : pack_call) : option (list Z) :=
  match c with
  | AddFile file => fs file
  | AddUserApp name profile_name => fs (user_app_path name profile_name)
  | AddString bytes => Some bytes
  end.

(** [create_ram_disk] *)
Definition create_ram_disk (profile_name : string) : res (list Z) :=
  add_user_app "main" profile_name Image_new ≫= λ img1,
  add_user_app "test" profile_name img1 ≫= λ img2,
  add_file "bootimage/test.jpg" img2 ≫= λ img3,
  build img3.
End ImageBuilder.

(** ** The kernel side

    [disk] is the memory of [ramdisk_len] bytes at [ramdisk_addr]. *)

Section RamDisk.
Context `{Profile} `{Crc32}.
Context (ramdisk_addr : option Z) (disk : list Z).

Definition ramdisk_len : Z := Z.of_nat (length disk).

(** [file_end_slice[i]] of [file_end_slice = &ramdisk_u64_slice[3..]] *)
Definition file_end_slice (i : Z) : res Z := u64_at disk (3 + i).

(** [(raw_file_start, file_size)] of the file at [index]. *)
Definition file_bounds (index : Z) : res (Z * Z) :=
  if index =? 0 then
    file_end_slice 0 ≫= λ e, Val (0, e)
  else
    file_end_slice (index - 1) ≫= λ raw_file_start,
    file_end_slice index ≫= λ e,
    file_end_slice (index - 1) ≫= λ s,
    sub64 e s ≫= λ file_size,
    Val (raw_file_start, file_size).

Definition get_file_slice (index : Z) : res (list Z) :=
  unwrap ramdisk_addr ≫= λ _,
  u64_at disk 2 ≫= λ file_count,
  (if 3 <=? ramdisk_len `div` 8 then Val () else Fault Bounds) ≫= λ _,
  ass (index <? file_count) ≫= λ _,
  file_bounds index ≫= λ '(raw_file_start, file_size),
  add64 file_count 3 ≫= λ c3,
  mul64 c3 8 ≫= λ header,
  add64 raw_file_start header ≫= λ file_start,
  add64 file_start file_size ≫= λ file_end,
  slice disk file_start file_end.

Definition get_file_count : res Z :=
  unwrap ramdisk_addr ≫= λ _,
  u64_at disk 2.

Definition assert_soundness : res () :=
  ass (bool_decide (is_Some ramdisk_addr)) ≫= λ _,
  ass (ramdisk_len >=? 8 + 8 + 8 + 8 + 1) ≫= λ _,
  unwrap ramdisk_addr ≫= λ _,
  u64_at disk 0 ≫= λ ram_disk_read_length,
  ass (ram_disk_read_length =? ramdisk_len) ≫= λ _,
  u64_at disk 1 ≫= λ ram_disk_read_checksum,
  slice disk (8 + 8) ramdisk_len ≫= λ body,
  ass (ram_disk_read_checksum =? crc_finish (crc_write crc_default body)) ≫= λ _,
  u64_at disk 2 ≫= λ file_count,
  sub64 ram_disk_read_length 8 ≫= λ d0,
  sub64 d0 8 ≫= λ d1,
  sub64 d1 8 ≫= λ d2,
  ass (file_count <=? d2 `div` 9) ≫= λ _,
  Val ().
End RamDisk.

(** ** Lemmas *)

(** The ends of consecutive files, starting after [base] bytes. *)
Fixpoint ends_from (base : Z) (files : list (list Z)) : list Z :=
  match files with
  | [] => []
  | f :: fs => base + Z.of_nat (length f) :: ends_from (base + Z.of_nat (length f)) fs
  end.

(** The image that holds [files]; the builder makes it ([pack_all_image_of]). *)
Definition image_of (files : list (list Z)) : Image :=
  mkImage (ends_from 0 files) (concat files).

Lemma ends_from_snoc base files f :
  ends_from base (files ++ [f]) =
  ends_from base files ++ [base + Z.of_nat (length (concat (files ++ [f])))].
Proof.
  revert base. induction files as [|g files IH]; intros base; cbn.
  - by rewrite app_nil_r.
  - rewrite IH. cbn. do 3 f_equal. rewrite length_app. lia.
Qed.

Lemma image_of_snoc files f :
  image_of (files ++ [f]) =
  mkImage (region_ends (image_of files) ++ [Z.of_nat (length (buffer (image_of files) ++ f))])
    (buffer (image_of files) ++ f).
Proof.
  unfold image_of. rewrite ends_from_snoc. cbn. rewrite concat_app. cbn.
  by rewrite app_nil_r.
Qed.

Lemma length_ends_from base files : length (ends_from base files) = length files.
Proof. revert base. induction files as [|f fs IH]; intros base; cbn; [done|by rewrite IH]. Qed.

Lemma ends_from_lookup base files i f :
  files !! i = Some f →
  ends_from base files !! i =
    Some (base + Z.of_nat (length (concat (take i files))) + Z.of_nat (length f)).
Proof.
  revert base i. induction files as [|g files IH]; intros base [|i] Hi; cbn in *; simplify_eq.
  - f_equal. lia.
  - rewrite (IH _ i) by done. f_equal. rewrite length_app. lia.
Qed.

Lemma ends_from_u64 base files :
  0 ≤ base → base + Z.of_nat (length (concat files)) < 2 ^ 64 → Forall u64 (ends_from base files).
Proof.
  revert base. induction files as [|f files IH]; intros base Hb Hlt; cbn in *; [done|].
  rewrite length_app in Hlt. constructor; [split; lia|]. apply IH; lia.
Qed.

(** The calls of the builder append to the image. *)
Section Packing.
Context `{Profile} `{Crc32} (fs : string → option (list Z)) (dir : option string).

Lemma pack_image_of c files :
  pack fs dir c (image_of files) =
    match packed fs dir c with Some f => Val (image_of (files ++ [f])) | None => Fault Unwrap end.
Proof.
  assert (∀ file, add_file fs file (image_of files) =
    match fs file with Some f => Val (image_of (files ++ [f])) | None => Fault Unwrap end) as Hfile.
  { intros file. unfold add_file. destruct (fs file) as [f|]; [|done]. cbn. by rewrite image_of_snoc. }
  destruct c as [file|name prof|bytes]; [apply Hfile|apply Hfile|]. cbn. unfold add_string. by rewrite image_of_snoc.
Qed.

Lemma mapM_cons_eq {A B} (f : A → option B) x l : mapM f (x :: l) = (y ← f x; (y ::.) <$> mapM f l).
Proof. cbn. destruct (f x); [|done]. cbn. by destruct (mapM f l). Qed.

Lemma pack_all_image_of cs files :
  pack_all fs dir cs (image_of files) =
    match mapM (packed fs dir) cs with Some fs' => Val (image_of (files ++ fs')) | None => Fault Unwrap end.
Proof.
  revert files. induction cs as [|c cs IH]; intros files.
  - cbn. by rewrite app_nil_r.
  - cbn [pack_all]. rewrite mapM_cons_eq, pack_image_of. destruct (packed fs dir c) as [f|]; [|done]. cbn.
    rewrite IH. destruct (mapM _ cs) as [fs'|]; [|done]. cbn. by rewrite <-app_assoc.
Qed.
End Packing.

Section ImageLemmas.
Context `{Profile} `{Crc32Laws}.
Context (files : list (list Z)).

Local Abbreviation n := (Z.of_nat (length files)).
Local Abbreviation content := (Z.of_nat (length (concat files))).
Context (Hsmall : 24 + 8 * n + content < 2 ^ 64).

Definition image_crc : Z :=
  crc_finish (crc_write crc_default (words (n :: ends_from 0 files) ++ concat files)).

Definition image_len : Z := 24 + 8 * n + content.

Definition image_bytes : list Z :=
  to_le_bytes 8 image_len ++ to_le_bytes 8 image_crc ++
  words (n :: ends_from 0 files) ++ concat files.

Lemma build_image_of : build (image_of files) = Val image_bytes.
Proof using All.
  unfold build, image_of. cbn [region_ends buffer].
  rewrite length_words, length_ends_from. cbn [length]. rewrite length_ends_from.
  rewrite add64_in by lia. cbn [mbind res_bind]. rewrite add64_in by lia. cbn [mbind res_bind].
  rewrite add64_in by lia. cbn [mbind res_bind]. rewrite crc_write_app.
  unfold image_bytes. f_equal. f_equal. f_equal. unfold image_len. lia.
Qed.

Lemma length_image_bytes : Z.of_nat (length image_bytes) = image_len.
Proof.
  unfold image_bytes, image_len. rewrite !length_app, !length_to_le_bytes, length_words.
  cbn [length]. rewrite length_ends_from. lia.
Qed.

Lemma image_word0 : u64_at image_bytes 0 = Val image_len.
Proof using All.
  apply (u64_at_app [] image_len); [|done]. unfold image_len, u64. lia.
Qed.

Lemma image_word1 : u64_at image_bytes 1 = Val image_crc.
Proof using All.
  apply (u64_at_app (to_le_bytes 8 image_len) image_crc).
  - apply crc_finish_u64.
  - by rewrite length_to_le_bytes.
Qed.

Lemma image_table i w :
  (n :: ends_from 0 files) !! i = Some w → u64_at image_bytes (2 + Z.of_nat i) = Val w.
Proof using All.
  intros Hi. unfold image_bytes. rewrite app_assoc.
  replace 2 with (Z.of_nat (length (to_le_bytes 8 image_len ++ to_le_bytes 8 image_crc)) `div` 8)
    by (rewrite length_app, !length_to_le_bytes; reflexivity).
  apply u64_at_words; [|done|by rewrite length_app, !length_to_le_bytes].
  constructor; [split; lia|]. apply ends_from_u64; lia.
Qed.

Lemma image_end i f :
  files !! i = Some f →
  u64_at image_bytes (3 + Z.of_nat i) =
    Val (Z.of_nat (length (concat (take i files))) + Z.of_nat (length f)).
Proof using All.
  intros Hi. replace (3 + Z.of_nat i) with (2 + Z.of_nat (S i)) by lia.
  apply image_table. exact (ends_from_lookup 0 _ _ _ Hi).
Qed.

Lemma image_words_ge_3 : 3 ≤ image_len `div` 8.
Proof. unfold image_len. apply Z.div_le_lower_bound; lia. Qed.

Lemma concat_take_S i f :
  files !! i = Some f →
  length (concat (take (S i) files)) = (length (concat (take i files)) + length f)%nat.
Proof.
  intros Hi. rewrite (take_S_r _ _ _ Hi), concat_app, length_app. cbn. by rewrite app_nil_r.
Qed.

Lemma concat_split i f :
  files !! i = Some f →
  concat files = concat (take i files) ++ f ++ concat (drop (S i) files).
Proof.
  intros Hi. rewrite <-(take_drop_middle _ _ _ Hi) at 1. by rewrite concat_app.
Qed.

Lemma image_file_bounds i f :
  files !! i = Some f →
  file_bounds image_bytes (Z.of_nat i) =
    Val (Z.of_nat (length (concat (take i files))), Z.of_nat (length f)).
Proof using All.
  intros Hi. pose proof (image_end i f Hi) as Hend.
  unfold file_bounds, file_end_slice. destruct i as [|i].
  - change (Z.of_nat 0) with 0 in *. cbn [Z.eqb]. rewrite Hend. cbn. reflexivity.
  - rewrite (proj2 (Z.eqb_neq _ _)) by lia.
    pose proof (lookup_lt_Some _ _ _ Hi).
    destruct (lookup_lt_is_Some_2 files i) as [g Hg]; [lia|].
    pose proof (image_end i g Hg) as Hend0. pose proof (concat_take_S i g Hg) as Hti.
    assert (Z.of_nat (length (concat files)) < 2 ^ 64) as Hc by lia.
    rewrite (concat_split (S i) f Hi), !length_app in Hc.
    replace (3 + (Z.of_nat (S i) - 1)) with (3 + Z.of_nat i) by lia.
    rewrite Hend0. cbn [mbind res_bind]. rewrite Hend. cbn [mbind res_bind].
    rewrite sub64_in by lia. cbn [mbind res_bind]. do 2 f_equal; lia.
Qed.

(** The slice the kernel takes is the file. *)
Lemma image_slice i f header :
  files !! i = Some f → header = 24 + 8 * n →
  slice image_bytes (Z.of_nat (length (concat (take i files))) + header)
    (Z.of_nat (length (concat (take i files))) + header + Z.of_nat (length f)) = Val f.
Proof using All.
  intros Hi ->. unfold image_bytes. rewrite (concat_split i f Hi).
  rewrite !app_assoc. rewrite <-(app_assoc _ f).
  apply slice_app; [|done].
  rewrite !length_app, !length_to_le_bytes, length_words. cbn [length].
  rewrite length_ends_from. lia.
Qed.
End ImageLemmas.

(** ** Properties *)

(** The reads of the kernel from a disk that holds [files]. *)
Definition reads_back `{Profile} (addr : Z) (disk : list Z) (files : list (list Z)) : Prop :=
  get_file_count (Some addr) disk = Val (Z.of_nat (length files)) ∧
  (∀ i f, files !! i = Some f → get_file_slice (Some addr) disk (Z.of_nat i) = Val f) ∧
  (∀ i, Z.of_nat (length files) ≤ i → get_file_slice (Some addr) disk i = Fault Assertion).

Definition fits_in (files : list (list Z)) : Prop :=
  24 + 8 * Z.of_nat (length files) + Z.of_nat (length (concat files)) < 2 ^ 64.

Lemma image_reads_back `{Profile} `{Crc32Laws} files addr :
  fits_in files → ∃ disk, build (image_of files) = Val disk ∧ reads_back addr disk files.
Proof.
  intros Hsmall. unfold fits_in in Hsmall. exists (image_bytes files).
  pose proof (image_words_ge_3 files) as H3.
  assert (u64_at (image_bytes files) 2 = Val (Z.of_nat (length files))) as Hcount.
  { by apply (image_table files Hsmall 0). }
  split; [by apply build_image_of|]. split_and!; [done| |]; intros i.
  - intros f Hi. unfold get_file_slice, ramdisk_len. cbn [unwrap mbind res_bind].
    rewrite Hcount, length_image_bytes. cbn [mbind res_bind].
    pose proof (lookup_lt_Some _ _ _ Hi).
    rewrite (proj2 (Z.leb_le _ _)), (proj2 (Z.ltb_lt _ _)) by lia. cbn [mbind res_bind ass].
    rewrite (image_file_bounds files Hsmall i f Hi). cbn [mbind res_bind].
    pose proof (f_equal length (concat_split files i f Hi)) as Hl. rewrite !length_app in Hl.
    rewrite add64_in by lia. cbn [mbind res_bind]. rewrite mul64_in by lia. cbn [mbind res_bind].
    rewrite add64_in by lia. cbn [mbind res_bind]. rewrite add64_in by lia. cbn [mbind res_bind].
    apply image_slice; [done..|lia].
  - intros Hi. unfold get_file_slice, ramdisk_len. cbn [unwrap mbind res_bind].
    rewrite Hcount, length_image_bytes. cbn [mbind res_bind].
    by rewrite (proj2 (Z.leb_le _ _)), (proj2 (Z.ltb_ge _ _)) by lia.
Qed.

(** C31 (roundtrip).  Packing files and reading them back: after any chain of
    [add_file], [add_user_app] and [add_string] on a new image, [build] writes a
    disk with the right file count, on which the kernel's [get_file_slice i]
    returns exactly what the call [i] put in, and any other index is refused by
    the assertion; a file that does not exist is a panic of the build tool.  In
    particular the files 0, 1 and 2 of the disk that [create_ram_disk] makes
    are the programs main and test and the picture. *)
Theorem ram_disk_roundtrip `{Profile} `{Crc32Laws} fs dir addr :
  (∀ cs, match mapM (packed fs dir) cs with
    | Some files => fits_in files →
        ∃ disk, pack_all fs dir cs Image_new ≫= build = Val disk ∧ reads_back addr disk files
    | None => pack_all fs dir cs Image_new ≫= build = Fault Unwrap
    end) ∧
  ∀ profile app test jpg, fs (user_app_path dir "main" profile) = Some app →
    fs (user_app_path dir "test" profile) = Some test → fs "bootimage/test.jpg"%string = Some jpg →
    fits_in [app; test; jpg] →
    ∃ disk, create_ram_disk fs dir profile = Val disk ∧ reads_back addr disk [app; test; jpg].
Proof.
  assert (∀ cs, match mapM (packed fs dir) cs with
    | Some files => fits_in files →
        ∃ disk, pack_all fs dir cs Image_new ≫= build = Val disk ∧ reads_back addr disk files
    | None => pack_all fs dir cs Image_new ≫= build = Fault Unwrap
    end) as Hall.
  { intros cs. change Image_new with (image_of []). rewrite pack_all_image_of.
    destruct (mapM _ cs) as [files|]; [|done]. apply image_reads_back. }
  split; [exact Hall|]. intros profile app test jpg Ha Ht Hj Hfit.
  specialize (Hall [AddUserApp "main" profile; AddUserApp "test" profile; AddFile "bootimage/test.jpg"]).
  cbn [packed mapM mbind option_bind mret option_ret] in Hall. rewrite Ha, Ht, Hj in Hall. destruct (Hall Hfit) as (disk & Hr & Hrb).
  exists disk. split; [|done]. rewrite <-Hr. unfold create_ram_disk. cbn [pack_all pack].
  destruct (add_user_app _ _ _ _ _) as [i1|]; [|done]. cbn. destruct (add_user_app _ _ _ _ i1) as [i2|]; [|done]. cbn.
  by destruct (add_file _ _ i2).
Qed.

(**  The boot check [assert_soundness] on an image the build
    tool made passes exactly when the image holds at least one file and at
    least as many content bytes as files; otherwise it panics on an assertion. *)
Theorem assert_soundness_built `{Profile} `{Crc32Laws} files addr disk :
  24 + 8 * Z.of_nat (length files) + Z.of_nat (length (concat files)) < 2 ^ 64 →
  build (image_of files) = Val disk →
  assert_soundness (Some addr) disk =
    if (1 <=? Z.of_nat (length files)) &&
       (Z.of_nat (length files) <=? Z.of_nat (length (concat files)))
    then Val () else Fault Assertion.
Proof.
  intros Hsmall Hb. rewrite build_image_of in Hb by done. injection Hb as <-.
  unfold assert_soundness, ramdisk_len.
  pose proof (image_word0 files Hsmall) as Hw0. pose proof (image_word1 files Hsmall) as Hw1.
  assert (u64_at (image_bytes files) 2 = Val (Z.of_nat (length files))) as Hw2.
  { by apply (image_table files Hsmall 0). }
  rewrite length_image_bytes, Hw0, Hw1, Hw2. cbn [mbind res_bind unwrap].
  rewrite bool_decide_eq_true_2 by done. cbn [mbind res_bind ass].
  assert (slice (image_bytes files) (8 + 8) (image_len files) =
    Val (words (Z.of_nat (length files) :: ends_from 0 files) ++ concat files)) as ->.
  { assert (image_bytes files =
      (to_le_bytes 8 (image_len files) ++ to_le_bytes 8 (image_crc files)) ++
      (words (Z.of_nat (length files) :: ends_from 0 files) ++ concat files) ++ []) as ->
      by (unfold image_bytes; by rewrite app_nil_r, <-app_assoc).
    apply slice_app; rewrite !length_app, ?length_to_le_bytes, ?length_words; [done|].
    cbn [length]. rewrite length_ends_from. unfold image_len. lia. }
  cbn [mbind res_bind]. unfold image_crc. rewrite !Z.eqb_refl. cbn [mbind res_bind ass].
  unfold image_len. rewrite sub64_in by lia. cbn [mbind res_bind].
  rewrite sub64_in by lia. cbn [mbind res_bind]. rewrite sub64_in by lia. cbn [mbind res_bind].
  set (n := Z.of_nat (length files)) in *. set (c := Z.of_nat (length (concat files))) in *.
  replace (24 + 8 * n + c - 8 - 8 - 8) with (8 * n + c) by lia.
  assert (n ≤ (8 * n + c) `div` 9 ↔ n ≤ c) as Hiff.
  { split; intros; [Z.div_mod_to_equations; lia|apply Z.div_le_lower_bound; lia]. }
  assert (n = 0 → c = 0) as Hnil.
  { subst n c. destruct files; [done|]. cbn [length]. lia. }
  destruct (Z.geb_spec (24 + 8 * n + c) (8 + 8 + 8 + 8 + 1)); cbn [mbind res_bind ass].
  - destruct (Z.leb_spec n ((8 * n + c) `div` 9)), (Z.leb_spec 1 n), (Z.leb_spec n c);
      cbn; (done || lia).
  - destruct (Z.leb_spec 1 n), (Z.leb_spec n c); cbn; (done || lia).
Qed.

(**  What a passed check guarantees on any disk, also one the
    build tool did not make: the file count fits the disk, and every entry of
    the table of file ends can be read without leaving it. *)
Theorem assert_soundness_table `{Profile} `{Crc32} addr disk :
  Z.of_nat (length disk) < 2 ^ 64 →
  assert_soundness addr disk = Val () →
  ∃ count, get_file_count addr disk = Val count ∧
    24 + 9 * count ≤ Z.of_nat (length disk) ∧
    (∀ i, 0 ≤ i < count → is_val (file_end_slice disk i) = true).
Proof.
  intros Hlt Hs. unfold assert_soundness in Hs. res_inv.
  repeat match goal with
  | H : (_ =? _) = true |- _ => apply Z.eqb_eq in H
  | H : (_ >=? _) = true |- _ => apply Z.geb_le in H
  | H : (_ <=? _) = true |- _ => apply Z.leb_le in H
  end. unfold ramdisk_len in *. subst.
  rewrite sub64_in in * by lia. res_inv. rewrite sub64_in in * by lia. res_inv.
  rewrite sub64_in in * by lia. res_inv.
  match goal with H : u64_at disk 2 = Val ?c |- _ => exists c; rename H into Hcount end.
  split_and!; [|Z.div_mod_to_equations; lia|].
  - unfold get_file_count. cbn. exact Hcount.
  - intros i Hi. unfold file_end_slice, u64_at.
    rewrite (proj2 (Z.leb_le _ _)), (proj2 (Z.ltb_lt _ _));
      [done|Z.div_mod_to_equations; lia|lia].
Qed.

(** ** Witnesses: a three-file image, with a byte sum for the checksum *)

Module RamDiskDemo.
#[local] Existing Instance dev_profile.

#[local] Instance sum_crc : Crc32 := {
  crc_state := list Z;
  crc_default := [];
  crc_write s l := s ++ l;
  crc_finish s := foldr Z.add 0 s `mod` 2 ^ 64 }.

#[local] Instance sum_crc_laws : Crc32Laws.
Proof. split; [intros; apply app_assoc_reverse|intros; apply Z.mod_pos_bound; lia]. Qed.

Definition files : list (list Z) := [[1; 2; 3]; []; [7; 8]].

(** The three files of the image, and a host that has the picture but not the
    program test. *)
Definition host (file : string) : option (list Z) :=
  if decide (file = "user_app/target/x86_64-unknown-steelmind_os/debug/main"%string) then Some [1; 2; 3]
  else if decide (file = "bootimage/test.jpg"%string) then Some [7; 8] else None.

Lemma ram_disk_roundtrip_witness :
  (∃ disk, pack_all host None [AddUserApp "main" "debug"; AddString []; AddFile "bootimage/test.jpg"] Image_new ≫= build =
      Val disk ∧ get_file_slice (Some 4096) disk 0 = Val [1; 2; 3] ∧ get_file_slice (Some 4096) disk 2 = Val [7; 8] ∧
      get_file_slice (Some 4096) disk 3 = Fault Assertion) ∧
  (pack_all host None [AddUserApp "main" "debug"; AddUserApp "test" "debug"] Image_new ≫= build = Fault Unwrap).
Proof.
  split.
  - destruct (proj1 (ram_disk_roundtrip host None 4096)
      [AddUserApp "main" "debug"; AddString []; AddFile "bootimage/test.jpg"] ltac:(by vm_compute))
      as (disk & Hd & _ & Hr & Hn).
    exists disk. split_and!; [exact Hd|exact (Hr 0%nat _ eq_refl)|exact (Hr 2%nat _ eq_refl)|].
    apply Hn. vm_compute. discriminate.
  - exact (proj1 (ram_disk_roundtrip host None 4096) [AddUserApp "main" "debug"; AddUserApp "test" "debug"]).
Defined.

Definition disk : list Z := match build (image_of files) with Val d => d | _ => [] end.

Lemma assert_soundness_built_witness : assert_soundness (Some 4096) disk = Val ().
Proof. apply (assert_soundness_built files 4096 disk); [by vm_compute|reflexivity]. Defined.

Lemma assert_soundness_table_witness :
  ∃ count, get_file_count (Some 4096) disk = Val count ∧
    24 + 9 * count ≤ Z.of_nat (length disk) ∧
    (∀ i, 0 ≤ i < count → is_val (file_end_slice disk i) = true).
Proof. apply assert_soundness_table; [by vm_compute|by vm_compute]. Defined.
End RamDiskDemo.
