(* ===== verification/AppTest.v ===== *)
(** * Two applications from the ram disk (src/kernel/src/common_main.rs, tests/mem_test.rs)

    [app_test], which the tests repeat as [simple_user_application]: two copies
    of the test program are loaded from the ram disk and run three times.  The
    whole path is put together here: the file of the ram disk, the loader, the
    switch into the application and back, and the program of [UserApp], which
    counts its runs in its own copy of a static. *)

From S2P Require Import Prelude Bytes Constants Platform FrameAlloc Paging Memory AddressSpace Isolation MapPages UserMem Heap Loader RamDisk UserApp UserSwitch.

(** Where Rust puts an [ApplicationResources] in memory is a parameter: what a
    variable at an address holds, and the store that initialises it. *)
Class ResourcesLayout (Heap : Type) := {
  RESOURCES_SIZE : Z;
  put_resources : Z → ApplicationResources Heap → gmap Z Z → gmap Z Z;
  resources_at : Z → gmap Z Z → option (ApplicationResources Heap) }.

(** The bytes of the variable at [ptr]. *)
Definition in_resources `{ResourcesLayout Heap} (ptr a : Z) : Prop := ptr ≤ a < ptr + RESOURCES_SIZE.

Class ResourcesLaws (Heap : Type) `{ResourcesLayout Heap} : Prop := {
  resources_put ptr res m : resources_at ptr (put_resources ptr res m) = Some res;
  put_resources_other ptr res m a : ¬ in_resources ptr a → put_resources ptr res m !! a = m !! a;
  resources_ext ptr m m' : (∀ a, in_resources ptr a → m' !! a = m !! a) → resources_at ptr m' = resources_at ptr m }.

Section AppTest.
Context `{Profile} `{X86Addr} `{Boot} `{Mapper} `{Image} `{Application} `{Elf} `{BuddyHeap Heap} `{Crc32}.
Context `{!ResourcesLayout Heap}.

(** The memory of the ram disk, and where the two local variables are. *)
Context (disk : list Z) (resources_a_ptr resources_b_ptr : Z).

(** [let mut resources = ...] of the variable at [ptr]. *)
Definition let_resources (ptr : Z) (res : ApplicationResources Heap) : M Machine () :=
  modify (λ m, mkMachine (kernel m)
    (mkCore (regs (core m)) (rip (core m)) (put_resources ptr res (mem (core m))) (running_application_data (core m)))).

(** [run] and [drop] use the tables and the entry point, which do not change. *)
Definition app_test : M Machine () :=
  liftr (get_file_slice (bi_ramdisk_addr boot_info) disk 1) ≫= λ user_app,
  on_kernel (prepare_application user_app) ≫= λ resources_a,
  let_resources resources_a_ptr resources_a ≫= λ _,
  on_kernel (prepare_application user_app) ≫= λ resources_b,
  let_resources resources_b_ptr resources_b ≫= λ _,
  run resources_a_ptr resources_a ≫= λ ret1, liftr (ass (ret1 =? 0)) ≫= λ _,
  run resources_b_ptr resources_b ≫= λ ret2, liftr (ass (ret2 =? 0)) ≫= λ _,
  run resources_a_ptr resources_a ≫= λ ret3, liftr (ass (ret3 =? 42)) ≫= λ _,
  on_kernel (drop_resources resources_b) ≫= λ _,
  on_kernel (drop_resources resources_a).
End AppTest.

(** ** The program *)

Section Program.
Context `{Profile} `{X86AddrLaws} `{BootOk pmo} `{Mapper} `{!MapperLaws pmo} `{ImageLaws} `{!Application}.

(** The counter of the program at [cnt] has the value [c] in the space [r],
    and can be written. *)
Definition counts (cnt : Z) (st : Kernel) (r c : Z) : Prop :=
  holds_word (pmo := pmo) st r cnt c ∧
  ∀ y, cnt ≤ y < cnt + 8 → user_page (page_of y) ∧
    ∃ f fl, space pmo st r (page_of y) = Some (f, fl) ∧ Z.testbit fl 1 = true.

Lemma counts_same cnt st st' r c :
  (∀ a, user_page (page_of a) → space pmo st' r (page_of a) = space pmo st r (page_of a) ∧
    vbyte pmo st' r a = vbyte pmo st r a) →
  counts cnt st r c → counts cnt st' r c.
Proof.
  intros Hs [Hw Hp]. split.
  - intros j b Hj. pose proof (lookup_lt_Some _ _ _ Hj) as Hlt. rewrite length_to_le_bytes in Hlt.
    destruct (Hs (cnt + Z.of_nat j)) as [_ ->]; [apply Hp; lia|]. by apply Hw.
  - intros y Hy. destruct (Hp y Hy) as (Hu & f & fl & Hsp & Hfl). split; [done|]. exists f, fl.
    destruct (Hs y Hu) as [-> _]. done.
Qed.

(** The file has the counter in a writable segment, as zero. *)
Definition counter_in `{Elf} (file : ElfBytes) (segs : list ProgramHeader) (cnt : Z) : Prop :=
  ∃ seg fl data, seg ∈ segs ∧ is_load seg ∧ segment_flags (p_flags seg) = Val fl ∧ Z.testbit fl 1 = true ∧
    segment_data file seg = Some data ∧ p_vaddr seg ≤ cnt ∧ cnt + 8 ≤ p_vaddr seg + p_memsz seg ∧
    ∀ i, cnt ≤ i < cnt + 8 → segment_byte data (i - p_vaddr seg) = 0.

Lemma counts_loaded `{Elf} file segs cnt st r :
  (∀ seg, seg ∈ segs → is_load seg → seg_ok file seg) → counter_in file segs cnt →
  holds_file (pmo := pmo) file st r segs → counts cnt st r 0.
Proof.
  intros Hok (seg & fl & data & Hin & Hload & Hfl & Hw & Hdata & Hlo & Hhi & Hz) Hfile.
  destruct (Hfile seg Hin Hload) as (fl' & data' & Hfl' & Hdata' & Hseg).
  assert (fl' = fl) as -> by congruence. assert (data' = data) as -> by congruence. split.
  - intros j b Hj. pose proof (lookup_lt_Some _ _ _ Hj) as Hlt. rewrite length_to_le_bytes in Hlt.
    destruct (Hseg (cnt + Z.of_nat j)) as [_ ->]; [unfold in_region; lia|]. rewrite Hz by lia.
    change (to_le_bytes 8 0) with (replicate 8 0) in Hj. by apply lookup_replicate_1 in Hj as [-> _].
  - intros y Hy. split; [apply (seg_user file seg); [by apply Hok|unfold in_region; lia]|].
    destruct (Hseg y) as [[f Hf] _]; [unfold in_region; lia|]. exists f, (user_flags fl). split; [done|].
    unfold user_flags. by rewrite !Z.lor_spec, Hw.
Qed.

(** *** The compiled program

    The file of the program, its entry point, where its counter is, and what it
    asks of the machine: the frames that one run takes for its heap. *)
Record Compiled `{Elf} := mkCompiled {
  cp_file : ElfBytes; cp_segs : list ProgramHeader; cp_counter : Z; cp_frames : nat; cp_panic_info : list Z }.
#[global] Arguments mkCompiled {_} _ _ _ _ _.

(** The program is in the space [r]: every loadable segment is mapped with its
    flags, one that is not writable holds the bytes of the file, and the stack
    is mapped above its guard page. *)
Record program_in `{Elf} (cp : Compiled) (st : Kernel) (r : Z) : Prop := {
  pi_segments seg : seg ∈ cp_segs cp → is_load seg → ∃ fl data,
    segment_flags (p_flags seg) = Val fl ∧ segment_data (cp_file cp) seg = Some data ∧
    ∀ x, in_region (p_vaddr seg) (p_memsz seg) x →
      (∃ f, space pmo st r (page_of x) = Some (f, user_flags fl)) ∧
      (Z.testbit fl 1 = false → vbyte pmo st r x = Some (segment_byte data (x - p_vaddr seg)));
  pi_stack p : p ∈ stack_pages → ∃ f, space pmo st r p = Some (f, user_flags stack_flags);
  pi_guard : space pmo st r v.USER_STACK_START = None }.

(** Two states show a user space alike. *)
Definition same_pages (st st' : Kernel) (r r' : Z) : Prop := ∀ a, user_page (page_of a) →
  space pmo st' r' (page_of a) = space pmo st r (page_of a) ∧ vbyte pmo st' r' a = vbyte pmo st r a.

(** What the source says about the compiled program.  [at_rest] is the
    consistency of its other statics and of its heap, the record of which the
    kernel keeps in the resources, between two runs.  A run that finds the
    program loaded, at rest, with [cp_frames] frames free, ends as [test_main]
    does, leaves the counter one higher and is at rest again; of the kernel's
    stack, up to [top], it and the kernel's functions write nothing but its own
    resources. *)
Class TestProgram `{Elf} `{BuddyHeap Heap} `{!ResourcesLayout Heap}
    (k0 : Z) (pool : list Z) (top : Z) (cp : Compiled) := {
  at_rest : Heap → Kernel → Z → Prop;
  at_rest_own h st st' r : same_pages st st' r r → at_rest h st r → at_rest h st' r;
  at_rest_loaded st r : holds_file (pmo := pmo) (cp_file cp) st r (cp_segs cp) →
    (∀ p, above_stack p → space pmo st r p = None) → at_rest heap_new st r;
  test_program m us l c ptr c0 opt h :
    user_inv pmo k0 pool (kernel m) us l → k_cr3 (kernel m) ∈ us → (cp_frames cp ≤ length l)%nat →
    at_entry ptr (e_entry (cp_file cp)) c0 (core m) → program_in cp (kernel m) (k_cr3 (kernel m)) →
    resources_at ptr (mem (core m)) = Some (mkResources opt (e_entry (cp_file cp)) h) →
    0 ≤ c < 2 ^ 64 - 1 → counts (cp_counter cp) (kernel m) (k_cr3 (kernel m)) c →
    at_rest h (kernel m) (k_cr3 (kernel m)) →
    ∃ m' l' h', user_inv pmo k0 pool (kernel m') us l' ∧ (length l ≤ length l' + cp_frames cp)%nat ∧
      program_in cp (kernel m') (k_cr3 (kernel m)) ∧
      resources_at ptr (mem (core m')) = Some (mkResources opt (e_entry (cp_file cp)) h') ∧
      (∀ a, regs c0 rsp ≤ a < top → ¬ in_resources ptr a → mem (core m') !! a = mem (core m) !! a) ∧
      counts (cp_counter cp) (kernel m') (k_cr3 (kernel m)) (c + 1) ∧ at_rest h' (kernel m') (k_cr3 (kernel m)) ∧
      match test_end (cp_panic_info cp) FUNCTION_POINTERS c with
      | inl v => execute m = Returned m' ∧ regs (core m') rax = v
      | inr (AbortedWith e) => execute m = Aborted e m'
      | inr UndefinedBehaviour => False
      end }.

Lemma program_same `{Elf} cp st st' r :
  (∀ seg, seg ∈ cp_segs cp → is_load seg → seg_ok (cp_file cp) seg) →
  same_pages st st' r r → program_in cp st r → program_in cp st' r.
Proof.
  intros Hok Hs [Hseg Hst Hg].
  assert (∀ p, user_page p → (4096 | p) → space pmo st' r p = space pmo st r p) as Hp.
  { intros p Hp Hd. rewrite <-(page_of_page p Hd). apply Hs. by rewrite page_of_page. }
  split.
  - intros seg Hin Hload. destruct (Hseg seg Hin Hload) as (fl & data & Hfl & Hd & Hx).
    exists fl, data. split_and!; [done..|]. intros x Hxr.
    destruct (Hs x (seg_user (cp_file cp) seg x (Hok seg Hin Hload) Hxr)) as [-> ->]. by apply Hx.
  - intros p Hpin. destruct (stack_page_user p Hpin). rewrite Hp by done. by apply Hst.
  - rewrite Hp; [done|by vm_compute|by exists (2 ^ 20)].
Qed.

(** [prepare_application] loads it. *)
Lemma program_prepared `{Elf} k0 pool cp st us l r st' l' :
  prepared (pmo := pmo) k0 pool (cp_file cp) (cp_segs cp) st us l r st' l' → program_in cp st' r.
Proof.
  intros [_ _ _ _ _ Hfile Hst Hg _ _]. split; [|done..]. intros seg Hin Hload.
  destruct (Hfile seg Hin Hload) as (fl & data & Hfl & Hd & Hx). exists fl, data. split_and!; [done..|].
  intros x Hxr. by destruct (Hx x Hxr).
Qed.
End Program.

(** ** The test passes *)

Section Spec.
Context `{Profile} `{X86AddrLaws} `{BootOk pmo} `{Mapper} `{!MapperLaws pmo} `{ImageLaws}.
Context (k0 : Z) (pool : list Z) (P : Z → Prop) `{!Application} `{!ApplicationLaws pmo k0 pool P}.
Context `{Elf} `{BuddyHeap Heap} `{!ResourcesLayout Heap} `{!ResourcesLaws Heap}.
Context (top : Z) (cp : Compiled) `{!TestProgram (pmo := pmo) k0 pool top cp}.

Let entry : Z := e_entry (cp_file cp).

(** The file is one that the loader takes, and the counter is in it. *)
Record file_ok : Prop := {
  fo_segments seg : seg ∈ cp_segs cp → is_load seg → seg_ok (cp_file cp) seg;
  fo_pages : pages_disjoint (cp_segs cp);
  fo_counter : counter_in (cp_file cp) (cp_segs cp) (cp_counter cp);
  fo_entry : v.USER_START ≤ entry < v.USER_END }.

(** A core that can run an application of [us], with the free frames [l]; the
    run record is not on its stack. *)
Record ready (us l : list Z) (m : Machine) : Prop := {
  rd_inv : user_inv pmo k0 pool (kernel m) us l;
  rd_layout : layout_ok P (regs (core m) rsp);
  rd_regs x : x ∈ [rbx; rbp; r14; r15] → u64 (regs (core m) x);
  rd_stack a : regs (core m) rsp ≤ a < top → ¬ switch_writes (regs (core m) rsp) a }.

(** The variable at [ptr] is on the stack. *)
Definition on_stack (m : Machine) (ptr : Z) : Prop := regs (core m) rsp ≤ ptr ∧ ptr + RESOURCES_SIZE ≤ top.

(** The test program is loaded in the space [r], has run [c] times, and its
    resources are at [ptr]. *)
Definition loaded (r ptr c : Z) (m : Machine) : Prop := ∃ h,
  resources_at ptr (mem (core m)) = Some (mkResources (mkOPT (pmo + r) pmo) entry h) ∧
  program_in (pmo := pmo) cp (kernel m) r ∧ counts (pmo := pmo) (cp_counter cp) (kernel m) r c ∧ at_rest h (kernel m) r.

Lemma loaded_kept r ptr c m m' :
  file_ok → same_pages (pmo := pmo) (kernel m) (kernel m') r r →
  (∀ a, in_resources ptr a → mem (core m') !! a = mem (core m) !! a) → loaded r ptr c m → loaded r ptr c m'.
Proof.
  intros Hf Hs Hm (h & Hr & Hp & Hc & Ha). exists h. split_and!.
  - by rewrite (resources_ext ptr (mem (core m))).
  - by eapply program_same; [apply Hf| |].
  - by eapply counts_same.
  - by eapply at_rest_own.
Qed.

(** A program that was just loaded, in its variable. *)
Lemma loaded_fresh us l r k' l' ptr m :
  file_ok → prepared (pmo := pmo) k0 pool (cp_file cp) (cp_segs cp) (kernel m) us l r k' l' →
  ∃ m', let_resources ptr (mkResources (mkOPT (pmo + r) pmo) entry heap_new) (mkMachine k' (core m)) = Val ((), m') ∧
    kernel m' = k' ∧ regs (core m') = regs (core m) ∧ loaded r ptr 0 m' ∧
    ∀ a, ¬ in_resources ptr a → mem (core m') !! a = mem (core m) !! a.
Proof.
  intros Hf Hp. eexists. split; [reflexivity|]. split_and!; [done|done| |].
  - exists heap_new. split_and!.
    + apply resources_put.
    + by eapply program_prepared.
    + by eapply counts_loaded; [apply Hf|apply Hf|apply Hp].
    + apply at_rest_loaded; apply Hp.
  - intros a Ha. by apply put_resources_other.
Qed.

(** What one run of the program leaves: the space of the others, the core as it
    was, and the stack but for its own resources. *)
Record after_run (us l : list Z) (r ptr : Z) (m m' : Machine) : Prop := {
  af_ready : ∃ l', ready us l' m' ∧ (length l ≤ length l' + cp_frames cp)%nat;
  af_cr3 : k_cr3 (kernel m') = k0;
  af_rsp : regs (core m') rsp = regs (core m) rsp;
  af_stack a : regs (core m) rsp ≤ a < top → ¬ in_resources ptr a → mem (core m') !! a = mem (core m) !! a;
  af_others x : x ∈ us → x ≠ r → same_pages (pmo := pmo) (kernel m) (kernel m') x x }.

Lemma run_test us l r ptr (heap : Heap) m c :
  file_ok → ready us l m → r ∈ us → on_stack m ptr → (cp_frames cp ≤ length l)%nat →
  0 ≤ c < 2 ^ 64 - 1 → loaded r ptr c m →
  ∃ m', run ptr (mkResources (mkOPT (pmo + r) pmo) entry heap) m = Val (if c =? 0 then 0 else 42, m') ∧
    after_run us l r ptr m m' ∧ loaded r ptr (c + 1) m'.
Proof.
  intros Hf [Hi Hl Hu Hst] Hr [Hp1 Hp2] Hlen Hc (h & Hres & Hprog & Hcnt & Hrest).
  destruct (run_effect k0 pool P ptr r entry heap m us l Hi Hr Hl Hu (fo_entry Hf)) as (ce & He & Hrun).
  set (ke := mkKernel (k_phys (kernel m)) r (kernel_page_table (kernel m))) in *. cbv zeta in Hrun. fold ke in Hrun.
  assert (user_inv pmo k0 pool ke us l) as Hike by (apply user_inv_switch; [done|by right]).
  assert (same_pages (pmo := pmo) (kernel m) ke r r) as Hke by done.
  assert (∀ a, regs (core m) rsp ≤ a < top → mem ce !! a = mem (core m) !! a) as Hce
    by (intros a Ha; apply (en_mem _ _ _ _ He); by apply Hst).
  destruct (test_program (TestProgram := TestProgram0) (mkMachine ke ce) us l c ptr (core m) (mkOPT (pmo + r) pmo) h)
    as (m1 & l1 & h1 & Hi1 & Hl1 & Hprog1 & Hres1 & Hmem1 & Hcnt1 & Hrest1 & Hend);
    [done|done|done|done|by eapply program_same; [apply Hf|exact Hke|]| |done|done|by eapply at_rest_own|].
  { cbn [core]. rewrite (resources_ext ptr (mem (core m))); [done|]. intros a [? ?]. apply Hce. lia. }
  assert (came_back (execute (mkMachine ke ce)) (if c =? 0 then 0 else 42) m1) as Hcb.
  { rewrite test_end_val in Hend by done. destruct (c =? 0); [|by left].
    right. by destruct Hend as [-> <-]. }
  destruct (Hrun _ _ Hcb) as (k' & c' & Hr' & [Hcr3 _ Hsp Hrg _ _ _ Hk Hm _ Ho]).
  assert (same_pages (pmo := pmo) (kernel m1) k' r r) as Hsame by (intros a _; by rewrite Hk).
  exists (mkMachine k' c'). split_and!; [exact Hr'| |].
  - split; cbn [core kernel]; [|done|done| |intros x Hx Hne a Ha; by apply Ho].
    + exists l1. split; [|done]. split; cbn [core kernel]; rewrite ?Hsp; [|done| |done].
      * rewrite Hk. apply user_inv_switch; [done|left].
      * intros x Hx. rewrite Hrg by done. by apply Hu.
    + intros a Ha Hn. rewrite Hm, Hmem1 by done. by apply Hce.
  - exists h1. cbn [core kernel]. rewrite Hm. split_and!; [done| | |].
    + by eapply program_same; [apply Hf| |].
    + by eapply counts_same.
    + by eapply at_rest_own.
Qed.

(** C3 (functional). The application test passes on every machine with enough
    free frames for two copies of the program and for what its three runs
    allocate: the second file of the ram disk is loaded twice, into spaces of
    its own; the first run of each copy finds its own counter at zero and
    returns 0, whatever the other copy did meanwhile, and the second run of the
    first copy panics and comes back with 42.  The kernel's space is active
    again, on the same stack, and every application that was there before keeps
    its pages and their contents.  Of the program it is only assumed that it does
    what its source says when it is loaded, with its code, its stack, its
    statics and its heap in order and its frames free ([TestProgram]). *)
Theorem app_test_passes `{Crc32} disk ptr_a ptr_b bytes us l m :
  ready us l m → file_ok →
  on_stack m ptr_a → on_stack m ptr_b → (∀ a, ¬ (in_resources ptr_a a ∧ in_resources ptr_b a)) →
  get_file_slice (bi_ramdisk_addr boot_info) disk 1 = Val bytes →
  minimal_parse bytes = Some (cp_file cp) → segments (cp_file cp) = Some (cp_segs cp) →
  (2 * (1 + 4 * pages_needed (cp_segs cp) + 4 * 4095) + 3 * cp_frames cp ≤ length l)%nat →
  ∃ m', app_test disk ptr_a ptr_b m = Val ((), m') ∧
    k_cr3 (kernel m') = k0 ∧ regs (core m') rsp = regs (core m) rsp ∧
    ∀ x, x ∈ us → same_pages (pmo := pmo) (kernel m) (kernel m') x x.
Proof.
  intros [Hi Hl Hu Hst] Hf Hsa Hsb Hap Hfile Hparse Hsegs Hlen.
  destruct (prepare_effect k0 pool (kernel m) us l bytes _ _ Hi Hparse Hsegs (fo_segments Hf) (fo_pages Hf) ltac:(lia))
    as (ra & ka & la & Hpa & Hppa). pose proof Hppa as [Hia _ Hna Hla _ _ _ _ _ Hka].
  destruct (loaded_fresh us l ra ka la ptr_a m Hf Hppa) as (ma & Ra & Ka & Ga & La & Ma).
  destruct (prepare_effect k0 pool (kernel ma) (ra :: us) la bytes (cp_file cp) (cp_segs cp)) as (rb & kb & lb & Hpb & Hppb);
    [by rewrite Ka|done|done|apply Hf|apply Hf|lia|]. pose proof Hppb as [Hib _ Hnb Hlb _ _ _ _ _ Hkb].
  destruct (loaded_fresh (ra :: us) la rb kb lb ptr_b ma Hf Hppb) as (m0 & Rb & Kb & Gb & Lb & Mb).
  apply not_elem_of_cons in Hnb as [Hab Hnb]. set (all := rb :: ra :: us) in *.
  assert (regs (core m0) = regs (core m)) as G0 by congruence.
  assert (ready all lb m0) as Hr0 by (split; rewrite ?G0; try done; by rewrite Kb).
  assert (∀ x, x ∈ ra :: us → same_pages (pmo := pmo) (kernel ma) (kernel m0) x x) as S0.
  { intros x Hx a Ha. rewrite Kb. apply Hkb; [done|done|by intros []]. }
  assert (loaded ra ptr_a 0 m0) as La0.
  { eapply loaded_kept; [done|apply S0; left| |exact La]. intros a Ha. apply Mb. intros Hb. by apply (Hap a). }
  assert (∀ m', regs (core m') rsp = regs (core m) rsp → on_stack m' ptr_a ∧ on_stack m' ptr_b) as Hon
    by (intros m' Hm'; unfold on_stack; by rewrite Hm').
  destruct (run_test all lb ra ptr_a heap_new m0 0 Hf Hr0) as (m1 & R1 & [(l1 & Hr1 & Hl1) _ Hs1 Hm1 Ho1] & La1);
    [right; left|apply Hon; by rewrite G0|lia|lia|done|]. rewrite G0 in Hs1.
  assert (loaded rb ptr_b 0 m1) as Lb1.
  { eapply loaded_kept; [done|by apply Ho1; [left|]| |exact Lb]. intros a Ha. apply Hm1.
    - rewrite G0. destruct Hsb as [? ?], Ha as [? ?]. lia.
    - intros Ha'. by apply (Hap a). }
  destruct (run_test all l1 rb ptr_b heap_new m1 0 Hf Hr1) as (m2 & R2 & [(l2 & Hr2 & Hl2) _ Hs2 Hm2 Ho2] & _);
    [left|by apply Hon|lia|lia|done|]. rewrite Hs1 in Hs2.
  assert (loaded ra ptr_a 1 m2) as La2.
  { eapply loaded_kept; [done|apply Ho2; [right; left|by apply not_eq_sym]| |exact La1]. intros a Ha. apply Hm2.
    - rewrite Hs1. destruct Hsa as [? ?], Ha as [? ?]. lia.
    - intros Hb. by apply (Hap a). }
  destruct (run_test all l2 ra ptr_a heap_new m2 1 Hf Hr2) as (m3 & R3 & [(l3 & Hr3 & _) Hc3 Hs3 _ Ho3] & _);
    [right; left|by apply Hon|lia|lia|done|].
  assert (∀ r, r ∈ all → on_kernel (drop_resources (mkResources (mkOPT (pmo + r) pmo) entry heap_new)) m3 =
    Val ((), m3)) as Hdrop.
  { intros r Hr. unfold on_kernel, zoom. rewrite (drop_keeps _ _ _ _ _ r entry heap_new (rd_inv _ _ _ Hr3) Hr).
    rewrite <-Hc3. by destruct m3 as [[]]. }
  exists m3. split_and!; [|exact Hc3|by rewrite Hs3, Hs2|].
  - unfold app_test. rewrite (M_bind_run _ _ _ bytes m) by by apply liftr_run.
    rewrite (M_bind_run _ _ _ _ (mkMachine ka (core m))) by (unfold on_kernel, zoom; by rewrite Hpa).
    rewrite (M_bind_run _ _ _ _ _ Ra).
    rewrite (M_bind_run _ _ _ _ (mkMachine kb (core ma))) by (unfold on_kernel, zoom; by rewrite Hpb).
    rewrite (M_bind_run _ _ _ _ _ Rb).
    rewrite (M_bind_run _ _ _ _ _ R1), (M_bind_run _ _ _ () m1) by done.
    rewrite (M_bind_run _ _ _ _ _ R2), (M_bind_run _ _ _ () m2) by done.
    rewrite (M_bind_run _ _ _ _ _ R3), (M_bind_run _ _ _ () m3) by done.
    rewrite (M_bind_run _ _ _ _ _ (Hdrop rb ltac:(left))). apply Hdrop. right; left.
  - intros x Hx a Ha. assert (x ≠ ra ∧ x ≠ rb) as [Hxa Hxb] by (split; intros ->; done).
    assert (x ∈ all) as Hxall by (by right; right).
    destruct (Ho3 x Hxall Hxa a Ha) as [-> ->], (Ho2 x Hxall Hxb a Ha) as [-> ->], (Ho1 x Hxall Hxa a Ha) as [-> ->],
      (S0 x ltac:(by right) a Ha) as [-> ->]. rewrite Ka. apply Hka; [done|done|by intros []].
Qed.
End Spec.
