(* ===== verification/AppTestDemo.v ===== *)
(** * The application test on a concrete machine

    A disk of three files, the ELF file of [LoaderDemo] with the counter in its
    data segment, and a program that does what [test_main] does to it, if it
    finds the first byte of its code. *)

From S2P Require Import Prelude Bytes Constants Platform FrameAlloc Paging Memory AddressSpace Isolation IsolationDemo MapPages UserMem Heap HeapDemo Loader LoaderDemo RamDisk UserApp UserSwitch UserSwitchDemo AppTest.

#[local] Existing Instance dev_profile.
#[local] Existing Instance demo_elf.
#[local] Existing Instance RamDiskDemo.sum_crc.
Import RefX86 RefBoot RefMapper.

Definition test_counter : Z := 0x201100.

(** It looks at its code and adds one to the counter; it returns 0 the first time and aborts with 42
    later. *)
#[local] Instance counting_app : Application := λ m,
  let c := core m in
  match vread 0x200000 (kernel m), vread64 test_counter (kernel m), load64 (regs c rsp) (mem c) with
  | Val (1, _), Val (n, _), Some ret =>
      match vwrite64 test_counter ((n + 1) `mod` 2 ^ 64) (kernel m) with
      | Val (_, k') =>
          if n =? 0
          then Returned (mkMachine k'
            (mkCore (upd rax 0 (upd rsp (regs c rsp + 8) (regs c))) ret (mem c) (running_application_data c)))
          else Aborted 42 (mkMachine k' c)
      | Fault _ => Hangs
      end
  | _, _, _ => Hangs
  end.

Lemma counting_app_cases m m' : execute m = Returned m' ∨ (∃ e, execute m = Aborted e m') →
  ∃ n, vwrite64 test_counter n (kernel m) = Val ((), kernel m') ∧
    mem (core m') = mem (core m) ∧ running_application_data (core m') = running_application_data (core m).
Proof.
  unfold execute, counting_app. intros Hor.
  destruct (vread _ _) as [[[|[| |]|] kc]|]; try by destruct Hor as [|[]].
  destruct (vread64 _ _) as [[n k]|]; [|by destruct Hor as [|[]]].
  destruct (load64 _ _) as [ret|]; [|by destruct Hor as [|[]]].
  destruct (vwrite64 _ _ _) as [[[] k']|] eqn:Hw; [|by destruct Hor as [|[]]].
  exists ((n + 1) `mod` 2 ^ 64).
  destruct (n =? 0); destruct Hor as [Heq|[e Heq]]; simplify_eq; (split; [exact Hw|split; reflexivity]).
Qed.

Lemma counter_user y : test_counter ≤ y < test_counter + 8 → user_page (page_of y).
Proof.
  intros Hy. apply user_page_of. change v.USER_END with (2 ^ 39). unfold test_counter in Hy. lia.
Qed.

#[local] Instance counting_app_laws pool : ApplicationLaws pmo 0x1000 pool kernel_memory.
Proof.
  split.
  - intros m m' us l Hor _ Hact. destruct (counting_app_cases m m' Hor) as (n & Hw & _).
    eapply vwrite_app_steps; [done| |exact Hw]. intros x Hx. rewrite length_to_le_bytes in Hx. by apply counter_user.
  - intros m m' a Hor _. destruct (counting_app_cases m m' Hor) as (n & _ & -> & _). done.
  - intros m m' Hor. by destruct (counting_app_cases m m' Hor) as (n & _ & _ & ->).
  - intros m m' ret Hr Hl. unfold execute, counting_app in Hr. rewrite Hl in Hr.
    destruct (vread _ _) as [[[|[| |]|] kc]|]; try done.
    destruct (vread64 _ _) as [[n k]|]; [|done]. destruct (vwrite64 _ _ _) as [[[] k']|]; [|done].
    destruct (n =? 0); [|done]. injection Hr as <-. regs_simpl. split_and!; [done|done| |done].
    intros r Hr. repeat (apply elem_of_cons in Hr as [->|Hr]; [by regs_simpl|]). by apply elem_of_nil in Hr.
Qed.

(** The resources are one cell. *)
#[local] Instance opt_eq_dec : EqDecision OffsetPageTable.
Proof. solve_decision. Defined.
#[local] Instance opt_countable : Countable OffsetPageTable.
Proof. refine (inj_countable' (λ t, (opt_table t, opt_offset t)) (λ '(a, b), mkOPT a b) _). by intros []. Defined.
#[local] Instance heap_eq_dec : EqDecision RefHeap.
Proof. solve_decision. Defined.
#[local] Instance heap_countable : Countable RefHeap.
Proof. refine (inj_countable' (λ h, (rh_total h, rh_ranges h)) (λ '(a, b), mkHeap a b) _). by intros []. Defined.
#[local] Instance resources_eq_dec : EqDecision (ApplicationResources RefHeap).
Proof. solve_decision. Defined.
#[local] Instance resources_countable : Countable (ApplicationResources RefHeap).
Proof.
  refine (inj_countable' (λ r, (l4_page_table r, entry_point_virt_addr r, Loader.heap r))
    (λ '(a, b, c), mkResources a b c) _). by intros [].
Defined.

#[local] Instance demo_resources : ResourcesLayout RefHeap := {|
  RESOURCES_SIZE := 64;
  put_resources ptr res m := <[ptr := Z.pos (encode res)]> m;
  resources_at ptr m := match m !! ptr with Some (Z.pos p) => decode p | _ => None end |}.

#[local] Instance demo_resources_laws : ResourcesLaws RefHeap.
Proof.
  split; unfold in_resources; cbn [put_resources resources_at RESOURCES_SIZE demo_resources].
  - intros ptr res m. rewrite lookup_insert_eq. apply decode_encode.
  - intros ptr res m a Ha. apply lookup_insert_ne. lia.
  - intros ptr m m' Hm. by rewrite Hm by lia.
Qed.

Definition test_compiled : Compiled := mkCompiled file [LoaderDemo.code; note; data] test_counter 8 [].

Definition stack_top : Z := 2 ^ 47 + 4096.

Lemma above_stack_own st st' r :
  same_pages (pmo := pmo) st st' r r → (∀ p, above_stack p → space pmo st r p = None) →
  ∀ p, above_stack p → space pmo st' r p = None.
Proof.
  intros Hs Hn p Hp. pose proof Hp as (_ & Hu & Hd). rewrite <-(page_of_page p Hd).
  destruct (Hs p) as [-> _]; rewrite page_of_page by done; [done|]. by apply Hn.
Qed.

(** The counter is in the writable segment, and the code is not. *)
Lemma program_counted st st' r us l n :
  user_inv pmo 0x1000 (free_frames_of 40000) st us l → program_in (pmo := pmo) test_compiled st r → r ∈ us → k_cr3 st = r →
  written_bytes (pmo := pmo) 0x1000 st us test_counter (to_le_bytes 8 n) st' →
  program_in (pmo := pmo) test_compiled st' r.
Proof.
  intros _ [Hseg Hst Hg] Hr Hc [_ _ _ Hsp Hb].
  split.
  - intros seg Hin Hload. destruct (Hseg seg Hin Hload) as (fl & dt & Hfl & Hd & Hx).
    exists fl, dt. split_and!; [done..|]. intros x Hxr. destruct (Hx x Hxr) as [Hs Hby].
    rewrite Hsp by by right. split; [done|]. intros Hw. rewrite Hb by (done || by apply (seg_user file seg); [apply demo_ok|]).
    rewrite decide_False; [by apply Hby|]. rewrite length_to_le_bytes. intros [_ Hx']. unfold test_counter in Hx'.
    unfold in_region in Hxr. repeat (apply elem_of_cons in Hin as [->|Hin]).
    + cbn in Hxr. lia.
    + done.
    + vm_compute in Hfl. injection Hfl as <-. by vm_compute in Hw.
    + by apply elem_of_nil in Hin.
  - intros p Hp. rewrite Hsp by by right. by apply Hst.
  - by rewrite Hsp by by right.
Qed.

#[local] Instance counting_program : TestProgram (pmo := pmo) 0x1000 (free_frames_of 40000) stack_top test_compiled.
Proof.
  refine {| at_rest h st r := ∀ p, above_stack p → space pmo st r p = None |}.
  - intros _ st st' r Hs Hn. by eapply above_stack_own.
  - by intros st r _.
  - cbn [cp_counter cp_file cp_segs cp_frames cp_panic_info test_compiled].
    intros m us l c ptr c0 opt h Hi Hact _ He Hprog Hres Hc [Hw Hp] Hrest.
    assert (∀ y, test_counter ≤ y < test_counter + 8 → writable (pmo := pmo) (kernel m) us y) as Hwr.
    { intros y Hy. destruct (Hp y Hy) as (Hu & f & fl & Hs & Hfl). split_and!; [done|done|by exists f, fl]. }
    destruct (vwrite64_effect 0x1000 _ (kernel m) us l test_counter (c + 1) Hi Hwr) as (k' & Hrun & Hi' & Hwb & Hw').
    assert (counts (pmo := pmo) test_counter k' (k_cr3 (kernel m)) (c + 1)) as Hcnt.
    { split; [done|]. intros y Hy. destruct (Hp y Hy) as (Hu & f & fl & Hs & Hfl). split; [done|].
      exists f, fl. by rewrite (wb_space _ _ _ _ _ _ Hwb) by by right. }
    assert (program_in (pmo := pmo) test_compiled k' (k_cr3 (kernel m))) as Hprog' by (eapply program_counted; [exact Hi|exact Hprog|exact Hact|reflexivity|exact Hwb]).
    assert (∀ p, above_stack p → space pmo k' (k_cr3 (kernel m)) p = None) as Hrest'.
    { intros p Hpa. rewrite (wb_space _ _ _ _ _ _ Hwb) by by right. by apply Hrest. }
    destruct (en_return _ _ _ _ He) as [Hret _]. rewrite <-(en_rsp _ _ _ _ He) in Hret.
    assert (vread 0x200000 (kernel m) = Val (1, kernel m)) as Hcode.
    { destruct (pi_segments _ _ _ Hprog LoaderDemo.code) as (fl & dt & Hfl & Hd & Hx); [left|done|].
      vm_compute in Hfl. injection Hfl as <-. injection Hd as <-.
      destruct (Hx 0x200000) as [[f Hf] Hb]; [by vm_compute|]. specialize (Hb eq_refl).
      unfold vread. rewrite physical_memory_offset_val, Hf, Hb. done. }
    rewrite test_end_val by done. unfold execute, counting_app.
    rewrite Hcode, (vread64_run (kernel m) test_counter c) by (unfold u64; lia || done).
    rewrite Hret, Z.mod_small, Hrun by lia.
    destruct (c =? 0).
    + exists (mkMachine k' (mkCore (upd rax 0 (upd rsp (regs (core m) rsp + 8) (regs (core m)))) (code_addr SaveIp 5)
        (mem (core m)) (running_application_data (core m)))), l, h. split_and!; try done; lia.
    + exists (mkMachine k' (core m)), l, h. split_and!; try done; lia.
Defined.

(** ** The test *)

Definition test_disk : list Z := match build (image_of [[1]; [0x7f]; [2]]) with Val d => d | _ => [] end.

Definition big_machine : Machine := mkMachine (IsolationDemo.machine 40000) demo_core.

Lemma big_ready : ready (pmo := pmo) 0x1000 (free_frames_of 40000) kernel_memory stack_top [] (free_frames_of 40000) big_machine.
Proof.
  split.
  - apply machine_user_inv. lia.
  - exact demo_layout.
  - intros [] _; unfold u64; cbn; lia.
  - intros a Ha. cbn in Ha. unfold switch_writes, stack_top in *. cbn [saved_stack_pointer abort_addr demo_image].
    change new_rsp with (2 ^ 32 + 4096 * 4096 - 1024). cbn [core big_machine demo_core regs]. lia.
Qed.

Lemma test_file_ok : file_ok test_compiled.
Proof.
  split.
  - exact demo_ok.
  - exact demo_disjoint.
  - exists data, (Z.lor PageTableFlags.NO_EXECUTE PageTableFlags.WRITABLE), [4; 5].
    split_and!; [right; right; left|reflexivity|by vm_compute|reflexivity|reflexivity|cbn; unfold test_counter; lia|cbn; unfold test_counter; lia|].
    intros i Hi. unfold segment_byte, test_counter in *. cbn [p_vaddr data cp_counter test_compiled] in *.
    rewrite lookup_ge_None_2; [done|]. unfold test_counter in Hi. cbn. lia.
  - change v.USER_START with 0. change v.USER_END with (2 ^ 39). cbn. lia.
Qed.

Lemma app_test_passes_witness :
  ∃ m', app_test (Heap := RefHeap) test_disk (2 ^ 47 + 64) (2 ^ 47 + 256) big_machine = Val ((), m') ∧
    k_cr3 (kernel m') = 0x1000.
Proof.
  destruct (app_test_passes (pmo := pmo) 0x1000 (free_frames_of 40000) kernel_memory
    (Heap := RefHeap) stack_top test_compiled test_disk (2 ^ 47 + 64) (2 ^ 47 + 256) [0x7f] [] (free_frames_of 40000) big_machine)
    as (m' & Hrun & Hc & _).
  - exact big_ready.
  - exact test_file_ok.
  - split; by vm_compute.
  - split; by vm_compute.
  - unfold in_resources. cbn. lia.
  - by vm_compute.
  - reflexivity.
  - reflexivity.
  - unfold free_frames_of. rewrite length_fmap, length_seqZ. vm_compute pages_needed. cbn [cp_frames test_compiled]. lia.
  - exists m'. split; [exact Hrun|exact Hc].
Defined.
