(* ===== verification/Serial.v ===== *)
(** * The serial port (src/kernel/src/serial.rs)

    The driver of the 16550 UART: initialisation, polled reads and writes, line
    input and the [fmt::Write] output.  Loops that poll the line-status register
    take fuel.  The theorems are about a world that contains a 16550 at the
    port's base address ([Uart16550] states what its data sheet says of the
    registers), for any timing of the device. *)

From S2P Require Import Prelude Ports.

(** ** Registers and settings *)

Inductive ComPort := COM1 | COM2 | COM3 | COM4.
Definition com_u16 (c : ComPort) : Z :=
  match c with COM1 => 0x3f8 | COM2 => 0x2f8 | COM3 => 0x3e8 | COM4 => 0x2e8 end.

Inductive BaudRate :=
  | BAUD_300 | BAUD_600 | BAUD_1200 | BAUD_2400 | BAUD_4800 | BAUD_9600
  | BAUD_19200 | BAUD_38400 | BAUD_57600 | BAUD_115200.
Definition baud_u16 (b : BaudRate) : Z :=
  match b with
  | BAUD_300 => 384 | BAUD_600 => 192 | BAUD_1200 => 96 | BAUD_2400 => 48
  | BAUD_4800 => 24 | BAUD_9600 => 12 | BAUD_19200 => 6 | BAUD_38400 => 3
  | BAUD_57600 => 2 | BAUD_115200 => 1
  end.

Inductive DataBits := DATA_5BIT | DATA_6BIT | DATA_7BIT | DATA_8BIT.
Definition data_bits_u8 (d : DataBits) : Z :=
  match d with DATA_5BIT => 0 | DATA_6BIT => 1 | DATA_7BIT => 2 | DATA_8BIT => 3 end.

Inductive Parity := PARITY_NONE | PARITY_ODD | PARITY_EVEN | PARITY_MARK | PARITY_SPACE.
Definition parity_u8 (p : Parity) : Z :=
  match p with
  | PARITY_NONE => 0 | PARITY_ODD => 8 | PARITY_EVEN => 24 | PARITY_MARK => 40
  | PARITY_SPACE => 56
  end.

Module StopBits.
Definition STOP_1BIT : Z := 0.
Definition STOP_1_5BIT : Z := 4.
Definition STOP_2BIT : Z := 4.
End StopBits.

Module ri.
Definition RECEIVE_BUFFER_REGISTER : Z := 0.
Definition TRANSMIT_BUFFER_REGISTER : Z := 0.
Definition INTERRUPT_ENABLE_REGISTER : Z := 1.
Definition DIVISOR_LOW_REGISTER : Z := 0.
Definition DIVISOR_HIGH_REGISTER : Z := 1.
Definition INTERRUPT_IDENT_REGISTER : Z := 2.
Definition FIFO_CONTROL_REGISTER : Z := 2.
Definition LINE_CONTROL_REGISTER : Z := 3.
Definition MODEM_CONTROL_REGISTER : Z := 4.
Definition LINE_STATUS_REGISTER : Z := 5.
Definition MODEM_STATUS_REGISTER : Z := 6.
End ri.

Module RegisterMask.
Definition RECEIVED_DATA_AVAILABLE : Z := Z.shiftl 1 0.
Definition TRANSMITTER_HOLDING_REGISTER_EMPTY : Z := Z.shiftl 1 1.
Definition RECEIVER_LINE_STATUS : Z := Z.shiftl 1 2.
Definition MODEM_STATUS : Z := Z.shiftl 1 3.
Definition INTERRUPT_PENDING : Z := Z.shiftl 1 0.
Definition INTERRUPT_ID_0 : Z := Z.shiftl 1 1.
Definition INTERRUPT_ID_1 : Z := Z.shiftl 1 2.
Definition ENABLE_FIFO : Z := Z.shiftl 1 0.
Definition CLEAR_RECEIVE_FIFO : Z := Z.shiftl 1 1.
Definition CLEAR_TRANSMIT_FIFO : Z := Z.shiftl 1 2.
Definition DMA_MODE_SELECT : Z := Z.shiftl 1 3.
Definition TRIGGER_RECEIVE : Z := Z.shiftl 1 6.
Definition WORD_LENGTH_SELECT_0 : Z := Z.shiftl 1 0.
Definition WORD_LENGTH_SELECT_1 : Z := Z.shiftl 1 1.
Definition NUMBER_OF_STOP_BITS : Z := Z.shiftl 1 2.
Definition PARITY_ENABLE : Z := Z.shiftl 1 3.
Definition EVEN_PARITY_SELECT : Z := Z.shiftl 1 4.
Definition STICK_PARITY : Z := Z.shiftl 1 5.
Definition SET_BREAK : Z := Z.shiftl 1 6.
Definition DIVISOR_LATCH_ACCESS_BIT : Z := Z.shiftl 1 7.
Definition DATA_TERMINAL_READY : Z := Z.shiftl 1 0.
Definition REQUEST_TO_SEND : Z := Z.shiftl 1 1.
Definition OUT_1 : Z := Z.shiftl 1 2.
Definition OUT_2 : Z := Z.shiftl 1 3.
Definition LOOP : Z := Z.shiftl 1 4.
Definition DATA_READY : Z := Z.shiftl 1 0.
Definition OVERRUN_ERROR : Z := Z.shiftl 1 1.
Definition PARITY_ERROR : Z := Z.shiftl 1 2.
Definition FRAMING_ERROR : Z := Z.shiftl 1 3.
Definition BREAK_INTERRUPT : Z := Z.shiftl 1 4.
Definition TRANSMITTER_HOLDING_REGISTER : Z := Z.shiftl 1 5.
Definition TRANSMITTER_EMPTY : Z := Z.shiftl 1 6.
Definition DELTA_CLEAR_TO_SEND : Z := Z.shiftl 1 0.
Definition DELTA_DATA_SET_READY : Z := Z.shiftl 1 1.
Definition TRAILING_EDGE_RING_INDICATOR : Z := Z.shiftl 1 2.
Definition DELTA_DATA_CARRIER_DETECT : Z := Z.shiftl 1 3.
Definition CLEAR_TO_SEND : Z := Z.shiftl 1 4.
Definition DATA_SET_READY : Z := Z.shiftl 1 5.
Definition RING_INDICATOR : Z := Z.shiftl 1 6.
Definition DATA_CARRIER_DETECT : Z := Z.shiftl 1 7.
End RegisterMask.

Inductive SerialError := Busy | OverrunError | ParityError | FramingError.

(** ** The driver *)

Section Driver.
Context {W : Type} `{PortIo W}.

Definition rr (com : ComPort) (index : Z) : M W Z := port_read (com_u16 com + index).
Definition wr (com : ComPort) (index value : Z) : M W () := port_write (com_u16 com + index) value.

Definition init (com : ComPort) (baud : BaudRate) : M W () :=
  wr com ri.LINE_CONTROL_REGISTER 0x80 ≫= λ _,
  wr com ri.DIVISOR_LOW_REGISTER (Z.land (baud_u16 baud) 0xff) ≫= λ _,
  wr com ri.DIVISOR_HIGH_REGISTER (Z.shiftr (baud_u16 baud) 8 `mod` 256) ≫= λ _,
  wr com ri.LINE_CONTROL_REGISTER 0x03 ≫= λ _,
  wr com ri.INTERRUPT_ENABLE_REGISTER 0 ≫= λ _,
  wr com ri.MODEM_CONTROL_REGISTER 0.

Definition mask (status m : Z) : bool := negb (Z.land status m =? 0).

Definition try_read (com : ComPort) : M W (result Z SerialError) :=
  rr com ri.LINE_STATUS_REGISTER ≫= λ status,
  if mask status RegisterMask.OVERRUN_ERROR then mret (Err OverrunError)
  else if mask status RegisterMask.PARITY_ERROR then mret (Err ParityError)
  else if mask status RegisterMask.FRAMING_ERROR then mret (Err FramingError)
  else if mask status RegisterMask.DATA_READY then
    rr com ri.RECEIVE_BUFFER_REGISTER ≫= λ v, mret (Ok v)
  else mret (Err Busy).

(** [read]: polls until the result is not [Busy]. *)
Definition read (fuel : nat) (com : ComPort) : M W (result Z SerialError) :=
  loop fuel (try_read com ≫= λ r,
    match r with
    | Ok v => mret (Some (Ok v))
    | Err Busy => mret None
    | Err e => mret (Some (Err e))
    end).

(** [read_line]: a byte that is not UTF-8 on its own is skipped.  [fuel] bounds
    the length of the line, [poll] the polling of each byte. *)
Fixpoint read_line_from (s : list Z) (fuel poll : nat) (com : ComPort)
    : M W (result (list Z) SerialError) :=
  match fuel with
  | O => λ _, Fault NoFuel
  | S n =>
      read poll com ≫= λ r,
      match r with
      | Err e => mret (Err e)
      | Ok c =>
          if c =? 13 then mret (Ok s)
          else read_line_from (if c <? 128 then s ++ [c] else s) n poll com
      end
  end.
Definition read_line : nat → nat → ComPort → M W (result (list Z) SerialError) :=
  read_line_from [].

Definition try_write (com : ComPort) (value : Z) : M W (result () SerialError) :=
  rr com ri.LINE_STATUS_REGISTER ≫= λ status,
  if mask status RegisterMask.OVERRUN_ERROR then mret (Err OverrunError)
  else if mask status RegisterMask.PARITY_ERROR then mret (Err ParityError)
  else if mask status RegisterMask.FRAMING_ERROR then mret (Err FramingError)
  else if mask status RegisterMask.TRANSMITTER_HOLDING_REGISTER then
    wr com ri.TRANSMIT_BUFFER_REGISTER value ≫= λ _, mret (Ok ())
  else mret (Err Busy).

Definition write (fuel : nat) (com : ComPort) (value : Z) : M W () :=
  loop fuel (try_write com value ≫= λ r, mret (if is_ok r then Some () else None)).

Definition flush (fuel : nat) (com : ComPort) : M W () :=
  loop fuel (rr com ri.LINE_STATUS_REGISTER ≫= λ status,
    mret (if mask status RegisterMask.TRANSMITTER_EMPTY then Some () else None)).

(** [write_str], on the characters (code points) of the string. *)
Definition write_str (fuel : nat) (com : ComPort) (s : list Z) : M W () :=
  for_each s (λ c, if c <? 128 then write fuel com c else mret ()).

(** The first use of the lazy static [SERIAL]. *)
Definition SERIAL_init : M W () := init COM1 BAUD_115200.

Definition _print_serial (fuel : nat) (s : list Z) : M W () := write_str fuel COM1 s.
End Driver.

(** ** The device

    The registers of a 16550 as its data sheet describes them.  [tx] is what was
    handed to the transmitter, [rx] the received bytes not read yet. *)

Record uart := mkUart {
  dll : Z; dlm : Z; ier : Z; lcr : Z; mcr : Z;
  tx : list Z; rx : list Z }.

(** The divisor-latch access bit. *)
Definition dlab (u : uart) : bool := Z.testbit (lcr u) 7.

Definition uart_write (off v : Z) (u : uart) : uart :=
  if off =? 0 then
    if dlab u then mkUart v (dlm u) (ier u) (lcr u) (mcr u) (tx u) (rx u)
    else mkUart (dll u) (dlm u) (ier u) (lcr u) (mcr u) (tx u ++ [v]) (rx u)
  else if off =? 1 then
    if dlab u then mkUart (dll u) v (ier u) (lcr u) (mcr u) (tx u) (rx u)
    else mkUart (dll u) (dlm u) v (lcr u) (mcr u) (tx u) (rx u)
  else if off =? 3 then mkUart (dll u) (dlm u) (ier u) v (mcr u) (tx u) (rx u)
  else if off =? 4 then mkUart (dll u) (dlm u) (ier u) (lcr u) v (tx u) (rx u)
  else u.

(** A read consumes a received byte only at offset 0 with the latch closed;
    meanwhile further bytes [new] may arrive. *)
Definition uart_read (off : Z) (new : list Z) (u : uart) : uart :=
  mkUart (dll u) (dlm u) (ier u) (lcr u) (mcr u) (tx u)
    ((if (off =? 0) && negb (dlab u) then tail (rx u) else rx u) ++ new).

Class Uart16550 (W : Type) `{PortIo W} (base : Z) := {
  uart_of : W → uart;
  uart_outb off v w : 0 ≤ off < 8 → uart_of (outb (base + off) v w) = uart_write off v (uart_of w);
  uart_inb off w : 0 ≤ off < 8 →
    ∃ new, uart_of (snd (inb (base + off) w)) = uart_read off new (uart_of w);
  uart_rbr w b l : dlab (uart_of w) = false → rx (uart_of w) = b :: l → fst (inb (base + 0) w) = b;
  uart_data_ready w : rx (uart_of w) ≠ [] → Z.testbit (fst (inb (base + 5) w)) 0 = true }.

(** The rate a [BaudRate] names. *)
Definition baud_rate (b : BaudRate) : Z :=
  match b with
  | BAUD_300 => 300 | BAUD_600 => 600 | BAUD_1200 => 1200 | BAUD_2400 => 2400
  | BAUD_4800 => 4800 | BAUD_9600 => 9600 | BAUD_19200 => 19200 | BAUD_38400 => 38400
  | BAUD_57600 => 57600 | BAUD_115200 => 115200
  end.

Section SerialLemmas.
Context {W : Type} `{PortIo W} (com : ComPort) {U : Uart16550 W (com_u16 com)}.

Local Abbreviation base := (com_u16 com).
Local Abbreviation u := (@uart_of W _ (com_u16 com) U).

(** The line-status value a read in world [w] returns, and the world after it. *)
Definition lsr (w : W) : Z := fst (inb (base + 5) w).
Definition polled (w : W) : W := snd (inb (base + 5) w).

(** The worlds in which no error bit is set, and the transmitter takes a byte. *)
Definition line_error (st : Z) : bool :=
  Z.testbit st 1 || Z.testbit st 2 || Z.testbit st 3.
Definition tx_ready (st : Z) : bool := negb (line_error st) && Z.testbit st 5.

Lemma rr_run index w :
  rr com index w = Val (fst (inb (base + index) w), snd (inb (base + index) w)).
Proof. apply port_read_run. Qed.

Lemma wr_run index v w : wr com index v w = Val ((), outb (base + index) v w).
Proof. done. Qed.

Lemma mask_bit st k : 0 ≤ k → mask st (Z.shiftl 1 k) = Z.testbit st k.
Proof. apply land_bit_eqb. Qed.

Lemma try_write_run v w :
  ∃ r, try_write com v w =
    Val (r, if tx_ready (lsr w) then outb (base + 0) v (polled w) else polled w) ∧
    is_ok r = tx_ready (lsr w).
Proof.
  unfold try_write, tx_ready, line_error.
  rewrite (M_bind_run _ _ _ _ _ (rr_run _ _)).
  change (fst (inb (base + ri.LINE_STATUS_REGISTER) w)) with (lsr w).
  change (snd (inb (base + ri.LINE_STATUS_REGISTER) w)) with (polled w).
  unfold RegisterMask.OVERRUN_ERROR, RegisterMask.PARITY_ERROR,
    RegisterMask.FRAMING_ERROR, RegisterMask.TRANSMITTER_HOLDING_REGISTER.
  rewrite !mask_bit by lia.
  destruct (Z.testbit (lsr w) 1), (Z.testbit (lsr w) 2), (Z.testbit (lsr w) 3),
    (Z.testbit (lsr w) 5); by eexists.
Qed.

Lemma u_polled w : ∃ new, u (polled w) = uart_read 5 new (u w).
Proof. apply uart_inb. lia. Qed.

Lemma tx_polled w : tx (u (polled w)) = tx (u w) ∧ lcr (u (polled w)) = lcr (u w).
Proof. destruct (u_polled w) as [new ->]. done. Qed.

Lemma iter_polled k w :
  tx (u (Nat.iter k polled w)) = tx (u w) ∧ lcr (u (Nat.iter k polled w)) = lcr (u w).
Proof.
  induction k as [|k [IH1 IH2]]; [done|]. rewrite Nat.iter_succ.
  destruct (tx_polled (Nat.iter k polled w)) as [-> ->]. done.
Qed.

(** The polling of [write], for a device that becomes ready at the [k]-th poll. *)
Lemma write_polls fuel k v w :
  (∀ j, (j < k)%nat → tx_ready (lsr (Nat.iter j polled w)) = false) →
  tx_ready (lsr (Nat.iter k polled w)) = true → (k < fuel)%nat →
  write fuel com v w = Val ((), outb (base + 0) v (Nat.iter (S k) polled w)).
Proof.
  revert k w. induction fuel as [|fuel IH]; intros k w Hno Hyes Hf; [lia|].
  unfold write. rewrite loop_S. destruct (try_write_run v w) as (r & Hr & Hok).
  rewrite (M_bind_run _ _ _ (if is_ok r then Some () else None)
    (if tx_ready (lsr w) then outb (base + 0) v (polled w) else polled w)); cycle 1.
  { by rewrite (M_bind_run _ _ _ _ _ Hr). }
  rewrite Hok. destruct k as [|k].
  - cbn in Hyes. by rewrite Hyes.
  - pose proof (Hno 0%nat ltac:(lia)) as H0. cbn in H0. rewrite H0.
    rewrite (Nat.iter_succ_r (S k)). apply IH; [|by rewrite <-Nat.iter_succ_r|lia].
    intros j Hj. rewrite <-Nat.iter_succ_r. apply Hno. lia.
Qed.

(** The transmitter takes a byte within [B] polls, whatever the world. *)
Definition ready_within (B : nat) : Prop :=
  ∀ w, ∃ k, (k ≤ B)%nat ∧ tx_ready (lsr (Nat.iter k polled w)) = true.

Lemma ready_first B w :
  ready_within B → ∃ k, (k ≤ B)%nat ∧ tx_ready (lsr (Nat.iter k polled w)) = true ∧
    ∀ j, (j < k)%nat → tx_ready (lsr (Nat.iter j polled w)) = false.
Proof.
  intros Hr. destruct (Hr w) as (k & Hk & Hyes). clear Hr. revert w B Hk Hyes.
  induction k as [|k IH]; intros w B Hk Hyes.
  { exists 0%nat. split_and!; [lia|done|lia]. }
  destruct (tx_ready (lsr w)) eqn:E.
  { exists 0%nat. split_and!; [lia|done|lia]. }
  rewrite Nat.iter_succ_r in Hyes.
  destruct (IH (polled w) (pred B)) as (k' & Hk' & Hyes' & Hno); [lia|done|].
  exists (S k'). rewrite Nat.iter_succ_r. split_and!; [lia|done|].
  intros [|j] Hj; [done|]. rewrite Nat.iter_succ_r. apply Hno. lia.
Qed.

Lemma write_tx B v w :
  ready_within B → dlab (u w) = false →
  ∃ w', write (S B) com v w = Val ((), w') ∧ tx (u w') = tx (u w) ++ [v] ∧ lcr (u w') = lcr (u w).
Proof.
  intros Hr Hd. destruct (ready_first B w Hr) as (k & Hk & Hyes & Hno).
  eexists. split; [apply (write_polls _ k); [done..|lia]|].
  destruct (iter_polled (S k) w) as [Htx Hlcr].
  rewrite uart_outb by lia. unfold uart_write, dlab. cbn [Z.eqb]. rewrite Hlcr.
  unfold dlab in Hd. rewrite Hd. cbn [tx lcr]. by rewrite Htx.
Qed.
End SerialLemmas.

(** ** Properties *)

(**  Initialising a port with a 16550 behind it, whatever its
    previous state: the divisor is that of the requested rate (115200 divided by
    the divisor is the rate), the line is 8 data bits, no parity, one stop bit
    with the divisor latch closed, interrupts and loopback are off, and no byte
    is sent or consumed. *)
Theorem init_configures_uart {W} `{PortIo W} com (U : Uart16550 W (com_u16 com)) baud w :
  ∃ w', init com baud w = Val ((), w') ∧
    let u := uart_of w in let u' := uart_of w' in
    (dll u' + 256 * dlm u') * baud_rate baud = 115200 ∧
    lcr u' = data_bits_u8 DATA_8BIT + parity_u8 PARITY_NONE + StopBits.STOP_1BIT ∧
    dlab u' = false ∧ ier u' = 0 ∧ mcr u' = 0 ∧ tx u' = tx u ∧ rx u' = rx u.
Proof.
  eexists. split; [reflexivity|]. cbn zeta.
  unfold ri.LINE_CONTROL_REGISTER, ri.DIVISOR_LOW_REGISTER, ri.DIVISOR_HIGH_REGISTER,
    ri.INTERRUPT_ENABLE_REGISTER, ri.MODEM_CONTROL_REGISTER.
  rewrite !uart_outb by lia. cbn. by destruct baud.
Qed.

(**  [try_read], on every branch: the error bits of the
    line-status value decide in the order overrun, parity, framing; without one,
    a byte is taken from the receive buffer exactly when the data-ready bit is
    set, and otherwise the port is busy.  No other branch touches the buffer. *)
Theorem try_read_spec {W} `{PortIo W} com w :
  let st := lsr com w in
  let w1 := polled com w in
  try_read com w =
    if Z.testbit st 1 then Val (Err OverrunError, w1)
    else if Z.testbit st 2 then Val (Err ParityError, w1)
    else if Z.testbit st 3 then Val (Err FramingError, w1)
    else if Z.testbit st 0 then
      Val (Ok (fst (inb (com_u16 com + 0) w1)), snd (inb (com_u16 com + 0) w1))
    else Val (Err Busy, w1).
Proof.
  cbn zeta. unfold try_read. rewrite (M_bind_run _ _ _ _ _ (rr_run _ _ _)).
  change (fst (inb (com_u16 com + ri.LINE_STATUS_REGISTER) w)) with (lsr com w).
  change (snd (inb (com_u16 com + ri.LINE_STATUS_REGISTER) w)) with (polled com w).
  unfold RegisterMask.OVERRUN_ERROR, RegisterMask.PARITY_ERROR,
    RegisterMask.FRAMING_ERROR, RegisterMask.DATA_READY.
  rewrite !mask_bit by lia.
  destruct (Z.testbit (lsr com w) 1), (Z.testbit (lsr com w) 2), (Z.testbit (lsr com w) 3),
    (Z.testbit (lsr com w) 0); try done.
  by rewrite (M_bind_run _ _ _ _ _ (rr_run _ _ _)).
Qed.

(** [write_str], and the line settings it leaves alone. *)
Lemma write_str_tx {W} `{PortIo W} com (U : Uart16550 W (com_u16 com)) B s w :
  ready_within com B → dlab (uart_of w) = false →
  ∃ w', write_str (S B) com s w = Val ((), w') ∧
    tx (uart_of w') = tx (uart_of w) ++ filter (λ c, c < 128) s ∧ lcr (uart_of w') = lcr (uart_of w).
Proof.
  intros Hr Hd. unfold write_str.
  destruct (for_each_ind (λ c, if c <? 128 then write (S B) com c else mret ())
    (λ done w1, tx (uart_of w1) = tx (uart_of w) ++ filter (λ c, c < 128) done ∧
                lcr (uart_of w1) = lcr (uart_of w)) s w) as (w' & ? & ? & ?).
  - by rewrite app_nil_r.
  - intros l1 x l2 w1 _ [Htx Hlcr]. rewrite filter_app, filter_cons, filter_nil.
    destruct (Z.ltb_spec x 128).
    + rewrite decide_True by done.
      destruct (write_tx com B x w1) as (w2 & ? & Htx2 & Hlcr2);
        [done|unfold dlab in *; by rewrite Hlcr|].
      exists w2. split; [done|]. rewrite Htx2, Htx, Hlcr2, app_assoc. done.
    + rewrite decide_False by lia. rewrite app_nil_r. by exists w1.
  - by exists w'.
Qed.

(**  On a port whose transmitter accepts a byte within [B] polls
    of any moment, [write_str] returns, and what it hands to the transmitter is
    exactly the ASCII characters of the string, in order. *)
Theorem write_str_sends {W} `{PortIo W} com (U : Uart16550 W (com_u16 com)) B s w :
  ready_within com B → dlab (uart_of w) = false →
  ∃ w', write_str (S B) com s w = Val ((), w') ∧
    tx (uart_of w') = tx (uart_of w) ++ filter (λ c, c < 128) s.
Proof.
  intros Hr Hd. destruct (write_str_tx com U B s w Hr Hd) as (w' & ? & ? & _). by exists w'.
Qed.

(** The status values of world [w] and all later ones carry no error bit. *)
Definition error_free {W} `{PortIo W} (com : ComPort) : Prop :=
  ∀ w, line_error (lsr com w) = false.

(** One byte that has arrived is read at the first poll. *)
Lemma read_ready {W} `{PortIo W} com (U : Uart16550 W (com_u16 com)) p b l w :
  error_free com → dlab (uart_of w) = false → rx (uart_of w) = b :: l →
  ∃ w' new, read (S p) com w = Val (Ok b, w') ∧ rx (uart_of w') = l ++ new ∧
    lcr (uart_of w') = lcr (uart_of w) ∧ tx (uart_of w') = tx (uart_of w).
Proof.
  intros Herr Hd Hrx. specialize (Herr w). unfold line_error in Herr.
  apply orb_false_iff in Herr as [[He1 He2]%orb_false_iff He3].
  assert (Z.testbit (lsr com w) 0 = true) as Hdr.
  { apply uart_data_ready. by rewrite Hrx. }
  destruct (u_polled com w) as [new1 Hw1].
  assert (rx (uart_of (polled com w)) = b :: (l ++ new1)) as Hrx1.
  { rewrite Hw1. unfold uart_read. cbn. by rewrite Hrx. }
  assert (dlab (uart_of (polled com w)) = false) as Hd1 by (rewrite Hw1; done).
  destruct (uart_inb 0 (polled com w)) as [new2 Hw2]; [lia|].
  exists (snd (inb (com_u16 com + 0) (polled com w))), (new1 ++ new2). split_and!.
  - pose proof (try_read_spec com w) as Htry. cbn zeta in Htry.
    rewrite He1, He2, He3, Hdr, (uart_rbr _ b (l ++ new1)) in Htry by done.
    unfold read. rewrite loop_S. unfold mbind, M_bind. by rewrite Htry.
  - rewrite Hw2. unfold uart_read. cbn [rx]. rewrite Hd1, Hrx1. cbn. by rewrite app_assoc.
  - rewrite Hw2. cbn. by rewrite Hw1.
  - rewrite Hw2. cbn. by rewrite Hw1.
Qed.

(**  On an error-free line whose receive queue holds a line, a
    carriage return and possibly more, [read_line] returns the line without its
    non-ASCII bytes, consumes exactly the line and the carriage return, and
    sends nothing; bytes that arrive meanwhile stay queued behind the rest. *)
Theorem read_line_spec {W} `{PortIo W} com (U : Uart16550 W (com_u16 com)) line rest fuel p w :
  error_free com → dlab (uart_of w) = false →
  rx (uart_of w) = line ++ 13 :: rest → 13 ∉ line → (length line < fuel)%nat →
  ∃ w' new, read_line fuel (S p) com w = Val (Ok (filter (λ c, c < 128) line), w') ∧
    rx (uart_of w') = rest ++ new ∧ tx (uart_of w') = tx (uart_of w).
Proof.
  intros Herr Hd Hrx Hcr Hfuel. unfold read_line.
  change (filter (λ c, c < 128) line) with ([] ++ filter (λ c, c < 128) line).
  generalize (@nil Z) as s. revert line rest w Hd Hrx Hcr Hfuel.
  induction fuel as [|fuel IH]; intros line rest w Hd Hrx Hcr Hfuel s; [lia|].
  cbn [read_line_from]. destruct line as [|b line].
  - destruct (read_ready com U p 13 rest w) as (w' & new & Hr & Hrx' & _ & Htx); [done..|].
    exists w', new. rewrite (M_bind_run _ _ _ _ _ Hr). cbn. by rewrite app_nil_r.
  - apply not_elem_of_cons in Hcr as [Hb Hcr]. cbn in Hfuel.
    destruct (read_ready com U p b (line ++ 13 :: rest) w) as (w1 & new1 & Hr & Hrx1 & Hlcr & Htx1);
      [done..|].
    destruct (IH line (rest ++ new1) w1) with (s := if b <? 128 then s ++ [b] else s)
      as (w' & new & Hr' & Hrx' & Htx'); [..|lia|].
    + unfold dlab in *. by rewrite Hlcr.
    + rewrite Hrx1, <-app_assoc. done.
    + done.
    + exists w', (new1 ++ new). split_and!; [|by rewrite Hrx', app_assoc|by rewrite Htx'].
      rewrite (M_bind_run _ _ _ _ _ Hr). rewrite (proj2 (Z.eqb_neq b 13)) by done.
      rewrite Hr'. rewrite filter_cons. destruct (Z.ltb_spec b 128).
      * rewrite decide_True by done. by rewrite <-app_assoc.
      * by rewrite decide_False by lia.
Qed.

(** ** Witnesses: a UART whose transmitter is ready at every second poll *)

Module SerialDemo.

(** The registers and the number of polls so far. *)
Definition world : Type := uart * nat.

#[local] Instance demo_ports : PortIo world := {
  inb p w :=
    let '(u, n) := w in
    if p =? com_u16 COM1 + 5 then
      ((if Nat.even n then 0 else 0x60) + (if rx u is [] then 0 else 1), (u, S n))
    else if p =? com_u16 COM1 + 0 then (default 0 (head (rx u)), (uart_read 0 [] u, n))
    else (0, w);
  outb p v w := (uart_write (p - com_u16 COM1) v (fst w), snd w) }.

#[local, program] Instance demo_uart : Uart16550 world (com_u16 COM1) := { uart_of := fst }.
Next Obligation. intros off v w Hoff. cbn. do 2 f_equal. lia. Qed.
Next Obligation.
  intros off [u n] Hoff. exists []. unfold inb, demo_ports.
  destruct (Z.eqb_spec (com_u16 COM1 + off) (com_u16 COM1 + 5)).
  - replace off with 5 by lia. destruct u. unfold uart_read. cbn. by rewrite app_nil_r.
  - destruct (Z.eqb_spec (com_u16 COM1 + off) (com_u16 COM1 + 0)).
    + replace off with 0 by lia. done.
    + destruct u. unfold uart_read. cbn [fst snd]. rewrite (proj2 (Z.eqb_neq off 0)) by lia.
      cbn. by rewrite app_nil_r.
Qed.
Next Obligation. intros [u n] b l Hd Hrx. cbn in *. by rewrite Hrx. Qed.
Next Obligation.
  intros [u n] Hrx. cbn in *. destruct (rx u); [done|]. by destruct (Nat.even n).
Qed.

Lemma demo_ready : ready_within COM1 1.
Proof.
  intros [u n]. destruct (Nat.even n) eqn:E.
  - exists 1%nat. split; [lia|].
    assert (Nat.even (S n) = false) as E' by (rewrite Nat.even_succ, <-Nat.negb_even, E; done).
    change (tx_ready ((if Nat.even (S n) then 0 else 0x60) + (if rx u is [] then 0 else 1)) = true).
    rewrite E'. by destruct (rx u).
  - exists 0%nat. split; [lia|].
    change (tx_ready ((if Nat.even n then 0 else 0x60) + (if rx u is [] then 0 else 1)) = true).
    rewrite E. by destruct (rx u).
Qed.

Definition idle : world := (mkUart 0 0 0 3 0 [] [104; 200; 105; 13; 33], 0%nat).

Lemma init_configures_uart_witness :
  ∃ w', init COM1 BAUD_9600 idle = Val ((), w') ∧
    let u := uart_of idle in let u' := uart_of w' in
    (dll u' + 256 * dlm u') * 9600 = 115200 ∧
    lcr u' = data_bits_u8 DATA_8BIT + parity_u8 PARITY_NONE + StopBits.STOP_1BIT ∧
    dlab u' = false ∧ ier u' = 0 ∧ mcr u' = 0 ∧ tx u' = tx u ∧ rx u' = rx u.
Proof. exact (init_configures_uart COM1 demo_uart BAUD_9600 idle). Defined.

Lemma write_str_sends_witness :
  ∃ w', write_str 2 COM1 [72; 228; 105] idle = Val ((), w') ∧
    tx (uart_of w') = [] ++ [72; 105].
Proof. exact (write_str_sends COM1 demo_uart 1 [72; 228; 105] idle demo_ready eq_refl). Defined.

Lemma read_line_spec_witness :
  ∃ w' new, read_line 4 1 COM1 idle = Val (Ok [104; 105], w') ∧
    rx (uart_of w') = [33] ++ new ∧ tx (uart_of w') = [].
Proof.
  apply (read_line_spec COM1 demo_uart [104; 200; 105] [33] 4 0 idle); [|done|done| |cbn; lia].
  - intros [u n].
    change (line_error ((if Nat.even n then 0 else 0x60) + (if rx u is [] then 0 else 1)) = false).
    by destruct (Nat.even n), (rx u).
  - apply (bool_decide_unpack _). by vm_compute.
Defined.
End SerialDemo.
