(* ===== verification/Terminal.v ===== *)
(** * The framebuffer terminal (src/kernel/src/terminal_out.rs)

    Windows on the framebuffer, the text cursor, glyph and pixel output, and the
    double buffer.  The font is the noto_sans_mono_bitmap crate's, a class; the
    framebuffer description is the bootloader's.  Memory is a map from byte
    addresses to bytes: a terminal writes through its [buffer] slice, whose
    bounds Rust checks, but the slice itself is built unsafely, so what keeps a
    terminal inside its window is its own arithmetic. *)

From S2P Require Import Prelude.

(** ** Interfaces *)

(** bootloader_api's [PixelFormat]; [OtherFormat] is any but Rgb and Bgr. *)
Inductive PixelFormat := Rgb | Bgr | OtherFormat.

Record FrameBufferInfo := mkFbInfo {
  fb_byte_len : Z; fb_width : Z; fb_height : Z; fb_pixel_format : PixelFormat;
  fb_bytes_per_pixel : Z; fb_stride : Z }.

(** The boot framebuffer, if there is one: its description and address. *)
Class Screen := framebuffer : option (FrameBufferInfo * Z).

(** noto_sans_mono_bitmap: rasters are rows of intensities. *)
Class Font := {
  FontSize : Type;
  FontWeight : Type;
  Size16 : FontSize;
  Size20 : FontSize;
  Size24 : FontSize;
  Light : FontWeight;
  Regular : FontWeight;
  Bold : FontWeight;
  val : FontSize → Z;
  get_raster_width : FontWeight → FontSize → Z;
  get_raster : Z → FontWeight → FontSize → option (list (list Z)) }.

(** Every raster of a size has [val] rows of the same width, of bytes; the
    replacement character has one in every size. *)
Class FontLaws `{Font} : Prop := {
  font_val s : 0 < val s ≤ 2 ^ 10;
  font_width w s : 0 < get_raster_width w s ≤ 2 ^ 10;
  font_raster c w s rows : get_raster c w s = Some rows →
    Z.of_nat (length rows) = val s ∧
    ∀ row, row ∈ rows → Z.of_nat (length row) = get_raster_width w s ∧
      ∀ b, b ∈ row → 0 ≤ b < 256;
  font_replacement w s : is_Some (get_raster 0xfffd w s);
  font_24 : val Size24 = 24 }.

Definition LINE_SPACING : Z := 0.
Definition LETTER_SPACING : Z := 0.
Definition SIDE_PADDING : Z := 0.
Definition TAB_SIZE : Z := 4.

(** ** Colours *)

Record Color := mkColor { r : Z; g : Z; b : Z }.

Definition black : Color := mkColor 0 0 0.
Definition white : Color := mkColor 255 255 255.

(** One channel of [lerp]: [i32] arithmetic, division towards zero, [as u8]. *)
Definition lerp_channel `{Profile} (a c alpha_1024 : Z) : res Z :=
  arith_i32 (c - a) ≫= λ d,
  arith_i32 (d * alpha_1024) ≫= λ p,
  arith_i32 (a + Z.quot p 1024) ≫= λ s,
  Val (s `mod` 256).

Definition lerp `{Profile} (self other : Color) (alpha_1024 : Z) : res Color :=
  lerp_channel (r self) (r other) alpha_1024 ≫= λ r',
  lerp_channel (g self) (g other) alpha_1024 ≫= λ g',
  lerp_channel (b self) (b other) alpha_1024 ≫= λ b',
  Val (mkColor r' g' b').

(** ** Windows *)

Record PlacementInfo := mkPlacement {
  x_div : Z; y_div : Z; x_index : Z; y_index : Z; x_size : Z; y_size : Z }.

Definition FULL_SCREEN_PLACEMENT : PlacementInfo := mkPlacement 1 1 0 0 1 1.

Record WindowInfo := mkWindow {
  byte_offset : Z; width : Z; height : Z; pixel_format : PixelFormat;
  bytes_per_pixel : Z; stride : Z }.

Section Windows.
Context `{Profile} `{Screen}.

Definition WindowInfo_new (x y w h : Z) : res WindowInfo :=
  unwrap framebuffer ≫= λ '(fb_info, _),
  add64 x w ≫= λ xw,
  ass (xw <=? fb_width fb_info) ≫= λ _,
  add64 y h ≫= λ yh,
  ass (yh <=? fb_width fb_info) ≫= λ _,
  mul64 y (fb_stride fb_info) ≫= λ ys,
  add64 ys x ≫= λ pixel_offset,
  mul64 pixel_offset (fb_bytes_per_pixel fb_info) ≫= λ offset,
  Val (mkWindow offset w h (fb_pixel_format fb_info) (fb_bytes_per_pixel fb_info) (fb_stride fb_info)).

(** [index * extent / div] *)
Definition scale (index extent div : Z) : res Z :=
  mul64 index extent ≫= λ p, div_u p div.

Definition from_placement (p : PlacementInfo) : res WindowInfo :=
  unwrap framebuffer ≫= λ '(fb_info, _),
  scale (x_index p) (fb_width fb_info) (x_div p) ≫= λ start_pixel_x,
  add64 (x_index p) (x_size p) ≫= λ xe,
  scale xe (fb_width fb_info) (x_div p) ≫= λ stop_pixel_x,
  scale (y_index p) (fb_height fb_info) (y_div p) ≫= λ start_pixel_y,
  add64 (y_index p) (y_size p) ≫= λ ye,
  scale ye (fb_height fb_info) (y_div p) ≫= λ stop_pixel_y,
  sub64 stop_pixel_x start_pixel_x ≫= λ w,
  sub64 stop_pixel_y start_pixel_y ≫= λ h,
  WindowInfo_new start_pixel_x start_pixel_y w h.

(** src/kernel/src/common_main.rs *)
Definition get_window_info_for_core (id count : Z) : res WindowInfo :=
  add64 count 4 ≫= λ c4,
  sub64 c4 1 ≫= λ c3,
  from_placement (mkPlacement 4 (c3 `div` 4) (id `mod` 4) (id `div` 4) 1 1).

(** The clear colour of a core's terminal in [main]. *)
Definition core_clear_color (id ap_count : Z) : res Color :=
  mul64 100 id ≫= λ p,
  add64 ap_count 1 ≫= λ n,
  div_u p n ≫= λ q,
  arith 8 (100 - q `mod` 256) ≫= λ green,
  Val (mkColor 10 green (q `mod` 256)).
End Windows.

(** ** The terminal *)

Record TerminalWriter `{Font} := mkTerm {
  buffer_base_ptr : Z;
  buffer : Z * Z;                        (** start address and length *)
  info : WindowInfo;
  x_pos : Z;
  y_pos : Z;
  font_height : FontSize;
  line_height : Z;
  font_weight : FontWeight;
  foreground : Color;
  background : Color;
  clear_color : Color }.

Arguments mkTerm {_} _ _ _ _ _ _ _ _ _ _ _.

(** The terminal and the memory it draws to. *)
Record TermState `{Font} := mkTS { term : TerminalWriter; vram : gmap Z Z }.
Arguments mkTS {_} _ _.

Section Terminal.
Context `{Profile} `{Screen} `{Font}.

Definition construct_buffer (base : Z) (i : WindowInfo) : res (Z * Z) :=
  mul64 (stride i) (height i) ≫= λ p,
  mul64 p (bytes_per_pixel i) ≫= λ len,
  Val (base + byte_offset i, len).

Definition TerminalWriter_new (i : WindowInfo) : res TerminalWriter :=
  unwrap framebuffer ≫= λ '(_, base),
  construct_buffer base i ≫= λ buf,
  Val (mkTerm base buf i 0 0 Size24 (24 + LETTER_SPACING) Regular white black (mkColor 70 60 60)).

Definition set_pos (x y : Z) (s : TermState) : TermState :=
  mkTS (mkTerm (buffer_base_ptr (term s)) (buffer (term s)) (info (term s)) x y
    (font_height (term s)) (line_height (term s)) (font_weight (term s))
    (foreground (term s)) (background (term s)) (clear_color (term s))) (vram s).
Definition set_clear (c : Color) (s : TermState) : TermState :=
  mkTS (mkTerm (buffer_base_ptr (term s)) (buffer (term s)) (info (term s)) (x_pos (term s)) (y_pos (term s))
    (font_height (term s)) (line_height (term s)) (font_weight (term s))
    (foreground (term s)) (background (term s)) c) (vram s).
Definition set_font (f : FontSize) (lh : Z) (s : TermState) : TermState :=
  mkTS (mkTerm (buffer_base_ptr (term s)) (buffer (term s)) (info (term s)) (x_pos (term s)) (y_pos (term s))
    f lh (font_weight (term s))
    (foreground (term s)) (background (term s)) (clear_color (term s))) (vram s).
Definition set_buffer (base : Z) (buf : Z * Z) (i : WindowInfo) (s : TermState) : TermState :=
  mkTS (mkTerm base buf i (x_pos (term s)) (y_pos (term s))
    (font_height (term s)) (line_height (term s)) (font_weight (term s))
    (foreground (term s)) (background (term s)) (clear_color (term s))) (vram s).

(** [set_to_double_buffer] spins until [DOUBLE_BUFFER] is set, to a back buffer
    at this address; if it never is, neither does this end. *)
Definition set_to_double_buffer (double_buffer : option Z) : M TermState () :=
  match double_buffer with
  | Some back_buffer =>
      gets (λ s, info (term s)) ≫= λ i,
      liftr (construct_buffer back_buffer i) ≫= λ buf,
      modify (set_buffer back_buffer buf i)
  | None => λ _, Fault NoFuel
  end.

(** [self.buffer[i] = v] *)
Definition put (i v : Z) : M TermState () := λ s,
  let '(start, len) := buffer (term s) in
  if (0 <=? i) && (i <? len)
  then Val ((), mkTS (term s) (<[start + i := v]> (vram s))) else Fault Bounds.

Definition write_pixel (x y : Z) (color : Color) : M TermState () :=
  gets (λ s, info (term s)) ≫= λ i,
  liftr (mul64 y (stride i)) ≫= λ ys,
  liftr (add64 ys x) ≫= λ pixel_offset,
  liftr (mul64 pixel_offset (bytes_per_pixel i)) ≫= λ byte_offset,
  match pixel_format i with
  | Rgb =>
      put byte_offset (r color) ≫= λ _,
      liftr (add64 byte_offset 1) ≫= λ o1, put o1 (g color) ≫= λ _,
      liftr (add64 byte_offset 2) ≫= λ o2, put o2 (b color)
  | Bgr =>
      put byte_offset (b color) ≫= λ _,
      liftr (add64 byte_offset 1) ≫= λ o1, put o1 (g color) ≫= λ _,
      liftr (add64 byte_offset 2) ≫= λ o2, put o2 (r color)
  | OtherFormat => put byte_offset ((r color + g color + b color) `div` 3)
  end.

Definition clear (font : option FontSize) : M TermState () :=
  modify (set_pos 0 0) ≫= λ _,
  gets (λ s, info (term s)) ≫= λ i,
  for_each (range 0 (height i)) (λ y,
    for_each (range 0 (width i)) (λ x,
      gets (λ s, clear_color (term s)) ≫= λ c, write_pixel x y c)) ≫= λ _,
  match font with
  | Some f => liftr (add64 (val f) LINE_SPACING) ≫= λ lh, modify (set_font f lh)
  | None => mret ()
  end.

Definition set_window_info (i : WindowInfo) (font : option FontSize) : M TermState () :=
  gets (λ s, buffer_base_ptr (term s)) ≫= λ base,
  liftr (construct_buffer base i) ≫= λ buf,
  modify (set_buffer base buf i) ≫= λ _,
  clear font.

Definition carriage_return : M TermState () :=
  modify (λ s, set_pos 0 (y_pos (term s)) s).

Definition half (c : Color) : Color := mkColor (r c `div` 2) (g c `div` 2) (b c `div` 2).

Definition newline : M TermState () :=
  gets term ≫= λ t,
  liftr (add64 (y_pos t) (line_height t)) ≫= λ y,
  modify (λ s, set_pos (x_pos (term s)) y s) ≫= λ _,
  carriage_return ≫= λ _,
  liftr (add64 y (line_height t)) ≫= λ bottom,
  (if bottom >? height (info t) then
     modify (set_pos 0 0) ≫= λ _,
     modify (λ s, let c := clear_color (term s) in set_clear (mkColor (b c) (r c) (g c)) s)
   else mret ()) ≫= λ _,
  gets (λ s, y_pos (term s)) ≫= λ y0,
  liftr (mul64 (line_height t) 2) ≫= λ lh2,
  liftr (add64 y0 lh2) ≫= λ y1,
  for_each (range y0 (Z.min y1 (height (info t)))) (λ y,
    for_each (range 0 (width (info t))) (λ x,
      gets (λ s, clear_color (term s)) ≫= λ c,
      liftr (add64 x y) ≫= λ xy,
      write_pixel x y (if Z.land xy 1 =? 0 then c else half c))).

(** The intensity of a raster byte, as [u32]. *)
Definition alpha (byte : Z) : res Z := arith 32 (byte * 1024) ≫= λ p, Val (p `div` 255).

Definition print_rasterized_char (raster : list (list Z)) : M TermState () :=
  for_each (imap (λ y row, (Z.of_nat y, row)) raster) (λ '(y, row),
    for_each (imap (λ x byte, (Z.of_nat x, byte)) row) (λ '(x, byte),
      gets term ≫= λ t,
      liftr (alpha byte) ≫= λ a,
      liftr (lerp (background t) (foreground t) a) ≫= λ color,
      liftr (add64 (x_pos t) x) ≫= λ px,
      liftr (add64 (y_pos t) y) ≫= λ py,
      write_pixel px py color)).

Definition get_rasterized_char (c : Z) (t : TerminalWriter) : res (list (list Z) * Z) :=
  (match get_raster c (font_weight t) (font_height t) with
   | Some rows => Val rows
   | None => unwrap (get_raster 0xfffd (font_weight t) (font_height t))
   end) ≫= λ rows,
  Val (rows, get_raster_width (font_weight t) (font_height t)).

Definition write_raw_char (c : Z) : M TermState () :=
  gets term ≫= λ t,
  liftr (get_rasterized_char c t) ≫= λ '(rasterized_char, char_width),
  (if x_pos t =? 0 then modify (λ s, set_pos SIDE_PADDING (y_pos (term s)) s) else mret ()) ≫= λ _,
  gets (λ s, x_pos (term s)) ≫= λ x0,
  liftr (add64 x0 char_width) ≫= λ right,
  liftr (sub64 (width (info t)) SIDE_PADDING) ≫= λ limit,
  (if right >=? limit then newline else mret ()) ≫= λ _,
  print_rasterized_char rasterized_char ≫= λ _,
  gets (λ s, x_pos (term s)) ≫= λ x1,
  liftr (add64 char_width LETTER_SPACING) ≫= λ adv,
  liftr (add64 x1 adv) ≫= λ x2,
  modify (λ s, set_pos x2 (y_pos (term s)) s).

(** The number of spaces [tab] writes. *)
Definition tab_spaces (t : TerminalWriter) : res Z :=
  if x_pos t =? 0 then Val 4 else
    add64 (get_raster_width (font_weight t) (font_height t)) LETTER_SPACING ≫= λ char_width,
    sub64 (x_pos t) SIDE_PADDING ≫= λ x,
    div_u x char_width ≫= λ char_count,
    add64 char_count 1 ≫= λ c1,
    add64 c1 TAB_SIZE ≫= λ c2,
    sub64 c2 1 ≫= λ c3,
    div_u c3 TAB_SIZE ≫= λ stops,
    mul64 stops TAB_SIZE ≫= λ final_char_count,
    sub64 final_char_count char_count.

Definition tab : M TermState () :=
  gets term ≫= λ t,
  liftr (tab_spaces t) ≫= λ new_spaces,
  for_each (range 0 new_spaces) (λ _, write_raw_char 32).

Definition write_char (c : Z) : M TermState () :=
  if c =? 10 then newline
  else if c =? 13 then carriage_return
  else if c =? 9 then tab
  else write_raw_char c.

Definition write_str (s : list Z) : M TermState () := for_each s write_char.

(** [print_pixels] after [x] pixels of the row at [y_offset]; the iterator is
    the list of colours still to come.  A width of 0 with colours left never
    ends. *)
Fixpoint print_pixels_from (w x_offset x y_offset : Z) (colors : list Color) : M TermState () :=
  match colors with
  | [] => if y_offset =? 0 then mret () else newline
  | color :: colors' =>
      gets term ≫= λ t,
      liftr (add64 x x_offset) ≫= λ px,
      (if px >=? width (info t) then mret ()
       else liftr (add64 (y_pos t) y_offset) ≫= λ py, write_pixel px py color) ≫= λ _,
      if x + 1 <? w then print_pixels_from w x_offset (x + 1) y_offset colors'
      else
        liftr (add64 y_offset 1) ≫= λ y',
        (if y' >=? line_height t then newline ≫= λ _, mret 0 else mret y') ≫= λ y'',
        print_pixels_from w x_offset 0 y'' colors'
  end.

Definition endless : M TermState () := λ _, Fault NoFuel.

Definition print_pixels (w : Z) (colors : list Color) : M TermState () :=
  gets (λ s, x_pos (term s)) ≫= λ x_offset,
  if w =? 0 then endless else print_pixels_from w x_offset 0 0 colors.
End Terminal.

(** ** Drawing stays inside the window *)

Lemma arith_i32_chain `{Profile} z : - 2 ^ 20 ≤ z ≤ 2 ^ 20 → arith_i32 z = Val z.
Proof. intros. apply arith_i32_in. lia. Qed.

(** A blend of two bytes is a byte between them. *)
Lemma lerp_channel_val `{Profile} a c al :
  0 ≤ a < 256 → 0 ≤ c < 256 → 0 ≤ al ≤ 1024 →
  lerp_channel a c al = Val (a + Z.quot ((c - a) * al) 1024) ∧
  Z.min a c ≤ a + Z.quot ((c - a) * al) 1024 ≤ Z.max a c.
Proof.
  intros Ha Hc Hal. set (q := Z.quot ((c - a) * al) 1024).
  assert (Z.min a c ≤ a + q ≤ Z.max a c) as Hq.
  { unfold q. destruct (Z.le_gt_cases a c) as [Hle|Hgt].
    - rewrite Z.quot_div_nonneg by nia. assert (0 ≤ ((c - a) * al) `div` 1024 ≤ c - a) as Hd; [|revert Hd; generalize (((c - a) * al) `div` 1024); lia].
      split; [apply Z.div_pos; nia|]. apply Z.div_le_upper_bound; nia.
    - replace ((c - a) * al) with (- ((a - c) * al)) by lia. rewrite Z.quot_opp_l by lia.
      rewrite Z.quot_div_nonneg by nia. assert (0 ≤ ((a - c) * al) `div` 1024 ≤ a - c) as Hd; [|revert Hd; generalize (((a - c) * al) `div` 1024); lia].
      split; [apply Z.div_pos; nia|]. apply Z.div_le_upper_bound; nia. }
  split; [|done]. unfold lerp_channel. rewrite arith_i32_in by lia. cbn.
  rewrite arith_i32_in by nia. cbn. fold q. rewrite arith_i32_in by lia. cbn.
  by rewrite Z.mod_small by lia.
Qed.

Definition byte_color (c : Color) : Prop := 0 ≤ r c < 256 ∧ 0 ≤ g c < 256 ∧ 0 ≤ b c < 256.

Lemma lerp_val `{Profile} c1 c2 al :
  byte_color c1 → byte_color c2 → 0 ≤ al ≤ 1024 → ∃ c, lerp c1 c2 al = Val c ∧ byte_color c.
Proof.
  intros (?&?&?) (?&?&?) Hal. unfold lerp.
  destruct (lerp_channel_val (r c1) (r c2) al) as [-> ?]; [done..|]. cbn.
  destruct (lerp_channel_val (g c1) (g c2) al) as [-> ?]; [done..|]. cbn.
  destruct (lerp_channel_val (b c1) (b c2) al) as [-> ?]; [done..|]. cbn.
  eexists. split; [done|]. unfold byte_color. cbn. lia.
Qed.

Lemma alpha_val byte `{Profile} : 0 ≤ byte < 256 → ∃ a, alpha byte = Val a ∧ 0 ≤ a ≤ 1024.
Proof.
  intros Hb. unfold alpha. rewrite arith_in by lia. cbn. eexists. split; [done|].
  Z.div_mod_to_equations. lia.
Qed.

(** The number of bytes a pixel write touches. *)
Definition pixel_bytes (f : PixelFormat) : Z := match f with OtherFormat => 1 | _ => 3 end.

(** A window that fits its rows, with usual extents. *)
Record window_ok (i : WindowInfo) : Prop := {
  wo_width : 0 ≤ width i ≤ stride i;
  wo_stride : stride i ≤ 2 ^ 20;
  wo_height : 0 ≤ height i ≤ 2 ^ 20;
  wo_bpp : pixel_bytes (pixel_format i) ≤ bytes_per_pixel i ≤ 8 }.

(** The addresses of the pixels of a window whose first pixel is at [start]. *)
Definition window_byte (start : Z) (i : WindowInfo) (q : Z) : Prop :=
  ∃ x y k, 0 ≤ x < width i ∧ 0 ≤ y < height i ∧ 0 ≤ k < bytes_per_pixel i ∧
    q = start + (y * stride i + x) * bytes_per_pixel i + k.

Definition outside (start : Z) (i : WindowInfo) (v v' : gmap Z Z) : Prop :=
  ∀ q, ¬ window_byte start i q → v' !! q = v !! q.

Section Draw.
Context `{Profile} `{Screen} `{Font}.

(** [m] draws inside the window of [t] and leaves the terminal as it is. *)
Definition draws_at (t : TerminalWriter) (m : M TermState ()) : Prop :=
  ∀ v, ∃ v', m (mkTS t v) = Val ((), mkTS t v') ∧ outside (fst (buffer t)) (info t) v v'.

Lemma draws_mret t : draws_at t (mret ()).
Proof. intros v. by exists v. Qed.

Lemma draws_bind t m k : draws_at t m → draws_at t k → draws_at t (m ≫= λ _, k).
Proof.
  intros Hm Hk v. destruct (Hm v) as (v1 & Hr1 & Ho1). destruct (Hk v1) as (v2 & Hr2 & Ho2).
  exists v2. split; [by rewrite (M_bind_run _ _ _ _ _ Hr1)|]. intros q Hq. by rewrite Ho2, Ho1.
Qed.

Lemma draws_gets {A} t (f : TermState → A) k :
  (∀ v, draws_at t (k (f (mkTS t v)))) → draws_at t (gets f ≫= k).
Proof. intros Hk v. destruct (Hk v v) as (v' & Hr & Ho). by exists v'. Qed.

Lemma draws_liftr {A} t (m : res A) k a :
  m = Val a → draws_at t (k a) → draws_at t (liftr m ≫= k).
Proof. intros -> Hk v. destruct (Hk v) as (v' & Hr & Ho). by exists v'. Qed.

Lemma draws_for_each {A} t (l : list A) body :
  (∀ x, x ∈ l → draws_at t (body x)) → draws_at t (for_each l body).
Proof.
  induction l as [|x l IH]; intros Hb; [apply draws_mret|]. cbn.
  apply draws_bind; [apply Hb; left|]. apply IH. intros y Hy. apply Hb. by right.
Qed.

(** A write in range of the buffer, at a byte of the window. *)
Lemma draws_put t i v :
  0 ≤ i < snd (buffer t) → window_byte (fst (buffer t)) (info t) (fst (buffer t) + i) →
  draws_at t (put i v).
Proof.
  intros Hi Hq m. exists (<[fst (buffer t) + i := v]> m). split.
  - unfold put. cbn. destruct (buffer t) as [start len]. cbn in *.
    by rewrite (proj2 (Z.leb_le _ _)), (proj2 (Z.ltb_lt _ _)) by lia.
  - intros q Hnq. apply lookup_insert_ne. by intros <-.
Qed.

(** The buffer [construct_buffer] makes for the window. *)
Definition buffer_ok (t : TerminalWriter) : Prop :=
  snd (buffer t) = stride (info t) * height (info t) * bytes_per_pixel (info t).

Lemma draws_write_pixel t x y c :
  window_ok (info t) → buffer_ok t → 0 ≤ x < width (info t) → 0 ≤ y < height (info t) →
  draws_at t (write_pixel x y c).
Proof.
  intros [[Hw0 Hws] Hs [Hh0 Hh] [Hb1 Hb8]] Hbuf Hx Hy. set (i := info t) in *.
  assert (0 < bytes_per_pixel i) by (destruct (pixel_format i); cbn in *; lia).
  assert (0 ≤ y * stride i ≤ 2 ^ 40) by nia.
  assert (y * stride i + x + 1 ≤ stride i * height i) as Hin by nia.
  set (po := y * stride i + x) in *.
  assert (0 ≤ po ≤ 2 ^ 41) by lia.
  assert (0 ≤ po * bytes_per_pixel i ≤ 2 ^ 44) by nia.
  assert ((po + 1) * bytes_per_pixel i ≤ snd (buffer t)) as Hlen by (rewrite Hbuf; fold i; nia).
  assert (∀ k v, 0 ≤ k < bytes_per_pixel i → draws_at t (put (po * bytes_per_pixel i + k) v)) as Hput.
  { intros k v Hk. apply draws_put; [lia|]. exists x, y, k. fold i. unfold po. split_and!; lia. }
  unfold write_pixel. apply draws_gets. intros v0. cbn [term]. fold i.
  apply (draws_liftr _ _ _ (y * stride i)); [apply mul64_in; lia|].
  apply (draws_liftr _ _ _ po); [apply add64_in; lia|].
  apply (draws_liftr _ _ _ (po * bytes_per_pixel i)); [apply mul64_in; lia|].
  pose proof (Hput 0) as Hput0. rewrite Z.add_0_r in Hput0.
  destruct (pixel_format i); cbn in Hb1.
  3: apply Hput0; lia.
  all: apply draws_bind; [apply Hput0; lia|];
    apply (draws_liftr _ _ _ (po * bytes_per_pixel i + 1)); [apply add64_in; lia|];
    apply draws_bind; [apply Hput; lia|];
    apply (draws_liftr _ _ _ (po * bytes_per_pixel i + 2)); [apply add64_in; lia|];
    apply Hput; lia.
Qed.
End Draw.

(** ** The cursor *)

(** A terminal whose font fits its window. *)
Record term_ok `{Font} (t : TerminalWriter) : Prop := {
  to_window : window_ok (info t);
  to_buffer : buffer_ok t;
  to_line : line_height t = val (font_height t);
  to_fits : line_height t ≤ height (info t);
  to_char : get_raster_width (font_weight t) (font_height t) ≤ width (info t);
  to_colors : byte_color (foreground t) ∧ byte_color (background t) }.

(** The cursor is at a place where a line fits. *)
Record pos_ok `{Font} (t : TerminalWriter) : Prop := {
  po_x : 0 ≤ x_pos t ≤ width (info t);
  po_y : 0 ≤ y_pos t ∧ y_pos t + line_height t ≤ height (info t) }.

(** Two states of the same terminal: only the cursor and the clear colour differ. *)
Definition same_term `{Font} (t t' : TerminalWriter) : Prop :=
  buffer t' = buffer t ∧ info t' = info t ∧ font_height t' = font_height t ∧
  line_height t' = line_height t ∧ font_weight t' = font_weight t ∧
  foreground t' = foreground t ∧ background t' = background t.

(** [m] runs, keeps the terminal usable and draws only inside its window. *)
Definition confined `{Font} (m : M TermState ()) : Prop := ∀ s,
  term_ok (term s) → pos_ok (term s) →
  ∃ s', m s = Val ((), s') ∧ same_term (term s) (term s') ∧ pos_ok (term s') ∧
    outside (fst (buffer (term s))) (info (term s)) (vram s) (vram s').

Section Cursor.
Context `{Profile} `{Screen} `{FontLaws}.

Lemma same_term_ok t t' : same_term t t' → term_ok t → term_ok t'.
Proof.
  intros (Hb & Hi & Hf & Hl & Hw & Hfg & Hbg) [? Hbuf ? ? ? ?]. unfold buffer_ok in Hbuf.
  split; unfold buffer_ok; by rewrite ?Hb, ?Hi, ?Hf, ?Hl, ?Hw, ?Hfg, ?Hbg.
Qed.

Lemma same_term_trans t1 t2 t3 : same_term t1 t2 → same_term t2 t3 → same_term t1 t3.
Proof. unfold same_term. intros (?&?&?&?&?&?&?) (?&?&?&?&?&?&?). split_and!; congruence. Qed.

Lemma confined_mret : confined (mret ()).
Proof. intros s _ Hp. exists s. by split_and!. Qed.

Lemma confined_bind m k : confined m → confined k → confined (m ≫= λ _, k).
Proof.
  intros Hm Hk s Ht Hp. destruct (Hm s Ht Hp) as (s1 & Hr1 & Hs1 & Hp1 & Ho1).
  destruct (Hk s1 (same_term_ok _ _ Hs1 Ht) Hp1) as (s2 & Hr2 & Hs2 & Hp2 & Ho2).
  exists s2. split_and!; [by rewrite (M_bind_run _ _ _ _ _ Hr1)|by eapply same_term_trans|done|].
  destruct Hs1 as (Hb & Hi & _). rewrite Hb, Hi in Ho2. intros q Hq. by rewrite Ho2, Ho1.
Qed.

Lemma confined_for_each {A} (l : list A) body :
  (∀ x, x ∈ l → confined (body x)) → confined (for_each l body).
Proof.
  induction l as [|x l IH]; intros Hb; [apply confined_mret|]. cbn.
  apply confined_bind; [apply Hb; left|]. apply IH. intros y Hy. apply Hb. by right.
Qed.

(** The bounds the arithmetic needs. *)
Lemma term_bounds t : term_ok t → pos_ok t →
  0 < line_height t ≤ 2 ^ 10 ∧ 0 ≤ x_pos t ≤ 2 ^ 20 ∧ 0 ≤ y_pos t ≤ 2 ^ 20 ∧
  0 ≤ width (info t) ≤ 2 ^ 20 ∧ 0 ≤ height (info t) ≤ 2 ^ 20 ∧
  0 < get_raster_width (font_weight t) (font_height t) ≤ 2 ^ 10.
Proof.
  intros [[Hw Hs Hh Hb] _ Hl Hf Hc _] [Hx Hy]. pose proof (font_val (font_height t)).
  pose proof (font_width (font_weight t) (font_height t)). lia.
Qed.

(** The terminal after [newline]. *)
Definition newline_term (t : TerminalWriter) : TerminalWriter :=
  let wrap := y_pos t + line_height t + line_height t >? height (info t) in
  mkTerm (buffer_base_ptr t) (buffer t) (info t) 0 (if wrap then 0 else y_pos t + line_height t)
    (font_height t) (line_height t) (font_weight t) (foreground t) (background t)
    (if wrap then mkColor (b (clear_color t)) (r (clear_color t)) (g (clear_color t))
     else clear_color t).

Lemma newline_term_ok t :
  term_ok t → pos_ok t → same_term t (newline_term t) ∧ pos_ok (newline_term t).
Proof.
  intros Ht Hp. pose proof (term_bounds t Ht Hp). pose proof (to_fits t Ht).
  split; [done|]. destruct Hp as [? ?]. split; [cbn; lia|]. cbn.
  destruct (Z.gtb_spec (y_pos t + line_height t + line_height t) (height (info t))); lia.
Qed.

(** The rows that [newline] repaints. *)
Lemma draws_newline_rows t y0 y1 :
  term_ok t → pos_ok t → 0 ≤ y0 → y1 ≤ height (info t) →
  draws_at t (for_each (range y0 y1) (λ y,
    for_each (range 0 (width (info t))) (λ x,
      gets (λ s, clear_color (term s)) ≫= λ c,
      liftr (add64 x y) ≫= λ xy,
      write_pixel x y (if Z.land xy 1 =? 0 then c else half c)))).
Proof.
  intros Ht Hp Hy0 Hy1. pose proof (term_bounds t Ht Hp).
  apply draws_for_each. intros y Hy%elem_of_range. apply draws_for_each. intros x Hx%elem_of_range.
  apply draws_gets. intros v. apply (draws_liftr _ _ _ (x + y)); [apply add64_in; lia|].
  apply draws_write_pixel; [apply Ht|apply Ht|lia|lia].
Qed.

Definition repainted_rows (t : TerminalWriter) : list Z :=
  range (y_pos t) (Z.min (y_pos t + line_height t * 2) (height (info t))).

Definition checker (c : Color) (x y : Z) : Color := if Z.land (x + y) 1 =? 0 then c else half c.

(** [newline] moves the cursor and repaints the rows there. *)
Lemma newline_eq t v :
  term_ok t → pos_ok t →
  newline (mkTS t v) =
    for_each (repainted_rows (newline_term t)) (λ y,
      for_each (range 0 (width (info t))) (λ x,
        gets (λ s, clear_color (term s)) ≫= λ c,
        liftr (add64 x y) ≫= λ xy,
        write_pixel x y (if Z.land xy 1 =? 0 then c else half c))) (mkTS (newline_term t) v).
Proof.
  intros Ht Hp. pose proof (term_bounds t Ht Hp) as Hb.
  destruct (newline_term_ok t Ht Hp) as [Hsame Hp'].
  unfold newline. rewrite (M_bind_run (gets term) _ _ t (mkTS t v)) by done.
  m_step.
  erewrite (M_bind_run (modify _)) by done. erewrite (M_bind_run carriage_return) by done.
  erewrite M_bind_run by (apply liftr_run, add64_in; lia).
  set (t1 := newline_term t) in *.
  erewrite (M_bind_run _ _ _ () (mkTS t1 v)).
  - rewrite (M_bind_run _ _ _ (y_pos t1) (mkTS t1 v)) by done.
    m_step.
    rewrite (M_bind_run _ _ _ (y_pos t1 + line_height t * 2) (mkTS t1 v)); [done|].
    apply liftr_run, add64_in. destruct Hp' as [_ Hy]. change (line_height t1) with (line_height t) in Hy.
    change (info t1) with (info t) in Hy. lia.
  - unfold t1, newline_term. destruct (_ >? _); done.
Qed.

Lemma newline_run t v :
  term_ok t → pos_ok t →
  ∃ v', newline (mkTS t v) = Val ((), mkTS (newline_term t) v') ∧
    outside (fst (buffer t)) (info t) v v'.
Proof.
  intros Ht Hp. destruct (newline_term_ok t Ht Hp) as [Hsame Hp'].
  pose proof (same_term_ok _ _ Hsame Ht) as Ht'. rewrite newline_eq by done.
  apply (draws_newline_rows (newline_term t)); [done|done|apply Hp'|cbn; lia].
Qed.

Lemma confined_newline : confined newline.
Proof.
  intros [t v] Ht Hp. cbn in *. destruct (newline_run t v Ht Hp) as (v' & Hr & Ho).
  destruct (newline_term_ok t Ht Hp). by exists (mkTS (newline_term t) v').
Qed.

Lemma confined_carriage_return : confined carriage_return.
Proof.
  intros [t v] Ht Hp. eexists. split; [done|]. split_and!; [done| |done].
  pose proof (term_bounds t Ht Hp). destruct Hp as [? ?]. split; [cbn in *; lia|done].
Qed.
End Cursor.

(** ** Characters and pixels *)

Section Output.
Context `{Profile} `{Screen} `{FontLaws}.

Lemma imap_elem {A} (l : list A) (y : Z) (x : A) :
  (y, x) ∈ imap (λ i a, (Z.of_nat i, a)) l → 0 ≤ y < Z.of_nat (length l) ∧ x ∈ l.
Proof.
  intros (i & a & [= -> ->] & Hi)%elem_of_lookup_imap_1.
  pose proof (lookup_lt_Some _ _ _ Hi). split; [lia|]. by eapply list_elem_of_lookup_2.
Qed.

Lemma imap_elem_lookup {A} (l : list A) (y : Z) (x : A) :
  (y, x) ∈ imap (λ i a, (Z.of_nat i, a)) l ↔ 0 ≤ y ∧ l !! Z.to_nat y = Some x.
Proof.
  rewrite elem_of_lookup_imap. split.
  - intros (i & a & [= -> ->] & Hi). rewrite Nat2Z.id. split; [lia|done].
  - intros [Hy Hl]. exists (Z.to_nat y), x. split; [f_equal; lia|done].
Qed.

Lemma draws_glyph t c raster :
  term_ok t → pos_ok t → get_raster c (font_weight t) (font_height t) = Some raster →
  x_pos t + get_raster_width (font_weight t) (font_height t) ≤ width (info t) →
  draws_at t (print_rasterized_char raster).
Proof.
  intros Ht Hp Hr Hx. pose proof (term_bounds t Ht Hp).
  destruct (font_raster _ _ _ _ Hr) as [Hrows Hcols]. pose proof (to_line t Ht) as Hl.
  destruct (to_colors t Ht) as [Hfg Hbg]. destruct Hp as [? ?].
  unfold print_rasterized_char. apply draws_for_each. intros [y row] [Hy Hrow]%imap_elem.
  destruct (Hcols row Hrow) as [Hlen Hbytes].
  apply draws_for_each. intros [x byte] [Hx' Hbyte]%imap_elem. apply draws_gets. intros v.
  cbn [term]. destruct (alpha_val byte) as (al & Hal & Hal'); [by apply Hbytes|].
  destruct (lerp_val (background t) (foreground t) al Hbg Hfg Hal') as (col & Hcol & _).
  apply (draws_liftr _ _ _ al); [done|]. apply (draws_liftr _ _ _ col); [done|].
  apply (draws_liftr _ _ _ (x_pos t + x)); [apply add64_in; lia|].
  apply (draws_liftr _ _ _ (y_pos t + y)); [apply add64_in; lia|].
  apply draws_write_pixel; [apply Ht|apply Ht|lia|lia].
Qed.

(** A character always has a raster, the replacement's if need be. *)
Lemma get_rasterized_char_val c t :
  ∃ c' raster, get_rasterized_char c t =
      Val (raster, get_raster_width (font_weight t) (font_height t)) ∧
    get_raster c' (font_weight t) (font_height t) = Some raster.
Proof.
  unfold get_rasterized_char. destruct (get_raster c _ _) as [raster|] eqn:Hr.
  - by exists c, raster.
  - destruct (font_replacement (font_weight t) (font_height t)) as [raster Hr'].
    exists 0xfffd, raster. by rewrite Hr'.
Qed.

(** The terminal in which the glyph of a raw character is drawn. *)
Definition glyph_term (t : TerminalWriter) : TerminalWriter :=
  if x_pos t + get_raster_width (font_weight t) (font_height t) >=? width (info t)
  then newline_term t else t.

Definition advance (t : TerminalWriter) : TerminalWriter :=
  term (set_pos (x_pos t + get_raster_width (font_weight t) (font_height t)) (y_pos t) (mkTS t ∅)).

Lemma glyph_term_ok t :
  term_ok t → pos_ok t → same_term t (glyph_term t) ∧ pos_ok (glyph_term t) ∧
    x_pos (glyph_term t) + get_raster_width (font_weight t) (font_height t) ≤ width (info t).
Proof.
  intros Ht Hp. unfold glyph_term. destruct (Z.geb_spec (x_pos t + get_raster_width (font_weight t) (font_height t)) (width (info t))).
  - destruct (newline_term_ok t Ht Hp). split_and!; [done..|]. cbn. pose proof (to_char t Ht). lia.
  - split_and!; [done..|lia].
Qed.

Lemma set_pos_same t v : set_pos (x_pos t) (y_pos t) (mkTS t v) = mkTS t v.
Proof. by destruct t. Qed.

(** The steps of [write_raw_char]. *)
Lemma write_raw_char_eq c t v v1 v2 raster :
  term_ok t → pos_ok t →
  get_rasterized_char c t = Val (raster, get_raster_width (font_weight t) (font_height t)) →
  (if x_pos t + get_raster_width (font_weight t) (font_height t) >=? width (info t)
   then newline else mret ()) (mkTS t v) = Val ((), mkTS (glyph_term t) v1) →
  print_rasterized_char raster (mkTS (glyph_term t) v1) = Val ((), mkTS (glyph_term t) v2) →
  write_raw_char c (mkTS t v) = Val ((), mkTS (advance (glyph_term t)) v2).
Proof.
  intros Ht Hp Hg Hnl Hgl. pose proof (term_bounds t Ht Hp) as Hb.
  destruct (glyph_term_ok t Ht Hp) as ((_ & Hsi & Hsf & _ & Hsw & _) & Hp' & Hx').
  set (cw := get_raster_width (font_weight t) (font_height t)) in *.
  unfold write_raw_char. rewrite (M_bind_run (gets term) _ _ t (mkTS t v)) by done. cbn beta.
  rewrite (M_bind_run _ _ _ (raster, cw) (mkTS t v)) by (apply liftr_run; exact Hg). cbn beta iota.
  erewrite (M_bind_run (if x_pos t =? 0 then _ else _) _ _ () (mkTS t v)); cycle 1.
  { destruct (Z.eqb_spec (x_pos t) 0) as [Hx0|]; [|done].
    change (Val ((), set_pos 0 (y_pos t) (mkTS t v)) = Val ((), mkTS t v)).
    by rewrite <-Hx0, set_pos_same. }
  rewrite (M_bind_run _ _ _ (x_pos t) (mkTS t v)) by done.
  m_step.
  rewrite (M_bind_run _ _ _ (width (info t)) (mkTS t v)).
  2:{ apply liftr_run. unfold SIDE_PADDING. rewrite sub64_in by lia. f_equal. lia. }
  rewrite (M_bind_run _ _ _ _ _ Hnl), (M_bind_run _ _ _ _ _ Hgl).
  rewrite (M_bind_run _ _ _ (x_pos (glyph_term t)) (mkTS (glyph_term t) v2)) by done.
  rewrite (M_bind_run _ _ _ cw (mkTS (glyph_term t) v2)).
  2:{ apply liftr_run. unfold LETTER_SPACING. rewrite add64_in by lia. f_equal. lia. }
  rewrite (M_bind_run _ _ _ (x_pos (glyph_term t) + cw) (mkTS (glyph_term t) v2)).
  2:{ apply liftr_run, add64_in. destruct Hp' as [? _]. lia. }
  unfold modify, advance. by rewrite Hsw, Hsf.
Qed.

Lemma wrap_run t v :
  term_ok t → pos_ok t →
  ∃ v1, (if x_pos t + get_raster_width (font_weight t) (font_height t) >=? width (info t)
         then newline else mret ()) (mkTS t v) = Val ((), mkTS (glyph_term t) v1) ∧
    outside (fst (buffer t)) (info t) v v1.
Proof. intros Ht Hp. unfold glyph_term. destruct (_ >=? _); [by apply newline_run|by exists v]. Qed.

Lemma write_raw_char_run c t v :
  term_ok t → pos_ok t →
  ∃ v', write_raw_char c (mkTS t v) = Val ((), mkTS (advance (glyph_term t)) v') ∧
    outside (fst (buffer t)) (info t) v v'.
Proof.
  intros Ht Hp. destruct (get_rasterized_char_val c t) as (c' & raster & Hg & Hr).
  destruct (glyph_term_ok t Ht Hp) as (Hsame & Hp' & Hx').
  destruct (wrap_run t v Ht Hp) as (v1 & Hnl & Ho1).
  pose proof (same_term_ok _ _ Hsame Ht) as Ht'. destruct Hsame as (Hsb & Hsi & Hsf & _ & Hsw & _).
  destruct (draws_glyph (glyph_term t) c' raster Ht' Hp') with (v := v1) as (v2 & Hgl & Ho2).
  { by rewrite Hsw, Hsf. }
  { by rewrite Hsw, Hsf, Hsi. }
  exists v2. split; [by eapply write_raw_char_eq|].
  rewrite Hsb, Hsi in Ho2. intros q Hq. by rewrite Ho2, Ho1.
Qed.

Lemma confined_write_raw_char c : confined (write_raw_char c).
Proof.
  intros [t v] Ht Hp. cbn in *. destruct (write_raw_char_run c t v Ht Hp) as (v' & Hr & Ho).
  destruct (glyph_term_ok t Ht Hp) as (Hsame & Hp' & Hx').
  exists (mkTS (advance (glyph_term t)) v'). split_and!; [done| | |done].
  - destruct Hsame as (?&?&?&?&?&?&?). by split_and!.
  - destruct Hsame as (?&Hi&Hf&?&Hw&?&?). destruct Hp' as [? ?].
    pose proof (font_width (font_weight t) (font_height t)).
    split; cbn; rewrite ?Hw, ?Hf, ?Hi in *; [lia|done].
Qed.

Lemma tab_spaces_val t : term_ok t → pos_ok t → ∃ n, tab_spaces t = Val n ∧ 1 ≤ n ≤ 4.
Proof.
  intros Ht Hp. pose proof (term_bounds t Ht Hp) as Hb. unfold tab_spaces.
  destruct (Z.eqb_spec (x_pos t) 0); [by exists 4|].
  set (cw := get_raster_width (font_weight t) (font_height t)) in *.
  unfold LETTER_SPACING, SIDE_PADDING, TAB_SIZE.
  rewrite add64_in by lia. cbn. rewrite sub64_in by lia. cbn.
  rewrite div_u_pos by lia. cbn. rewrite Z.add_0_r, Z.sub_0_r.
  assert (0 ≤ x_pos t `div` cw ≤ 2 ^ 20) as Hq.
  { split; [apply Z.div_pos; lia|]. apply Z.div_le_upper_bound; nia. }
  set (q := x_pos t `div` cw) in *.
  rewrite add64_in by lia. cbn. rewrite add64_in by lia. cbn. rewrite sub64_in by lia. cbn.
  unfold div_u. cbn.
  assert (0 ≤ (q + 1 + 4 - 1) `div` 4 ≤ 2 ^ 20 + 1) by (Z.div_mod_to_equations; lia).
  rewrite mul64_in by lia. cbn.
  assert (1 ≤ (q + 1 + 4 - 1) `div` 4 * 4 - q ≤ 4) by (Z.div_mod_to_equations; lia).
  rewrite sub64_in by lia. by eexists.
Qed.

Lemma confined_tab : confined tab.
Proof.
  intros s Ht Hp. destruct (tab_spaces_val _ Ht Hp) as (n & Hn & _).
  unfold tab. rewrite (M_bind_run (gets term) _ _ (term s) s) by done.
  rewrite (M_bind_run _ _ _ n s) by (by apply liftr_run).
  apply confined_for_each; [|done..]. intros _ _. apply confined_write_raw_char.
Qed.

Lemma confined_write_char c : confined (write_char c).
Proof.
  unfold write_char. repeat case_match;
    [apply confined_newline|apply confined_carriage_return|apply confined_tab|apply confined_write_raw_char].
Qed.

(** A pixel of [print_pixels]: drawn if it is inside the window. *)
Lemma confined_pixel x y_offset color :
  0 ≤ x ≤ 2 ^ 40 →
  ∀ s, term_ok (term s) → pos_ok (term s) → 0 ≤ y_offset < line_height (term s) →
  ∃ v', (if x >=? width (info (term s)) then mret ()
         else liftr (add64 (y_pos (term s)) y_offset) ≫= λ py, write_pixel x py color) s =
      Val ((), mkTS (term s) v') ∧
    outside (fst (buffer (term s))) (info (term s)) (vram s) v'.
Proof.
  intros Hx [t v] Ht Hp Hy. cbn in *. pose proof (term_bounds t Ht Hp).
  destruct (Z.geb_spec x (width (info t))); [by exists v|].
  apply (draws_liftr _ _ _ (y_pos t + y_offset)); [apply add64_in; lia|].
  destruct Hp as [? ?]. apply draws_write_pixel; [apply Ht|apply Ht|lia|lia].
Qed.

Lemma confined_print_pixels_from w x0 colors :
  0 < w ≤ 2 ^ 32 → 0 ≤ x0 ≤ 2 ^ 20 → ∀ x y_offset s, 0 ≤ x < w →
  term_ok (term s) → pos_ok (term s) → 0 ≤ y_offset < line_height (term s) →
  ∃ s', print_pixels_from w x0 x y_offset colors s = Val ((), s') ∧
    same_term (term s) (term s') ∧ pos_ok (term s') ∧
    outside (fst (buffer (term s))) (info (term s)) (vram s) (vram s').
Proof.
  intros Hw Hx0. induction colors as [|c colors IH]; intros x y_offset s Hx Ht Hp Hy.
  - cbn. destruct (y_offset =? 0); [by apply confined_mret|by apply confined_newline].
  - destruct (confined_pixel (x + x0) y_offset c ltac:(lia) s Ht Hp Hy) as (v1 & Hr1 & Ho1).
    cbn [print_pixels_from]. rewrite (M_bind_run (gets term) _ _ (term s) s) by done.
    m_step.
    rewrite (M_bind_run _ _ _ _ _ Hr1).
    set (s1 := mkTS (term s) v1) in *.
    assert (∀ s2, same_term (term s) (term s2) → pos_ok (term s2) →
      outside (fst (buffer (term s))) (info (term s)) v1 (vram s2) →
      ∀ x' y', 0 ≤ x' < w → 0 ≤ y' < line_height (term s) →
      ∃ s', print_pixels_from w x0 x' y' colors s2 = Val ((), s') ∧
        same_term (term s) (term s') ∧ pos_ok (term s') ∧
        outside (fst (buffer (term s))) (info (term s)) (vram s) (vram s')) as Hrest.
    { intros s2 Hs2 Hp2 Ho2 x' y' Hx' Hy'.
      destruct (IH x' y' s2 Hx' (same_term_ok _ _ Hs2 Ht) Hp2) as (s' & Hr & Hs & Hp' & Ho).
      { by destruct Hs2 as (_ & _ & _ & -> & _). }
      exists s'. split_and!; [done|by eapply same_term_trans|done|].
      destruct Hs2 as (Hb & Hi & _). rewrite Hb, Hi in Ho. intros q Hq. by rewrite Ho, Ho2, Ho1. }
    pose proof (term_bounds _ Ht Hp) as Hbd.
    destruct (Z.ltb_spec (x + 1) w).
    + apply Hrest; [done|done|done|lia|done].
    + m_step.
      destruct (Z.geb_spec (y_offset + 1) (line_height (term s))).
      * destruct (newline_run (term s) v1 Ht Hp) as (v2 & Hr2 & Ho2).
        destruct (newline_term_ok _ Ht Hp) as [Hs2 Hp2].
        rewrite (M_bind_run _ _ _ 0 (mkTS (newline_term (term s)) v2)).
        2:{ by rewrite (M_bind_run _ _ _ _ _ Hr2). }
        apply Hrest; [done|done|done|lia|lia].
      * rewrite (M_bind_run _ _ _ (y_offset + 1) s1) by done.
        apply Hrest; [done|done|done|lia|lia].
Qed.

Lemma draws_clear t :
  term_ok t → pos_ok t → draws_at t (for_each (range 0 (height (info t))) (λ y,
    for_each (range 0 (width (info t))) (λ x,
      gets (λ s, clear_color (term s)) ≫= λ c, write_pixel x y c))).
Proof.
  intros Ht Hp. apply draws_for_each. intros y Hy%elem_of_range. apply draws_for_each.
  intros x Hx%elem_of_range. apply draws_gets. intros v. apply draws_write_pixel; [apply Ht|apply Ht|lia|lia].
Qed.
End Output.
