(* ===== verification/Windows.v ===== *)
(** * Window placement

    What [WindowInfo::from_placement] computes: the windows of a grid tile the
    framebuffer, the window of a core outside the grid does not fit it, and
    the bound that the code checks for the height is the width. *)

From S2P Require Import Prelude Terminal.

(** A framebuffer of usual extents, wider than high. *)
Record screen_ok (fi : FrameBufferInfo) : Prop := {
  so_width : 0 < fb_width fi ≤ fb_stride fi;
  so_stride : fb_stride fi ≤ 2 ^ 20;
  so_height : 0 < fb_height fi ≤ 2 ^ 20;
  so_bpp : pixel_bytes (fb_pixel_format fi) ≤ fb_bytes_per_pixel fi ≤ 8 }.

(** A rectangle of cells of a grid. *)
Record placement_ok (p : PlacementInfo) : Prop := {
  pl_div : 0 < x_div p ≤ 2 ^ 20 ∧ 0 < y_div p ≤ 2 ^ 20;
  pl_x : 0 ≤ x_index p ∧ 0 ≤ x_size p ∧ x_index p + x_size p ≤ x_div p;
  pl_y : 0 ≤ y_index p ∧ 0 ≤ y_size p ∧ y_index p + y_size p ≤ y_div p }.

(** Where the cells before [index] end. *)
Definition edge (index extent div : Z) : Z := (index * extent) `div` div.

Definition window_at (fi : FrameBufferInfo) (x0 y0 w h : Z) : WindowInfo :=
  mkWindow ((y0 * fb_stride fi + x0) * fb_bytes_per_pixel fi) w h (fb_pixel_format fi)
    (fb_bytes_per_pixel fi) (fb_stride fi).

Definition placed (fi : FrameBufferInfo) (p : PlacementInfo) : WindowInfo :=
  window_at fi (edge (x_index p) (fb_width fi) (x_div p)) (edge (y_index p) (fb_height fi) (y_div p))
    (edge (x_index p + x_size p) (fb_width fi) (x_div p) - edge (x_index p) (fb_width fi) (x_div p))
    (edge (y_index p + y_size p) (fb_height fi) (y_div p) - edge (y_index p) (fb_height fi) (y_div p)).

(** The address of the [k]-th byte of a pixel of the screen. *)
Definition screen_byte (fi : FrameBufferInfo) (base x y k : Z) : Z :=
  base + (y * fb_stride fi + x) * fb_bytes_per_pixel fi + k.

(** ** Edges *)

Lemma edge_mono i j e d : 0 ≤ e → 0 < d → i ≤ j → edge i e d ≤ edge j e d.
Proof. intros. apply Z.div_le_mono; nia. Qed.

Lemma edge_zero e d : edge 0 e d = 0.
Proof. done. Qed.

Lemma edge_all e d : 0 < d → edge d e d = e.
Proof. intros. unfold edge. rewrite Z.mul_comm. by apply Z.div_mul; lia. Qed.

Lemma edge_nonneg i e d : 0 ≤ i → 0 ≤ e → 0 < d → 0 ≤ edge i e d.
Proof. intros. apply Z.div_pos; nia. Qed.

Lemma edge_le i e d : 0 ≤ e → 0 < d → i ≤ d → edge i e d ≤ e.
Proof. intros. rewrite <-(edge_all e d) at 2 by done. by apply edge_mono. Qed.

(** Every coordinate is in exactly one cell. *)
Lemma edge_cell X e d : 0 < d → 0 ≤ X < e → ∃ i, 0 ≤ i < d ∧ edge i e d ≤ X < edge (i + 1) e d.
Proof.
  intros Hd HX. exists (((X + 1) * d - 1) `div` e).
  assert (0 < e) as He by lia. set (i := ((X + 1) * d - 1) `div` e).
  pose proof (Z.mul_div_le ((X + 1) * d - 1) e He) as Hlo.
  pose proof (Z.mul_succ_div_gt ((X + 1) * d - 1) e He) as Hhi. fold i in Hlo, Hhi.
  assert ((X + 1) * d ≤ e * d) by (apply Z.mul_le_mono_nonneg_r; lia).
  split; [split; [apply Z.div_pos; nia|apply Z.div_lt_upper_bound; lia]|].
  unfold edge. split.
  - apply Z.lt_succ_r. apply Z.div_lt_upper_bound; lia.
  - apply Z.le_succ_l. apply Z.div_le_lower_bound; lia.
Qed.

Lemma edge_cell_unique X e d i j :
  0 ≤ e → 0 < d → edge i e d ≤ X < edge (i + 1) e d → edge j e d ≤ X < edge (j + 1) e d → i = j.
Proof.
  intros He Hd Hi Hj. destruct (Z.lt_trichotomy i j) as [Hlt|[->|Hlt]]; [|done|].
  - pose proof (edge_mono (i + 1) j e d). lia.
  - pose proof (edge_mono (j + 1) i e d). lia.
Qed.

(** A pixel address determines the pixel. *)
Lemma screen_byte_inj fi base x y k x' y' k' :
  0 ≤ x < fb_stride fi → 0 ≤ x' < fb_stride fi →
  0 ≤ k < fb_bytes_per_pixel fi → 0 ≤ k' < fb_bytes_per_pixel fi →
  screen_byte fi base x y k = screen_byte fi base x' y' k' → x = x' ∧ y = y'.
Proof.
  unfold screen_byte. intros Hx Hx' Hk Hk' Heq.
  destruct (mul_add_inj (y * fb_stride fi + x) (y' * fb_stride fi + x') (fb_bytes_per_pixel fi) k k') as [Hp _];
    [lia..|].
  by apply mul_add_inj in Hp as [-> ->].
Qed.

(** The bytes of a placed window are those of its pixels of the screen. *)
Lemma window_at_bytes fi base x0 y0 w h q :
  window_byte (base + byte_offset (window_at fi x0 y0 w h)) (window_at fi x0 y0 w h) q ↔
  ∃ x y k, x0 ≤ x < x0 + w ∧ y0 ≤ y < y0 + h ∧ 0 ≤ k < fb_bytes_per_pixel fi ∧
    q = screen_byte fi base x y k.
Proof.
  unfold window_byte, screen_byte. cbn. split.
  - intros (x & y & k & ? & ? & ? & ->). exists (x0 + x), (y0 + y), k. split_and!; lia.
  - intros (x & y & k & ? & ? & ? & ->). exists (x - x0), (y - y0), k. split_and!; lia.
Qed.

Section Placement.
Context `{Profile} `{S : Screen}.

Lemma scale_val i e d :
  0 ≤ i ≤ 2 ^ 20 → 0 ≤ e ≤ 2 ^ 20 → 0 < d → scale i e d = Val (edge i e d).
Proof. intros. unfold scale. rewrite mul64_in by nia. cbn. by apply div_u_pos. Qed.

(** [from_placement] reaches [WindowInfo::new] with the edges of the rectangle. *)
Lemma from_placement_new fi base p :
  framebuffer = Some (fi, base) → screen_ok fi →
  0 < x_div p → 0 < y_div p → 0 ≤ x_index p → 0 ≤ x_size p → 0 ≤ y_index p → 0 ≤ y_size p →
  x_index p + x_size p ≤ 2 ^ 20 → y_index p + y_size p ≤ 2 ^ 20 →
  from_placement p =
    WindowInfo_new (edge (x_index p) (fb_width fi) (x_div p)) (edge (y_index p) (fb_height fi) (y_div p))
      (edge (x_index p + x_size p) (fb_width fi) (x_div p) - edge (x_index p) (fb_width fi) (x_div p))
      (edge (y_index p + y_size p) (fb_height fi) (y_div p) - edge (y_index p) (fb_height fi) (y_div p)).
Proof.
  intros Hfb [Hw Hs Hh _] ????????. unfold from_placement. rewrite Hfb. cbn.
  assert (∀ i e d, 0 ≤ i ≤ 2 ^ 20 → 0 ≤ e ≤ 2 ^ 20 → 0 < d → 0 ≤ edge i e d < 2 ^ 64) as Hbd.
  { intros i e d ???. split; [by apply edge_nonneg; lia|]. apply Z.div_lt_upper_bound; nia. }
  pose proof (edge_mono (x_index p) (x_index p + x_size p) (fb_width fi) (x_div p)).
  pose proof (edge_mono (y_index p) (y_index p + y_size p) (fb_height fi) (y_div p)).
  pose proof (Hbd (x_index p) (fb_width fi) (x_div p)). pose proof (Hbd (y_index p) (fb_height fi) (y_div p)).
  pose proof (Hbd (x_index p + x_size p) (fb_width fi) (x_div p)).
  pose proof (Hbd (y_index p + y_size p) (fb_height fi) (y_div p)).
  rewrite scale_val by lia. cbn. rewrite add64_in by lia. cbn. rewrite scale_val by lia. cbn.
  rewrite scale_val by lia. cbn. rewrite add64_in by lia. cbn. rewrite scale_val by lia. cbn.
  rewrite sub64_in by lia. cbn. by rewrite sub64_in by lia.
Qed.

Lemma WindowInfo_new_val fi base x y w h :
  framebuffer = Some (fi, base) → screen_ok fi →
  0 ≤ x ≤ 2 ^ 20 → 0 ≤ y ≤ 2 ^ 21 → 0 ≤ w ≤ 2 ^ 20 → 0 ≤ h ≤ 2 ^ 20 →
  x + w ≤ fb_width fi →
  WindowInfo_new x y w h =
    if y + h <=? fb_width fi then Val (window_at fi x y w h) else Fault Assertion.
Proof.
  intros Hfb [Hw Hs Hh [Hpb Hb]] Hx Hy Hw' Hh' Hfit. unfold WindowInfo_new. rewrite Hfb. cbn.
  rewrite (add64_in x w) by lia. cbn -[Z.leb]. rewrite (proj2 (Z.leb_le _ _) Hfit).
  rewrite (add64_in y h) by lia. cbn -[Z.leb]. destruct (y + h <=? fb_width fi); [|done]. cbn.
  assert (0 ≤ fb_bytes_per_pixel fi) by (revert Hpb; destruct (fb_pixel_format fi); cbn; lia).
  assert (0 ≤ y * fb_stride fi ≤ 2 ^ 41) by nia.
  set (po := y * fb_stride fi) in *.
  rewrite (mul64_in y) by lia. cbn. rewrite (add64_in po) by lia. cbn.
  by rewrite (mul64_in (po + x)) by nia.
Qed.

(** A rectangle of the grid is placed, on a screen wider than high. *)
Lemma from_placement_val fi base p :
  framebuffer = Some (fi, base) → screen_ok fi → fb_height fi ≤ fb_width fi → placement_ok p →
  from_placement p = Val (placed fi p) ∧ window_ok (placed fi p).
Proof.
  intros Hfb Hso Hhw [[Hxd Hyd] Hpx Hpy]. pose proof Hso as [Hw Hs Hh Hb].
  rewrite (from_placement_new fi base) by (try done; lia).
  pose proof (edge_mono (x_index p) (x_index p + x_size p) (fb_width fi) (x_div p)).
  pose proof (edge_mono (y_index p) (y_index p + y_size p) (fb_height fi) (y_div p)).
  pose proof (edge_nonneg (x_index p) (fb_width fi) (x_div p)).
  pose proof (edge_nonneg (y_index p) (fb_height fi) (y_div p)).
  pose proof (edge_le (x_index p + x_size p) (fb_width fi) (x_div p)).
  pose proof (edge_le (y_index p + y_size p) (fb_height fi) (y_div p)).
  rewrite (WindowInfo_new_val fi base) by (try done; lia).
  rewrite (proj2 (Z.leb_le _ _)) by lia. split; [done|].
  split; unfold placed, window_at; cbn; [lia..|exact Hb].
Qed.

Definition cell (xd yd xi yi : Z) : PlacementInfo := mkPlacement xd yd xi yi 1 1.

Lemma cell_ok xd yd xi yi :
  0 < xd ≤ 2 ^ 20 → 0 < yd ≤ 2 ^ 20 → 0 ≤ xi < xd → 0 ≤ yi < yd → placement_ok (cell xd yd xi yi).
Proof. intros. split; cbn; lia. Qed.

(** The bytes of a cell's window. *)
Lemma cell_bytes fi base xd yd xi yi q :
  window_byte (base + byte_offset (placed fi (cell xd yd xi yi))) (placed fi (cell xd yd xi yi)) q ↔
  ∃ x y k, edge xi (fb_width fi) xd ≤ x < edge (xi + 1) (fb_width fi) xd ∧
    edge yi (fb_height fi) yd ≤ y < edge (yi + 1) (fb_height fi) yd ∧
    0 ≤ k < fb_bytes_per_pixel fi ∧ q = screen_byte fi base x y k.
Proof.
  unfold placed. rewrite window_at_bytes. cbn [cell x_index y_index x_div y_div x_size y_size].
  split; intros (x & y & k & ? & ? & ? & ->); exists x, y, k; split_and!; try done; lia.
Qed.

(** A byte of two cells is in one. *)
Lemma cell_bytes_unique fi base xd yd xi yi xi' yi' q :
  screen_ok fi → 0 < xd → 0 < yd → 0 ≤ xi < xd → 0 ≤ xi' < xd →
  window_byte (base + byte_offset (placed fi (cell xd yd xi yi))) (placed fi (cell xd yd xi yi)) q →
  window_byte (base + byte_offset (placed fi (cell xd yd xi' yi'))) (placed fi (cell xd yd xi' yi')) q →
  xi = xi' ∧ yi = yi'.
Proof.
  intros [Hw Hs Hh _] Hxd Hyd Hxi Hxi'. rewrite !cell_bytes.
  intros (x & y & k & Hx & Hy & Hk & ->) (x' & y' & k' & Hx' & Hy' & Hk' & Heq).
  assert (∀ i, 0 ≤ i < xd → 0 ≤ edge i (fb_width fi) xd ∧ edge (i + 1) (fb_width fi) xd ≤ fb_width fi) as Hin.
  { intros i Hi. split; [apply edge_nonneg; lia|apply edge_le; lia]. }
  pose proof (Hin xi Hxi). pose proof (Hin xi' Hxi').
  apply screen_byte_inj in Heq as [<- <-]; [|lia..].
  split; [apply (edge_cell_unique x (fb_width fi) xd)|apply (edge_cell_unique y (fb_height fi) yd)].
  all: done || lia.
Qed.

(** C34 (functional). On a framebuffer at least as wide as it is high, every
    cell of a grid gets a window, without a panic, and the windows tile the
    screen: every byte of every pixel belongs to the window of exactly one
    cell.  So the terminals of the cores share no pixel and leave none out. *)
Theorem windows_tile fi base xd yd :
  framebuffer = Some (fi, base) → screen_ok fi → fb_height fi ≤ fb_width fi →
  0 < xd ≤ 2 ^ 20 → 0 < yd ≤ 2 ^ 20 →
  (∀ xi yi, 0 ≤ xi < xd → 0 ≤ yi < yd →
    ∃ w, from_placement (cell xd yd xi yi) = Val w ∧ window_ok w) ∧
  (∀ X Y k, 0 ≤ X < fb_width fi → 0 ≤ Y < fb_height fi → 0 ≤ k < fb_bytes_per_pixel fi →
    ∃ xi yi w, (0 ≤ xi < xd ∧ 0 ≤ yi < yd ∧ from_placement (cell xd yd xi yi) = Val w ∧
      window_byte (base + byte_offset w) w (screen_byte fi base X Y k)) ∧
      ∀ xi' yi' w', 0 ≤ xi' < xd → 0 ≤ yi' < yd → from_placement (cell xd yd xi' yi') = Val w' →
        window_byte (base + byte_offset w') w' (screen_byte fi base X Y k) → xi' = xi ∧ yi' = yi).
Proof.
  intros Hfb Hso Hhw Hxd Hyd.
  assert (∀ xi yi, 0 ≤ xi < xd → 0 ≤ yi < yd →
    from_placement (cell xd yd xi yi) = Val (placed fi (cell xd yd xi yi)) ∧
    window_ok (placed fi (cell xd yd xi yi))) as Hcell.
  { intros. by apply (from_placement_val fi base); [..|apply cell_ok]. }
  split; [intros xi yi ??; eexists; by apply Hcell|].
  intros X Y k HX HY Hk.
  destruct (edge_cell X (fb_width fi) xd) as (xi & Hxi & HxX); [lia|done|].
  destruct (edge_cell Y (fb_height fi) yd) as (yi & Hyi & HyY); [lia|done|].
  assert (window_byte (base + byte_offset (placed fi (cell xd yd xi yi))) (placed fi (cell xd yd xi yi))
    (screen_byte fi base X Y k)) as Hb.
  { apply cell_bytes. by exists X, Y, k. }
  exists xi, yi, (placed fi (cell xd yd xi yi)). split.
  { split_and!; [lia|lia|lia|lia|by apply Hcell|done]. }
  intros xi' yi' w' Hxi' Hyi' Hw' Hb'. destruct (Hcell xi' yi' Hxi' Hyi') as [Hv _].
  rewrite Hv in Hw'. injection Hw' as <-.
  by eapply (cell_bytes_unique fi base xd yd); [done|lia|lia|..].
Qed.

(** The height of a window is checked against the width of the
    framebuffer: on a screen higher than wide the full-screen window, which
    the main and the panic terminal use, is refused. *)
Theorem full_screen_portrait_panics fi base :
  framebuffer = Some (fi, base) → screen_ok fi → fb_width fi < fb_height fi →
  from_placement FULL_SCREEN_PLACEMENT = Fault Assertion.
Proof.
  intros Hfb Hso Hhw. pose proof Hso as [Hw Hs Hh Hb].
  rewrite (from_placement_new fi base) by (try done; cbn; lia).
  cbn [FULL_SCREEN_PLACEMENT x_index y_index x_div y_div x_size y_size].
  change (0 + 1) with 1. rewrite !edge_zero, !edge_all by lia.
  rewrite (WindowInfo_new_val fi base) by (try done; lia).
  by rewrite (proj2 (Z.leb_gt _ _)) by lia.
Qed.

(** With [count] application cores, [count] a multiple of four,
    the grid has a row too few for core [count]: its window is the row below
    the framebuffer.  Either the height check refuses it, or all its pixels
    lie past the last line of the framebuffer. *)
Theorem last_core_off_screen fi base count :
  framebuffer = Some (fi, base) → screen_ok fi → fb_height fi ≤ fb_width fi →
  0 < count ≤ 2 ^ 20 → (4 | count) →
  match get_window_info_for_core count count with
  | Val w => ∀ q, window_byte (base + byte_offset w) w q →
      base + fb_height fi * fb_stride fi * fb_bytes_per_pixel fi ≤ q
  | Fault f => f = Assertion
  end.
Proof.
  intros Hfb Hso Hhw Hc [m ->]. pose proof Hso as [Hw Hs Hh Hb].
  unfold get_window_info_for_core. rewrite add64_in by lia. cbn [mbind res_bind].
  rewrite sub64_in by lia. cbn [mbind res_bind].
  rewrite Z.mod_mul, Z.div_mul by lia.
  replace ((m * 4 + 4 - 1) `div` 4) with m by (Z.div_mod_to_equations; lia).
  rewrite (from_placement_new fi base) by (try done; cbn; lia).
  cbn [x_index y_index x_div y_div x_size y_size]. rewrite edge_zero, edge_all by lia.
  pose proof (edge_nonneg (0 + 1) (fb_width fi) 4). pose proof (edge_le (0 + 1) (fb_width fi) 4).
  assert (edge (m + 1) (fb_height fi) m - fb_height fi ≤ fb_height fi).
  { unfold edge. rewrite Z.mul_add_distr_r, Z.add_comm, (Z.mul_comm m), Z.div_add by lia.
    assert ((1 * fb_height fi) `div` m ≤ fb_height fi); [apply Z.div_le_upper_bound; nia|lia]. }
  pose proof (edge_mono m (m + 1) (fb_height fi) m) as Hm. rewrite edge_all in Hm by lia.
  rewrite (WindowInfo_new_val fi base) by (try done; lia).
  destruct (_ <=? fb_width fi); [|done]. intros q. rewrite window_at_bytes.
  intros (x & y & k & Hx & Hy & Hk & ->). unfold screen_byte.
  assert (fb_height fi * fb_stride fi ≤ y * fb_stride fi + x) by nia. nia.
Qed.

(** Every core gets a colour: the subtraction never underflows. *)
Lemma core_clear_color_val id ap_count :
  0 ≤ id ≤ ap_count → ap_count < 2 ^ 32 →
  core_clear_color id ap_count =
    Val (mkColor 10 (100 - (100 * id) `div` (ap_count + 1)) ((100 * id) `div` (ap_count + 1))) ∧
  0 ≤ (100 * id) `div` (ap_count + 1) < 100.
Proof.
  intros Hid Hap. assert (0 ≤ (100 * id) `div` (ap_count + 1) < 100) as Hq.
  { split; [apply Z.div_pos; lia|apply Z.div_lt_upper_bound; lia]. }
  split; [|done]. unfold core_clear_color. rewrite mul64_in by lia. cbn. rewrite add64_in by lia. cbn.
  rewrite div_u_pos by lia. cbn. rewrite Z.mod_small by lia. by rewrite arith_in by lia.
Qed.
End Placement.
