(* ===== verification/TermSpec.v ===== *)
(** * What a terminal shows

    The effect of the drawing operations on the pixels of the window, and the
    isolation of the terminals of the cores from each other. *)

From S2P Require Import Prelude Bytes Terminal Windows.

(** The bytes of a colour in the framebuffer. *)
Definition encode (f : PixelFormat) (c : Color) : list Z :=
  match f with
  | Rgb => [r c; g c; b c]
  | Bgr => [b c; g c; r c]
  | OtherFormat => [(r c + g c + b c) `div` 3]
  end.

(** The address of a pixel of the terminal's window. *)
Definition pixel_addr `{Font} (t : TerminalWriter) (x y : Z) : Z :=
  fst (buffer t) + (y * stride (info t) + x) * bytes_per_pixel (info t).

Definition in_window `{Font} (t : TerminalWriter) (x y : Z) : Prop :=
  0 ≤ x < width (info t) ∧ 0 ≤ y < height (info t).

(** The pixel is shown in colour [c]. *)
Definition shows `{Font} (t : TerminalWriter) (v : gmap Z Z) (x y : Z) (c : Color) : Prop :=
  ∀ k byte, encode (pixel_format (info t)) c !! k = Some byte →
    v !! (pixel_addr t x y + Z.of_nat k) = Some byte.

(** The pixel is left as it was. *)
Definition unpainted `{Font} (t : TerminalWriter) (v v' : gmap Z Z) (x y : Z) : Prop :=
  ∀ k, 0 ≤ k < bytes_per_pixel (info t) → v' !! (pixel_addr t x y + k) = v !! (pixel_addr t x y + k).

(** A picture gives some pixels a colour. *)
Definition picture := Z → Z → option Color.

(** [m] runs, leaves the terminal as it is, and paints exactly the picture. *)
Definition paints `{Font} (t : TerminalWriter) (m : M TermState ()) (P : picture) : Prop :=
  ∀ v, ∃ v', m (mkTS t v) = Val ((), mkTS t v') ∧
    outside (fst (buffer t)) (info t) v v' ∧
    ∀ x y, in_window t x y →
      match P x y with Some c => shows t v' x y c | None => unpainted t v v' x y end.

Section Paint.
Context `{Profile} `{Screen} `{Font}.

Lemma encode_length f c k byte : encode f c !! k = Some byte → 0 ≤ Z.of_nat k < pixel_bytes f.
Proof. intros Hk%lookup_lt_Some. destruct f; cbn in *; lia. Qed.

Lemma window_ok_bpp i : window_ok i → 0 < bytes_per_pixel i.
Proof. intros [_ _ _ [? _]]. destruct (pixel_format i); cbn in *; lia. Qed.

(** Bytes of different pixels of a window are different. *)
Lemma pixel_addr_inj t x y k x' y' k' :
  window_ok (info t) → in_window t x y → in_window t x' y' →
  0 ≤ k < bytes_per_pixel (info t) → 0 ≤ k' < bytes_per_pixel (info t) →
  pixel_addr t x y + k = pixel_addr t x' y' + k' → x = x' ∧ y = y' ∧ k = k'.
Proof.
  unfold pixel_addr. intros [Hw _ _ _] [Hx Hy] [Hx' Hy'] Hk Hk' Heq.
  destruct (mul_add_inj (y * stride (info t) + x) (y' * stride (info t) + x') (bytes_per_pixel (info t)) k k')
    as [Hp ->]; [lia..|].
  by apply mul_add_inj in Hp as [-> ->]; [|lia..].
Qed.

Lemma shows_unpainted t v v' x y c :
  window_ok (info t) → shows t v x y c → unpainted t v v' x y → shows t v' x y c.
Proof.
  intros [_ _ _ [Hb _]] Hs Hu k byte Hk. pose proof (encode_length _ _ _ _ Hk).
  rewrite Hu by lia. by apply Hs.
Qed.

Lemma unpainted_trans t v1 v2 v3 x y :
  unpainted t v1 v2 x y → unpainted t v2 v3 x y → unpainted t v1 v3 x y.
Proof. intros H12 H23 k Hk. by rewrite H23, H12. Qed.

Lemma paints_gets {A} t (f : TermState → A) k P :
  (∀ v, paints t (k (f (mkTS t v))) P) → paints t (gets f ≫= k) P.
Proof. intros Hk v. destruct (Hk v v) as (v' & Hr & Ho). by exists v'. Qed.

Lemma paints_liftr {A} t (m : res A) k a P :
  m = Val a → paints t (k a) P → paints t (liftr m ≫= k) P.
Proof. intros -> Hk v. destruct (Hk v) as (v' & Hr & Ho). by exists v'. Qed.

(** Consecutive writes to a terminal's buffer. *)
Definition store (t : TerminalWriter) (o : Z) (bytes : list Z) (v : gmap Z Z) : gmap Z Z :=
  store_bytes (fst (buffer t) + o) bytes v.

Lemma store_lookup t o bytes v q :
  store t o bytes v !! q =
    if bool_decide (fst (buffer t) + o ≤ q < fst (buffer t) + o + Z.of_nat (length bytes))
    then bytes !! Z.to_nat (q - (fst (buffer t) + o)) else v !! q.
Proof. apply store_bytes_lookup. Qed.

(** [write_pixel] inside the window. *)
Lemma write_pixel_run t x y c v :
  window_ok (info t) → buffer_ok t → in_window t x y →
  write_pixel x y c (mkTS t v) =
    Val ((), mkTS t (store t ((y * stride (info t) + x) * bytes_per_pixel (info t))
      (encode (pixel_format (info t)) c) v)).
Proof.
  intros Hok Hbuf [Hx Hy]. pose proof (window_ok_bpp _ Hok) as Hb0.
  destruct Hok as [[Hw0 Hws] Hs [Hh0 Hh] [Hb1 Hb8]]. set (i := info t) in *.
  assert (0 ≤ y * stride i ≤ 2 ^ 40) by nia.
  assert (y * stride i + x + 1 ≤ stride i * height i) as Hin by nia.
  set (po := y * stride i + x) in *. assert (0 ≤ po ≤ 2 ^ 41) by lia.
  set (o := po * bytes_per_pixel i). assert (0 ≤ o ≤ 2 ^ 44) by (unfold o; nia).
  assert (o + bytes_per_pixel i ≤ snd (buffer t)) as Hlen by (unfold o; rewrite Hbuf; fold i; nia).
  assert (∀ k byte v, 0 ≤ k < bytes_per_pixel i → put (o + k) byte (mkTS t v) =
    Val ((), mkTS t (<[fst (buffer t) + o + k := byte]> v))) as Hput.
  { intros k byte v0 Hk. unfold put. cbn. destruct (buffer t) as [start len]. cbn in *.
    rewrite (proj2 (Z.leb_le 0 (o + k))), (proj2 (Z.ltb_lt (o + k) len)) by lia. cbn.
    by rewrite Z.add_assoc. }
  unfold write_pixel. rewrite (M_bind_run (gets _) _ _ i (mkTS t v)) by done.
  m_step.
  m_step.
  rewrite (M_bind_run _ _ _ o (mkTS t v)) by (apply liftr_run, mul64_in; fold o; lia).
  pose proof (λ byte v, Hput 0 byte v ltac:(lia)) as Hput0. setoid_rewrite Z.add_0_r in Hput0.
  unfold store, store_bytes, encode. destruct (pixel_format i); cbn in Hb1 |- *.
  3: by rewrite Hput0.
  all: rewrite (M_bind_run _ _ _ _ _ (Hput0 _ _));
    erewrite M_bind_run by (apply liftr_run, add64_in; lia);
    erewrite M_bind_run by (apply Hput; lia);
    erewrite M_bind_run by (apply liftr_run, add64_in; lia);
    rewrite Hput by lia; by rewrite <-(Z.add_assoc _ 1 1).
Qed.

(** The picture of one pixel. *)
Definition dot (x y : Z) (c : Color) : picture := λ x' y',
  if bool_decide (x' = x ∧ y' = y) then Some c else None.

Lemma paints_write_pixel t x y c :
  window_ok (info t) → buffer_ok t → in_window t x y → paints t (write_pixel x y c) (dot x y c).
Proof.
  intros Hok Hbuf Hin v. eexists. split; [by apply write_pixel_run|].
  set (l := encode (pixel_format (info t)) c).
  assert (Z.of_nat (length l) ≤ bytes_per_pixel (info t)) as Hl.
  { destruct Hok as [_ _ _ [Hb _]]. unfold l. destruct (pixel_format (info t)); cbn in *; lia. }
  split.
  - intros q Hq. rewrite store_lookup. case_bool_decide as Hr; [|done]. exfalso. apply Hq.
    destruct Hin as [Hx Hy].
    exists x, y, (q - pixel_addr t x y). unfold pixel_addr. split_and!; lia.
  - intros x' y' Hin'. unfold dot. case_bool_decide as Hxy.
    + destruct Hxy as [-> ->]. intros k byte Hk. fold l in Hk. pose proof (lookup_lt_Some _ _ _ Hk).
      rewrite store_lookup. unfold pixel_addr. rewrite bool_decide_true by lia.
      rewrite <-Hk. f_equal. lia.
    + intros k Hk. rewrite store_lookup. case_bool_decide as Hr; [|done]. exfalso. apply Hxy.
      destruct (pixel_addr_inj t x' y' k x y (pixel_addr t x' y' + k - pixel_addr t x y)) as (? & ? & _);
        [done|done|done|done| |lia|done]. unfold pixel_addr in *. lia.
Qed.

(** A loop paints a picture whose pixels come from its iterations, which
    agree on it. *)
Lemma paints_for_each {A} t (l : list A) body (P : A → picture) (F : picture) :
  window_ok (info t) →
  (∀ i, i ∈ l → paints t (body i) (P i)) →
  (∀ i x y c, i ∈ l → in_window t x y → P i x y = Some c → F x y = Some c) →
  (∀ x y c, in_window t x y → F x y = Some c → ∃ i, i ∈ l ∧ P i x y = Some c) →
  paints t (for_each l body) F.
Proof.
  intros Hok Hb HPF HFP v.
  destruct (for_each_ind body (λ l1 s, ∃ v', s = mkTS t v' ∧ outside (fst (buffer t)) (info t) v v' ∧
    ∀ x y, in_window t x y →
      (∃ i c, i ∈ l1 ∧ P i x y = Some c ∧ shows t v' x y c) ∨
      ((∀ i, i ∈ l1 → P i x y = None) ∧ unpainted t v v' x y)) l (mkTS t v))
    as (s' & Hrun & v' & -> & Ho & Hpix).
  - exists v. split_and!; [done|done|]. intros x y _. right. split; [|done].
    intros i Hi. by apply not_elem_of_nil in Hi.
  - intros l1 i l2 s1 Hl (v1 & -> & Ho1 & Hpix1).
    assert (i ∈ l) as Hi by (rewrite Hl; apply elem_of_app; right; left).
    destruct (Hb i Hi v1) as (v2 & Hr2 & Ho2 & Hpix2). exists (mkTS t v2). split; [done|].
    exists v2. split_and!; [done|intros q Hq; by rewrite Ho2, Ho1|].
    intros x y Hin. specialize (Hpix1 x y Hin). specialize (Hpix2 x y Hin).
    destruct (P i x y) as [c|] eqn:HP.
    { left. exists i, c. split_and!; [apply elem_of_app; right; left|done|done]. }
    destruct Hpix1 as [(j & c & Hj & HPj & Hs)|[Hnone Hu]].
    + left. exists j, c. split_and!; [apply elem_of_app; by left|done|by eapply shows_unpainted].
    + right. split; [|by eapply unpainted_trans].
      intros j [Hj| ->%list_elem_of_singleton]%elem_of_app; [by apply Hnone|done].
  - exists v'. split_and!; [done|done|]. intros x y Hin.
    destruct (Hpix x y Hin) as [(i & c & Hi & HP & Hs)|[Hnone Hu]].
    + by rewrite (HPF i x y c Hi Hin HP).
    + destruct (F x y) as [c|] eqn:HF; [|done].
      destruct (HFP x y c Hin HF) as (i & Hi & HP). by rewrite Hnone in HP.
Qed.

(** Row by row over a rectangle. *)
Definition fill (x0 x1 y0 y1 : Z) (f : Z → Z → Color) : picture := λ x y,
  if bool_decide (x0 ≤ x < x1 ∧ y0 ≤ y < y1) then Some (f x y) else None.

Lemma fill_Some x0 x1 y0 y1 f x y c :
  fill x0 x1 y0 y1 f x y = Some c ↔ (x0 ≤ x < x1 ∧ y0 ≤ y < y1) ∧ c = f x y.
Proof. unfold fill. case_bool_decide; naive_solver. Qed.

Lemma dot_Some x y c x' y' c' : dot x y c x' y' = Some c' ↔ x' = x ∧ y' = y ∧ c' = c.
Proof. unfold dot. case_bool_decide; naive_solver. Qed.

Lemma paints_rows t y0 y1 (body : Z → Z → M TermState ()) (f : Z → Z → Color) :
  window_ok (info t) → 0 ≤ y0 → y1 ≤ height (info t) →
  (∀ x y, in_window t x y → paints t (body y x) (dot x y (f x y))) →
  paints t (for_each (range y0 y1) (λ y, for_each (range 0 (width (info t))) (body y)))
    (fill 0 (width (info t)) y0 y1 f).
Proof.
  intros Hok Hy0 Hy1 Hb.
  apply paints_for_each with (P := λ y, fill 0 (width (info t)) y (y + 1) f); [done| | |].
  - intros y Hy%elem_of_range. apply paints_for_each with (P := λ x, dot x y (f x y)); [done| | |].
    + intros x Hx%elem_of_range. apply Hb. split; lia.
    + intros x0 x y2 c Hx%elem_of_range _ (-> & -> & ->)%dot_Some. apply fill_Some. split; [lia|done].
    + intros x y2 c _ [[Hx Hy2] ->]%fill_Some. exists x. split; [by apply elem_of_range|].
      apply dot_Some. assert (y2 = y) as -> by lia. done.
  - intros y x y2 c Hy%elem_of_range _ [[Hx Hy2] ->]%fill_Some. apply fill_Some. split; [lia|done].
  - intros x y c _ [[Hx Hy] ->]%fill_Some. exists y. split; [by apply elem_of_range|].
    apply fill_Some. split; [lia|done].
Qed.
End Paint.

Section Terminals.
Context `{Profile} `{Screen} `{FontLaws}.

(** ** Clearing and new lines *)

(** The terminal after [clear]. *)
Definition cleared (font : option FontSize) (t : TerminalWriter) : TerminalWriter :=
  let f := default (font_height t) font in
  mkTerm (buffer_base_ptr t) (buffer t) (info t) 0 0 f
    (match font with Some f => val f | None => line_height t end) (font_weight t)
    (foreground t) (background t) (clear_color t).

Lemma clear_run font t v :
  window_ok (info t) → buffer_ok t →
  ∃ v', clear font (mkTS t v) = Val ((), mkTS (cleared font t) v') ∧
    outside (fst (buffer t)) (info t) v v' ∧
    ∀ x y, in_window t x y →
      match fill 0 (width (info t)) 0 (height (info t)) (λ _ _, clear_color t) x y with
      | Some c => shows t v' x y c
      | None => unpainted t v v' x y
      end.
Proof.
  intros Hok Hbuf. set (t0 := term (set_pos 0 0 (mkTS t v))).
  destruct (paints_rows t0 0 (height (info t))
    (λ y x, gets (λ s, clear_color (term s)) ≫= λ c, write_pixel x y c) (λ _ _, clear_color t))
    with (v := v) as (v' & Hr & Ho & Hpix); [done|done|done| |].
  { intros x y Hin. apply paints_gets. intros v0. by apply paints_write_pixel. }
  exists v'. split_and!; [|exact Ho|exact Hpix].
  unfold clear. erewrite (M_bind_run (modify _)) by done.
  rewrite (M_bind_run (gets _) _ _ (info t)) with (s1 := mkTS t0 v) by done.
  rewrite (M_bind_run _ _ _ _ _ Hr). destruct font as [f|]; [|done].
  pose proof (font_val f). rewrite (M_bind_run _ _ _ (val f) (mkTS t0 v')); [done|].
  apply liftr_run. unfold LINE_SPACING. rewrite add64_in by lia. f_equal. lia.
Qed.

(** [clear] fills every pixel of the window with the clear
    colour and no byte outside it, homes the cursor and installs the font
    asked for, whatever the terminal showed before. *)
Theorem clear_spec font t v :
  window_ok (info t) → buffer_ok t →
  ∃ v', clear font (mkTS t v) = Val ((), mkTS (cleared font t) v') ∧
    (∀ x y, in_window t x y → shows t v' x y (clear_color t)) ∧
    outside (fst (buffer t)) (info t) v v'.
Proof.
  intros Hok Hbuf. destruct (clear_run font t v Hok Hbuf) as (v' & Hr & Ho & Hpix).
  exists v'. split_and!; [done| |done]. intros x y Hin. specialize (Hpix x y Hin).
  destruct (fill _ _ _ _ _ x y) as [c|] eqn:Hf.
  - by apply fill_Some in Hf as [_ ->].
  - destruct Hin. unfold fill in Hf. by rewrite bool_decide_true in Hf by lia.
Qed.

Lemma paints_newline_rows t :
  term_ok t → pos_ok t →
  paints t (for_each (repainted_rows t) (λ y,
      for_each (range 0 (width (info t))) (λ x,
        gets (λ s, clear_color (term s)) ≫= λ c,
        liftr (add64 x y) ≫= λ xy,
        write_pixel x y (if Z.land xy 1 =? 0 then c else half c))))
    (fill 0 (width (info t)) (y_pos t) (Z.min (y_pos t + line_height t * 2) (height (info t)))
      (checker (clear_color t))).
Proof.
  intros Ht Hp. pose proof (term_bounds t Ht Hp).
  apply (paints_rows t _ _ (λ y x, gets (λ s, clear_color (term s)) ≫= λ c,
    liftr (add64 x y) ≫= λ xy, write_pixel x y (if Z.land xy 1 =? 0 then c else half c)));
    [apply Ht|lia|lia|].
  intros x y [Hx Hy]. apply paints_gets. intros v.
  apply (paints_liftr _ _ _ (x + y)); [apply add64_in; lia|].
  apply paints_write_pixel; [apply Ht|apply Ht|by split].
Qed.

(** A new line moves the cursor to the start of the next line,
    or back to the top with the channels of the clear colour rotated when the
    next line does not fit, and paints the two lines from there, as far as the
    window reaches, in a checkerboard of the clear colour and its half; every
    other byte keeps its value. *)
Theorem newline_spec t v :
  term_ok t → pos_ok t →
  ∃ v', newline (mkTS t v) = Val ((), mkTS (newline_term t) v') ∧
    pos_ok (newline_term t) ∧
    outside (fst (buffer t)) (info t) v v' ∧
    ∀ x y, in_window t x y →
      if bool_decide (y_pos (newline_term t) ≤ y < y_pos (newline_term t) + line_height t * 2)
      then shows t v' x y (checker (clear_color (newline_term t)) x y)
      else unpainted t v v' x y.
Proof.
  intros Ht Hp. destruct (newline_term_ok t Ht Hp) as [Hsame Hp'].
  destruct (paints_newline_rows _ (same_term_ok _ _ Hsame Ht) Hp' v) as (v' & Hr & Ho & Hpix).
  exists v'. split_and!; [by rewrite newline_eq|done|exact Ho|]. intros x y Hin.
  specialize (Hpix x y Hin). destruct (fill _ _ _ _ _ x y) as [c|] eqn:Hf.
  - apply fill_Some in Hf as [[_ Hy] ->]. rewrite bool_decide_true by (cbn in *; lia). exact Hpix.
  - destruct Hin as [Hx Hy]. unfold fill in Hf. case_bool_decide as Hrow; [done|].
    rewrite bool_decide_false; [exact Hpix|]. cbn in *; lia.
Qed.

(** ** Glyphs *)

(** The colour of a raster intensity. *)
Definition shade (t : TerminalWriter) (byte : Z) : Color :=
  match alpha byte ≫= lerp (background t) (foreground t) with Val c => c | Fault _ => black end.

Definition row_picture (t : TerminalWriter) (y : Z) (row : list Z) : picture := λ x' y',
  if bool_decide (y' = y_pos t + y ∧ x_pos t ≤ x')
  then shade t <$> row !! Z.to_nat (x' - x_pos t) else None.

Definition glyph_picture (t : TerminalWriter) (raster : list (list Z)) : picture := λ x' y',
  if bool_decide (y_pos t ≤ y')
  then row ← raster !! Z.to_nat (y' - y_pos t); row_picture t (y' - y_pos t) row x' y'
  else None.

Lemma shade_val t byte :
  term_ok t → 0 ≤ byte < 256 → ∃ a, alpha byte = Val a ∧ lerp (background t) (foreground t) a = Val (shade t byte).
Proof.
  intros Ht Hbyte. destruct (alpha_val byte Hbyte) as (a & Ha & Har). exists a. split; [done|].
  unfold shade. rewrite Ha. cbn. destruct (to_colors t Ht) as [Hf Hb].
  by destruct (lerp_val _ _ a Hb Hf Har) as (c & -> & _).
Qed.

Lemma row_picture_Some t y row x' y' c :
  row_picture t y row x' y' = Some c ↔ y' = y_pos t + y ∧ x_pos t ≤ x' ∧
    ∃ byte, row !! Z.to_nat (x' - x_pos t) = Some byte ∧ c = shade t byte.
Proof.
  unfold row_picture. case_bool_decide as Hc.
  - rewrite fmap_Some. naive_solver.
  - split; [done|]. intros (? & ? & _). naive_solver.
Qed.

Lemma glyph_picture_Some t raster x' y' c :
  glyph_picture t raster x' y' = Some c ↔ y_pos t ≤ y' ∧ ∃ row,
    raster !! Z.to_nat (y' - y_pos t) = Some row ∧ row_picture t (y' - y_pos t) row x' y' = Some c.
Proof.
  unfold glyph_picture. case_bool_decide as Hc; [|naive_solver].
  rewrite bind_Some. naive_solver.
Qed.

Lemma paints_glyph t c raster :
  term_ok t → pos_ok t → get_raster c (font_weight t) (font_height t) = Some raster →
  x_pos t + get_raster_width (font_weight t) (font_height t) ≤ width (info t) →
  paints t (print_rasterized_char raster) (glyph_picture t raster).
Proof.
  intros Ht Hp Hr Hx. pose proof (term_bounds t Ht Hp). pose proof (to_line t Ht) as Hl.
  destruct (font_raster _ _ _ _ Hr) as [Hrows Hcols]. destruct Hp as [_ Hpy].
  pose proof (to_window t Ht) as Hok. pose proof (to_buffer t Ht) as Hbuf.
  unfold print_rasterized_char.
  apply paints_for_each with (P := λ '(y, row), row_picture t y row); [done| | |].
  - intros [y row] [Hy Hrow]%imap_elem_lookup. pose proof (lookup_lt_Some _ _ _ Hrow).
    destruct (Hcols row) as [Hlen Hbytes]; [by eapply list_elem_of_lookup_2|].
    apply paints_for_each with
      (P := λ '(x, byte), dot (x_pos t + x) (y_pos t + y) (shade t byte)); [done| | |].
    + intros [x byte] [Hx0 Hbyte]%imap_elem_lookup. pose proof (lookup_lt_Some _ _ _ Hbyte).
      destruct (shade_val t byte Ht) as (a & Ha & Hs); [by apply Hbytes, (list_elem_of_lookup_2 _ _ _ Hbyte)|].
      apply paints_gets. intros v. cbn [term].
      apply (paints_liftr _ _ _ a); [done|]. apply (paints_liftr _ _ _ (shade t byte)); [done|].
      apply (paints_liftr _ _ _ (x_pos t + x)); [apply add64_in; lia|].
      apply (paints_liftr _ _ _ (y_pos t + y)); [apply add64_in; lia|].
      apply paints_write_pixel; [done|done|split; lia].
    + intros [x byte] x' y' c0 [Hx0 Hbyte]%imap_elem_lookup _ (-> & -> & ->)%dot_Some.
      apply row_picture_Some. split_and!; [done|lia|]. exists byte. split; [|done].
      by rewrite Z.add_simpl_l.
    + intros x' y' c0 _ (-> & Hx' & byte & Hbyte & ->)%row_picture_Some.
      exists (x' - x_pos t, byte). split; [apply imap_elem_lookup; split; [lia|done]|].
      apply dot_Some. split_and!; [lia|done|done].
  - intros [y row] x' y' c0 [Hy Hrow]%imap_elem_lookup _ Hpic.
    pose proof Hpic as (-> & _)%row_picture_Some. apply glyph_picture_Some.
    rewrite Z.add_simpl_l. split; [lia|]. by exists row.
  - intros x' y' c0 _ (Hy & row & Hrow & Hpic)%glyph_picture_Some.
    exists (y' - y_pos t, row). split; [apply imap_elem_lookup; split; [lia|done]|done].
Qed.

(** C33 (functional). Writing a character first starts a new line if its glyph
    would reach the right edge, then shows the whole glyph (the replacement
    character's, if the font has none) at the cursor, every raster byte as its
    blend of background and foreground, and advances the cursor by its width.
    It never panics, never writes outside the window, and when no line was
    started it repaints nothing but the glyph's box. *)
Theorem write_raw_char_spec c t v :
  term_ok t → pos_ok t →
  ∃ raster v',
    get_rasterized_char c t = Val (raster, get_raster_width (font_weight t) (font_height t)) ∧
    write_raw_char c (mkTS t v) = Val ((), mkTS (advance (glyph_term t)) v') ∧
    outside (fst (buffer t)) (info t) v v' ∧
    (∀ i j row byte, raster !! i = Some row → row !! j = Some byte →
      shows t v' (x_pos (glyph_term t) + Z.of_nat j) (y_pos (glyph_term t) + Z.of_nat i) (shade t byte)) ∧
    (x_pos t + get_raster_width (font_weight t) (font_height t) < width (info t) →
      ∀ x y, in_window t x y →
        ¬ (x_pos t ≤ x < x_pos t + get_raster_width (font_weight t) (font_height t) ∧
           y_pos t ≤ y < y_pos t + line_height t) → unpainted t v v' x y).
Proof.
  intros Ht Hp. destruct (get_rasterized_char_val c t) as (c' & raster & Hg & Hr).
  destruct (glyph_term_ok t Ht Hp) as (Hsame & Hp' & Hx').
  destruct (wrap_run t v Ht Hp) as (v1 & Hnl & Ho1).
  pose proof (same_term_ok _ _ Hsame Ht) as Ht'.
  pose proof Hsame as (Hsb & Hsi & Hsf & _ & Hsw & Hsfg & Hsbg).
  destruct (paints_glyph (glyph_term t) c' raster Ht' Hp') with (v := v1) as (v2 & Hgl & Ho2 & Hpix).
  { by rewrite Hsw, Hsf. }
  { by rewrite Hsw, Hsf, Hsi. }
  rewrite Hsb, Hsi in Ho2. exists raster, v2.
  destruct (font_raster _ _ _ _ Hr) as [Hrows Hcols].
  split_and!; [done|by eapply write_raw_char_eq|intros q Hq; by rewrite Ho2, Ho1| |].
  - intros i j row byte Hrow Hbyte. pose proof (lookup_lt_Some _ _ _ Hrow). pose proof (lookup_lt_Some _ _ _ Hbyte).
    destruct (Hcols row) as [Hlen _]; [by eapply list_elem_of_lookup_2|].
    pose proof (to_line t Ht) as Hl. destruct Hp' as [Hpx Hpy].
    specialize (Hpix (x_pos (glyph_term t) + Z.of_nat j) (y_pos (glyph_term t) + Z.of_nat i)).
    rewrite (proj2 (glyph_picture_Some _ _ _ _ (shade (glyph_term t) byte))) in Hpix.
    + assert (shade t byte = shade (glyph_term t) byte) as ->.
      { unfold shade. by rewrite Hsfg, Hsbg. }
      unfold shows, pixel_addr in *. rewrite Hsb, Hsi in Hpix. apply Hpix.
      pose proof Hsame as (_ & _ & _ & Hsl & _). rewrite Hsl in Hpy. unfold in_window. rewrite Hsi in *. lia.
    + rewrite Z.add_simpl_l, Nat2Z.id. split; [lia|]. exists row. split; [done|].
      apply row_picture_Some. split_and!; [done|lia|]. exists byte. by rewrite Z.add_simpl_l, Nat2Z.id.
  - intros Hfit x y Hin Hbox. assert (glyph_term t = t) as Heq.
    { unfold glyph_term. destruct (Z.geb_spec (x_pos t + get_raster_width (font_weight t) (font_height t)) (width (info t))); [lia|done]. }
    rewrite Heq in *. assert (v1 = v) as ->.
    { revert Hnl. destruct (Z.geb_spec (x_pos t + get_raster_width (font_weight t) (font_height t)) (width (info t))); [lia|].
      by intros [= ->]. }
    specialize (Hpix x y Hin). destruct (glyph_picture t raster x y) as [col|] eqn:Hgp; [|done].
    exfalso. apply Hbox. apply glyph_picture_Some in Hgp as (Hy & row & Hrow & Hpic).
    apply row_picture_Some in Hpic as (_ & Hxr & byte & Hbyte & _).
    pose proof (lookup_lt_Some _ _ _ Hrow). pose proof (lookup_lt_Some _ _ _ Hbyte).
    destruct (Hcols row) as [Hlen _]; [by eapply list_elem_of_lookup_2|].
    pose proof (to_line t Ht). lia.
Qed.
End Terminals.

(** ** The terminals of the cores *)

(** What a core does with its terminal: [write_str], [print_pixels], [clear]. *)
Inductive TermCmd `{Font} :=
  | Text (s : list Z)
  | Pixels (w : Z) (colors : list Color)
  | Wipe (font : option FontSize).

Section Cores.
Context `{Profile} `{Screen} `{FontLaws}.

Definition run_cmd (c : TermCmd) : M TermState () :=
  match c with
  | Text s => write_str s
  | Pixels w colors => print_pixels w colors
  | Wipe font => clear font
  end.

(** A new font must fit the window, pixels must come in rows. *)
Definition cmd_ok (i : WindowInfo) (c : TermCmd) : Prop :=
  match c with
  | Text _ => True
  | Pixels w _ => 0 < w ≤ 2 ^ 32
  | Wipe font => ∀ f, font = Some f → val f ≤ height i ∧ ∀ weight, get_raster_width weight f ≤ width i
  end.

(** A terminal ready to be used, on the same window as [t]. *)
Definition usable (t t' : TerminalWriter) : Prop :=
  term_ok t' ∧ pos_ok t' ∧ buffer t' = buffer t ∧ info t' = info t.

Definition keeps (m : M TermState ()) : Prop := ∀ s,
  term_ok (term s) → pos_ok (term s) →
  ∃ s', m s = Val ((), s') ∧ usable (term s) (term s') ∧
    outside (fst (buffer (term s))) (info (term s)) (vram s) (vram s').

Lemma confined_keeps m : confined m → keeps m.
Proof.
  intros Hm s Ht Hp. destruct (Hm s Ht Hp) as (s' & Hr & Hs & Hp' & Ho).
  exists s'. split_and!; [done| |done]. pose proof (same_term_ok _ _ Hs Ht).
  destruct Hs as (? & ? & _). by split_and!.
Qed.

Lemma confined_write_str s : confined (write_str s).
Proof. apply confined_for_each. intros c _. apply confined_write_char. Qed.

Lemma confined_print_pixels w colors : 0 < w ≤ 2 ^ 32 → confined (print_pixels w colors).
Proof.
  intros Hw s Ht Hp. pose proof (term_bounds _ Ht Hp). unfold print_pixels.
  rewrite (M_bind_run (gets _) _ _ (x_pos (term s)) s) by done.
  rewrite (proj2 (Z.eqb_neq w 0)) by lia. apply confined_print_pixels_from; [done|lia|lia|done|done|lia].
Qed.

Lemma clear_keeps font s :
  term_ok (term s) → cmd_ok (info (term s)) (Wipe font) →
  ∃ s', clear font s = Val ((), s') ∧ usable (term s) (term s') ∧
    outside (fst (buffer (term s))) (info (term s)) (vram s) (vram s').
Proof.
  intros Ht Hf. destruct s as [t v]. cbn in *.
  destruct (clear_run font t v) as (v' & Hr & Ho & _); [apply Ht|apply Ht|].
  exists (mkTS (cleared font t) v'). split_and!; [done| |done].
  pose proof (to_window t Ht) as [[? ?] _ [? ?] _]. pose proof (to_line t Ht). pose proof (to_fits t Ht).
  destruct Ht as [? ? ? ? ? ?]. split_and!; [| |done|done].
  - destruct font as [f|]; [destruct (Hf f eq_refl)|]; by split.
  - destruct font as [f|]; [destruct (Hf f eq_refl)|]; split; cbn; lia.
Qed.

Lemma run_cmds_keep cmds : ∀ s,
  term_ok (term s) → pos_ok (term s) → Forall (cmd_ok (info (term s))) cmds →
  ∃ s', for_each cmds run_cmd s = Val ((), s') ∧ usable (term s) (term s') ∧
    outside (fst (buffer (term s))) (info (term s)) (vram s) (vram s').
Proof.
  induction cmds as [|c cmds IH]; intros s Ht Hp Hc; [by exists s|].
  apply Forall_cons in Hc as [Hc Hcs].
  assert (∃ s1, run_cmd c s = Val ((), s1) ∧ usable (term s) (term s1) ∧
    outside (fst (buffer (term s))) (info (term s)) (vram s) (vram s1)) as (s1 & Hr1 & Hu & Ho1).
  { destruct c; cbn in *.
    - by apply confined_keeps; [apply confined_write_str|..].
    - by apply confined_keeps; [apply confined_print_pixels|..].
    - by apply clear_keeps. }
  destruct Hu as (Ht1 & Hp1 & Hb1 & Hi1).
  destruct (IH s1) as (s2 & Hr2 & (Ht2 & Hp2 & Hb2 & Hi2) & Ho2); [done|done|by rewrite Hi1|].
  exists s2. cbn. rewrite (M_bind_run _ _ _ _ _ Hr1). split_and!; [done| |].
  - split_and!; congruence || done.
  - rewrite Hb1, Hi1 in Ho2. intros q Hq. by rewrite Ho2, Ho1.
Qed.

(** The window of core [id], of those the grid has a cell for. *)
Lemma core_window fi base id count :
  framebuffer = Some (fi, base) → screen_ok fi → fb_height fi ≤ fb_width fi →
  0 < count ≤ 2 ^ 20 → 0 ≤ id < 4 * ((count + 3) `div` 4) →
  get_window_info_for_core id count =
    Val (placed fi (cell 4 ((count + 3) `div` 4) (id `mod` 4) (id `div` 4))) ∧
  window_ok (placed fi (cell 4 ((count + 3) `div` 4) (id `mod` 4) (id `div` 4))).
Proof.
  intros Hfb Hso Hhw Hc Hid. unfold get_window_info_for_core.
  rewrite add64_in by lia. cbn [mbind res_bind]. rewrite sub64_in by lia. cbn [mbind res_bind].
  replace (count + 4 - 1) with (count + 3) by lia.
  apply (from_placement_val fi base); [done..|]. apply cell_ok; Z.div_mod_to_equations; lia.
Qed.

(** A fresh terminal whose window has room for the default font is usable. *)
Lemma new_terminal fi base w t v back s :
  framebuffer = Some (fi, base) → window_ok w →
  24 ≤ height w → get_raster_width Regular Size24 ≤ width w →
  TerminalWriter_new w = Val t → set_to_double_buffer (Some back) (mkTS t v) = Val ((), s) →
  term_ok (term s) ∧ pos_ok (term s) ∧ info (term s) = w ∧
    fst (buffer (term s)) = back + byte_offset w ∧ vram s = v.
Proof.
  intros Hfb Hw Hh Hc Hnew Hset. pose proof Hw as [Hwd Hst Hhh [Hb0 Hb8]].
  pose proof (window_ok_bpp _ Hw).
  assert (0 ≤ stride w * height w ≤ 2 ^ 40) by nia.
  assert (∀ base, construct_buffer base w =
    Val (base + byte_offset w, stride w * height w * bytes_per_pixel w)) as Hcb.
  { intros b0. unfold construct_buffer. rewrite (mul64_in (stride w)) by lia. cbn.
    by rewrite (mul64_in (stride w * height w)) by nia. }
  unfold TerminalWriter_new in Hnew. rewrite Hfb in Hnew. cbn in Hnew. rewrite Hcb in Hnew.
  injection Hnew as <-. unfold set_to_double_buffer in Hset.
  rewrite (M_bind_run (gets _) _ _ w) with (s1 := (mkTS (mkTerm base (base + byte_offset w, stride w * height w * bytes_per_pixel w) w 0 0 Size24
    (24 + LETTER_SPACING) Regular white black (mkColor 70 60 60)) v)) in Hset by done.
  rewrite (M_bind_run _ _ _ _ _ (liftr_run _ _ _ (Hcb back))) in Hset. injection Hset as <-.
  pose proof font_24. unfold LETTER_SPACING. split_and!; [| |done|done|done].
  - split; cbn; [done|done|lia|lia|done|]. unfold byte_color. cbn. lia.
  - split; cbn; lia.
Qed.

(** C6 (safety). The cores share the framebuffer without a lock: whatever text
    and pixels a core prints and however often it clears its terminal, created
    and moved to the back buffer as [common_main] does, it never panics and
    never changes a byte of the window of another core. *)
Theorem core_terminals_isolated fi base count id other t v back s cmds wi wo :
  framebuffer = Some (fi, base) → screen_ok fi → fb_height fi ≤ fb_width fi →
  0 < count ≤ 2 ^ 20 →
  0 ≤ id < 4 * ((count + 3) `div` 4) → 0 ≤ other < 4 * ((count + 3) `div` 4) → id ≠ other →
  get_window_info_for_core id count = Val wi → get_window_info_for_core other count = Val wo →
  24 ≤ height wi → get_raster_width Regular Size24 ≤ width wi →
  TerminalWriter_new wi = Val t → set_to_double_buffer (Some back) (mkTS t v) = Val ((), s) →
  Forall (cmd_ok wi) cmds →
  ∃ s', for_each cmds run_cmd s = Val ((), s') ∧ term_ok (term s') ∧ pos_ok (term s') ∧
    ∀ q, window_byte (back + byte_offset wo) wo q → vram s' !! q = v !! q.
Proof.
  intros Hfb Hso Hhw Hc Hid Hot Hne Hwi Hwo Hh Hcw Hnew Hset Hcmds.
  destruct (core_window fi base id count) as [Hi Hiok]; [done..|].
  destruct (core_window fi base other count) as [Ho Hook]; [done..|].
  rewrite Hi in Hwi. rewrite Ho in Hwo. injection Hwi as <-. injection Hwo as <-.
  destruct (new_terminal fi base _ t v back s Hfb Hiok Hh Hcw Hnew Hset) as (Ht & Hp & Hinfo & Hbuf & Hv).
  destruct (run_cmds_keep cmds s Ht Hp) as (s' & Hr & (Ht' & Hp' & _) & Hout); [by rewrite Hinfo|].
  exists s'. split_and!; [done..|]. intros q Hq. rewrite <-Hv. apply Hout. rewrite Hbuf, Hinfo. intros Hq'.
  apply Hne. destruct (cell_bytes_unique fi back 4 ((count + 3) `div` 4) (id `mod` 4) (id `div` 4)
    (other `mod` 4) (other `div` 4) q) as [Hm Hd]; [done|lia| | | |done|done|]; [Z.div_mod_to_equations; lia..|].
  rewrite (Z.div_mod id 4), (Z.div_mod other 4) by lia. congruence.
Qed.
End Cores.
