(* ===== verification/CoreWindow.v ===== *)
(** * The window of a core (src/kernel/src/common_main.rs)

    The part of [main] that every application processor executes in a window of
    its own: it makes the terminal, prints its lines, and from then on echoes
    what arrives at the serial port.  What the cores wait for in between is in
    Cores.v; the picture that core 2 prints goes to the main terminal (Logo.v). *)

From Stdlib Require Import String Ascii.
From S2P Require Import Prelude Format Ports Serial Utf8 Terminal Windows TermSpec.

(** ** Texts *)

(** [{:?}] of a [str], for the characters of one byte. *)
Definition hex_digit (d : Z) : Z := if d <? 10 then 48 + d else 87 + d.
Definition escape (c : Z) : list Z :=
  if c =? 0 then chars "\0" else if c =? 9 then chars "\t" else if c =? 10 then chars "\n"
  else if c =? 13 then chars "\r" else if c =? 34 then [92; 34] else if c =? 92 then [92; 92]
  else if (32 <=? c) && (c <? 127) then [c]
  else chars "\u{" ++ (if c <? 16 then [] else [hex_digit (c `div` 16)]) ++ [hex_digit (c `mod` 16)] ++ chars "}".

(** [{:?}] of [from_utf8(&[c])]: a first byte of a longer sequence is only
    incomplete. *)
Definition debug_from_utf8 (c : Z) : list Z :=
  match from_utf8 [c] with
  | Some s => chars "Ok(" ++ [34] ++ (s ≫= escape) ++ [34] ++ chars ")"
  | None => chars "Err(Utf8Error { valid_up_to: 0, error_len: " ++
      (if between 0xc2 0xf4 c then chars "None" else chars "Some(1)") ++ chars " })"
  end.

Definition echo_text (c : Z) : list Z := show c ++ chars ": " ++ debug_from_utf8 c ++ [10].
Definition frame_line (i refreshes count : Z) : list Z :=
  show i ++ chars " frame " ++ show refreshes ++ chars " " ++ show count ++ [10].
Definition hello_line (i id : Z) : list Z := chars "[" ++ show i ++ chars "] Hello from core " ++ show id ++ [10].

(** ** The code *)

Section Code.
Context `{Profile} `{Screen} `{Font} {W : Type} `{PortIo W}.

(** The terminal, on the back buffer at [back], in a memory that holds [v]. *)
Definition local_writer (id ap_count back : Z) (v : gmap Z Z) : res TermState :=
  get_window_info_for_core id ap_count ≫= λ w,
  TerminalWriter_new w ≫= λ t,
  core_clear_color id ap_count ≫= λ clear_color,
  (set_to_double_buffer (Some back) ≫= λ _, clear (Some Size16)) (set_clear clear_color (mkTS t v)) ≫= λ '(_, s),
  Val s.

(** What the core prints first; [refreshes i] is what [REFRESH_COUNTER] holds
    when line [i] is printed. *)
Definition print_lines (id ap_count : Z) (refreshes : Z → Z) : M TermState () :=
  clear None ≫= λ _,
  if id =? 1 then for_each (range 0 100000000) (λ i, Terminal.write_str (frame_line i (refreshes i) ap_count))
  else if id =? 2 then Terminal.write_str (chars "Core 2 uses stdout" ++ [10])
  else for_each (range 0 200) (λ i, Terminal.write_str (hello_line i id)).

(** One round of the last loop. *)
Definition echo (fuel : nat) : M (TermState * W) () :=
  zoom snd (λ w s, (fst s, w)) (Serial.read fuel COM1) ≫= λ c,
  match c with
  | Ok c => zoom fst (λ t s, (t, snd s)) (Terminal.write_str (echo_text c))
  | Err _ => mret ()
  end.

Definition echoes (fuel n : nat) : M (TermState * W) () := for_each (replicate n ()) (λ _, echo fuel).
End Code.

(** ** What a core is to print

    Spelled out apart from the code: a number is a [decimal], and a text is the
    concatenation of its lines. *)

(** The lines of core [id]. *)
Definition core_line (id ap_count : Z) (refreshes : Z → Z) (k : Z) (l : list Z) : Prop :=
  if id =? 1 then
    ∃ a b c, decimal k a ∧ decimal (refreshes k) b ∧ decimal ap_count c ∧
      l = a ++ chars " frame " ++ b ++ chars " " ++ c ++ [10]
  else ∃ a b, decimal k a ∧ decimal id b ∧ l = chars "[" ++ a ++ chars "] Hello from core " ++ b ++ [10].

Definition core_lines (id ap_count : Z) (refreshes : Z → Z) (text : list Z) : Prop :=
  if id =? 2 then text = chars "Core 2 uses stdout" ++ [10]
  else ∃ ls, text = concat ls ∧
    Forall2 (core_line id ap_count refreshes) (seqZ 0 (if id =? 1 then 100000000 else 200)) ls.

(** A lower-case hexadecimal number below 256. *)
Definition hexadecimal (c : Z) (h : list Z) : Prop :=
  let digit d := chars "0123456789abcdef" !! Z.to_nat d in
  if c <? 16 then ∃ x, digit c = Some x ∧ h = [x]
  else ∃ x y, digit (c `div` 16) = Some x ∧ digit (c `mod` 16) = Some y ∧ h = [x; y].

(** The byte [c] read as a string of its own: a character, with the escapes of a
    literal, or an encoding that is incomplete or invalid. *)
Inductive debug_body (c : Z) : list Z → Prop :=
  | db_plain : 32 ≤ c < 127 → c ≠ 34 → c ≠ 92 → debug_body c (chars "Ok(" ++ [34; c; 34] ++ chars ")")
  | db_quoted : c = 34 ∨ c = 92 → debug_body c (chars "Ok(" ++ [34; 92; c; 34] ++ chars ")")
  | db_named x : (c, x) ∈ [(0, 48); (9, 116); (10, 110); (13, 114)] →
      debug_body c (chars "Ok(" ++ [34; 92; x; 34] ++ chars ")")
  | db_unicode h : c = 127 ∨ 0 ≤ c < 32 ∧ c ∉ [0; 9; 10; 13] → hexadecimal c h →
      debug_body c (chars "Ok(" ++ [34] ++ chars "\u{" ++ h ++ chars "}" ++ [34] ++ chars ")")
  | db_incomplete : 0xc2 ≤ c ≤ 0xf4 → debug_body c (chars "Err(Utf8Error { valid_up_to: 0, error_len: None })")
  | db_invalid : 128 ≤ c < 0xc2 ∨ 0xf4 < c ≤ 255 →
      debug_body c (chars "Err(Utf8Error { valid_up_to: 0, error_len: Some(1) })").

Definition echo_line (c : Z) (l : list Z) : Prop :=
  ∃ d b, decimal c d ∧ debug_body c b ∧ l = d ++ chars ": " ++ b ++ [10].

Lemma hex_digit_char d : 0 ≤ d < 16 → chars "0123456789abcdef" !! Z.to_nat d = Some (hex_digit d).
Proof.
  intros Hd. assert (d ∈ seqZ 0 16) as Hin by (apply elem_of_seqZ; lia). clear Hd. revert d Hin.
  apply Forall_forall. apply (bool_decide_unpack _). by vm_compute.
Qed.

Lemma escape_unicode c :
  c = 127 ∨ 0 ≤ c < 32 ∧ c ∉ [0; 9; 10; 13] →
  ∃ h, hexadecimal c h ∧ escape c = chars "\u{" ++ h ++ chars "}".
Proof.
  intros Hc. unfold escape.
  assert (c ∉ [0; 9; 10; 13; 34; 92] ∧ 0 ≤ c ≤ 127 ∧ ¬ (32 ≤ c < 127)) as (Hn & Hb & Hp).
  { destruct Hc as [->|[? Hn]]; [split; [by apply (bool_decide_unpack _)|lia]|].
    split; [|lia]. rewrite !not_elem_of_cons in Hn. rewrite !not_elem_of_cons. destruct Hn as (? & ? & ? & ? & ?).
    split_and!; (lia || by intros ?%elem_of_nil). }
  rewrite !not_elem_of_cons in Hn. destruct Hn as (H1 & H2 & H3 & H4 & H5 & H6 & _).
  apply Z.eqb_neq in H1, H2, H3, H4, H5, H6. rewrite H1, H2, H3, H4, H5, H6.
  assert ((32 <=? c) && (c <? 127) = false) as ->.
  { destruct (Z.leb_spec 32 c), (Z.ltb_spec c 127); try done. lia. }
  pose proof (Z.mod_pos_bound c 16 ltac:(lia)). unfold hexadecimal. destruct (Z.ltb_spec c 16).
  - eexists. split; [eexists; split; [apply hex_digit_char; lia|done]|]. by rewrite Z.mod_small by lia.
  - assert (0 ≤ c `div` 16 < 16) by (Z.div_mod_to_equations; lia).
    eexists. split; [eexists _, _; split_and!; [apply hex_digit_char; lia|apply hex_digit_char; lia|done]|done].
Qed.

Lemma debug_from_utf8_body c : 0 ≤ c < 256 → debug_body c (debug_from_utf8 c).
Proof.
  intros Hc. unfold debug_from_utf8. destruct (Z.leb_spec c 127).
  - assert (from_utf8 [c] = Some [c]) as ->.
    { cbn [from_utf8]. unfold between. by rewrite (proj2 (Z.leb_le 0 c)), (proj2 (Z.leb_le c 0x7f)) by lia. }
    cbn [mbind list_bind]. rewrite app_nil_r.
    destruct (decide (c = 127 ∨ 0 ≤ c < 32 ∧ c ∉ [0; 9; 10; 13])) as [Hu|Hu].
    { destruct (escape_unicode c Hu) as (h & Hh & ->). rewrite <-!app_assoc. by apply db_unicode. }
    destruct (decide (c ∈ [0; 9; 10; 13])) as [Hn|Hn].
    { rewrite !elem_of_cons in Hn. destruct Hn as [->|[->|[->|[->|[]%elem_of_nil]]]];
        apply db_named; by apply (bool_decide_unpack _). }
    assert (32 ≤ c < 127) as Hp by (destruct (decide (c < 32)), (decide (c = 127)); naive_solver lia).
    destruct (decide (c = 34 ∨ c = 92)) as [[->| ->]|Hq]; [apply db_quoted; by left|apply db_quoted; by right|].
    assert (escape c = [c]) as ->; [|apply db_plain; [done|naive_solver..]].
    rewrite !not_elem_of_cons in Hn. destruct Hn as (H1 & H2 & H3 & H4 & _).
    assert (c ≠ 34 ∧ c ≠ 92) as [H5 H6] by naive_solver. apply Z.eqb_neq in H1, H2, H3, H4, H5, H6.
    unfold escape. rewrite H1, H2, H3, H4, H5, H6.
    by rewrite (proj2 (Z.leb_le 32 c)), (proj2 (Z.ltb_lt c 127)) by lia.
  - assert (from_utf8 [c] = None) as ->.
    { cbn [from_utf8]. assert (between 0 0x7f c = false) as ->.
      { unfold between. rewrite (proj2 (Z.leb_gt c 0x7f)) by lia. by rewrite andb_false_r. }
      repeat case_match; done. }
    destruct (between 0xc2 0xf4 c) eqn:Hb; unfold between in Hb.
    + apply db_incomplete. apply andb_true_iff in Hb as [?%Z.leb_le ?%Z.leb_le]. lia.
    + apply db_invalid. apply andb_false_iff in Hb as [?%Z.leb_gt|?%Z.leb_gt]; lia.
Qed.

Lemma echo_text_line c : 0 ≤ c < 256 → echo_line c (echo_text c).
Proof. intros Hc. exists (show c), (debug_from_utf8 c). split_and!; [apply show_decimal; lia|by apply debug_from_utf8_body|done]. Qed.

(** ** The terminal *)

Section Window.
Context `{Profile} `{Screen} `{FontLaws}.

Lemma set_to_double_buffer_clear back c s :
  set_to_double_buffer (Some back) (set_clear c s) =
    match set_to_double_buffer (Some back) s with Val (_, s') => Val ((), set_clear c s') | Fault f => Fault f end.
Proof.
  unfold set_to_double_buffer. rewrite !(M_bind_run (gets _) _ _ (info (term s)) _) by done.
  unfold mbind, M_bind, liftr. by destruct (construct_buffer back (info (term s))).
Qed.

(** Room for the texts of a core: the font of [new], and the one it changes to. *)
Record text_window (w : WindowInfo) : Prop := {
  tw_height : 24 ≤ height w ∧ val Size16 ≤ height w;
  tw_width : get_raster_width Regular Size24 ≤ width w ∧ ∀ weight, get_raster_width weight Size16 ≤ width w }.

(** The new terminal is ready, all of its window has the colour of the core, and
    nothing else is drawn. *)
Lemma local_writer_ready fi base id ap_count w back v :
  framebuffer = Some (fi, base) → window_ok w → get_window_info_for_core id ap_count = Val w →
  text_window w → 0 ≤ id ≤ ap_count → ap_count < 2 ^ 32 →
  ∃ s, local_writer id ap_count back v = Val s ∧ term_ok (term s) ∧ pos_ok (term s) ∧
    info (term s) = w ∧ fst (buffer (term s)) = back + byte_offset w ∧
    outside (back + byte_offset w) w v (vram s) ∧
    ∀ x y, in_window (term s) x y → shows (term s) (vram s) x y
      (mkColor 10 (100 - (100 * id) `div` (ap_count + 1)) ((100 * id) `div` (ap_count + 1))).
Proof.
  intros Hfb Hw Hget [[Hh Hh16] [Hc Hc16]] Hid Hap.
  destruct (core_clear_color_val id ap_count Hid Hap) as [Hcol _]. set (c := mkColor _ _ _) in *.
  pose proof Hw as [Hwd Hst Hhh [Hb0 Hb8]].
  pose proof (window_ok_bpp _ Hw). assert (0 ≤ stride w * height w ≤ 2 ^ 40) by nia.
  assert (∃ t s0, TerminalWriter_new w = Val t ∧ set_to_double_buffer (Some back) (mkTS t v) = Val ((), s0))
    as (t & s0 & Hnew & Hset).
  { assert (∀ b0, construct_buffer b0 w = Val (b0 + byte_offset w, stride w * height w * bytes_per_pixel w)) as Hcb.
    { intros b0. unfold construct_buffer. rewrite (mul64_in (stride w)) by lia. cbn.
      by rewrite (mul64_in (stride w * height w)) by nia. }
    unfold TerminalWriter_new. rewrite Hfb. cbn [unwrap mbind res_bind]. rewrite Hcb. do 2 eexists. split; [reflexivity|].
    unfold set_to_double_buffer. rewrite (M_bind_run (gets _) _ _ w _) by done.
    by rewrite (M_bind_run _ _ _ _ _ (liftr_run _ _ _ (Hcb back))). }
  destruct (new_terminal fi base w t v back s0 Hfb Hw Hh Hc Hnew Hset) as (Ht & Hp & Hi & Hb & Hv).
  assert (term_ok (term (set_clear c s0))) as Ht' by (by destruct Ht; split).
  destruct (clear_keeps (Some Size16) (set_clear c s0) Ht') as (s & Hr & (Hts & Hps & Hbs & His) & Ho).
  { intros f [= <-]. cbn [info term set_clear]. rewrite Hi. by split. }
  destruct (clear_spec (Some Size16) (term (set_clear c s0)) (vram s0)) as (v' & Hr' & Hshow & _); [apply Ht'..|].
  exists s. split_and!; [|done|done|by rewrite His|by rewrite Hbs| |].
  - unfold local_writer. rewrite Hget. cbn [mbind res_bind]. rewrite Hnew. cbn [mbind res_bind]. rewrite Hcol.
    cbn [mbind res_bind]. rewrite (M_bind_run _ _ _ () (set_clear c s0)); [by rewrite Hr|].
    by rewrite set_to_double_buffer_clear, Hset.
  - cbn [buffer info vram term set_clear] in Ho. by rewrite Hb, Hi, Hv in Ho.
  - change (mkTS (term (set_clear c s0)) (vram s0)) with (set_clear c s0) in Hr'. rewrite Hr in Hr'.
    injection Hr' as ->. exact Hshow.
Qed.

Lemma bind_concat {A B} (f : A → list B) l : l ≫= f = concat (f <$> l).
Proof. induction l as [|x l IH]; [done|]. cbn. by rewrite <-IH. Qed.

(** The lines are one text, and the text is what the core is to print. *)
Lemma write_str_lines {A} (l : list A) (f : A → list Z) s :
  for_each l (λ i, Terminal.write_str (f i)) s = Terminal.write_str (concat (f <$> l)) s.
Proof.
  revert s. induction l as [|i l IH]; intros s; [done|]. change (concat (f <$> i :: l)) with (f i ++ concat (f <$> l)).
  unfold Terminal.write_str in *. rewrite for_each_app. cbn [for_each]. unfold mbind, M_bind.
  destruct (for_each (f i) _ s) as [[[] s1]|]; [apply IH|done].
Qed.

Lemma print_lines_text id ap_count refreshes s :
  0 ≤ id < 2 ^ 64 → 0 ≤ ap_count < 2 ^ 64 → (∀ k, 0 ≤ refreshes k < 2 ^ 64) →
  ∃ text, core_lines id ap_count refreshes text ∧
    print_lines id ap_count refreshes s = (clear None ≫= λ _, Terminal.write_str text) s.
Proof.
  intros Hid Hap Hr. unfold core_lines, print_lines, mbind at 1 2, M_bind at 1 2.
  assert (∀ n (f : Z → list Z), 0 ≤ n < 2 ^ 64 → (∀ k, 0 ≤ k < n → core_line id ap_count refreshes k (f k)) →
    Forall2 (core_line id ap_count refreshes) (seqZ 0 n) (f <$> seqZ 0 n)) as Hf.
  { intros n f Hn Hk. rewrite Forall2_fmap_r. apply Forall_Forall2_diag, Forall_forall.
    intros k Hin%elem_of_seqZ. apply Hk. lia. }
  destruct (Z.eqb_spec id 1) as [->|Hn1]; [|destruct (Z.eqb_spec id 2) as [->|Hn2]].
  - eexists. split; [eexists; split; [reflexivity|apply (Hf 100000000 (λ i, frame_line i (refreshes i) ap_count)); [lia|]]|].
    + intros k Hk. exists (show k), (show (refreshes k)), (show ap_count).
      split_and!; [apply show_decimal; lia|by apply show_decimal|by apply show_decimal|done].
    + cbn beta iota. destruct (clear None s) as [[[] s1]|]; [|done]. apply write_str_lines.
  - eexists. split; [reflexivity|]. cbn. by destruct (clear None s) as [[[] s1]|].
  - eexists. split; [eexists; split; [reflexivity|apply (Hf 200 (λ i, hello_line i id)); [lia|]]|].
    + intros k Hk. unfold core_line. rewrite (proj2 (Z.eqb_neq id 1) Hn1). exists (show k), (show id).
      split_and!; [apply show_decimal; lia|by apply show_decimal|done].
    + destruct (clear None s) as [[[] s1]|]; [|done]. apply write_str_lines.
Qed.

Lemma print_lines_run id ap_count refreshes s :
  term_ok (term s) →
  ∃ s', print_lines id ap_count refreshes s = Val ((), s') ∧ usable (term s) (term s') ∧
    outside (fst (buffer (term s))) (info (term s)) (vram s) (vram s').
Proof.
  intros Ht. destruct (clear_keeps None s Ht) as (s1 & R1 & (Ht1 & Hp1 & Hb1 & Hi1) & Ho1); [by intros ?|].
  unfold print_lines. rewrite (M_bind_run _ _ _ _ _ R1).
  assert (∀ (l : list Z) f, confined (for_each l (λ i, Terminal.write_str (f i)))) as Hlines
    by (intros l f; apply confined_for_each; intros; apply confined_write_str).
  match goal with |- ∃ s', ?m s1 = _ ∧ _ => assert (confined m) as Hm end.
  { destruct (id =? 1); [apply Hlines|]. destruct (id =? 2); [apply confined_write_str|apply Hlines]. }
  destruct (confined_keeps _ Hm s1 Ht1 Hp1) as (s2 & R2 & (Ht2 & Hp2 & Hb2 & Hi2) & Ho2).
  exists s2. split; [exact R2|]. split; [split_and!; congruence || done|].
  rewrite Hb1, Hi1 in Ho2. intros q Hq. by rewrite Ho2, Ho1.
Qed.

(** Every byte that arrives is shown, in order, whatever the window showed. *)
Lemma echoes_run {W} `{PortIo W} (U : Uart16550 W (com_u16 COM1)) p bytes rest s w :
  error_free COM1 → dlab (uart_of w) = false → rx (uart_of w) = bytes ++ rest →
  term_ok (term s) → pos_ok (term s) →
  ∃ s' w' new, echoes (S p) (length bytes) (s, w) = Val ((), (s', w')) ∧
    Terminal.write_str (bytes ≫= echo_text) s = Val ((), s') ∧
    rx (uart_of w') = rest ++ new ∧ tx (uart_of w') = tx (uart_of w) ∧ usable (term s) (term s') ∧
    outside (fst (buffer (term s))) (info (term s)) (vram s) (vram s').
Proof.
  intros Herr. revert rest s w. induction bytes as [|c bytes IH]; intros rest s w Hd Hrx Ht Hp.
  { exists s, w, []. rewrite app_nil_r. by split_and!. }
  destruct (read_ready COM1 U p c (bytes ++ rest) w Herr Hd Hrx) as (w1 & new1 & R1 & Hrx1 & Hlcr & Htx).
  destruct (confined_keeps _ (confined_write_str (echo_text c)) s Ht Hp) as (s1 & R2 & (Ht1 & Hp1 & Hb1 & Hi1) & Ho1).
  destruct (IH (rest ++ new1) s1 w1) as (s' & w' & new & R3 & R4 & Hrx' & Htx' & (Ht' & Hp' & Hb' & Hi') & Ho');
    [unfold dlab in *; by rewrite Hlcr|by rewrite Hrx1, app_assoc|done|done|].
  exists s', w', (new1 ++ new). split_and!; [| |by rewrite Hrx', app_assoc|by rewrite Htx'| |].
  - unfold echoes. cbn [length replicate for_each]. rewrite (M_bind_run _ _ _ () (s1, w1)); [exact R3|].
    unfold echo. rewrite (M_bind_run _ _ _ (Ok c) (s, w1)) by (unfold zoom; cbn [snd]; by rewrite R1).
    unfold zoom. cbn [fst]. by rewrite R2.
  - unfold Terminal.write_str in *. cbn [mbind list_bind]. rewrite for_each_app. by rewrite (M_bind_run _ _ _ _ _ R2).
  - split_and!; congruence || done.
  - rewrite Hb1, Hi1 in Ho'. intros q Hq. by rewrite Ho', Ho1.
Qed.

(** C15 (functional). The window of an application processor, from [TerminalWriter::new] to its
    last loop.  On any screen and for any core whose cell is on it, making the
    terminal colours the whole window in the core's own colour; then the window
    is cleared and exactly the lines of that core are written: numbered frame
    lines with the refresh count and the number of cores for core 1, one line for
    core 2, 200 greetings for the others; and then one line for every byte that
    has arrived at the serial port, in order, with its number in decimal and the
    byte as a string literal, escaped, or as the error that it is.  No step
    panics, nothing is sent, bytes that arrive meanwhile stay queued, and no byte
    outside of the window is written at any time. *)
Theorem core_window_echoes {W} `{PortIo W} (U : Uart16550 W (com_u16 COM1)) fi base id ap_count wi back v
    refreshes p bytes rest w :
  framebuffer = Some (fi, base) → screen_ok fi → fb_height fi ≤ fb_width fi →
  1 ≤ id ≤ ap_count → ap_count ≤ 2 ^ 20 → id < 4 * ((ap_count + 3) `div` 4) →
  get_window_info_for_core id ap_count = Val wi → text_window wi →
  (∀ k, 0 ≤ refreshes k < 2 ^ 64) → Forall (λ c, 0 ≤ c < 256) bytes →
  error_free COM1 → dlab (uart_of w) = false → rx (uart_of w) = bytes ++ rest →
  ∃ s0 s1 s2 w' new text ls,
    local_writer id ap_count back v = Val s0 ∧
    print_lines id ap_count refreshes s0 = Val ((), s1) ∧
    echoes (S p) (length bytes) (s1, w) = Val ((), (s2, w')) ∧
    (∀ x y, in_window (term s0) x y → shows (term s0) (vram s0) x y
      (mkColor 10 (100 - (100 * id) `div` (ap_count + 1)) ((100 * id) `div` (ap_count + 1)))) ∧
    core_lines id ap_count refreshes text ∧
    (clear None ≫= λ _, Terminal.write_str text) s0 = Val ((), s1) ∧
    Forall2 echo_line bytes ls ∧ Terminal.write_str (concat ls) s1 = Val ((), s2) ∧
    rx (uart_of w') = rest ++ new ∧ tx (uart_of w') = tx (uart_of w) ∧
    ∀ s, s ∈ [s0; s1; s2] → info (term s) = wi ∧ pos_ok (term s) ∧
      outside (back + byte_offset wi) wi v (vram s).
Proof.
  intros Hfb Hso Hhw Hid Hap Hcell Hget Hroom Hre Hbytes Herr Hd Hrx.
  destruct (core_window fi base id ap_count) as [Hi Hok]; [done..|lia|lia|].
  rewrite Hget in Hi. injection Hi as ->.
  destruct (local_writer_ready fi base id ap_count _ back v Hfb Hok Hget Hroom) as
    (s0 & R0 & Ht0 & Hp0 & Hi0 & Hb0 & Ho0 & Hshow); [lia|lia|].
  destruct (print_lines_run id ap_count refreshes s0 Ht0) as (s1 & R1 & (Ht1 & Hp1 & Hb1 & Hi1) & Ho1).
  destruct (print_lines_text id ap_count refreshes s0) as (text & Htext & Hpr); [lia|lia|done|].
  destruct (echoes_run U p bytes rest s1 w Herr Hd Hrx Ht1 Hp1) as
    (s2 & w' & new & R2 & R3 & Hrx' & Htx & (Ht2 & Hp2 & Hb2 & Hi2) & Ho2).
  rewrite Hb0, Hi0 in Ho1. rewrite Hb1, Hi1, Hb0, Hi0 in Ho2.
  exists s0, s1, s2, w', new, text, (echo_text <$> bytes).
  split_and!; [done|done|done|done|done|by rewrite <-Hpr| |by rewrite <-bind_concat|done|done|].
  - rewrite Forall2_fmap_r. apply Forall_Forall2_diag. eapply Forall_impl; [done|]. apply echo_text_line.
  - intros s [->|[->|[->|[]%elem_of_nil]%elem_of_cons]%elem_of_cons]%elem_of_cons;
      (split_and!; [congruence|done|intros q Hq; by rewrite ?Ho2, ?Ho1, ?Ho0]).
Qed.
End Window.
