(* ===== verification/TermDemo.v ===== *)
(** * Terminals on a small screen

    A 64 by 48 framebuffer and a font of blocks, at which the theorems on
    windows and terminals are instantiated, and the texts of the echo loop. *)

From Stdlib Require Import String Ascii.
From S2P Require Import Prelude Format Ports Serial Utf8 Terminal Windows TermSpec CoreWindow.

Definition demo_fb : FrameBufferInfo := mkFbInfo 12288 64 48 Bgr 4 64.
Definition portrait_fb : FrameBufferInfo := mkFbInfo 12288 48 64 Rgb 3 48.

Definition landscape : Screen := Some (demo_fb, 4096).
Definition portrait : Screen := Some (portrait_fb, 4096).

Definition block_row (c : Z) : list Z := replicate 12 (c `mod` 256).

(** Blocks of 12 pixels in two sizes, for the ASCII characters. *)
#[export] Instance block_font : Font := {|
  FontSize := bool;
  FontWeight := unit;
  Size16 := false;
  Size20 := false;
  Size24 := true;
  Light := ();
  Regular := ();
  Bold := ();
  val s := if s then 24 else 16;
  get_raster_width _ _ := 12;
  get_raster c _ s :=
    if (c <? 128) || (c =? 0xfffd)
    then Some (replicate (if s then 24 else 16)%nat (block_row c)) else None |}.

Definition small : option FontSize := Some (false : @FontSize block_font).

#[export] Instance block_font_laws : FontLaws.
Proof.
  split; try done.
  - intros []; cbn; lia.
  - intros c w s rows Hr. cbn -[replicate] in Hr. destruct (_ || _); [|done]. injection Hr as <-.
    split; [by destruct s|].
    intros row [-> _]%elem_of_replicate. split; [done|].
    intros byte Hb. unfold block_row in Hb. apply elem_of_replicate in Hb as [-> _]. apply Z.mod_pos_bound. lia.
Qed.

#[export] Instance demo_profile : Profile := dev_profile.

Lemma demo_screen_ok : screen_ok demo_fb.
Proof. split; cbn; lia. Qed.
Lemma portrait_screen_ok : screen_ok portrait_fb.
Proof. split; cbn; lia. Qed.

Lemma windows_tile_witness :
  fb_height demo_fb ≤ fb_width demo_fb ∧
  ∃ w, from_placement (H0 := landscape) (cell 4 2 3 1) = Val w ∧ window_ok w.
Proof.
  split; [by cbn|].
  apply (proj1 (windows_tile (S := landscape) demo_fb 4096 4 2 eq_refl demo_screen_ok ltac:(by cbn) ltac:(lia) ltac:(lia)));
    lia.
Defined.

Lemma full_screen_portrait_panics_witness :
  from_placement (H0 := portrait) FULL_SCREEN_PLACEMENT = Fault Assertion.
Proof. by apply (full_screen_portrait_panics (S := portrait) portrait_fb 4096 eq_refl portrait_screen_ok). Defined.

(** Four application cores on this screen: the fifth terminal is refused. *)
Lemma last_core_off_screen_witness :
  get_window_info_for_core (H0 := landscape) 4 4 = Fault Assertion ∧
  match get_window_info_for_core (H0 := landscape) 4 4 with
  | Val w => ∀ q, window_byte (4096 + byte_offset w) w q → 4096 + 48 * 64 * 4 ≤ q
  | Fault f => f = Assertion
  end.
Proof.
  split; [by vm_compute|].
  apply (last_core_off_screen (S := landscape) demo_fb 4096 4 eq_refl demo_screen_ok);
    [by cbn|lia|by exists 1].
Defined.

(** ** A terminal on the whole screen *)

Definition demo_window : WindowInfo := window_at demo_fb 0 0 64 48.
Definition demo_term : TerminalWriter :=
  mkTerm 4096 (4096, 12288) demo_window 50 0 true 24 () white black (mkColor 70 60 60).

Lemma demo_term_ok : term_ok demo_term.
Proof. split; cbn; try lia; [split; cbn; lia|done|]. unfold byte_color. cbn. lia. Qed.
Lemma demo_pos_ok : pos_ok demo_term.
Proof. split; cbn; lia. Qed.

Lemma clear_spec_witness :
  ∃ v', clear small (mkTS demo_term ∅) = Val ((), mkTS (cleared small demo_term) v') ∧
    (∀ x y, in_window demo_term x y → shows demo_term v' x y (mkColor 70 60 60)) ∧
    outside 4096 demo_window ∅ v'.
Proof. apply (clear_spec small demo_term ∅); [apply demo_term_ok|apply demo_term_ok]. Defined.

Lemma newline_spec_witness :
  y_pos (newline_term demo_term) = 24 ∧
  ∃ v', newline (mkTS demo_term ∅) = Val ((), mkTS (newline_term demo_term) v') ∧
    pos_ok (newline_term demo_term) ∧
    outside 4096 demo_window ∅ v' ∧
    ∀ x y, in_window demo_term x y →
      if bool_decide (24 ≤ y < 24 + 24 * 2)
      then shows demo_term v' x y (checker (mkColor 70 60 60) x y)
      else unpainted demo_term ∅ v' x y.
Proof. split; [done|]. apply (newline_spec demo_term ∅); [apply demo_term_ok|apply demo_pos_ok]. Defined.

(** At column 50 of 64 a glyph of 12 still fits. *)
Lemma write_raw_char_spec_witness :
  glyph_term demo_term = demo_term ∧
  ∃ raster v',
    get_rasterized_char 65 demo_term = Val (raster, 12) ∧
    write_raw_char 65 (mkTS demo_term ∅) = Val ((), mkTS (advance (glyph_term demo_term)) v') ∧
    outside 4096 demo_window ∅ v' ∧
    (∀ i j row byte, raster !! i = Some row → row !! j = Some byte →
      shows demo_term v' (50 + Z.of_nat j) (0 + Z.of_nat i) (shade demo_term byte)) ∧
    (50 + 12 < 64 → ∀ x y, in_window demo_term x y →
      ¬ (50 ≤ x < 50 + 12 ∧ 0 ≤ y < 0 + 24) → unpainted demo_term ∅ v' x y).
Proof. split; [done|]. apply (write_raw_char_spec 65 demo_term ∅); [apply demo_term_ok|apply demo_pos_ok]. Defined.

(** ** Four cores, three of them started *)

#[export] Instance demo_screen : Screen := landscape.

Definition window_of (id : Z) : WindowInfo := placed demo_fb (cell 4 1 id 0).
Definition term_of (id : Z) : TerminalWriter :=
  mkTerm 4096 (4096 + byte_offset (window_of id), 12288) (window_of id) 0 0 true 24 () white black (mkColor 70 60 60).
Definition back_term_of (id : Z) : TerminalWriter :=
  mkTerm 65536 (65536 + byte_offset (window_of id), 12288) (window_of id) 0 0 true 24 () white black (mkColor 70 60 60).

Definition demo_cmds : list TermCmd := [Wipe small; Text [72; 105; 10; 9; 0x3b1]; Pixels 20 [white; black]].

Lemma core_terminals_isolated_witness :
  ∃ s', for_each demo_cmds run_cmd (mkTS (back_term_of 1) ∅) = Val ((), s') ∧
    term_ok (term s') ∧ pos_ok (term s') ∧
    ∀ q, window_byte (65536 + byte_offset (window_of 2)) (window_of 2) q →
      vram s' !! q = (∅ : gmap Z Z) !! q.
Proof.
  apply (core_terminals_isolated demo_fb 4096 3 1 2 (term_of 1) ∅ 65536 (mkTS (back_term_of 1) ∅)
    demo_cmds (window_of 1) (window_of 2)); try done.
  unfold demo_cmds. rewrite !Forall_cons. split_and!; [|done|by cbn|by constructor].
  intros f [= <-]. by cbn.
Defined.

(** ** The window of a core

    Core 1 of three on this screen, with the serial port of [SerialDemo]. *)

#[local] Existing Instance SerialDemo.demo_ports.
#[local] Existing Instance SerialDemo.demo_uart.
#[local] Existing Instance landscape.

Example echo_letter : echo_text 104 = (chars "104: Ok(" ++ [34; 104; 34] ++ chars ")" ++ [10])%list.
Proof. done. Qed.

Example echo_escape : echo_text 27 = (chars "27: Ok(" ++ [34] ++ chars "\u{1b}" ++ [34] ++ chars ")" ++ [10])%list.
Proof. done. Qed.

Example echo_incomplete :
  echo_text 200 = (chars "200: Err(Utf8Error { valid_up_to: 0, error_len: None })" ++ [10])%list.
Proof. done. Qed.

Example echo_invalid :
  echo_text 255 = (chars "255: Err(Utf8Error { valid_up_to: 0, error_len: Some(1) })" ++ [10])%list.
Proof. done. Qed.

Lemma core_window_echoes_witness :
  ∃ s0 s1 s2 w' ls, echoes 1 2 (s1, SerialDemo.idle) = Val ((), (s2, w')) ∧
    (clear None ≫= λ _, Terminal.write_str (chars "Core 2 uses stdout" ++ [10])%list) s0 = Val ((), s1) ∧
    Forall2 echo_line [104; 200] ls ∧ Terminal.write_str (concat ls) s1 = Val ((), s2) ∧
    ∀ q, ¬ window_byte (65536 + byte_offset (window_of 2)) (window_of 2) q →
      vram s2 !! q = (∅ : gmap Z Z) !! q.
Proof.
  destruct (core_window_echoes SerialDemo.demo_uart demo_fb 4096 2 3 (window_of 2) 65536 ∅ (λ _, 2) 0
    [104; 200] [105; 13; 33] SerialDemo.idle) as
    (s0 & s1 & s2 & w' & new & text & ls & _ & _ & R & _ & Ht & Hp & Hl & E & _ & _ & Ho);
    [done|exact demo_screen_ok|by cbn|lia|lia|by vm_compute|done| |intros; lia|by apply (bool_decide_unpack _)| |done|done|].
  - by split; split; cbn.
  - intros [u n].
    change (line_error ((if Nat.even n then 0 else 0x60) + (if rx u is [] then 0 else 1)) = false).
    by destruct (Nat.even n), (rx u).
  - exists s0, s1, s2, w', ls. split_and!; [exact R| |exact Hl|exact E|apply (Ho s2); right; right; left].
    by rewrite Ht in Hp.
Defined.
