(* ===== verification/Bitfield.v ===== *)
(** * Bit fields of device registers

    The bitfield crate generates the getters and setters of the register types
    of the timer and the interrupt controller.  [Bitfield] is what it documents:
    a getter returns the bits of its range, a setter replaces them and keeps the
    others. *)

From S2P Require Import Prelude.

Class Bitfield := {
  get_range : Z → Z → Z → Z;                      (** msb, lsb, register *)
  set_range : Z → Z → Z → Z → Z }.                (** msb, lsb, value, register *)

Class BitfieldLaws `{Bitfield} : Prop := {
  get_range_bit hi lo x i : 0 ≤ lo ≤ hi → 0 ≤ i →
    Z.testbit (get_range hi lo x) i = if bool_decide (i ≤ hi - lo) then Z.testbit x (i + lo) else false;
  set_range_bit hi lo v x i : 0 ≤ lo ≤ hi → 0 ≤ i →
    Z.testbit (set_range hi lo v x) i =
      if bool_decide (lo ≤ i ≤ hi) then Z.testbit v (i - lo) else Z.testbit x i }.

(** Single bits. *)
Definition get_bit `{Bitfield} (n x : Z) : bool := negb (get_range n n x =? 0).
Definition set_bit `{Bitfield} (n : Z) (b : bool) (x : Z) : Z := set_range n n (Z.b2z b) x.

(** The usual implementation. *)
Definition field_mask (hi lo : Z) : Z := Z.shiftl (Z.ones (hi - lo + 1)) lo.

#[export] Instance ref_bitfield : Bitfield := {|
  get_range hi lo x := Z.land (Z.shiftr x lo) (Z.ones (hi - lo + 1));
  set_range hi lo v x :=
    Z.lor (Z.ldiff x (field_mask hi lo)) (Z.shiftl (Z.land v (Z.ones (hi - lo + 1))) lo) |}.

Lemma field_mask_bit hi lo i :
  0 ≤ lo ≤ hi → 0 ≤ i → Z.testbit (field_mask hi lo) i = bool_decide (lo ≤ i ≤ hi).
Proof.
  intros Hlo Hi. unfold field_mask. destruct (Z.lt_ge_cases i lo).
  - rewrite Z.shiftl_spec_low by done. by rewrite bool_decide_false by lia.
  - rewrite Z.shiftl_spec by done. case_bool_decide.
    + apply Z.ones_spec_low. lia.
    + apply Z.ones_spec_high. lia.
Qed.

Lemma ones_bit n i : 0 ≤ n → 0 ≤ i → Z.testbit (Z.ones n) i = bool_decide (i < n).
Proof.
  intros. case_bool_decide; [apply Z.ones_spec_low|apply Z.ones_spec_high]; lia.
Qed.

#[export] Instance ref_bitfield_laws : BitfieldLaws.
Proof.
  split; intros hi lo; cbn [get_range set_range ref_bitfield].
  - intros x i Hlo Hi. rewrite Z.land_spec, Z.shiftr_spec, ones_bit by lia.
    repeat case_bool_decide; try lia; by rewrite ?andb_true_r, ?andb_false_r.
  - intros v x i Hlo Hi. rewrite Z.lor_spec, Z.ldiff_spec, field_mask_bit by lia.
    case_bool_decide as Hin; cbn [negb].
    + rewrite andb_false_r, Z.shiftl_spec by lia. rewrite Z.land_spec, ones_bit by lia.
      rewrite bool_decide_true by lia. apply andb_true_r.
    + rewrite andb_true_r. destruct (Z.lt_ge_cases i lo).
      * rewrite Z.shiftl_spec_low by done. apply orb_false_r.
      * rewrite Z.shiftl_spec, Z.land_spec, ones_bit by lia.
        rewrite bool_decide_false by lia. by rewrite andb_false_r, orb_false_r.
Qed.

Section Fields.
Context `{BitfieldLaws}.

Lemma set_range_val hi lo v x :
  0 ≤ lo ≤ hi → set_range hi lo v x = set_range (Bitfield := ref_bitfield) hi lo v x.
Proof. intros Hlo. apply Z.bits_inj'. intros i Hi. by rewrite !set_range_bit. Qed.

Lemma get_range_val hi lo x :
  0 ≤ lo ≤ hi → get_range hi lo x = get_range (Bitfield := ref_bitfield) hi lo x.
Proof. intros Hlo. apply Z.bits_inj'. intros i Hi. by rewrite !get_range_bit. Qed.

Lemma get_bit_testbit n x : 0 ≤ n → get_bit n x = Z.testbit x n.
Proof.
  intros Hn. unfold get_bit.
  assert (∀ i, 0 ≤ i → Z.testbit (get_range n n x) i = if bool_decide (i = 0) then Z.testbit x n else false) as Hb.
  { intros i Hi. rewrite get_range_bit by lia. replace (i ≤ n - n) with (i ≤ 0) by (f_equal; lia).
    repeat case_bool_decide; try lia; try done. f_equal. lia. }
  destruct (Z.testbit x n) eqn:Hx.
  - apply negb_true_iff, Z.eqb_neq. intros Heq. specialize (Hb 0 ltac:(lia)).
    by rewrite Heq, Z.bits_0 in Hb.
  - apply negb_false_iff, Z.eqb_eq. apply Z.bits_inj'. intros i Hi. rewrite Hb, Z.bits_0 by done.
    by case_bool_decide.
Qed.

Lemma set_bit_testbit n b x i :
  0 ≤ n → 0 ≤ i → Z.testbit (set_bit n b x) i = if bool_decide (i = n) then b else Z.testbit x i.
Proof.
  intros Hn Hi. unfold set_bit. rewrite set_range_bit by lia. repeat case_bool_decide; try lia; try done.
  replace (i - n) with 0 by lia. by destruct b.
Qed.
End Fields.
