(* ===== verification/Pit.v ===== *)
(** * The programmable interval timer (src/kernel/src/pit.rs)

    Channel 2 of the timer as a one-shot delay.  The ports are an interface; a
    timer behind them is described by [PitDevice], from the data sheet. *)

From S2P Require Import Prelude Ports Bitfield.

(** The two enumerations with their discriminants. *)
Inductive AccessMode := LatchCountValue | LowByteOnly | HighByteOnly | LowAndHighByte.
Definition access_mode_u8 (m : AccessMode) : Z :=
  match m with LatchCountValue => 0 | LowByteOnly => 1 | HighByteOnly => 2 | LowAndHighByte => 3 end.

Inductive OperatingMode :=
  | InterruptOnTerminalCount | ProgrammableOneShot | RateGenerator | SquareWaveGenerator
  | SoftwareTriggeredStrobe | HardwareTriggeredStrobe.
Definition operating_mode_u8 (m : OperatingMode) : Z :=
  match m with
  | InterruptOnTerminalCount => 0 | ProgrammableOneShot => 1 | RateGenerator => 2
  | SquareWaveGenerator => 3 | SoftwareTriggeredStrobe => 4 | HardwareTriggeredStrobe => 5
  end.

Inductive TimerResult := OutOfRange | NotActive.

Definition BASE_FREQUENCY : Z := 1193182.

Section Registers.
Context `{Bitfield}.

(** The fields of [Mode]. *)
Definition set_bcd_format := set_bit 0.
Definition set_operating_mode := set_range 3 1.
Definition set_access_mode := set_range 5 4.
Definition set_channel := set_range 7 6.

Definition Mode_new (access_mode : AccessMode) (operating_mode : OperatingMode) (bcd_format : bool) : Z :=
  let m := set_bcd_format bcd_format 0 in
  let m := set_access_mode (access_mode_u8 access_mode) m in
  set_operating_mode (operating_mode_u8 operating_mode) m.

(** The fields of [Control]. *)
Definition enable_timer_counter2 := get_bit 0.
Definition set_enable_timer_counter2 := set_bit 0.
Definition enable_speaker_data := get_bit 1.
Definition set_enable_speaker_data := set_bit 1.
Definition set_enable_pci_serr := set_bit 2.
Definition set_enable_nmi_iochk := set_bit 3.
Definition refresh_cycle_toggle := get_bit 4.
Definition status_timer_counter2 := get_bit 5.
Definition status_iochk_nmi_source := get_bit 6.
Definition status_serr_nmi_source := get_bit 7.
End Registers.

Section Driver.
Context `{Profile} `{Bitfield} {W : Type} `{PortIo W}.

Definition Mode_write (m : Z) : M W () := port_write 0x43 m.
Definition Control_read : M W Z := port_read 0x61.
Definition Control_write (c : Z) : M W () := port_write 0x61 c.

(** [0x40 + channel as u16] *)
Definition set_data (channel value : Z) : M W () :=
  liftr (arith 16 (0x40 + channel)) ≫= λ p, port_write p value.
Definition get_data (channel : Z) : M W Z :=
  liftr (arith 16 (0x40 + channel)) ≫= port_read.

Definition set (us : Z) : M W (result () TimerResult) :=
  liftr (mul64 BASE_FREQUENCY us) ≫= λ p,
  let counter := p `div` 1000000 in
  if counter >? 0xffff then mret (Err OutOfRange) else
  Control_read ≫= λ c,
  let c := set_enable_speaker_data false c in
  let c := set_enable_timer_counter2 true c in
  Control_write c ≫= λ _,
  let m := Mode_new LowAndHighByte InterruptOnTerminalCount false in
  let m := set_channel 2 m in
  Mode_write m ≫= λ _,
  set_data 2 (Z.land counter 0xff) ≫= λ _,
  set_data 2 (Z.land (Z.shiftr counter 8) 0xff) ≫= λ _,
  mret (Ok ()).

Definition get : M W Z :=
  let m := set_channel 2 0 in
  Mode_write m ≫= λ _,
  get_data 2 ≫= λ lo,
  get_data 2 ≫= λ hi,
  mret (Z.lor lo (Z.shiftl hi 8)).

Definition is_active : M W bool :=
  Control_read ≫= λ c,
  mret (enable_timer_counter2 c && negb (status_timer_counter2 c)).

Definition wait_for_timeout (fuel : nat) : M W (result () TimerResult) :=
  loop fuel (
    Control_read ≫= λ c,
    mret (if negb (enable_timer_counter2 c) then Some (Err NotActive)
          else if status_timer_counter2 c then Some (Ok ())
          else None)).

Definition delay (fuel : nat) (us : Z) : M W (result () TimerResult) :=
  set us ≫= λ r,
  match r with
  | Ok _ => wait_for_timeout fuel
  | Err e => mret (Err e)
  end.

Definition disable : M W () :=
  let c := set_enable_speaker_data false 0 in
  let c := set_enable_timer_counter2 false c in
  Control_write c.
End Driver.

(** ** The device

    Channel 2 of an 8254 in mode 0: two data bytes, low first, start the count;
    the output bit of port 0x61 rises when it has run down.  [remaining] is the
    number of ticks to go, [loading] the byte loaded so far. *)

Record timer := mkTimer {
  gate : bool; mode : Z; loading : option Z; remaining : option Z; elapsed : Z }.

(** A count of 0 stands for 2^16. *)
Definition ticks_of (count : Z) : Z := if count =? 0 then 2 ^ 16 else count.

Definition timer_write (p v : Z) (t : timer) : timer :=
  if p =? 0x61 then mkTimer (Z.testbit v 0) (mode t) (loading t) (remaining t) (elapsed t)
  else if p =? 0x43 then mkTimer (gate t) v None None (elapsed t)
  else if p =? 0x42 then
    match loading t with
    | None => mkTimer (gate t) (mode t) (Some v) (remaining t) (elapsed t)
    | Some lo => mkTimer (gate t) (mode t) None (Some (ticks_of (lo + 256 * v))) (elapsed t)
    end
  else t.

(** [n] ticks pass. *)
Definition timer_tick (n : Z) (t : timer) : timer :=
  if gate t then
    mkTimer (gate t) (mode t) (loading t) ((λ k, Z.max 0 (k - n)) <$> remaining t) (elapsed t + n)
  else mkTimer (gate t) (mode t) (loading t) (remaining t) (elapsed t + n).

(** The count has run down. *)
Definition expired (t : timer) : bool :=
  match remaining t with Some k => k =? 0 | None => false end.

(** Repeated reads of the control port. *)
Definition polls {W} `{PortIo W} (n : nat) (w : W) : W := Nat.iter n (λ w, snd (inb 0x61 w)) w.

(** A read of the control port shows the gate and the output and takes some
    time; enough reads take any amount of time. *)
Class PitDevice (W : Type) `{PortIo W} := {
  timer_of : W → timer;
  wait_time : W → Z;
  timer_outb p v w : p ∈ [0x61; 0x43; 0x42] → timer_of (outb p v w) = timer_write p v (timer_of w);
  timer_poll w : 0 ≤ wait_time w ∧
    timer_of (snd (inb 0x61 w)) = timer_tick (wait_time w) (timer_of w) ∧
    Z.testbit (fst (inb 0x61 w)) 0 = gate (timer_of w) ∧
    Z.testbit (fst (inb 0x61 w)) 5 = expired (timer_of w);
  time_passes w t : ∃ n, t ≤ elapsed (timer_of (polls n w)) }.

(** ** What a delay does *)

Section Spec.
Context `{Profile} `{BitfieldLaws} {W : Type} `{PitDevice W}.

Definition counter (us : Z) : Z := (BASE_FREQUENCY * us) `div` 1000000.

Lemma counter_range us : 0 ≤ us < 2 ^ 16 → (counter us >? 0xffff) = (54926 <=? us).
Proof.
  intros Hus. unfold counter, BASE_FREQUENCY.
  destruct (Z.gtb_spec ((1193182 * us) `div` 1000000) 0xffff), (Z.leb_spec 54926 us); try done; exfalso;
    Z.div_mod_to_equations; lia.
Qed.

(** The mode byte: channel 2, low and high byte, mode 0, binary. *)
Lemma mode_byte : set_channel 2 (Mode_new LowAndHighByte InterruptOnTerminalCount false) = 0xb0.
Proof.
  unfold set_channel, Mode_new, set_operating_mode, set_access_mode, set_bcd_format, set_bit.
  rewrite (set_range_val 7 6), (set_range_val 3 1), (set_range_val 5 4), (set_range_val 0 0) by lia.
  by vm_compute.
Qed.

(** The outside world once [set] has programmed the timer. *)
Definition programmed (us : Z) (w : W) : W :=
  let (c, w1) := inb 0x61 w in
  outb 0x42 (Z.land (Z.shiftr (counter us) 8) 0xff) (outb 0x42 (Z.land (counter us) 0xff)
    (outb 0x43 0xb0 (outb 0x61 (set_enable_timer_counter2 true (set_enable_speaker_data false c)) w1))).

Lemma set_run us w :
  0 ≤ us < 2 ^ 16 →
  set us w = if 54926 <=? us then Val (Err OutOfRange, w) else Val (Ok (), programmed us w).
Proof.
  intros Hus. unfold set.
  rewrite (M_bind_run _ _ _ (BASE_FREQUENCY * us) w) by (apply liftr_run, mul64_in; unfold BASE_FREQUENCY; lia).
  cbv zeta. fold (counter us). rewrite counter_range by done. destruct (54926 <=? us); [done|].
  rewrite mode_byte. unfold programmed. destruct (inb 0x61 w) as [c w1] eqn:Hin.
  rewrite (M_bind_run Control_read _ w c w1) by (unfold Control_read, port_read; by rewrite Hin). erewrite (M_bind_run (Control_write _)) by done.
  erewrite (M_bind_run (Mode_write _)) by done.
  assert (∀ v w, set_data 2 v w = Val ((), outb 0x42 v w)) as Hdata.
  { intros v w0. unfold set_data. by m_step. }
  by rewrite (M_bind_run _ _ _ _ _ (Hdata _ _)), (M_bind_run _ _ _ _ _ (Hdata _ _)).
Qed.

Lemma counter_bytes n : 0 ≤ n < 2 ^ 16 → Z.land n 0xff + 256 * Z.land (Z.shiftr n 8) 0xff = n.
Proof.
  intros Hn. change 0xff with (Z.ones 8). rewrite !Z.land_ones, Z.shiftr_div_pow2 by lia.
  change (2 ^ 8) with 256. Z.div_mod_to_equations. lia.
Qed.

Lemma programmed_timer us w :
  0 ≤ us < 54926 →
  let t := timer_of (programmed us w) in gate t = true ∧ remaining t = Some (ticks_of (counter us)).
Proof.
  intros Hus. assert (0 ≤ counter us < 2 ^ 16) as Hc.
  { unfold counter, BASE_FREQUENCY. Z.div_mod_to_equations. lia. }
  unfold programmed. destruct (inb 0x61 w) as [c w1]. cbv zeta.
  rewrite !timer_outb by (rewrite !elem_of_cons; tauto).
  unfold timer_write. cbn -[Z.testbit Z.land Z.shiftr ticks_of]. rewrite counter_bytes by done. split; [|done].
  unfold set_enable_timer_counter2, set_enable_speaker_data. by rewrite set_bit_testbit by lia.
Qed.

Lemma ticks_of_pos us : 0 ≤ us < 54926 → 0 < ticks_of (counter us).
Proof.
  intros Hus. unfold ticks_of. assert (0 ≤ counter us).
  { unfold counter, BASE_FREQUENCY. Z.div_mod_to_equations. lia. }
  destruct (Z.eqb_spec (counter us) 0); lia.
Qed.

(** Time since [w] after [n] reads. *)
Definition since (w : W) (n : nat) : Z := elapsed (timer_of (polls n w)) - elapsed (timer_of w).

Lemma polls_S n w : polls (S n) w = snd (inb 0x61 (polls n w)).
Proof. done. Qed.

Lemma polls_timer T w n :
  gate (timer_of w) = true → remaining (timer_of w) = Some T →
  0 ≤ since w n ∧ gate (timer_of (polls n w)) = true ∧
  remaining (timer_of (polls n w)) = Some (Z.max 0 (T - since w n)) ∨ T < 0.
Proof.
  intros Hg Hr. destruct (Z.lt_ge_cases T 0); [by right|left].
  induction n as [|n (Hs & Hgn & Hrn)].
  - unfold since. cbn. rewrite Hr. split_and!; [lia|done|f_equal; lia].
  - destruct (timer_poll (polls n w)) as (Hw & Ht & _).
    unfold since in *. rewrite polls_S, Ht. unfold timer_tick. rewrite Hgn, Hrn.
    cbn. split_and!; [lia|done|f_equal; lia].
Qed.

(** A read of the status that keeps the loop going. *)
Lemma wait_busy fuel w :
  gate (timer_of w) = true → expired (timer_of w) = false →
  wait_for_timeout (S fuel) w = wait_for_timeout fuel (snd (inb 0x61 w)).
Proof.
  intros Hg He. destruct (timer_poll w) as (_ & _ & H0b & H5b).
  unfold wait_for_timeout at 1. rewrite loop_S. unfold Control_read.
  rewrite (M_bind_run _ _ _ None (snd (inb 0x61 w))); [done|].
  erewrite M_bind_run by apply port_read_run. unfold enable_timer_counter2, status_timer_counter2.
  rewrite !get_bit_testbit by lia. by rewrite H0b, H5b, Hg, He.
Qed.

Lemma wait_done fuel w :
  gate (timer_of w) = true → expired (timer_of w) = true →
  wait_for_timeout (S fuel) w = Val (Ok (), snd (inb 0x61 w)).
Proof.
  intros Hg He. destruct (timer_poll w) as (_ & _ & H0b & H5b).
  unfold wait_for_timeout. rewrite loop_S. unfold Control_read.
  rewrite (M_bind_run _ _ _ (Some (Ok ())) (snd (inb 0x61 w))); [done|].
  erewrite M_bind_run by apply port_read_run. unfold enable_timer_counter2, status_timer_counter2.
  rewrite !get_bit_testbit by lia. by rewrite H0b, H5b, Hg, He.
Qed.

(** The loop ends at the first read after the count has run down. *)
Lemma wait_until T w n fuel :
  0 < T → gate (timer_of w) = true → remaining (timer_of w) = Some T →
  (∀ k, (k < n)%nat → since w k < T) → T ≤ since w n → (n < fuel)%nat →
  wait_for_timeout fuel w = Val (Ok (), polls (S n) w).
Proof.
  intros HT Hg Hr Hlt Hn Hf.
  assert (∀ k, gate (timer_of (polls k w)) = true ∧
    expired (timer_of (polls k w)) = bool_decide (T ≤ since w k)) as Hk.
  { intros k. destruct (polls_timer T w k Hg Hr) as [(Hs & Hgk & Hrk)|]; [|lia].
    split; [done|]. unfold expired. rewrite Hrk. case_bool_decide; [apply Z.eqb_eq|apply Z.eqb_neq]; lia. }
  assert (∀ k, (k ≤ n)%nat → wait_for_timeout fuel w = wait_for_timeout (fuel - k) (polls k w)) as Hrun.
  { induction k as [|k IH]; intros Hkn; [by rewrite Nat.sub_0_r|]. rewrite IH by lia.
    replace (fuel - k)%nat with (S (fuel - S k)) by lia. destruct (Hk k) as [Hgk Hek].
    rewrite wait_busy; [done|done|]. rewrite Hek. apply bool_decide_eq_false_2. specialize (Hlt k). lia. }
  rewrite (Hrun n) by lia. replace (fuel - n)%nat with (S (fuel - S n)) by lia.
  destruct (Hk n) as [Hgn Hen]. apply wait_done; [done|]. rewrite Hen. by apply bool_decide_eq_true_2.
Qed.

(** A decidable predicate that holds somewhere has a first place. *)
Lemma first_such (P : nat → Prop) `{∀ n, Decision (P n)} n : P n → ∃ m, (m ≤ n)%nat ∧ P m ∧ ∀ k, (k < m)%nat → ¬ P k.
Proof.
  induction n as [n IH] using lt_wf_ind. intros Hn.
  destruct (decide (Exists P (seq 0 n))) as [Hex|Hno].
  - apply Exists_exists in Hex as (k & Hk & HPk). apply elem_of_seq in Hk.
    destruct (IH k) as (m & Hm & HPm & Hmin); [lia|done|]. exists m. split_and!; [lia|done|done].
  - exists n. split_and!; [done|done|]. intros k Hk HPk. apply Hno, Exists_exists.
    exists k. split; [apply elem_of_seq; lia|done].
Qed.

(** A delay in range ends at the first read after its ticks. *)
Lemma delay_in_range us w :
  0 ≤ us < 54926 →
  ∃ n, ticks_of (counter us) ≤ since (programmed us w) n ∧
    (∀ k, (k < n)%nat → since (programmed us w) k < ticks_of (counter us)) ∧
    ∀ fuel, (n < fuel)%nat → delay fuel us w = Val (Ok (), polls (S n) (programmed us w)).
Proof.
  intros Hus. destruct (programmed_timer us w) as [Hg Hr]; [lia|]. pose proof (ticks_of_pos us ltac:(lia)) as HT.
  set (w0 := programmed us w) in *. set (T := ticks_of (counter us)) in *.
  destruct (time_passes w0 (elapsed (timer_of w0) + T)) as [N HN].
  destruct (first_such (λ n, T ≤ since w0 n) N) as (n & _ & Hn & Hmin); [unfold since; lia|].
  exists n. split_and!; [done|intros k Hk; specialize (Hmin k Hk); lia|]. intros fuel Hf.
  unfold delay. rewrite (M_bind_run _ _ _ (Ok ()) w0).
  - apply (wait_until T); [done..| |done|done]. intros k Hk. specialize (Hmin k Hk). lia.
  - rewrite set_run by lia. by rewrite (proj2 (Z.leb_gt 54926 us)) by lia.
Qed.

(** [delay] never waits for ever: below 54926 microseconds it
    programs channel 2 with the microseconds' worth of ticks and, given enough
    iterations, returns [Ok], at the first read of the status port at which that
    many ticks have passed; from 54926 on it is refused before any port is
    touched.  A delay too short for one tick waits the longest, 2^16 ticks. *)
Theorem delay_ends us w :
  0 ≤ us < 2 ^ 16 →
  if 54926 <=? us then ∀ fuel, delay fuel us w = Val (Err OutOfRange, w)
  else ∃ n, ticks_of (counter us) ≤ since (programmed us w) n ∧
    (∀ k, (k < n)%nat → since (programmed us w) k < ticks_of (counter us)) ∧
    ∀ fuel, (n < fuel)%nat → delay fuel us w = Val (Ok (), polls (S n) (programmed us w)).
Proof.
  intros Hus. destruct (Z.leb_spec 54926 us) as [Hle|Hlt]; [|apply delay_in_range; lia].
  intros fuel. unfold delay. rewrite (M_bind_run _ _ _ (Err OutOfRange) w); [done|].
  rewrite set_run by done. by rewrite (proj2 (Z.leb_le 54926 us)).
Qed.
End Spec.
