(* ===== verification/Apic.v ===== *)
(** * The local APIC and core local data (src/kernel/src/apic.rs, smp.rs)

    The memory-mapped registers of the local interrupt controller, its timer,
    the inter-processor commands, and the data a core finds through its APIC
    id.  What the registers answer is an interface. *)

From S2P Require Import Prelude Constants Ports Bitfield Pit.

(** Volatile accesses to device memory. *)
Class Mmio (W : Type) := {
  read_volatile : Z → W → Z * W;
  write_volatile : Z → Z → W → W }.

(** The registers, with their offsets. *)
Module Offset.
Definition Id : Z := 0x20.
Definition Version : Z := 0x30.
Definition TaskPriority : Z := 0x80.
Definition ArbitrationPriority : Z := 0x90.
Definition ProcessorPriority : Z := 0xa0.
Definition EndOfInterrupt : Z := 0xb0.
Definition RemoteRead : Z := 0xc0.
Definition LocalDestination : Z := 0xd0.
Definition DestinationFormat : Z := 0xe0.
Definition SpuriousInterruptVector : Z := 0xf0.
Definition InService : Z := 0x100.
Definition TriggerMode : Z := 0x180.
Definition InterruptRequest : Z := 0x200.
Definition ErrorStatus : Z := 0x280.
Definition InterruptCommandLow : Z := 0x300.
Definition InterruptCommandHigh : Z := 0x310.
Definition TimerLocalVectorTableEntry : Z := 0x320.
Definition ThermalLocalVectorTableEntry : Z := 0x330.
Definition PerformanceCounterLocalVectorTableEntry : Z := 0x340.
Definition LocalInterrupt0VectorTableEntry : Z := 0x350.
Definition LocalInterrupt1VectorTableEntry : Z := 0x360.
Definition ErrorVectorTableEntry : Z := 0x370.
Definition TimerInitialCount : Z := 0x380.
Definition TimerCurrentCount : Z := 0x390.
Definition TimerDivideConfiguration : Z := 0x3e0.
Definition ExtendedApicFeature : Z := 0x400.
Definition ExtendedApicControl : Z := 0x410.
Definition SpecificEndOfInterrupt : Z := 0x420.
Definition InterruptEnable : Z := 0x480.
Definition ExtendedInterruptLocalVectorTable : Z := 0x500.
End Offset.

(** ** Inter-processor interrupt commands *)

Module ipi.
Section Commands.
Context `{Bitfield}.

(** The fields of [InterruptCommand]. *)
Definition set_interupt_vector := set_range 7 0.
Definition set_delivery_mode := set_range 10 8.
Definition set_destination_mode_logical := set_bit 11.
Definition delivery_status := get_bit 12.
Definition set_not_de_assert := set_bit 14.
Definition set_de_assert := set_bit 15.
Definition set_destination_type := set_range 19 18.
Definition lower := get_range 31 0.
Definition set_lower := set_range 31 0.
Definition upper := get_range 63 32.
Definition set_upper := set_range 63 32.

Definition create_send_init_cmd : Z :=
  let ic := set_interupt_vector 0 0 in
  let ic := set_delivery_mode 5 ic in
  let ic := set_destination_mode_logical false ic in
  let ic := set_de_assert false ic in
  let ic := set_not_de_assert true ic in
  set_destination_type 3 ic.

Definition create_startup_cmd (vector : Z) : Z :=
  let ic := set_interupt_vector vector 0 in
  let ic := set_delivery_mode 6 ic in
  let ic := set_destination_mode_logical false ic in
  let ic := set_de_assert false ic in
  let ic := set_not_de_assert true ic in
  set_destination_type 3 ic.
End Commands.
End ipi.

(** ** Core local data *)

Record RunningApplicationCLD := mkRunning {
  application_resources : Z; app_abort_addr : Z; app_saved_stack_pointer : Z }.

(** [F] are the timer callbacks, [Stuff] the attached objects. *)
Record CoreLocalData (F Stuff : Type) := mkCld {
  cld_running : option RunningApplicationCLD;
  cpu_index : Z;
  apic_timer_ticks_per_second : option Z;
  apic_timer_interrupt_function : option F;
  stuff : option Stuff }.
Arguments mkCld {_ _} _ _ _ _ _.
Arguments cld_running {_ _} _.
Arguments cpu_index {_ _} _.
Arguments apic_timer_ticks_per_second {_ _} _.
Arguments apic_timer_interrupt_function {_ _} _.
Arguments stuff {_ _} _.

Definition default_cld {F Stuff} (index : Z) : CoreLocalData F Stuff := mkCld None index None None None.

(** What a core sees: the devices, the [CORE_LOCAL] array, and
    [LOCAL_APIC_PTR]. *)
Record Sys (W F Stuff : Type) := mkSys {
  world : W;
  CORE_LOCAL : list (option (CoreLocalData F Stuff));
  LOCAL_APIC_PTR : option Z }.
Arguments mkSys {_ _ _} _ _ _.
Arguments world {_ _ _} _.
Arguments CORE_LOCAL {_ _ _} _.
Arguments LOCAL_APIC_PTR {_ _ _} _.

Section Apic.
Context `{Profile} `{Bitfield} {W F Stuff : Type} `{PortIo W} `{Mmio W}.

Notation SysM := (M (Sys W F Stuff)).

Definition put_world (w : W) (s : Sys W F Stuff) : Sys W F Stuff := mkSys w (CORE_LOCAL s) (LOCAL_APIC_PTR s).
Definition put_local (l : list (option (CoreLocalData F Stuff))) (s : Sys W F Stuff) : Sys W F Stuff :=
  mkSys (world s) l (LOCAL_APIC_PTR s).

Definition core_locals : SysM (list (option (CoreLocalData F Stuff))) := gets CORE_LOCAL.

Definition on_world {A} : M W A → SysM A := zoom world put_world.

(** [get_apic] and [try_get_apic]: the pointer to the registers. *)
Definition get_apic : SysM Z := gets LOCAL_APIC_PTR ≫= λ p, liftr (unwrap p).
Definition try_get_apic : SysM (option Z) := gets LOCAL_APIC_PTR.

(** [create]: [call_once] keeps the first pointer. *)
Definition create (local_apic_ptr : Z) : SysM () :=
  modify (λ s, mkSys (world s) (CORE_LOCAL s)
    (match LOCAL_APIC_PTR s with Some p => Some p | None => Some local_apic_ptr end)).

(** Register accesses; the pointer arithmetic wraps. *)
Definition offset (apic off : Z) : Z := (apic + off) `mod` 2 ^ 64.
Definition read (apic off : Z) : SysM Z := on_world (λ w, Val (read_volatile (offset apic off) w)).
Definition write (apic off v : Z) : SysM () := on_world (λ w, Val ((), write_volatile (offset apic off) v w)).

Definition id (apic : Z) : SysM Z :=
  read apic Offset.Id ≫= λ v, mret (Z.shiftr v 24 `mod` 256).

Definition signal_end_of_interrupt (apic : Z) : SysM () := write apic Offset.EndOfInterrupt 0.

(** The low word is written last: it triggers the command. *)
Definition write_interrupt_command (apic cmd : Z) : SysM () :=
  write apic Offset.InterruptCommandHigh (ipi.upper cmd `mod` 2 ^ 32) ≫= λ _,
  write apic Offset.InterruptCommandLow (ipi.lower cmd `mod` 2 ^ 32).

Definition read_interrupt_command (apic : Z) : SysM Z :=
  read apic Offset.InterruptCommandHigh ≫= λ high,
  read apic Offset.InterruptCommandLow ≫= λ low,
  let cmd := ipi.set_upper high 0 in
  mret (ipi.set_lower low cmd).

(** *** [smp]: core local data *)

Definition initialize_own_core_local_data (core_local_data : CoreLocalData F Stuff) : SysM () :=
  (get_apic ≫= id) ≫= λ apic_id,
  core_locals ≫= λ l,
  match l !! Z.to_nat apic_id with
  | None => λ _, Fault Bounds
  | Some (Some _) => mret ()
  | Some None => modify (put_local (<[Z.to_nat apic_id := Some core_local_data]> l))
  end.

(** The index of this core's data, and the data. *)
Definition get_cld : SysM (Z * CoreLocalData F Stuff) :=
  (get_apic ≫= id) ≫= λ apic_id,
  core_locals ≫= λ l,
  match l !! Z.to_nat apic_id with
  | None => λ _, Fault Bounds
  | Some o => liftr (unwrap o) ≫= λ c, mret (apic_id, c)
  end.

Definition try_get_cld : SysM (option (CoreLocalData F Stuff)) :=
  try_get_apic ≫= λ p,
  match p with
  | None => mret None
  | Some apic =>
      id apic ≫= λ apic_id,
      core_locals ≫= λ l,
      liftr (match l !! Z.to_nat apic_id with None => Fault Bounds | Some o => Val o end)
  end.

(** An assignment to a field through [get_cld]. *)
Definition update_cld (g : CoreLocalData F Stuff → CoreLocalData F Stuff) : SysM () :=
  get_cld ≫= λ '(i, c), core_locals ≫= λ l,
  modify (put_local (<[Z.to_nat i := Some (g c)]> l)).

Definition get_cpu_index : SysM Z := get_cld ≫= λ '(_, c), mret (cpu_index c).

Definition set_ticks (n : Z) (c : CoreLocalData F Stuff) : CoreLocalData F Stuff :=
  mkCld (cld_running c) (cpu_index c) (Some n) (apic_timer_interrupt_function c) (stuff c).
Definition set_function (f : F) (c : CoreLocalData F Stuff) : CoreLocalData F Stuff :=
  mkCld (cld_running c) (cpu_index c) (apic_timer_ticks_per_second c) (Some f) (stuff c).

(** *** The timer *)

Definition init_timer (fuel : nat) (apic : Z) : SysM () :=
  write apic Offset.TimerDivideConfiguration 3 ≫= λ _,
  write apic Offset.TimerInitialCount 0xffffffff ≫= λ _,
  on_world (delay fuel 50000) ≫= λ r,
  match r with Err _ => λ _, Fault Unwrap | Ok _ =>
  write apic Offset.TimerLocalVectorTableEntry (Z.shiftl 1 16) ≫= λ _,
  read apic Offset.TimerCurrentCount ≫= λ current,
  liftr (arith 32 (0xffffffff - current)) ≫= λ ticks_in_50ms,
  liftr (mul64 ticks_in_50ms 20) ≫= λ ticks_per_second,
  liftr (if ticks_per_second =? 0 then Fault Unwrap else Val ()) ≫= λ _,
  update_cld (set_ticks ticks_per_second)
  end.

Definition start_timer (apic interval_us : Z) (periodic : bool) (interrupt : F) : SysM (result () ()) :=
  update_cld (set_function interrupt) ≫= λ _,
  get_cld ≫= λ '(_, c),
  liftr (unwrap (apic_timer_ticks_per_second c)) ≫= λ ticks_per_second,
  liftr (mul64 ticks_per_second interval_us) ≫= λ p,
  let ticks_in_interval := p `div` 1000000 in
  if negb (ticks_in_interval <? 2 ^ 32) then mret (Err ()) else
  liftr (if periodic then ass (0 <? ticks_in_interval) else Val ()) ≫= λ _,
  write apic Offset.TimerLocalVectorTableEntry (Z.shiftl 1 16) ≫= λ _,
  write apic Offset.TimerLocalVectorTableEntry (Z.lor 32 (if periodic then 0x20000 else 0x40000)) ≫= λ _,
  write apic Offset.TimerDivideConfiguration 3 ≫= λ _,
  write apic Offset.TimerInitialCount ticks_in_interval ≫= λ _,
  mret (Ok ()).

Definition stop_timer (apic : Z) : SysM () :=
  write apic Offset.TimerLocalVectorTableEntry (Z.shiftl 1 16).

(** [Apic::init] and [init]. *)
Definition apic_init (fuel : nat) (apic : Z) : SysM () :=
  write apic Offset.TaskPriority 0 ≫= λ _,
  write apic Offset.SpuriousInterruptVector 0x11ff ≫= λ _,
  init_timer fuel apic.

Definition init (fuel : nat) : SysM () := get_apic ≫= apic_init fuel.

(** [interrupts::timer_interrupt]: the callback, then the end of interrupt. *)
Definition timer_interrupt (call : F → SysM ()) : SysM () :=
  get_cld ≫= λ '(_, c),
  (match apic_timer_interrupt_function c with Some callback => call callback | None => mret () end) ≫= λ _,
  get_apic ≫= signal_end_of_interrupt.

(** [startup_aps] *)
Definition startup_aps (fuel : nat) : SysM () :=
  get_apic ≫= λ apic,
  let init_cmd := ipi.create_send_init_cmd in
  let startup_cmd := ipi.create_startup_cmd 0 in
  write_interrupt_command apic init_cmd ≫= λ _,
  on_world (delay fuel 10000) ≫= λ r1,
  match r1 with Err _ => λ _, Fault Unwrap | Ok _ =>
  write_interrupt_command apic startup_cmd ≫= λ _,
  on_world (delay fuel 200) ≫= λ r2,
  match r2 with Err _ => λ _, Fault Unwrap | Ok _ =>
  write_interrupt_command apic startup_cmd
  end end.
End Apic.

(** ** Core local data and the timer *)

Arguments offset apic off : simpl never.

(** The APIC of the core that runs has id [i]; reading the id changes nothing. *)
Class CoreId {W} `{Mmio W} (apic i : Z) : Prop :=
  core_id w : ∃ low, 0 ≤ low < 2 ^ 24 ∧ 0 ≤ i < 256 ∧
    read_volatile (offset apic Offset.Id) w = (i * 2 ^ 24 + low, w).

Section Spec.
Context `{Profile} `{BitfieldLaws} {W F Stuff : Type} `{PortIo W} `{Mmio W} (apic i : Z) `{!CoreId apic i}.

Implicit Types (s : Sys W F Stuff) (c : CoreLocalData F Stuff).

(** The state in which this core finds its data [c]. *)
Definition at_core s c : Prop :=
  LOCAL_APIC_PTR s = Some apic ∧ CORE_LOCAL s !! Z.to_nat i = Some (Some c).

Lemma id_run s : id apic s = Val (i, s).
Proof.
  destruct (core_id (apic:=apic) (i:=i) (world s)) as (low & Hlow & Hi & Hr).
  unfold id, read, on_world, zoom. rewrite (M_bind_run _ _ _ (i * 2 ^ 24 + low) s).
  - unfold mret, M_ret. rewrite Z.shiftr_div_pow2, Z.div_add_l, (Z.div_small low), Z.mod_small by lia.
    repeat f_equal. lia.
  - rewrite Hr. by destruct s.
Qed.

Lemma own_id_run s : LOCAL_APIC_PTR s = Some apic → (get_apic ≫= id) s = Val (i, s).
Proof.
  intros Hp. rewrite (M_bind_run _ _ _ apic s); [apply id_run|].
  unfold get_apic. by rewrite (M_bind_run _ _ _ (Some apic) s) by (unfold gets; by rewrite Hp).
Qed.

Lemma get_cld_run s c : at_core s c → get_cld s = Val ((i, c), s).
Proof.
  intros [Hp Hc]. unfold get_cld. rewrite (M_bind_run _ _ _ _ _ (own_id_run s Hp)).
  rewrite (M_bind_run _ _ _ (CORE_LOCAL s) s) by done. by rewrite Hc.
Qed.

Definition with_cld s c : Sys W F Stuff := put_local (<[Z.to_nat i := Some c]> (CORE_LOCAL s)) s.

Lemma update_cld_run s c g : at_core s c → update_cld g s = Val ((), with_cld s (g c)).
Proof.
  intros Hc. unfold update_cld. rewrite (M_bind_run _ _ _ _ _ (get_cld_run s c Hc)).
  by rewrite (M_bind_run _ _ _ (CORE_LOCAL s) s).
Qed.

Lemma at_core_with s c c' : at_core s c → at_core (with_cld s c') c'.
Proof.
  intros [Hp Hc]. split; [done|]. cbn. apply list_lookup_insert_eq. by eapply lookup_lt_Some.
Qed.

Lemma write_run off v s :
  write apic off v s = Val ((), put_world (write_volatile (offset apic off) v (world s)) s).
Proof. done. Qed.

(** Programming the timer to [ticks]. *)
Definition timer_started (periodic : bool) (ticks : Z) (w : W) : W :=
  write_volatile (offset apic Offset.TimerInitialCount) ticks
    (write_volatile (offset apic Offset.TimerDivideConfiguration) 3
      (write_volatile (offset apic Offset.TimerLocalVectorTableEntry) (if periodic then 0x20020 else 0x40020)
        (write_volatile (offset apic Offset.TimerLocalVectorTableEntry) 0x10000 w))).

(** Starting a core's timer converts the interval with the
    core's own calibration and has three outcomes: an interval of 2^32 ticks or
    more is refused (the callback is installed nevertheless), a periodic timer
    of less than one tick panics, and otherwise the timer is masked, switched
    to vector 32 in the mode asked for with divider 16, and started last; only
    this core's data changes, and only its callback. *)
Theorem start_timer_spec s c tps interval_us periodic f :
  at_core s c → apic_timer_ticks_per_second c = Some tps →
  0 ≤ tps → 0 ≤ interval_us → tps * interval_us < 2 ^ 64 →
  start_timer apic interval_us periodic f s =
    let ticks := (tps * interval_us) `div` 1000000 in
    let s' := with_cld s (set_function f c) in
    if 2 ^ 32 <=? ticks then Val (Err (), s')
    else if periodic && (ticks =? 0) then Fault Assertion
    else Val (Ok (), put_world (timer_started periodic ticks (world s)) s').
Proof.
  intros Hc Htps H0t H0i Hlt. unfold start_timer.
  rewrite (M_bind_run _ _ _ _ _ (update_cld_run s c _ Hc)).
  pose proof (at_core_with s c (set_function f c) Hc) as Hc'.
  rewrite (M_bind_run _ _ _ _ _ (get_cld_run _ _ Hc')).
  rewrite (M_bind_run _ _ _ tps (with_cld s (set_function f c))) by (apply liftr_run; cbn; by rewrite Htps).
  rewrite (M_bind_run _ _ _ (tps * interval_us) (with_cld s (set_function f c))) by (apply liftr_run, mul64_in; nia).
  cbv zeta. assert (0 ≤ (tps * interval_us) `div` 1000000) as Ht by (apply Z.div_pos; nia).
  set (ticks := (tps * interval_us) `div` 1000000) in *. rewrite Z.leb_antisym.
  destruct (ticks <? 2 ^ 32); [|done]. cbn [negb].
  destruct periodic; cbn [andb]; [|done].
  destruct (Z.eqb_spec ticks 0) as [->|Hne]; [done|].
  rewrite (M_bind_run _ _ _ () (with_cld s (set_function f c))); [done|].
  apply liftr_run. by rewrite (proj2 (Z.ltb_lt 0 ticks)) by lia.
Qed.
End Spec.

(** ** Starting the application processors *)

Section Startup.
Context `{Profile} `{BitfieldLaws} {W F Stuff : Type} `{PitDevice W} `{Mmio W} (apic : Z).

(** Writing the command register: high word, then low word. *)
Definition command (cmd : Z) (w : W) : W :=
  write_volatile (offset apic Offset.InterruptCommandLow) (cmd `mod` 2 ^ 32)
    (write_volatile (offset apic Offset.InterruptCommandHigh) (cmd `div` 2 ^ 32) w).

Lemma init_cmd_val : ipi.create_send_init_cmd = 0xc4500.
Proof.
  unfold ipi.create_send_init_cmd, ipi.set_interupt_vector, ipi.set_delivery_mode, ipi.set_destination_mode_logical,
    ipi.set_de_assert, ipi.set_not_de_assert, ipi.set_destination_type, set_bit.
  rewrite (set_range_val 19 18), (set_range_val 14 14), (set_range_val 15 15), (set_range_val 11 11),
    (set_range_val 10 8), (set_range_val 7 0) by lia. by vm_compute.
Qed.

Lemma startup_cmd_val : ipi.create_startup_cmd 0 = 0xc4600.
Proof.
  unfold ipi.create_startup_cmd, ipi.set_interupt_vector, ipi.set_delivery_mode, ipi.set_destination_mode_logical,
    ipi.set_de_assert, ipi.set_not_de_assert, ipi.set_destination_type, set_bit.
  rewrite (set_range_val 19 18), (set_range_val 14 14), (set_range_val 15 15), (set_range_val 11 11),
    (set_range_val 10 8), (set_range_val 7 0) by lia. by vm_compute.
Qed.

Lemma words_of_command cmd : u64 cmd →
  ipi.upper cmd `mod` 2 ^ 32 = cmd `div` 2 ^ 32 ∧ ipi.lower cmd `mod` 2 ^ 32 = cmd `mod` 2 ^ 32.
Proof.
  intros Hc. unfold ipi.upper, ipi.lower, u64 in *. rewrite (get_range_val 63 32), (get_range_val 31 0) by lia. cbn [get_range ref_bitfield].
  change (Z.ones (63 - 32 + 1)) with (Z.ones 32). change (Z.ones (31 - 0 + 1)) with (Z.ones 32).
  rewrite !Z.land_ones, !Z.mod_mod, !Z.shiftr_div_pow2 by lia. split; [|by rewrite Z.div_1_r].
  apply Z.mod_small. split; [apply Z.div_pos|apply Z.div_lt_upper_bound]; lia.
Qed.

Lemma write_interrupt_command_run cmd (s : Sys W F Stuff) :
  u64 cmd → write_interrupt_command apic cmd s = Val ((), put_world (command cmd (world s)) s).
Proof.
  intros Hc. destruct (words_of_command cmd Hc) as [Hu Hl]. unfold write_interrupt_command.
  rewrite Hu, Hl. by destruct s.
Qed.

(** Starting the other processors ends, and sends them the
    sequence of the multiprocessor specification: INIT to all but this one,
    then, after 10 ms on the timer, STARTUP with vector 0 (the trampoline's
    page), and STARTUP again after 200 us more. *)
Theorem startup_aps_sends (s : Sys W F Stuff) :
  LOCAL_APIC_PTR s = Some apic →
  let w1 := programmed 10000 (command 0xc4500 (world s)) in
  ∃ n1, 11931 ≤ since w1 n1 ∧
  let w2 := programmed 200 (command 0xc4600 (polls (S n1) w1)) in
  ∃ n2, 238 ≤ since w2 n2 ∧
  ∀ fuel, (n1 + n2 < fuel)%nat →
    startup_aps fuel s = Val ((), put_world (command 0xc4600 (polls (S n2) w2)) s).
Proof.
  intros Hp w1. destruct (delay_in_range 10000 (command 0xc4500 (world s)) ltac:(lia)) as (n1 & Ht1 & _ & Hd1).
  exists n1. split; [exact Ht1|]. intros w2.
  destruct (delay_in_range 200 (command 0xc4600 (polls (S n1) w1)) ltac:(lia)) as (n2 & Ht2 & _ & Hd2).
  exists n2. split; [exact Ht2|]. intros fuel Hf. unfold startup_aps.
  rewrite (M_bind_run _ _ _ apic s).
  2:{ unfold get_apic. by rewrite (M_bind_run _ _ _ (Some apic) s) by (unfold gets; by rewrite Hp). }
  rewrite init_cmd_val, startup_cmd_val.
  erewrite M_bind_run by (by apply write_interrupt_command_run).
  erewrite (M_bind_run (on_world _)).
  2:{ unfold on_world, zoom. cbn [world put_world]. by rewrite Hd1 by lia. }
  cbv beta iota. erewrite M_bind_run by (by apply write_interrupt_command_run).
  erewrite (M_bind_run (on_world _)).
  2:{ unfold on_world, zoom. cbn [world put_world]. fold w1. by rewrite Hd2 by lia. }
  cbv beta iota. rewrite write_interrupt_command_run by done. done.
Qed.
End Startup.
