(* ===== verification/DeviceDemo.v ===== *)
(** * A small machine: timer and interrupt controller

    A timer that advances 1000 ticks with every poll, and device memory that
    holds what is written except for the id register, at which the theorems on delays, the APIC timer and
    the start of the processors are instantiated. *)

From S2P Require Import Prelude Ports Bitfield Pit Apic.

#[local] Existing Instance dev_profile.

Record machine := mkWorld { w_timer : timer; w_mmio : gmap Z Z }.

Definition status (t : timer) : Z := Z.b2z (gate t) + 32 * Z.b2z (expired t).

#[export] Instance demo_ports : PortIo machine := {|
  inb p w := if p =? 0x61 then (status (w_timer w), mkWorld (timer_tick 1000 (w_timer w)) (w_mmio w)) else (0, w);
  outb p v w := mkWorld (timer_write p v (w_timer w)) (w_mmio w) |}.

#[export] Instance demo_mmio : Mmio machine := {|
  read_volatile a w := (if a =? 0xfee00020 then 5 * 2 ^ 24 else default 0 (w_mmio w !! a), w);
  write_volatile a v w := mkWorld (w_timer w) (<[a := v]> (w_mmio w)) |}.

Lemma demo_polls n w : elapsed (w_timer (polls n w)) = elapsed (w_timer w) + 1000 * Z.of_nat n.
Proof.
  induction n as [|n IH]; [cbn; lia|]. rewrite polls_S.
  change (w_timer (snd (inb 0x61 (polls n w)))) with (timer_tick 1000 (w_timer (polls n w))).
  unfold timer_tick. destruct (gate _); cbn [elapsed]; rewrite IH; lia.
Qed.

#[export] Instance demo_pit : PitDevice machine.
Proof.
  refine {| timer_of := w_timer; wait_time _ := 1000 |}.
  - done.
  - intros w. split_and!; [lia|done| |]; cbn; unfold status.
    + by destruct (gate _), (expired _).
    + by destruct (gate _), (expired _).
  - intros w t. exists (Z.to_nat (t - elapsed (w_timer w))). rewrite demo_polls. lia.
Defined.

Definition idle : machine := mkWorld (mkTimer false 0 None None 0) ∅.

Lemma delay_ends_witness :
  ∃ n, ticks_of (counter 10000) ≤ since (programmed 10000 idle) n ∧
    ∀ fuel, (n < fuel)%nat → delay fuel 10000 idle = Val (Ok (), polls (S n) (programmed 10000 idle)).
Proof.
  destruct (delay_ends 10000 idle ltac:(lia)) as (n & Hn & _ & Hf).
  exists n. split; [exact Hn|exact Hf].
Defined.

(** ** The APIC *)

Definition demo_apic : Z := 0xfee00000.
Notation DemoSys := (Sys machine nat ()).

Definition core5 : CoreLocalData nat () := mkCld None 1 (Some 62500000) None None.
Definition demo_sys : DemoSys := mkSys idle (<[5%nat := Some core5]> (replicate 256 None)) (Some demo_apic).

Lemma startup_aps_sends_witness :
  ∃ n1 n2, 11931 ≤ since (programmed 10000 (command demo_apic 0xc4500 idle)) n1 ∧
    ∀ fuel, (n1 + n2 < fuel)%nat → is_val (startup_aps fuel demo_sys) = true.
Proof.
  destruct (startup_aps_sends demo_apic demo_sys eq_refl) as (n1 & H1 & n2 & H2 & Hf).
  exists n1, n2. split; [exact H1|]. intros fuel Hfuel. by rewrite (Hf fuel Hfuel).
Defined.

#[export] Instance demo_core_id : CoreId demo_apic 5.
Proof. intros w. exists 0. split_and!; [lia|lia|lia|lia|reflexivity]. Qed.

(** A 62.5 MHz timer, 30 ms: 1875000 ticks. *)
Lemma start_timer_spec_witness :
  start_timer demo_apic 30000 true 7%nat demo_sys =
    Val (Ok (), put_world (timer_started demo_apic true 1875000 idle) (with_cld 5 demo_sys (set_function 7%nat core5))).
Proof.
  rewrite (start_timer_spec demo_apic 5 demo_sys core5 62500000 30000 true 7%nat); [reflexivity| |done|lia..].
  split; reflexivity.
Defined.
