(* ===== verification/TimerTest.v ===== *)
(** * Counting timer interrupts (src/kernel/src/common_main.rs)

    [timer_test]: a core starts its periodic timer with a callback that counts
    in an object of the core local data, and waits until it has counted to five.
    Interrupts arrive between two looks at the counter, as many as [irqs] says. *)

From S2P Require Import Prelude Constants Ports Bitfield Pit Apic.

(** The objects behind [Box<dyn Any>], and the callbacks of the timer. *)
Inductive Any := AtomicU64 (n : Z) | OtherObject.
Inductive callback := count_interrupts | request_frame.

Section TimerTest.
Context `{Profile} `{Bitfield} {W : Type} `{PortIo W} `{Mmio W}.

Notation SysM := (M (Sys W callback (list Any))).

Definition set_stuff (v : list Any) (c : CoreLocalData callback (list Any)) : CoreLocalData callback (list Any) :=
  mkCld (cld_running c) (cpu_index c) (apic_timer_ticks_per_second c) (apic_timer_interrupt_function c) (Some v).

(** [stuff.as_mut().unwrap()] *)
Definition get_stuff : SysM (list Any) := get_cld ≫= λ '(_, c), liftr (unwrap (stuff c)).

(** [stuff[0].downcast_ref().unwrap()] *)
Definition first_counter : SysM Z :=
  get_stuff ≫= λ v,
  liftr (match v with
         | [] => Fault Bounds
         | AtomicU64 n :: _ => Val n
         | OtherObject :: _ => Fault Unwrap
         end).

(** [common_main::timer_interrupt] *)
Definition count_interrupt : SysM () :=
  first_counter ≫= λ n,
  get_stuff ≫= λ v,
  update_cld (set_stuff (<[0%nat := AtomicU64 ((n + 1) `mod` 2 ^ 64)]> v)).

(** Core 0 has another callback later, which touches none of this. *)
Definition call_back (f : callback) : SysM () :=
  match f with count_interrupts => count_interrupt | request_frame => mret () end.

(** [n] interrupts of the timer. *)
Fixpoint interrupts (n : nat) : SysM () :=
  match n with O => mret () | S n' => timer_interrupt call_back ≫= λ _, interrupts n' end.

(** The loop, with the counts that it logs. *)
Fixpoint wait_for_five (fuel : nat) (irqs : nat → nat) (last_count : Z) (logged : list Z) : SysM (list Z) :=
  match fuel with
  | O => λ _, Fault NoFuel
  | S f =>
      interrupts (irqs 0%nat) ≫= λ _,
      first_counter ≫= λ count,
      (if last_count <? count
       then liftr (add64 last_count 1) ≫= λ last, mret (last, logged ++ [count])
       else mret (last_count, logged)) ≫= λ '(last, logged'),
      if 5 <=? count then mret logged' else wait_for_five f (irqs ∘ S) last logged'
  end.

Definition timer_test (fuel : nat) (irqs : nat → nat) : SysM (list Z) :=
  update_cld (set_stuff []) ≫= λ _,
  get_stuff ≫= λ v,
  update_cld (set_stuff (v ++ [AtomicU64 0])) ≫= λ _,
  get_apic ≫= λ apic,
  get_cpu_index ≫= λ index,
  liftr (arith 32 (index `mod` 2 ^ 32 + 1)) ≫= λ i1,
  liftr (arith 32 (200000 * i1)) ≫= λ interval,
  start_timer apic interval true count_interrupts ≫= λ r,
  match r with
  | Err _ => λ _, Fault Unwrap
  | Ok _ => wait_for_five fuel irqs 0 []
  end.
End TimerTest.

Section Spec.
Context `{Profile} `{BitfieldLaws} {W : Type} `{PortIo W} `{Mmio W} (apic i : Z) `{!CoreId apic i}.

Implicit Types (s : Sys W callback (list Any)) (c : CoreLocalData callback (list Any)).

(** The core counts: its timer calls the counter, which is at [n]. *)
Definition counting s c (n : Z) : Prop :=
  at_core apic i s c ∧ apic_timer_interrupt_function c = Some count_interrupts ∧ stuff c = Some [AtomicU64 n].

(** One more end of interrupt. *)
Definition signalled (w : W) : W := write_volatile (offset apic Offset.EndOfInterrupt) 0 w.

(** The state after [k] interrupts. *)
Definition after_irqs s c (n : Z) (k : nat) : Sys W callback (list Any) :=
  with_cld i (put_world (Nat.iter k signalled (world s)) s) (set_stuff [AtomicU64 (n + Z.of_nat k)] c).

Lemma get_stuff_run s c v : at_core apic i s c → stuff c = Some v → get_stuff s = Val (v, s).
Proof.
  intros Hc Hv. unfold get_stuff. rewrite (M_bind_run _ _ _ _ _ (get_cld_run apic i s c Hc)).
  apply liftr_run. by rewrite Hv.
Qed.

Lemma first_counter_run s c n : counting s c n → first_counter s = Val (n, s).
Proof.
  intros (Hc & _ & Hs). unfold first_counter. by rewrite (M_bind_run _ _ _ _ _ (get_stuff_run s c _ Hc Hs)).
Qed.

(** An interrupt is counted, and the controller told. *)
Lemma interrupt_run s c n :
  counting s c n → 0 ≤ n < 2 ^ 64 - 1 →
  timer_interrupt call_back s = Val ((), after_irqs s c n 1) ∧
  counting (after_irqs s c n 1) (set_stuff [AtomicU64 (n + 1)] c) (n + 1).
Proof.
  intros Hcnt Hn. pose proof Hcnt as (Hc & Hf & Hs). unfold timer_interrupt.
  rewrite (M_bind_run _ _ _ _ _ (get_cld_run apic i s c Hc)). rewrite Hf. cbn [call_back].
  assert (count_interrupt s = Val ((), with_cld i s (set_stuff [AtomicU64 (n + 1)] c))) as Hci.
  { unfold count_interrupt. rewrite (M_bind_run _ _ _ _ _ (first_counter_run s c n Hcnt)).
    rewrite (M_bind_run _ _ _ _ _ (get_stuff_run s c _ Hc Hs)). cbn [insert list_insert].
    rewrite Z.mod_small by lia. by apply (update_cld_run apic i). }
  rewrite (M_bind_run _ _ _ _ _ Hci). pose proof (at_core_with apic i s c (set_stuff [AtomicU64 (n + 1)] c) Hc) as Hc'.
  split; [|split_and!; [done|done|done]].
  set (s1 := with_cld i s _) in *.
  assert (get_apic s1 = Val (apic, s1)) as Hap.
  { unfold get_apic. by rewrite (M_bind_run _ _ _ (Some apic) s1) by (unfold gets; by rewrite (proj1 Hc')). }
  by rewrite (M_bind_run _ _ _ _ _ Hap).
Qed.

Lemma interrupts_run k s c n :
  counting s c n → 0 ≤ n → n + Z.of_nat k < 2 ^ 64 →
  interrupts k s = Val ((), after_irqs s c n k) ∧
  counting (after_irqs s c n k) (set_stuff [AtomicU64 (n + Z.of_nat k)] c) (n + Z.of_nat k).
Proof.
  revert s c n. induction k as [|k IH]; intros s c n Hcnt Hn Hk.
  - pose proof Hcnt as ([Hp Hc] & Hf & Hs). assert (set_stuff [AtomicU64 n] c = c) as Hsame by (unfold set_stuff; rewrite <-Hs; by destruct c).
    assert (after_irqs s c n 0 = s) as Heq.
    { unfold after_irqs. rewrite Z.add_0_r, Hsame. cbn. unfold with_cld, put_local, put_world. cbn.
      rewrite list_insert_id by done. by destruct s. }
    rewrite Heq, Z.add_0_r, Hsame. done.
  - destruct (interrupt_run s c n Hcnt) as [Hr1 Hc1]; [lia|].
    destruct (IH _ _ _ Hc1) as [Hr Hc']; [lia|lia|]. cbn [interrupts]. rewrite (M_bind_run _ _ _ _ _ Hr1), Hr.
    assert (after_irqs (after_irqs s c n 1) (set_stuff [AtomicU64 (n + 1)] c) (n + 1) k = after_irqs s c n (S k)) as Heq.
    { unfold after_irqs, with_cld, put_local, put_world. cbn [world CORE_LOCAL LOCAL_APIC_PTR].
      rewrite list_insert_insert_eq. f_equal; [symmetry; apply Nat.iter_succ_r|].
      replace (n + 1 + Z.of_nat k) with (n + Z.of_nat (S k)) by lia. done. }
    rewrite Heq in *. replace (n + 1 + Z.of_nat k) with (n + Z.of_nat (S k)) in Hc' by lia. split; [done|].
    exact Hc'.
Qed.
(** The interrupts that arrive before look number [m] at the counter. *)
Fixpoint arrived (irqs : nat → nat) (m : nat) : nat :=
  match m with O => irqs 0%nat | S m' => (irqs 0%nat + arrived (irqs ∘ S) m')%nat end.

(** What the loop logs: a count that is higher than the number of lines before. *)
Definition lines_ok (total : Z) (logged : list Z) : Prop :=
  ∀ j x, logged !! j = Some x → Z.of_nat j < x ≤ total.

Lemma lines_snoc total total' logged x :
  lines_ok total logged → Z.of_nat (length logged) < x → x ≤ total' → total ≤ total' → lines_ok total' (logged ++ [x]).
Proof.
  intros Hl Hx Hxt Ht j y [Hj|[Hj Hy]]%lookup_app_Some; [specialize (Hl j y Hj); lia|].
  apply list_lookup_singleton_Some in Hy as [? <-]. lia.
Qed.

(** The state changes of interrupts add up. *)
Lemma after_irqs_add s c n k1 k2 :
  after_irqs (after_irqs s c n k1) (set_stuff [AtomicU64 (n + Z.of_nat k1)] c) (n + Z.of_nat k1) k2 =
  after_irqs s c n (k1 + k2).
Proof.
  unfold after_irqs, with_cld, put_local, put_world. cbn [world CORE_LOCAL LOCAL_APIC_PTR].
  rewrite list_insert_insert_eq. f_equal; [by rewrite Nat.add_comm, Nat.iter_add|].
  by replace (n + Z.of_nat k1 + Z.of_nat k2) with (n + Z.of_nat (k1 + k2)) by lia.
Qed.

Lemma wait_run m irqs s c n logged :
  counting s c n → 0 ≤ n → Z.of_nat (length logged) ≤ n → lines_ok n logged →
  (∀ j, (j < m)%nat → n + Z.of_nat (arrived irqs j) < 5) →
  5 ≤ n + Z.of_nat (arrived irqs m) < 2 ^ 64 → n < 5 →
  ∃ logged', (length logged' ≤ 5)%nat ∧ last logged' = Some (n + Z.of_nat (arrived irqs m)) ∧
    lines_ok (n + Z.of_nat (arrived irqs m)) logged' ∧
    ∀ fuel, (m < fuel)%nat →
      wait_for_five fuel irqs (Z.of_nat (length logged)) logged s = Val (logged', after_irqs s c n (arrived irqs m)).
Proof.
  revert irqs s c n logged. induction m as [|m IH]; intros irqs s c n logged Hcnt Hn Hlen Hl Hlt Htot H5;
    cbn [arrived] in Htot |- *.
  - destruct (interrupts_run (irqs 0%nat) s c n Hcnt Hn) as [Hr Hc']; [lia|].
    exists (logged ++ [n + Z.of_nat (irqs 0%nat)]). split_and!.
    + rewrite length_app. cbn. lia.
    + by rewrite last_snoc.
    + by apply (lines_snoc n); [|lia..].
    + intros [|fuel] Hf; [lia|]. cbn [wait_for_five]. rewrite (M_bind_run _ _ _ _ _ Hr).
      rewrite (M_bind_run _ _ _ _ _ (first_counter_run _ _ _ Hc')).
      rewrite (proj2 (Z.ltb_lt _ _)) by lia. rewrite add64_in by lia.
      cbn. by rewrite (proj2 (Z.leb_le _ _)) by lia.
  - pose proof (Hlt 0%nat ltac:(lia)) as Hfirst. cbn in Hfirst.
    destruct (interrupts_run (irqs 0%nat) s c n Hcnt Hn) as [Hr Hc']; [lia|].
    set (n1 := n + Z.of_nat (irqs 0%nat)) in *.
    set (logged1 := if Z.of_nat (length logged) <? n1 then logged ++ [n1] else logged).
    assert (Z.of_nat (length logged1) ≤ n1 ∧ lines_ok n1 logged1) as [Hlen1 Hl1].
    { unfold logged1. destruct (Z.ltb_spec (Z.of_nat (length logged)) n1).
      - rewrite length_app. cbn. split; [lia|]. apply (lines_snoc n); [done|lia..].
      - split; [lia|]. intros j x Hj. specialize (Hl j x Hj). lia. }
    destruct (IH (irqs ∘ S) _ _ n1 logged1 Hc') as (logged' & ? & Hlast & Hl' & Hrun); [lia|done|done| |lia|lia|].
    { intros j Hj. specialize (Hlt (S j) ltac:(lia)). cbn in Hlt. lia. }
    replace (n1 + Z.of_nat (arrived (irqs ∘ S) m)) with (n + Z.of_nat (irqs 0%nat + arrived (irqs ∘ S) m)) in * by lia.
    exists logged'. split_and!; [done..|]. intros [|fuel] Hf; [lia|]. cbn [wait_for_five].
    rewrite (M_bind_run _ _ _ _ _ Hr), (M_bind_run _ _ _ _ _ (first_counter_run _ _ _ Hc')).
    fold n1. rewrite (M_bind_run _ _ _ (Z.of_nat (length logged1), logged1) (after_irqs s c n (irqs 0%nat))).
    + rewrite (proj2 (Z.leb_gt 5 n1)) by lia. rewrite Hrun by lia. by rewrite after_irqs_add.
    + unfold logged1. destruct (Z.ltb_spec (Z.of_nat (length logged)) n1); [|done].
      rewrite add64_in by lia. cbn. rewrite length_app. cbn. by replace (Z.of_nat (length logged + 1)) with (Z.of_nat (length logged) + 1) by lia.
Qed.

(** The state of the core when its timer runs with a counter at zero. *)
Definition timer_running s c (ticks : Z) : Sys W callback (list Any) :=
  put_world (timer_started apic true ticks (world s)) (with_cld i s (set_function count_interrupts (set_stuff [AtomicU64 0] c))).

(** The timer test ends as soon as five interrupts of the core's timer have
    arrived, however they fall between its looks at the counter: no interrupt
    is lost and each is acknowledged, the counter ends at their number, and at
    most five lines are logged, the last of which shows it. *)
Theorem timer_test_ends s c tps irqs m :
  at_core apic i s c → apic_timer_ticks_per_second c = Some tps → 0 ≤ tps →
  0 ≤ cpu_index c → 200000 * (cpu_index c + 1) < 2 ^ 32 →
  tps * (200000 * (cpu_index c + 1)) < 2 ^ 64 →
  let ticks := (tps * (200000 * (cpu_index c + 1))) `div` 1000000 in
  0 < ticks < 2 ^ 32 →
  (∀ j, (j < m)%nat → (arrived irqs j < 5)%nat) → 5 ≤ Z.of_nat (arrived irqs m) < 2 ^ 64 →
  ∃ logged, (length logged ≤ 5)%nat ∧ last logged = Some (Z.of_nat (arrived irqs m)) ∧
    lines_ok (Z.of_nat (arrived irqs m)) logged ∧
    ∀ fuel, (m < fuel)%nat →
      timer_test fuel irqs s =
        Val (logged, after_irqs (timer_running s c ticks) (set_function count_interrupts c) 0 (arrived irqs m)).
Proof.
  intros Hc Htps Hpos Hid Hidx Hmul ticks Hticks Hbefore Htot.
  set (c2 := set_stuff [AtomicU64 0] c). set (s2 := with_cld i s c2).
  pose proof (at_core_with apic i s c c2 Hc) as Hc2. fold s2 in Hc2.
  set (c3 := set_function count_interrupts c2).
  assert (counting (timer_running s c ticks) c3 0) as Hcnt.
  { split_and!; [|done|done]. by apply (at_core_with apic i s c). }
  destruct (wait_run m irqs _ c3 0 [] Hcnt) as (logged & ? & ? & ? & Hrun); [done|done|by intros ? ?| |lia|done|].
  { intros j Hj. specialize (Hbefore j Hj). lia. }
  exists logged. split_and!; [done..|]. intros fuel Hf. unfold timer_test.
  rewrite (M_bind_run _ _ _ _ _ (update_cld_run apic i s c _ Hc)).
  pose proof (at_core_with apic i s c (set_stuff [] c) Hc) as Hc1. set (s1 := with_cld i s (set_stuff [] c)) in *.
  rewrite (M_bind_run _ _ _ _ _ (get_stuff_run s1 _ [] Hc1 eq_refl)).
  rewrite (M_bind_run _ _ _ () s2).
  2:{ rewrite (update_cld_run apic i s1 _ _ Hc1). unfold s2, s1, with_cld, put_local. cbn. by rewrite list_insert_insert_eq. }
  rewrite (M_bind_run _ _ _ apic s2).
  2:{ unfold get_apic. by rewrite (M_bind_run _ _ _ (Some apic) s2) by (unfold gets; by rewrite (proj1 Hc2)). }
  rewrite (M_bind_run _ _ _ (cpu_index c) s2).
  2:{ unfold get_cpu_index. by rewrite (M_bind_run _ _ _ _ _ (get_cld_run apic i s2 c2 Hc2)). }
  rewrite Z.mod_small by lia. m_step. m_step.
  rewrite (M_bind_run _ _ _ (Ok ()) (timer_running s c ticks)); [by rewrite Hrun|].
  rewrite (start_timer_spec apic i s2 c2 tps _ true count_interrupts Hc2 Htps) by lia. cbv zeta. fold ticks.
  rewrite (proj2 (Z.leb_gt _ _)), (proj2 (Z.eqb_neq _ _)) by lia. cbn [andb].
  unfold timer_running, s2, with_cld, put_local, put_world. cbn. by rewrite list_insert_insert_eq.
Qed.
End Spec.
