(* ===== verification/TimerTestDemo.v ===== *)
(** * The timer test on a small machine

    [timer_test] on the machine of [DeviceDemo], with two, one and three
    interrupts before the first looks at the counter. *)

From S2P Require Import Prelude Ports Bitfield Pit Apic DeviceDemo TimerTest.

#[local] Existing Instance dev_profile.

Definition core5 : CoreLocalData callback (list Any) := mkCld None 1 (Some 62500000) None None.
Definition test_sys : Sys machine callback (list Any) :=
  mkSys idle (<[5%nat := Some core5]> (replicate 256 None)) (Some demo_apic).

Definition irqs (k : nat) : nat := nth k [2; 1; 3]%nat 0%nat.

Lemma timer_test_ends_witness :
  ∃ logged, last logged = Some 6 ∧
    timer_test 3 irqs test_sys =
      Val (logged, after_irqs demo_apic 5 (timer_running demo_apic 5 test_sys core5 25000000)
        (set_function count_interrupts core5) 0 6).
Proof.
  destruct (timer_test_ends demo_apic 5 test_sys core5 62500000 irqs 2) as (logged & _ & Hlast & _ & Hrun).
  - split; reflexivity.
  - reflexivity.
  - lia.
  - by vm_compute.
  - by vm_compute.
  - by vm_compute.
  - by vm_compute.
  - intros [|[|j]] Hj; cbn; lia.
  - by vm_compute.
  - exists logged. split; [exact Hlast|]. apply Hrun. lia.
Defined.

(** The lines: the first counts two, the second three, the last all six. *)
Example timer_test_lines :
  match timer_test 3 irqs test_sys with Val (logged, _) => logged | Fault _ => [] end = [2; 3; 6].
Proof. by vm_compute. Qed.
