(* ===== verification/Pic.v ===== *)
(** * The legacy interrupt controllers (src/kernel/src/interrupts.rs)

    [remap_and_disable_pic] programs the two 8259 controllers.  The ports are an
    interface; the controllers behind them are described by [PicDevice], from
    the data sheet. *)

From S2P Require Import Prelude Ports.

Section Driver.
Context {W : Type} `{PortIo W}.

Definition remap_and_disable_pic (offset1 offset2 : Z) : M W () :=
  let pic1_cmd := port_write 0x20 in
  let pic1_data := port_write 0x21 in
  let pic2_cmd := port_write 0xa0 in
  let pic2_data := port_write 0xa1 in
  let wait_port := port_write 0x80 in
  pic1_cmd 0x11 ≫= λ _,
  wait_port 0 ≫= λ _,
  pic2_cmd 0x11 ≫= λ _,
  wait_port 0 ≫= λ _,
  pic1_data offset1 ≫= λ _,
  wait_port 0 ≫= λ _,
  pic2_data offset2 ≫= λ _,
  wait_port 0 ≫= λ _,
  pic1_data 4 ≫= λ _,
  wait_port 0 ≫= λ _,
  pic2_data 2 ≫= λ _,
  wait_port 0 ≫= λ _,
  pic1_data 1 ≫= λ _,
  wait_port 0 ≫= λ _,
  pic2_data 1 ≫= λ _,
  wait_port 0 ≫= λ _,
  pic1_data 0xff ≫= λ _,
  pic2_data 0xff.
End Driver.

(** ** The device *)

(** The word an 8259 expects next on its data port. *)
Inductive stage := Icw2 | Icw3 | Icw4 | Operating.

Record pic := mkPic {
  pic_stage : stage;
  wants_icw4 : bool; single : bool;
  vector_base : Z; cascade : Z; mode_8086 : bool;
  imr : Z }.                                    (** the mask, one bit per line *)

(** A command with bit 4 set is ICW1: it restarts the initialisation and clears
    the mask.  Other commands do not change this state. *)
Definition pic_command (v : Z) (p : pic) : pic :=
  if Z.testbit v 4
  then mkPic Icw2 (Z.testbit v 0) (Z.testbit v 1) (vector_base p) (cascade p) (mode_8086 p) 0
  else p.

Definition after_icw3 (p : pic) : stage := if wants_icw4 p then Icw4 else Operating.

(** A write to the data port; the low three bits of ICW2 are ignored. *)
Definition pic_data (v : Z) (p : pic) : pic :=
  match pic_stage p with
  | Icw2 => mkPic (if single p then after_icw3 p else Icw3) (wants_icw4 p) (single p)
              (8 * (v `div` 8)) (cascade p) (mode_8086 p) (imr p)
  | Icw3 => mkPic (after_icw3 p) (wants_icw4 p) (single p) (vector_base p) v (mode_8086 p) (imr p)
  | Icw4 => mkPic Operating (wants_icw4 p) (single p) (vector_base p) (cascade p) (Z.testbit v 0) (imr p)
  | Operating => mkPic Operating (wants_icw4 p) (single p) (vector_base p) (cascade p) (mode_8086 p) v
  end.

(** The vector of line [n], unless the line is masked. *)
Definition delivers (p : pic) (n : Z) : option Z :=
  if Z.testbit (imr p) n then None else Some (vector_base p + n).

(** The primary and the secondary controller. *)
Definition pics_write (port v : Z) (ps : pic * pic) : pic * pic :=
  if port =? 0x20 then (pic_command v (fst ps), snd ps)
  else if port =? 0x21 then (pic_data v (fst ps), snd ps)
  else if port =? 0xa0 then (fst ps, pic_command v (snd ps))
  else if port =? 0xa1 then (fst ps, pic_data v (snd ps))
  else ps.

Class PicDevice (W : Type) `{PortIo W} := {
  pics_of : W → pic * pic;
  pics_outb p v w : p ∈ [0x20; 0x21; 0xa0; 0xa1; 0x80] → pics_of (outb p v w) = pics_write p v (pics_of w) }.

Section Spec.
Context {W : Type} `{PicDevice W}.

(** The controllers once they are programmed. *)
Definition remapped_pic (base cascade : Z) : pic := mkPic Operating true false base cascade true 0xff.

(** Whatever the controllers were doing before, even in the
    middle of another initialisation, [remap_and_disable_pic] leaves them
    initialised: cascaded on line 2, in 8086 mode, with the vectors it was
    given, and with every line masked, so that no legacy interrupt is
    delivered on the vector of an exception, or at all. *)
Theorem remap_and_disable_pic_spec offset1 offset2 (w : W) :
  (8 | offset1) → (8 | offset2) →
  ∃ w', remap_and_disable_pic offset1 offset2 w = Val ((), w') ∧
    pics_of w' = (remapped_pic offset1 4, remapped_pic offset2 2) ∧
    ∀ n, 0 ≤ n < 8 → delivers (fst (pics_of w')) n = None ∧ delivers (snd (pics_of w')) n = None.
Proof.
  intros [k1 ->] [k2 ->]. eexists. split; [done|]. match goal with |- pics_of ?w' = _ ∧ _ => set (w1 := w') end.
  assert (pics_of w1 = (remapped_pic (k1 * 8) 4, remapped_pic (k2 * 8) 2)) as ->.
  - unfold w1. rewrite !pics_outb by (repeat (left || right)).
    destruct (pics_of w) as [p1 p2]. cbn -[Z.mul Z.div]. unfold remapped_pic.
    rewrite !Z.div_mul by lia. by rewrite !(Z.mul_comm 8).
  - split; [done|]. intros n Hn. unfold delivers. cbn.
    assert (Z.testbit 255 n = true) as Hb by (apply (Z.ones_spec_low 8); lia).
    change (Z.pos 255) with 255. by rewrite Hb.
Qed.
End Spec.
