(* ===== verification/Interrupts.v ===== *)
(** * Interrupt handlers and descriptor tables (src/kernel/src/interrupts.rs)

    The interrupt descriptor table and what its handlers do, and the descriptor
    tables each core loads.  A gate is a handler and, for the double fault, the
    stack it switches to. *)

From Stdlib Require Import String.
From stdpp Require Import strings.
From S2P Require Import Prelude Format Constants Ports Serial Bitfield Pit Apic.

#[local] Open Scope string_scope.
#[local] Open Scope list_scope.
#[local] Open Scope Z_scope.

(** ** The interrupt descriptor table *)

(** The handlers made by the two macros carry the name of their exception. *)
Inductive handler :=
  | interrupt_handler (name : string)           (** [interrupt_handler___!] *)
  | interrupt_handler_ec (name : string)        (** [interrupt_handler_ec!] *)
  | page_fault_handler | double_fault_handler | timer_interrupt_handler | breakpoint_handler.

#[export] Instance handler_eq_dec : EqDecision handler.
Proof. solve_decision. Defined.

Record gate := mkGate { gate_handler : handler; gate_stack : option nat }.

(** The vectors of the exceptions, as the architecture numbers them. *)
Module vector.
Definition divide_error : Z := 0.
Definition debug : Z := 1.
Definition non_maskable_interrupt : Z := 2.
Definition breakpoint : Z := 3.
Definition overflow : Z := 4.
Definition bound_range_exceeded : Z := 5.
Definition invalid_opcode : Z := 6.
Definition device_not_available : Z := 7.
Definition double_fault : Z := 8.
Definition invalid_tss : Z := 10.
Definition segment_not_present : Z := 11.
Definition stack_segment_fault : Z := 12.
Definition general_protection_fault : Z := 13.
Definition page_fault : Z := 14.
Definition x87_floating_point : Z := 16.
Definition alignment_check : Z := 17.
Definition machine_check : Z := 18.
Definition simd_floating_point : Z := 19.
Definition virtualization : Z := 20.
Definition cp_protection_exception : Z := 21.
Definition hv_injection_exception : Z := 28.
Definition vmm_communication_exception : Z := 29.
Definition security_exception : Z := 30.
End vector.

Definition set_handler_fn (v : Z) (h : handler) : gmap Z gate → gmap Z gate := <[v := mkGate h None]>.

Definition IDT : gmap Z gate :=
  let plain v name := set_handler_fn v (interrupt_handler name) in
  let ec v name := set_handler_fn v (interrupt_handler_ec name) in
  let idt := ∅ in
  let idt := ec vector.alignment_check "alignment_check" idt in
  let idt := plain vector.bound_range_exceeded "bound_range_exceeded" idt in
  let idt := ec vector.cp_protection_exception "cp_protection_exception" idt in
  let idt := plain vector.device_not_available "device_not_available" idt in
  let idt := plain vector.divide_error "divide_error" idt in
  let idt := ec vector.general_protection_fault "general_protection_fault" idt in
  let idt := plain vector.hv_injection_exception "hv_injection_exception" idt in
  let idt := plain vector.invalid_opcode "invalid_opcode" idt in
  let idt := ec vector.invalid_tss "invalid_tss" idt in
  let idt := plain vector.non_maskable_interrupt "non_maskable_interrupt" idt in
  let idt := plain vector.overflow "overflow" idt in
  let idt := ec vector.security_exception "security_exception" idt in
  let idt := ec vector.segment_not_present "segment_not_present" idt in
  let idt := plain vector.simd_floating_point "simd_floating_point" idt in
  let idt := ec vector.stack_segment_fault "stack_segment_fault" idt in
  let idt := plain vector.virtualization "virtualization" idt in
  let idt := ec vector.vmm_communication_exception "vmm_communication_exception" idt in
  let idt := plain vector.x87_floating_point "x87_floating_point" idt in
  let idt := set_handler_fn vector.page_fault page_fault_handler idt in
  let idt := <[vector.double_fault := mkGate double_fault_handler (Some 0%nat)]> idt in
  let idt := set_handler_fn 32 timer_interrupt_handler idt in
  set_handler_fn vector.breakpoint breakpoint_handler idt.

(** Whether a handler expects an error code on its stack. *)
Definition takes_error_code (h : handler) : bool :=
  match h with
  | interrupt_handler_ec _ | page_fault_handler | double_fault_handler => true
  | _ => false
  end.

(** The vectors for which the processor pushes one. *)
Definition pushes_error_code (v : Z) : bool :=
  bool_decide (v ∈ [8; 10; 11; 12; 13; 14; 17; 21; 29; 30]).

(** ** What the handlers do *)

(** The panic of a handler: its exception, and the core local data it prints. *)
Record report (F Stuff : Type) := mkReport { exception : string; printed_cld : option (CoreLocalData F Stuff) }.
Arguments mkReport {_ _} _ _.
Arguments exception {_ _} _.
Arguments printed_cld {_ _} _.

Section Handlers.
Context `{Profile} `{Bitfield} {W F Stuff : Type} `{PortIo W} `{Mmio W}.

Notation SysM := (M (Sys W F Stuff)).

(** [Some] report if the handler panics, [None] if it returns. *)
Definition panics (name : string) : SysM (option (report F Stuff)) :=
  try_get_cld ≫= λ cld, mret (Some (mkReport name cld)).

(** The text of [{:?}] of the core local data is an argument, and so is whether
    the lock of the port, [SERIAL.1], is held by someone who does not give it
    back: the code that was interrupted, for one. *)
Context (cld_debug : option (CoreLocalData F Stuff) → list Z) (held_port : bool).

Definition break_point_text (cld : option (CoreLocalData F Stuff)) : list Z :=
  chars "break_point cld:" ++ cld_debug cld ++ [10].

Definition report_breakpoint (fuel : nat) : SysM () :=
  try_get_cld ≫= λ cld,
  (if held_port then λ _, Fault NoFuel else mret ()) ≫= λ _,
  on_world (_print_serial fuel (break_point_text cld)).

Definition run_handler (fuel : nat) (call : F → SysM ()) (h : handler) : SysM (option (report F Stuff)) :=
  match h with
  | interrupt_handler name | interrupt_handler_ec name => panics name
  | page_fault_handler => panics "PAGE FAULT"
  | double_fault_handler => panics "DOUBLE FAULT"
  | timer_interrupt_handler => timer_interrupt call ≫= λ _, mret None
  | breakpoint_handler => report_breakpoint fuel ≫= λ _, mret None
  end.

(** An interrupt: a vector without a gate raises [segment_not_present]. *)
Definition deliver (fuel : nat) (call : F → SysM ()) (v : Z) : SysM (option (report F Stuff)) :=
  match IDT !! v with
  | Some g => run_handler fuel call (gate_handler g)
  | None => run_handler fuel call (interrupt_handler_ec "segment_not_present")
  end.
End Handlers.

(** ** Segment tables *)

Definition STACK_SIZE : Z := 4096 * 5.

Record TaskStateSegment := mkTss { interrupt_stack_0 : Z }.

(** Entries of a global descriptor table; a TSS takes two of the slots. *)
Inductive descriptor := Null | KernelCode | TssLow (t : TaskStateSegment) | TssHigh (t : TaskStateSegment).

(** [SegmentSelector::new(index, Ring0)] *)
Definition selector (index : Z) : Z := 8 * index.

Definition add_code (gdt : list descriptor) : list descriptor * Z :=
  (gdt ++ [KernelCode], selector (Z.of_nat (List.length gdt))).
Definition add_tss (t : TaskStateSegment) (gdt : list descriptor) : list descriptor * Z :=
  (gdt ++ [TssLow t; TssHigh t], selector (Z.of_nat (List.length gdt))).

Definition gdt_for (t : TaskStateSegment) : list descriptor * Z * Z :=
  let '(gdt, code_selector) := add_code [Null] in
  let '(gdt, tss_selector) := add_tss t gdt in
  (gdt, code_selector, tss_selector).

(** The memory the stacks of double faults are in: a static for the boot
    processor, and the allocations of [AP_TSS], in order. *)
Class FaultStacks := {
  bsp_stack : Z;
  ap_stack : nat → Z }.

Class FaultStacksOk `{FaultStacks} : Prop := {
  bsp_stack_range : 0 ≤ bsp_stack < 2 ^ 47 - STACK_SIZE;
  ap_stack_range i : (i < 255)%nat → 0 ≤ ap_stack i < 2 ^ 47 - STACK_SIZE;
  ap_stack_apart i j : (i < 255)%nat → (j < 255)%nat → i ≠ j →
    ap_stack i + STACK_SIZE ≤ ap_stack j ∨ ap_stack j + STACK_SIZE ≤ ap_stack i;
  bsp_stack_apart i : (i < 255)%nat → bsp_stack + STACK_SIZE ≤ ap_stack i ∨ ap_stack i + STACK_SIZE ≤ bsp_stack }.

Section Tables.
Context `{FaultStacks}.

Definition TSS : TaskStateSegment := mkTss (bsp_stack + STACK_SIZE).
Definition AP_TSS : list TaskStateSegment :=
  (λ i, mkTss (ap_stack i + STACK_SIZE)) <$> List.seq 0 (Z.to_nat (MAX_CORES - 1)).
Definition GDT : list descriptor * Z * Z := gdt_for TSS.
Definition AP_GDT : list (list descriptor * Z * Z) := gdt_for <$> AP_TSS.

(** The table registers of a core. *)
Record Cpu := mkCpu {
  gdtr : list descriptor; ss : Z; ds : Z; cs : Z; task_register : Z; idtr : gmap Z gate }.

Definition load_tables (gdt : list descriptor * Z * Z) (c : Cpu) : Cpu :=
  let '(table, code, tss) := gdt in mkCpu table 0 0 code tss IDT.

Definition init_gdt_and_exceptions_ap (ap_index : Z) : M Cpu () :=
  liftr (match AP_GDT !! Z.to_nat ap_index with Some g => Val g | None => Fault Bounds end) ≫= λ gdt,
  modify (load_tables gdt).

(** Without the legacy controllers, see [Pic]. *)
Definition load_tables_bsp : M Cpu () := modify (load_tables GDT).

(** The stack on which a core handles a vector: [None] the current one. *)
Definition stack_for (c : Cpu) (v : Z) : option Z :=
  g ← idtr c !! v;
  match gate_stack g, gdtr c !! Z.to_nat (task_register c `div` 8) with
  | Some 0%nat, Some (TssLow t) => Some (interrupt_stack_0 t)
  | _, _ => None
  end.
End Tables.

(** ** Properties *)

Lemma idt_forall (P : Z → gate → Prop) : map_Forall P IDT → ∀ v g, IDT !! v = Some g → P v g.
Proof. intros Hm. apply Hm. Qed.

Lemma idt_stacks v g : IDT !! v = Some g → gate_stack g = Some 0%nat ↔ v = vector.double_fault.
Proof. revert v g. apply idt_forall, (bool_decide_unpack _). by vm_compute. Qed.

(** C36 (type). Gates and processor agree on the stack frame: a handler expects
    an error code exactly on the vectors for which the processor pushes one.
    Every exception defined by the architecture has a gate, except [debug] and
    [machine_check]; above the exceptions only the timer has one, so a spurious
    interrupt of the local APIC, on the vector 0xff that [apic::init] sets, has
    none. *)
Theorem idt_gates :
  (∀ v g, IDT !! v = Some g → takes_error_code (gate_handler g) = pushes_error_code v) ∧
  (∀ v g, IDT !! v = Some g → gate_stack g = Some 0%nat ↔ v = vector.double_fault) ∧
  (∀ v, IDT !! v = None ↔ v ∉ [0; 2; 3; 4; 5; 6; 7; 8; 10; 11; 12; 13; 14; 16; 17; 19; 20; 21; 28; 29; 30; 32]).
Proof.
  split_and!; [|exact idt_stacks|].
  - apply idt_forall, (bool_decide_unpack _). by vm_compute.
  - intros v. rewrite <-not_elem_of_dom. assert (dom IDT = list_to_set (C := gset Z)
      [0; 2; 3; 4; 5; 6; 7; 8; 10; 11; 12; 13; 14; 16; 17; 19; 20; 21; 28; 29; 30; 32]) as ->.
    { apply (bool_decide_unpack _). by vm_compute. }
    by rewrite elem_of_list_to_set.
Qed.

Section TableSpec.
Context `{FaultStacks} `{!FaultStacksOk}.

(** The bytes of the stack below [top]. *)
Definition stack_region (top a : Z) : Prop := top - STACK_SIZE ≤ a < top.

Lemma stack_for_tables t v c :
  stack_for (load_tables (gdt_for t) c) v =
    if decide (v = vector.double_fault) then Some (interrupt_stack_0 t) else None.
Proof.
  unfold stack_for. cbn [idtr load_tables gdt_for add_code add_tss].
  case_decide as Hv.
  - subst v. assert (IDT !! vector.double_fault = Some (mkGate double_fault_handler (Some 0%nat))) as ->
      by (by vm_compute). done.
  - destruct (IDT !! v) as [g|] eqn:Hg; [|done]. cbn. pose proof (idt_stacks v g Hg) as Hs.
    destruct (gate_stack g) as [[|]|]; [|done..]. by destruct Hs as [Hs _]; specialize (Hs eq_refl).
Qed.

Lemma ap_gdt_lookup i : (i < 255)%nat → AP_GDT !! i = Some (gdt_for (mkTss (ap_stack i + STACK_SIZE))).
Proof.
  intros Hi. unfold AP_GDT, AP_TSS. rewrite !list_lookup_fmap.
  change (Z.to_nat (MAX_CORES - 1)) with 255%nat. by rewrite lookup_seq_lt by done.
Qed.

(** Loading the tables succeeds for the first 255 application
    processors and panics beyond; a core then handles a double fault on a stack
    of its own, of 20 KiB, which it does not share with the boot processor or
    any other core, and every other interrupt on the current stack. *)
Theorem double_fault_stacks c :
  (∀ i, (i < 255)%nat → ∃ c', init_gdt_and_exceptions_ap (Z.of_nat i) c = Val ((), c') ∧
    ∃ top, stack_for c' vector.double_fault = Some top ∧
      (∀ v, v ≠ vector.double_fault → stack_for c' v = None) ∧
      (∃ bsp, stack_for (load_tables GDT c) vector.double_fault = Some bsp ∧
        ∀ a, stack_region top a → ¬ stack_region bsp a) ∧
      (∀ j cj, (j < 255)%nat → j ≠ i → init_gdt_and_exceptions_ap (Z.of_nat j) c = Val ((), cj) →
        ∃ other, stack_for cj vector.double_fault = Some other ∧
          ∀ a, stack_region top a → ¬ stack_region other a)) ∧
  (∀ i, 255 ≤ i → init_gdt_and_exceptions_ap i c = Fault Bounds).
Proof.
  assert (∀ i, (i < 255)%nat → init_gdt_and_exceptions_ap (Z.of_nat i) c =
    Val ((), load_tables (gdt_for (mkTss (ap_stack i + STACK_SIZE))) c)) as Hrun.
  { intros i Hi. unfold init_gdt_and_exceptions_ap. rewrite Nat2Z.id.
    rewrite (M_bind_run _ _ _ (gdt_for (mkTss (ap_stack i + STACK_SIZE))) c); [done|].
    apply liftr_run. by rewrite ap_gdt_lookup. }
  split.
  - intros i Hi. eexists. split; [by apply Hrun|]. exists (ap_stack i + STACK_SIZE).
    split_and!.
    + by rewrite stack_for_tables.
    + intros v Hv. rewrite stack_for_tables by done. by rewrite decide_False.
    + exists (bsp_stack + STACK_SIZE). split; [exact (stack_for_tables TSS vector.double_fault c)|].
      intros a Ha Hb. unfold stack_region in *. destruct (bsp_stack_apart i Hi); lia.
    + intros j cj Hj Hne Hr. rewrite Hrun in Hr by done.
      assert (cj = load_tables (gdt_for (mkTss (ap_stack j + STACK_SIZE))) c) as -> by congruence.
      exists (ap_stack j + STACK_SIZE). split; [by rewrite stack_for_tables|].
      intros a Ha Hb. unfold stack_region in *. destruct (ap_stack_apart i j Hi Hj); lia.
  - intros i Hi. unfold init_gdt_and_exceptions_ap. rewrite lookup_ge_None_2; [done|].
    unfold AP_GDT, AP_TSS. rewrite !length_fmap, length_seq. unfold MAX_CORES. lia.
Qed.
End TableSpec.

Section HandlerSpec.
Context `{Profile} `{BitfieldLaws} {W F Stuff : Type} `{PortIo W} `{Mmio W} (apic i : Z) `{!CoreId apic i}.

(** The data of this core, as far as it is set up. *)
Definition own_cld (s : Sys W F Stuff) : option (CoreLocalData F Stuff) :=
  if LOCAL_APIC_PTR s then default None (CORE_LOCAL s !! Z.to_nat i) else None.

Lemma try_get_cld_run (s : Sys W F Stuff) :
  LOCAL_APIC_PTR s = None ∨ LOCAL_APIC_PTR s = Some apic → length (CORE_LOCAL s) = 256%nat →
  try_get_cld s = Val (own_cld s, s).
Proof.
  intros Hp Hl. unfold try_get_cld, own_cld, try_get_apic.
  rewrite (M_bind_run _ _ _ (LOCAL_APIC_PTR s) s) by done.
  destruct Hp as [-> | ->]; [done|].
  rewrite (M_bind_run _ _ _ _ _ (id_run apic i s)).
  rewrite (M_bind_run _ _ _ (CORE_LOCAL s) s) by done.
  destruct (core_id (apic:=apic) (i:=i) (world s)) as (_ & _ & Hi & _).
  destruct (lookup_lt_is_Some_2 (CORE_LOCAL s) (Z.to_nat i)) as [o ->]; [lia|done].
Qed.

(** The name a handler reports. *)
Definition reports (h : handler) : option string :=
  match h with
  | interrupt_handler name | interrupt_handler_ec name => Some name
  | page_fault_handler => Some "PAGE FAULT"
  | double_fault_handler => Some "DOUBLE FAULT"
  | timer_interrupt_handler | breakpoint_handler => None
  end.

(** C19 (error). An exception is reported at any time, from before the local
    APIC and the core local data exist to after: its handler never faults
    itself, and ends in the panic of that exception with the data of this
    core, or with none while there is none; an interrupt without a gate is
    reported as [segment_not_present].  Only a breakpoint returns, once its line
    with the core local data is on the serial port, and it returns only when
    nobody holds the lock of the port: if the interrupted code does, the handler
    waits for ever. *)
Theorem exceptions_reported (U : Uart16550 W (com_u16 COM1)) B cld_debug held call (s : Sys W F Stuff) v :
  LOCAL_APIC_PTR s = None ∨ LOCAL_APIC_PTR s = Some apic → length (CORE_LOCAL s) = 256%nat → v ≠ 32 →
  ready_within COM1 B → dlab (uart_of (world s)) = false →
  match default (Some "segment_not_present") ((λ g, reports (gate_handler g)) <$> (IDT !! v)) with
  | Some name => ∀ fuel, deliver cld_debug held fuel call v s = Val (Some (mkReport name (own_cld s)), s)
  | None => v = vector.breakpoint ∧
      if held then ∀ fuel, deliver cld_debug held fuel call v s = Fault NoFuel
      else ∃ w', deliver cld_debug held (S B) call v s = Val (None, put_world w' s) ∧
        tx (uart_of w') = tx (uart_of (world s)) ++ filter (λ c, c < 128) (break_point_text cld_debug (own_cld s))
  end.
Proof.
  intros Hp Hl Hv Hr Hd. pose proof (try_get_cld_run s Hp Hl) as Hcld.
  assert (∀ name, panics name s = Val (Some (mkReport name (own_cld s)), s)) as Hpan.
  { intros name. unfold panics. by rewrite (M_bind_run _ _ _ _ _ Hcld). }
  assert (map_Forall (λ v g, gate_handler g = timer_interrupt_handler ↔ v = 32) IDT) as Htimer.
  { apply (bool_decide_unpack _). by vm_compute. }
  assert (map_Forall (λ v g, gate_handler g = breakpoint_handler → v = vector.breakpoint) IDT) as Hbp.
  { apply (bool_decide_unpack _). by vm_compute. }
  unfold deliver. destruct (IDT !! v) as [g|] eqn:Hg; [|intros fuel; apply Hpan].
  specialize (Htimer v g Hg). specialize (Hbp v g Hg). cbn beta in Htimer, Hbp. change (default _ _) with (reports (gate_handler g)).
  destruct (gate_handler g); cbn [reports run_handler]; try (intros fuel; exact (Hpan _)); [exfalso; by apply Hv, Htimer|].
  split; [by apply Hbp|]. unfold report_breakpoint. destruct held.
  - intros fuel. apply M_bind_fault. by rewrite (M_bind_run _ _ _ _ _ Hcld).
  - destruct (write_str_tx COM1 U B (break_point_text cld_debug (own_cld s)) (world s) Hr Hd) as (w' & Hrun & Htx & _).
    exists w'. split; [|done]. rewrite (M_bind_run _ _ _ () (put_world w' s)); [done|].
    rewrite (M_bind_run _ _ _ _ _ Hcld). rewrite (M_bind_run (mret ()) _ _ () s) by done.
    unfold on_world, zoom, _print_serial. by rewrite Hrun.
Qed.
End HandlerSpec.
