(* ===== verification/InterruptDemo.v ===== *)
(** * Interrupts on a small machine

    The controllers as the whole world, the core of [DeviceDemo], and stacks at
    multiples of 64 KiB, at which the theorems on interrupts are instantiated. *)

From Stdlib Require Import String.
From S2P Require Import Prelude Format Ports Serial Bitfield Pit Apic DeviceDemo Pic Interrupts.

#[local] Existing Instance dev_profile.

#[export] Instance pic_ports : PortIo (pic * pic) := {|
  inb _ w := (0, w);
  outb p v w := pics_write p v w |}.

#[export] Instance demo_pics : PicDevice (pic * pic).
Proof. by refine {| pics_of := λ w, w |}. Defined.

(** A controller left in the middle of its initialisation, the other one
    running with its lines open. *)
Definition stuck_pics : pic * pic := (mkPic Icw3 false true 0 0 false 0, mkPic Operating true false 8 0 false 0).

Lemma remap_and_disable_pic_spec_witness :
  ∃ w', remap_and_disable_pic 32 40 stuck_pics = Val ((), w') ∧ w' = (remapped_pic 32 4, remapped_pic 40 2).
Proof.
  destruct (remap_and_disable_pic_spec 32 40 stuck_pics) as (w' & Hr & Hp & _); [by exists 4|by exists 5|].
  exists w'. split; [exact Hr|exact Hp].
Defined.

(** A core with the serial port of [SerialDemo] and a local APIC of which only
    the id register matters. *)
#[local] Existing Instance SerialDemo.demo_ports.
#[local] Existing Instance SerialDemo.demo_uart.

#[local] Instance id_mmio : Mmio SerialDemo.world := {|
  read_volatile a w := (if a =? 0xfee00020 then 5 * 2 ^ 24 else 0, w);
  write_volatile a v w := w |}.

#[local] Instance id_core : CoreId (W := SerialDemo.world) demo_apic 5.
Proof. intros w. exists 0. split_and!; [lia|lia|lia|lia|reflexivity]. Qed.

Definition early_sys : Sys SerialDemo.world nat () := mkSys SerialDemo.idle (replicate 256 None) None.
Definition late_sys : Sys SerialDemo.world nat () :=
  mkSys SerialDemo.idle (<[5%nat := Some core5]> (replicate 256 None)) (Some demo_apic).
Definition brief (o : option (CoreLocalData nat ())) : list Z := match o with None => chars "None" | Some _ => chars "Some" end.

(** A page fault before and after the core is set up, and a breakpoint with the
    port free and taken. *)
Lemma exceptions_reported_witness :
  deliver brief true 0 (λ _, mret ()) 14 early_sys = Val (Some (mkReport "PAGE FAULT"%string None), early_sys) ∧
  deliver brief true 0 (λ _, mret ()) 14 late_sys = Val (Some (mkReport "PAGE FAULT"%string (Some core5)), late_sys) ∧
  (∃ w', deliver brief false 2 (λ _, mret ()) 3 late_sys = Val (None, put_world w' late_sys) ∧
    tx (uart_of w') = chars "break_point cld:Some" ++ [10]) ∧
  deliver brief true 2 (λ _, mret ()) 3 late_sys = Fault NoFuel.
Proof.
  pose proof (λ held v, exceptions_reported demo_apic 5 SerialDemo.demo_uart 1 brief held (λ _, mret ()) late_sys v
    (or_intror eq_refl) eq_refl) as Hlate.
  split_and!.
  - exact (exceptions_reported demo_apic 5 SerialDemo.demo_uart 1 brief true (λ _, mret ()) early_sys 14
      (or_introl eq_refl) eq_refl ltac:(done) SerialDemo.demo_ready eq_refl 0%nat).
  - exact (Hlate true 14 ltac:(done) SerialDemo.demo_ready eq_refl 0%nat).
  - destruct (Hlate false 3 ltac:(done) SerialDemo.demo_ready eq_refl) as [_ (w' & Hr & Htx)].
    exists w'. split; [exact Hr|]. rewrite Htx. by vm_compute.
  - exact (proj2 (Hlate true 3 ltac:(done) SerialDemo.demo_ready eq_refl) 2%nat).
Defined.

#[export] Instance demo_stacks : FaultStacks := {|
  bsp_stack := 0x100000;
  ap_stack i := 0x200000 + 0x10000 * Z.of_nat i |}.

#[export] Instance demo_stacks_ok : FaultStacksOk.
Proof. split; cbn; unfold STACK_SIZE; lia. Qed.

Definition reset_cpu : Cpu := mkCpu [] 0 0 0 0 ∅.

Lemma double_fault_stacks_witness :
  ∃ c', init_gdt_and_exceptions_ap 3 reset_cpu = Val ((), c') ∧
    stack_for c' vector.double_fault = Some 0x235000.
Proof.
  destruct (proj1 (double_fault_stacks reset_cpu) 3%nat ltac:(lia)) as (c' & Hr & top & Ht & _).
  exists c'. split; [exact Hr|]. change (Z.of_nat 3) with 3 in Hr. vm_compute in Hr.
  injection Hr as <-. by vm_compute.
Defined.
