(* ===== verification/Smp.v ===== *)
(** * Stacks of the application processors (src/kernel/src/smp.rs)

    [allocate_stacks] maps a stack for every application processor, each above
    an unmapped guard page, where the trampoline expects it. *)

From S2P Require Import Prelude Constants Platform FrameAlloc Paging Memory AddressSpace MapPages.

Section Stacks.
Context `{Profile} `{X86Addr} `{Boot} `{Mapper}.

Definition pages_per_core : res Z := align_up KERNEL_STACK_SIZE 4096 ≫= λ a, Val (a `div` 4096).

Definition calc_stack_stride : res Z :=
  pages_per_core ≫= λ n, add64 n 1 ≫= λ m, mul64 m 4096.

(** The kernel and the local [virt_addr]. *)
Definition on_kernel {A} : M Kernel A → M (Kernel * Z) A := zoom fst (λ k s, (k, snd s)).

(** [virt_addr += 4096] *)
Definition bump : M (Kernel * Z) () :=
  gets snd ≫= λ a, liftr (add64 a 4096) ≫= λ a', modify (λ s, (fst s, a')).

Definition allocate_stack_page : M (Kernel * Z) () :=
  gets snd ≫= λ virt_addr,
  liftr (VirtAddr_new virt_addr) ≫= λ va,
  liftr (unwrap (Page_from_start_address va)) ≫= λ page,
  on_kernel (map_ram_kernel page (Z.lor PageTableFlags.WRITABLE PageTableFlags.NO_EXECUTE)) ≫= λ _,
  bump.

Definition allocate_stacks (ap_core_count : Z) : M Kernel () := λ k,
  match (liftr pages_per_core ≫= λ n,
    for_each (range 0 ap_core_count) (λ _,
      bump ≫= λ _, for_each (range 0 n) (λ _, allocate_stack_page))) (k, v.KERNEL_AP_STACKS) with
  | Val (_, (k', _)) => Val ((), k')
  | Fault f => Fault f
  end.

(** [init_smp]: the stack base handed to the trampoline, and the stack pointer
    the trampoline computes from it for the processor that drew [index]
    ([imul rbp, [STACK_STRIDE]; add rbp, [STACK_BASE_ADDR]]). *)
Definition stack_base : res Z :=
  calc_stack_stride ≫= λ stack_stride,
  add64 v.KERNEL_AP_STACKS stack_stride ≫= λ s, sub64 s 1.
Definition ap_rsp (index stride base : Z) : Z := (index * stride + base) `mod` 2 ^ 64.
End Stacks.

(** ** Where the stacks are *)

(** 1024 pages and a guard page. *)
Definition STRIDE : Z := 1025 * 4096.

(** [m] pages from [a]; [c] stacks, the first guard page at [a]. *)
Fixpoint pages_from (a : Z) (m : nat) : list Z :=
  match m with O => [] | S m' => a :: pages_from (a + 4096) m' end.
Fixpoint stacks_from (a : Z) (c : nat) : list Z :=
  match c with O => [] | S c' => pages_from (a + 4096) 1024 ++ stacks_from (a + STRIDE) c' end.

Definition stack_flags : Z := Z.lor (Z.lor PageTableFlags.WRITABLE PageTableFlags.NO_EXECUTE) PageTableFlags.PRESENT.

Lemma elem_of_pages_from a m p :
  p ∈ pages_from a m ↔ ∃ j, 0 ≤ j < Z.of_nat m ∧ p = a + 4096 * j.
Proof.
  revert a. induction m as [|m IH]; intros a; cbn [pages_from].
  - split; [by intros ?%elem_of_nil|]. intros (j & ? & _). lia.
  - rewrite elem_of_cons, IH. split.
    + intros [->|(j & Hj & ->)]; [exists 0; lia|exists (j + 1); lia].
    + intros (j & Hj & ->). destruct (decide (j = 0)) as [->|]; [left; lia|right].
      exists (j - 1). lia.
Qed.

(** The [j]-th page of stack [i], above the guard page. *)
Definition stack_page (i j : Z) : Z := v.KERNEL_AP_STACKS + i * STRIDE + 4096 * (j + 1).
Definition guard_page (i : Z) : Z := v.KERNEL_AP_STACKS + i * STRIDE.

Lemma elem_of_stacks_from a c p :
  p ∈ stacks_from a c ↔ ∃ i j, 0 ≤ i < Z.of_nat c ∧ 0 ≤ j < 1024 ∧ p = a + i * STRIDE + 4096 * (j + 1).
Proof.
  revert a. induction c as [|c IH]; intros a; cbn [stacks_from].
  - split; [by intros ?%elem_of_nil|]. intros (i & j & ? & _). lia.
  - rewrite elem_of_app, elem_of_pages_from, IH. unfold STRIDE. split.
    + intros [(j & Hj & ->)|(i & j & Hi & Hj & ->)].
      * exists 0, j. lia.
      * exists (i + 1), j. lia.
    + intros (i & j & Hi & Hj & ->). destruct (decide (i = 0)) as [->|].
      * left. exists j. lia.
      * right. exists (i - 1), j. lia.
Qed.

Lemma length_pages_from a m : length (pages_from a m) = m.
Proof. revert a. induction m as [|m IH]; intros a; cbn; [done|]. by rewrite IH. Qed.

Lemma length_stacks_from a c : length (stacks_from a c) = (1024 * c)%nat.
Proof.
  revert a. induction c as [|c IH]; intros a; cbn [stacks_from]; [done|].
  rewrite length_app, length_pages_from, IH. lia.
Qed.

Lemma pages_from_NoDup a m : NoDup (pages_from a m).
Proof.
  revert a. induction m as [|m IH]; intros a; cbn [pages_from]; constructor; [|apply IH].
  rewrite elem_of_pages_from. intros (j & Hj & ?). lia.
Qed.

Lemma stacks_from_NoDup a c : NoDup (stacks_from a c).
Proof.
  revert a. induction c as [|c IH]; intros a; cbn [stacks_from]; [constructor|].
  apply NoDup_app. split_and!; [apply pages_from_NoDup| |apply IH].
  intros p (j & Hj & ->)%elem_of_pages_from (i' & j' & Hi' & Hj' & Heq)%elem_of_stacks_from.
  unfold STRIDE in Heq. lia.
Qed.

(** ** The loop *)

Section Spec.
Context `{Profile} `{X86AddrLaws} `{BootOk pmo} `{Mapper} `{!MapperLaws pmo}.

Definition map_stack_page (p : Z) : M Kernel Z :=
  map_ram_kernel p (Z.lor PageTableFlags.WRITABLE PageTableFlags.NO_EXECUTE).

(** A run that also moves the local address. *)
Definition moved (r : res (() * Kernel)) (a : Z) : res (() * (Kernel * Z)) :=
  match r with Val (_, k) => Val ((), (k, a)) | Fault f => Fault f end.

Lemma bump_run k a : 0 ≤ a < 2 ^ 47 → bump (k, a) = Val ((), (k, a + 4096)).
Proof.
  intros Ha. unfold bump. rewrite (M_bind_run _ _ _ a (k, a)) by done.
  by m_step.
Qed.

Lemma allocate_stack_page_run k a :
  0 ≤ a < 2 ^ 47 → (4096 | a) →
  allocate_stack_page (k, a) = moved ((map_stack_page a ≫= λ _, mret ()) k) (a + 4096).
Proof.
  intros Ha [q Hq]. unfold allocate_stack_page. rewrite (M_bind_run _ _ _ a (k, a)) by done.
  rewrite (M_bind_run _ _ _ a (k, a)) by (apply liftr_run, VirtAddr_new_law; lia).
  rewrite (M_bind_run _ _ _ a (k, a)).
  2:{ apply liftr_run. rewrite Page_from_start_law by lia.
      replace (a `mod` 4096) with 0 by (subst a; symmetry; apply Z.mod_mul; lia). done. }
  unfold on_kernel, zoom, map_stack_page. unfold mbind at 1, M_bind at 1. cbn [fst snd].
  unfold mbind at 1, M_bind at 1. destruct (map_ram_kernel a _ k) as [[f k']|]; [|done].
  by apply bump_run.
Qed.

Lemma pages_loop_run (l : list Z) k a :
  0 ≤ a → a + 4096 * Z.of_nat (length l) < 2 ^ 47 → (4096 | a) →
  for_each l (λ _, allocate_stack_page) (k, a) =
    moved (for_each (pages_from a (length l)) (λ p, map_stack_page p ≫= λ _, mret ()) k)
      (a + 4096 * Z.of_nat (length l)).
Proof.
  revert k a. induction l as [|x l IH]; intros k a Ha Hlt Hd; cbn [length] in *.
  - cbn. by rewrite Z.add_0_r.
  - cbn [for_each pages_from]. unfold mbind at 1, M_bind at 1. rewrite allocate_stack_page_run by (done || lia).
    unfold mbind at 2, M_bind at 2. destruct ((map_stack_page a ≫= λ _, mret ()) k) as [[[] k']|]; [|done].
    cbn [moved]. rewrite IH by (try lia; by apply Z.divide_add_r; [|exists 1]).
    f_equal. lia.
Qed.

Lemma stacks_loop_run (l : list Z) k a :
  0 ≤ a → a + STRIDE * Z.of_nat (length l) < 2 ^ 47 → (4096 | a) →
  for_each l (λ _, bump ≫= λ _, for_each (range 0 1024) (λ _, allocate_stack_page)) (k, a) =
    moved (for_each (stacks_from a (length l)) (λ p, map_stack_page p ≫= λ _, mret ()) k)
      (a + STRIDE * Z.of_nat (length l)).
Proof.
  revert k a. induction l as [|x l IH]; intros k a Ha Hlt Hd; cbn [length] in *.
  - cbn. by rewrite Z.add_0_r.
  - cbn [for_each stacks_from]. rewrite for_each_app. unfold mbind at 1, M_bind at 1.
    unfold STRIDE in Hlt. rewrite (M_bind_run _ _ _ _ _ (bump_run k a ltac:(lia))).
    assert (length (range 0 1024) = 1024%nat) as Hlen by (by rewrite range_length).
    rewrite pages_loop_run by (rewrite ?Hlen; try lia; by apply Z.divide_add_r; [|exists 1]).
    rewrite Hlen. destruct (for_each (pages_from (a + 4096) 1024) _ k) as [[[] k']|f] eqn:Hp;
      [rewrite (M_bind_run _ _ _ _ _ Hp)|by rewrite (M_bind_fault _ _ _ _ Hp)]. cbn [moved].
    replace (a + 4096 + 4096 * Z.of_nat 1024) with (a + STRIDE) by (unfold STRIDE; lia).
    rewrite IH; [f_equal; lia|unfold STRIDE; lia|unfold STRIDE; lia|].
    apply Z.divide_add_r; [done|by exists 1025].
Qed.

Lemma pages_per_core_val : pages_per_core = Val 1024.
Proof.
  unfold pages_per_core. rewrite align_up_law; [done|by exists 12|by vm_compute|by vm_compute].
Qed.

Lemma calc_stack_stride_val : calc_stack_stride = Val STRIDE.
Proof.
  unfold calc_stack_stride. rewrite pages_per_core_val. cbn [mbind res_bind].
  rewrite add64_in by lia. cbn [mbind res_bind]. by rewrite mul64_in by lia.
Qed.

Lemma stack_base_val : stack_base = Val (v.KERNEL_AP_STACKS + STRIDE - 1).
Proof.
  unfold stack_base. rewrite calc_stack_stride_val. cbn [mbind res_bind].
  change v.KERNEL_AP_STACKS with (109 * 2 ^ 39). unfold STRIDE.
  rewrite add64_in by lia. cbn [mbind res_bind]. by rewrite sub64_in by lia.
Qed.

Lemma allocate_stacks_run c k :
  0 ≤ c < MAX_CORES →
  allocate_stacks c k = for_each (stacks_from v.KERNEL_AP_STACKS (Z.to_nat c))
    (λ p, map_stack_page p ≫= λ _, mret ()) k.
Proof.
  intros Hc. unfold allocate_stacks, MAX_CORES in *. rewrite pages_per_core_val.
  rewrite (M_bind_run _ _ _ 1024 (k, v.KERNEL_AP_STACKS)) by done.
  assert (length (range 0 c) = Z.to_nat c) as Hlen by (rewrite range_length; f_equal; lia).
  change v.KERNEL_AP_STACKS with (109 * 2 ^ 39).
  rewrite stacks_loop_run by (rewrite ?Hlen; unfold STRIDE; try lia; by exists (109 * 2 ^ 27)).
  rewrite Hlen. unfold moved. by destruct (for_each _ _ k) as [[[] k']|].
Qed.

(** The loop, as one run of [map_pages_effect]. *)
Definition stack_list (c : Z) : list Z := stacks_from v.KERNEL_AP_STACKS (Z.to_nat c).

Lemma stack_list_range c p : 0 ≤ c < MAX_CORES → p ∈ stack_list c →
  v.KERNEL_AP_STACKS < p < v.KERNEL_AP_STACKS + c * STRIDE ∧ v.KERNEL_START ≤ p < v.KERNEL_END.
Proof.
  intros Hc (i & j & Hi & Hj & ->)%elem_of_stacks_from. unfold STRIDE, MAX_CORES in *.
  change v.KERNEL_AP_STACKS with (109 * 2 ^ 39). change v.KERNEL_START with (100 * 2 ^ 39).
  change v.KERNEL_END with (116 * 2 ^ 39). lia.
Qed.

Lemma allocate_stacks_effect k0 st l c :
  kinv pmo st [k0] l → 0 ≤ c < MAX_CORES → (4 * 1024 * Z.to_nat c ≤ length l)%nat →
  (∀ p, v.KERNEL_AP_STACKS ≤ p < v.KERNEL_END → space pmo st k0 p = None) →
  k_cr3 st = k0 ∧ ∃ st' l', allocate_stacks c st = Val ((), st') ∧
    pages_mapped (pmo:=pmo) st [k0] l (stack_list c) stack_flags st' l'.
Proof.
  intros Hk Hc Hlen Hfree. pose proof (ki_active _ _ _ _ Hk) as Hact. apply list_elem_of_singleton in Hact.
  split; [done|]. rewrite allocate_stacks_run by done.
  apply (map_pages_effect map_stack_page stack_flags (stack_list c)).
  - intros p Hp s. unfold map_stack_page. rewrite map_ram_kernel_run.
    by rewrite bool_decide_true by (by apply (stack_list_range c)).
  - done.
  - apply stacks_from_NoDup.
  - unfold stack_list. rewrite length_stacks_from. lia.
  - intros p Hp. split; [intros _; right; by rewrite Hact|]. rewrite Hact. apply Hfree.
    destruct (stack_list_range c p Hc Hp). lia.
Qed.

(** The stack pointer of the trampoline. *)
Lemma ap_rsp_val c i : 0 ≤ i < c → 0 ≤ c < MAX_CORES →
  ap_rsp i STRIDE (v.KERNEL_AP_STACKS + STRIDE - 1) = stack_page i 1023 + 4095.
Proof.
  intros Hi Hc. unfold ap_rsp, stack_page, STRIDE, MAX_CORES in *. change v.KERNEL_AP_STACKS with (109 * 2 ^ 39).
  rewrite Z.mod_small; lia.
Qed.

(** The stacks of up to 255 application processors are
    allocated without a panic when enough frames are free: processor [i] gets
    1024 pages, writable and not executable, in frames of their own; the
    page below them stays unmapped, so an overflow faults instead of reaching
    the neighbour's stack; no other page changes; and the stack pointer the
    trampoline computes for index [i] is the last byte of stack [i]. *)
Theorem allocate_stacks_spec k0 st l c :
  kinv pmo st [k0] l → 0 ≤ c < MAX_CORES → (4 * 1024 * Z.to_nat c ≤ length l)%nat →
  (∀ p, v.KERNEL_AP_STACKS ≤ p < v.KERNEL_END → space pmo st k0 p = None) →
  ∃ st' l', allocate_stacks c st = Val ((), st') ∧ kinv pmo st' [k0] l' ∧
    (∀ i j, 0 ≤ i < c → 0 ≤ j < 1024 → ∃ f, f ∈ l ∧ space pmo st' k0 (stack_page i j) = Some (f, stack_flags)) ∧
    (∀ i j i' j' f fl fl', 0 ≤ i < c → 0 ≤ j < 1024 → 0 ≤ i' < c → 0 ≤ j' < 1024 →
      space pmo st' k0 (stack_page i j) = Some (f, fl) → space pmo st' k0 (stack_page i' j') = Some (f, fl') →
      i = i' ∧ j = j') ∧
    (∀ i, 0 ≤ i ≤ c → space pmo st' k0 (guard_page i) = None) ∧
    (∀ p, ¬ (v.KERNEL_AP_STACKS ≤ p < v.KERNEL_AP_STACKS + c * STRIDE) → space pmo st' k0 p = space pmo st k0 p) ∧
    ∀ i stride base, 0 ≤ i < c → calc_stack_stride = Val stride → stack_base = Val base →
      ap_rsp i stride base = stack_page i 1023 + 4095.
Proof.
  intros Hk Hc Hlen Hfree.
  destruct (allocate_stacks_effect k0 st l c Hk Hc Hlen Hfree) as (Hact & st' & l' & Hrun & Hpm).
  assert (∀ i j, 0 ≤ i < c → 0 ≤ j < 1024 → stack_page i j ∈ stack_list c) as Hin.
  { intros i j Hi Hj. apply elem_of_stacks_from. exists i, j. split_and!; [lia..|done]. }
  exists st', l'. split_and!; [exact Hrun|apply Hpm| | | | |].
  - intros i j Hi Hj. destruct (pm_new _ _ _ _ _ _ _ Hpm _ (Hin i j Hi Hj)) as (f & Hf & _ & Hs).
    rewrite Hact in Hs. by exists f.
  - intros i j i' j' f fl fl' Hi Hj Hi' Hj' Hs Hs'. rewrite <-Hact in Hs, Hs'.
    pose proof (pm_inj _ _ _ _ _ _ _ Hpm _ _ _ _ _ (Hin i j Hi Hj) (Hin i' j' Hi' Hj') Hs Hs') as Heq.
    unfold stack_page, STRIDE in Heq. lia.
  - intros i Hi. rewrite (pm_old _ _ _ _ _ _ _ Hpm).
    + apply Hfree. unfold guard_page, STRIDE, MAX_CORES in *. change v.KERNEL_AP_STACKS with (109 * 2 ^ 39).
      change v.KERNEL_END with (116 * 2 ^ 39). lia.
    + left.
    + intros (i' & j' & Hi' & Hj' & Heq)%elem_of_stacks_from. unfold guard_page, STRIDE in Heq. lia.
  - intros p Hp. apply (pm_old _ _ _ _ _ _ _ Hpm); [left|]. intros Hp'. destruct (stack_list_range c p Hc Hp'). lia.
  - intros i stride base Hi. rewrite calc_stack_stride_val, stack_base_val. intros [= <-] [= <-].
    by apply (ap_rsp_val c).
Qed.
End Spec.
