(* ===== verification/Trampoline.v ===== *)
(** * The trampoline (src/kernel/src/smp.rs, smp_trampoline/ap.asm, ap.bin)

    [init_smp] maps page 0 to frame 0, copies the trampoline there and writes
    its parameters behind it; a starting processor reads them back, first in
    real mode, then through the page tables it loaded.  [prepare] is [init_smp]
    up to [startup_aps]; the rest of it is in [Apic] and [SmpBoot]. *)

From S2P Require Import Prelude Bytes Constants Platform FrameAlloc Paging Memory AddressSpace Isolation MapPages UserMem ApMachine ApCode Smp.

(** Where the linker puts the counter and the entry function. *)
Class SmpImage := {
  AP_CORE_COUNTER_ptr : Z;
  ap_entry_fn : Z }.

Section Prepare.
Context `{Profile} `{X86Addr} `{Boot} `{Mapper} `{SmpImage}.

Definition page_zero : res Z := VirtAddr_new 0 ≫= λ a, unwrap (Page_from_start_address a).
Definition frame_zero : res Z := PhysAddr_new 0 ≫= λ a, unwrap (PhysFrame_from_start_address a).

Definition write_parameters (l4_page_table_phys_addr stack_stride stack_base : Z) : M Kernel () :=
  vwrite64 L4_TABLE_ADDR l4_page_table_phys_addr ≫= λ _,
  vwrite64 CORE_COUNTER_ADDR AP_CORE_COUNTER_ptr ≫= λ _,
  vwrite64 STACK_STRIDE stack_stride ≫= λ _,
  vwrite64 STACK_BASE_ADDR stack_base ≫= λ _,
  vwrite64 ENTRY_FUNCTION_ADDR ap_entry_fn.

Definition prepare (ap_core_count : Z) : M Kernel () :=
  allocate_stacks ap_core_count ≫= λ _,
  active_level_4_table_phys_addr ≫= λ l4_page_table_phys_addr,
  liftr (ass (l4_page_table_phys_addr <? 0xffffffff)) ≫= λ _,
  liftr calc_stack_stride ≫= λ stack_stride,
  liftr stack_base ≫= λ stack_base,
  liftr page_zero ≫= λ page,
  liftr frame_zero ≫= λ frame,
  map_frame page (Z.lor PageTableFlags.PRESENT PageTableFlags.WRITABLE) frame ≫= λ _,
  vwrite_bytes 0 CODE ≫= λ _,
  write_parameters l4_page_table_phys_addr stack_stride stack_base.

(** The end of [init_smp], once the processors have started. *)
Definition remove_trampoline : M Kernel () :=
  liftr page_zero ≫= λ page, unmap_page page ≫= λ _, mret ().
End Prepare.

(** ** Writing page 0 *)

Section Low.
Context `{Profile} `{X86AddrLaws} `{BootOk pmo} `{Mapper} `{!MapperLaws pmo}.

Definition low_bytes (st : Kernel) : gmap Z Z := frame_bytes (k_dm st !! (pmo + 0)).

(** [st] with the bytes [m] in frame 0. *)
Definition with_low (m : gmap Z Z) (st : Kernel) : Kernel :=
  put_phys (with_dm <[pmo + 0 := CBytes m]> (k_phys st)) st.

(** Page 0 is mapped, writable, to frame 0, which holds no table. *)
Record low_ready (k0 : Z) (st : Kernel) (l : list Z) : Prop := {
  lr_kinv : kinv pmo st [k0] l;
  lr_free : 0 ∉ l;
  lr_table : not_table (pmo:=pmo) st [k0] 0;
  lr_space : ∃ fl, space pmo st k0 0 = Some (0, fl) ∧ Z.testbit fl 1 = true }.

Lemma low_ready_write k0 st l m : low_ready k0 st l →
  low_ready k0 (with_low m st) l ∧ (∀ p, space pmo (with_low m st) k0 p = space pmo st k0 p).
Proof.
  intros [Hk Hf Ht (fl & Hs & Hw)].
  destruct (write_frame_effect st [k0] l 0 m Hk Hf Ht) as (Hk' & _ & Hent & Hsp).
  assert (∀ p, space pmo (with_low m st) k0 p = space pmo st k0 p) as Hsp' by (intros p; apply Hsp; left).
  split; [|done]. split; [done|done| |].
  - destruct Ht as [Hr Ht]. split; [done|]. intros r i e Hri. unfold with_low. rewrite Hent by done. by apply Ht.
  - exists fl. by rewrite Hsp'.
Qed.

Lemma low_bytes_with m st : low_bytes (with_low m st) = m.
Proof. unfold low_bytes, with_low, k_dm. cbn. by rewrite lookup_insert_eq. Qed.

Lemma with_low_low m m' st : with_low m' (with_low m st) = with_low m' st.
Proof. unfold with_low, put_phys, with_dm. cbn [k_phys k_cr3 kernel_page_table dm alloc]. by rewrite insert_insert_eq. Qed.

Lemma vwrite_low k0 st l a b :
  low_ready k0 st l → 0 ≤ a < 4096 →
  vwrite a b st = Val ((), with_low (<[a := b]> (low_bytes st)) st).
Proof.
  intros [Hk _ _ (fl & Hs & Hw)] Ha. pose proof (ki_active _ _ _ _ Hk) as Hact.
  apply list_elem_of_singleton in Hact. unfold vwrite. rewrite physical_memory_offset_val, Hact.
  assert (page_of a = 0) as -> by (unfold page_of; rewrite Z.div_small by lia; lia).
  rewrite Hs, Hw. unfold low_bytes, with_low, offset_of. by rewrite Z.mod_small by lia.
Qed.

Lemma store_bytes_cons a b bs m : store_bytes a (b :: bs) m = store_bytes (a + 1) bs (<[a := b]> m).
Proof. done. Qed.

(** The bytes of frame 0 become known with the first write. *)
Lemma vwrite_bytes_low k0 st l a bs :
  low_ready k0 st l → 0 ≤ a → a + Z.of_nat (length bs) ≤ 4096 → bs ≠ [] →
  vwrite_bytes a bs st = Val ((), with_low (store_bytes a bs (low_bytes st)) st).
Proof.
  revert a st. induction bs as [|b bs IH]; intros a st Hl Ha Hlen Hne; [done|].
  cbn [length vwrite_bytes] in *. rewrite (M_bind_run _ _ _ _ _ (vwrite_low k0 st l a b Hl ltac:(lia))).
  rewrite store_bytes_cons. destruct bs as [|c bs]; [done|].
  rewrite IH; [|by apply low_ready_write|lia|lia|done].
  by rewrite low_bytes_with, with_low_low.
Qed.

Lemma vwrite64_low k0 st l a x m :
  low_ready k0 (with_low m st) l → 0 ≤ a → a + 8 ≤ 4096 →
  vwrite64 a x (with_low m st) = Val ((), with_low (store64 a x m) st).
Proof.
  intros Hl Ha Hlen. unfold vwrite64. rewrite (vwrite_bytes_low k0 _ l); [|done|done| |].
  - by rewrite low_bytes_with, with_low_low.
  - rewrite length_to_le_bytes. lia.
  - done.
Qed.
End Low.

(** ** What [prepare] leaves behind *)

Section Spec.
Context `{Profile} `{X86AddrLaws} `{BootOk pmo} `{Mapper} `{!MapperLaws pmo} `{SmpImage}.

(** Frame 0 after the copy and the five stores. *)
Definition trampoline_bytes (k0 : Z) (m : gmap Z Z) : gmap Z Z :=
  store64 ENTRY_FUNCTION_ADDR ap_entry_fn (store64 STACK_BASE_ADDR (v.KERNEL_AP_STACKS + STRIDE - 1)
    (store64 STACK_STRIDE STRIDE (store64 CORE_COUNTER_ADDR AP_CORE_COUNTER_ptr
      (store64 L4_TABLE_ADDR k0 (store_bytes 0 CODE m))))).

Lemma trampoline_code k0 m : code_in (trampoline_bytes k0 m).
Proof.
  intros i b Hi. pose proof (lookup_lt_Some _ _ _ Hi) as Hlt. change (length CODE) with 186%nat in Hlt.
  unfold trampoline_bytes. rewrite !store64_lookup_ne by
    (unfold ENTRY_FUNCTION_ADDR, STACK_BASE_ADDR, STACK_STRIDE, CORE_COUNTER_ADDR, L4_TABLE_ADDR; lia).
  rewrite store_bytes_lookup. change (length CODE) with 186%nat. rewrite bool_decide_true by lia.
  by replace (Z.to_nat _) with i by lia.
Qed.

Lemma bytes_at_store a x m : 0 ≤ a → a + 8 ≤ 4096 → bytes_at (store64 a x m) a (to_le_bytes 8 x).
Proof.
  intros Ha Hl. unfold bytes_at. rewrite length_to_le_bytes. split_and!; [lia|lia|]. intros j b Hj.
  pose proof (lookup_lt_Some _ _ _ Hj) as Hlt. rewrite length_to_le_bytes in Hlt. unfold store64.
  rewrite store_bytes_lookup, length_to_le_bytes, bool_decide_true by lia.
  by replace (Z.to_nat _) with j by lia.
Qed.

Lemma bytes_at_store_ne a b x m bs :
  a + Z.of_nat (length bs) ≤ b ∨ b + 8 ≤ a → bytes_at m a bs → bytes_at (store64 b x m) a bs.
Proof.
  intros Hab (Ha & Hl & Hb). split_and!; [done|done|]. intros j y Hj.
  pose proof (lookup_lt_Some _ _ _ Hj) as Hlt. rewrite store64_lookup_ne by lia. by apply Hb.
Qed.

Lemma bytes_at_take m a bs n : bytes_at m a bs → bytes_at m a (take n bs).
Proof.
  intros (Ha & Hl & Hb). split_and!; [done|rewrite length_take; lia|].
  intros j b [Hj _]%lookup_take_Some. by apply Hb.
Qed.

(** The parameters are where the code looks for them; of the page table it
    reads four bytes. *)
Lemma trampoline_parameters k0 m :
  parameters_in (trampoline_bytes k0 m) k0 AP_CORE_COUNTER_ptr STRIDE (v.KERNEL_AP_STACKS + STRIDE - 1) ap_entry_fn.
Proof.
  split; unfold trampoline_bytes, ENTRY_FUNCTION_ADDR, STACK_BASE_ADDR, STACK_STRIDE, CORE_COUNTER_ADDR, L4_TABLE_ADDR.
  - apply (bytes_at_take _ _ (to_le_bytes 8 k0) 4).
    do 4 (apply bytes_at_store_ne; [rewrite length_to_le_bytes; lia|]). by apply bytes_at_store.
  - do 3 (apply bytes_at_store_ne; [rewrite length_to_le_bytes; lia|]). by apply bytes_at_store.
  - do 2 (apply bytes_at_store_ne; [rewrite length_to_le_bytes; lia|]). by apply bytes_at_store.
  - apply bytes_at_store_ne; [rewrite length_to_le_bytes; lia|]. by apply bytes_at_store.
  - by apply bytes_at_store.
Qed.

Lemma write_parameters_run k0 st l m :
  low_ready (pmo:=pmo) k0 (with_low (pmo:=pmo) m st) l →
  write_parameters k0 STRIDE (v.KERNEL_AP_STACKS + STRIDE - 1) (with_low (pmo:=pmo) m st) =
    Val ((), with_low (pmo:=pmo) (store64 ENTRY_FUNCTION_ADDR ap_entry_fn
      (store64 STACK_BASE_ADDR (v.KERNEL_AP_STACKS + STRIDE - 1) (store64 STACK_STRIDE STRIDE
        (store64 CORE_COUNTER_ADDR AP_CORE_COUNTER_ptr (store64 L4_TABLE_ADDR k0 m))))) st).
Proof.
  intros Hl. assert (∀ m', low_ready (pmo:=pmo) k0 (with_low (pmo:=pmo) m' st) l) as Hready.
  { intros m'. rewrite <-(with_low_low m m'). by apply low_ready_write. }
  unfold write_parameters.
  do 4 (erewrite M_bind_run by (apply (vwrite64_low k0 st l); [apply Hready|by vm_compute|by vm_compute])).
  by apply (vwrite64_low k0 st l).
Qed.

(** Mapping page 0 to frame 0. *)
Lemma map_zero_effect k0 st l :
  kinv pmo st [k0] l → (3 ≤ length l)%nat → 0 ∉ l → not_table (pmo:=pmo) st [k0] 0 →
  space pmo st k0 0 = None →
  ∃ st' l', map_frame 0 (Z.lor PageTableFlags.PRESENT PageTableFlags.WRITABLE) 0 st = Val ((), st') ∧
    low_ready (pmo:=pmo) k0 st' l' ∧ space pmo st' k0 0 = Some (0, 3) ∧
    (∀ p, p ≠ 0 → space pmo st' k0 p = space pmo st k0 p) ∧
    ∀ f, f ∉ l → not_table (pmo:=pmo) st [k0] f →
      f ∉ l' ∧ not_table (pmo:=pmo) st' [k0] f ∧ k_dm st' !! (pmo + f) = k_dm st !! (pmo + f).
Proof.
  intros Hk Hlen Hf [Hr Ht] Hsp. pose proof (ki_active _ _ _ _ Hk) as Hact. apply list_elem_of_singleton in Hact.
  assert (mappable pmo st [k0] 0) as Hmap by (intros _; right; by rewrite Hact).
  pose proof (map_frame_effect st [k0] l 0 0 3 Hk Hmap) as He. rewrite Hact, Hsp in He.
  destruct He as [[_ ?]|(st' & l' & Hrun & Hm)]; [lia|].
  destruct (mt_free _ _ _ _ _ _ _ _ _ Hm) as (k & _ & ->).
  assert (space pmo st' k0 0 = Some (0, 3)) as Hs.
  { rewrite (mt_space _ _ _ _ _ _ _ _ _ Hm) by left. apply decide_True. split; [done|left; by rewrite Hact]. }
  assert (∀ f, f ∉ l → not_table (pmo:=pmo) st [k0] f → f ∉ drop k l ∧ not_table (pmo:=pmo) st' [k0] f) as Hnt.
  { intros f Hfl [Hfr Hft]. split; [intros Hin; apply Hfl; by apply (elem_of_drop_l k)|].
    split; [done|]. intros r i e Hri He Hu Heq. subst f.
    destruct (mt_tables _ _ _ _ _ _ _ _ _ Hm r i e Hri He Hu) as [?|(r0 & i0 & e0 & Hr0 & He0 & Hu0 & Heq0)]; [done|].
    by apply (Hft r0 i0 e0 Hr0 He0 Hu0). }
  exists st', (drop k l). split_and!; [exact Hrun| |exact Hs| |].
  - destruct (Hnt 0) as [Hf0 Ht0]; [done|by split|]. split; [apply Hm|done|done|]. exists 3. by split.
  - intros p Hp. rewrite (mt_space _ _ _ _ _ _ _ _ _ Hm) by left. apply decide_False. by intros [? _].
  - intros f Hfl Hft. destruct (Hnt f Hfl Hft). split_and!; [done..|].
    apply (mt_cells _ _ _ _ _ _ _ _ _ Hm); [done|apply Hft..].
Qed.
(** The addresses [init_smp] passes on. *)
Lemma page_zero_val : page_zero = Val 0 ∧ frame_zero = Val 0.
Proof.
  unfold page_zero, frame_zero. rewrite VirtAddr_new_law, PhysAddr_new_law by done.
  cbn [mbind res_bind]. by rewrite Page_from_start_law, PhysFrame_from_start_law.
Qed.

Lemma prepare_run k0 c st st1 :
  allocate_stacks c st = Val ((), st1) → k_cr3 st1 = k0 →
  prepare c st = (liftr (ass (k0 <? 0xffffffff)) ≫= λ _,
    map_frame 0 (Z.lor PageTableFlags.PRESENT PageTableFlags.WRITABLE) 0 ≫= λ _,
    vwrite_bytes 0 CODE ≫= λ _,
    write_parameters k0 STRIDE (v.KERNEL_AP_STACKS + STRIDE - 1)) st1.
Proof.
  intros Hrun Hc. destruct page_zero_val as [Hp Hf]. unfold prepare, active_level_4_table_phys_addr.
  rewrite (M_bind_run _ _ _ _ _ Hrun), (M_bind_run (gets _) _ _ k0 st1) by (unfold gets; by rewrite Hc).
  destruct (ass (k0 <? 0xffffffff)) as [[]|f]; [|done].
  rewrite !(M_bind_run (liftr (Val ())) _ _ () st1) by done.
  rewrite calc_stack_stride_val, (M_bind_run _ _ _ STRIDE st1) by done.
  rewrite stack_base_val, (M_bind_run _ _ _ (v.KERNEL_AP_STACKS + STRIDE - 1) st1) by done.
  by rewrite Hp, (M_bind_run _ _ _ 0 st1), Hf, (M_bind_run _ _ _ 0 st1).
Qed.

(** What [init_smp] has done when it starts the processors. *)
Record prepared (k0 : Z) (st : Kernel) (l : list Z) (c : Z) (st' : Kernel) (l' : list Z) : Prop := {
  pp_low : low_ready (pmo:=pmo) k0 st' l';
  pp_zero : space pmo st' k0 0 = Some (0, 3);
  pp_bytes : ∃ m, low_bytes (pmo:=pmo) st' = trampoline_bytes k0 m;
  pp_space p : p ≠ 0 → ¬ (v.KERNEL_AP_STACKS ≤ p < v.KERNEL_AP_STACKS + c * STRIDE) →
    space pmo st' k0 p = space pmo st k0 p;
  pp_cells f : f ≠ 0 → f ∉ l → not_table (pmo:=pmo) st [k0] f →
    f ∉ l' ∧ not_table (pmo:=pmo) st' [k0] f ∧ k_dm st' !! (pmo + f) = k_dm st !! (pmo + f) }.

Lemma prepare_run_effect k0 st l c :
  kinv pmo st [k0] l → 0 ≤ c < MAX_CORES → (4 * 1024 * Z.to_nat c + 3 ≤ length l)%nat →
  (∀ p, v.KERNEL_AP_STACKS ≤ p < v.KERNEL_END → space pmo st k0 p = None) →
  space pmo st k0 0 = None → 0 ∉ l → not_table (pmo:=pmo) st [k0] 0 →
  (0xffffffff ≤ k0 → prepare c st = Fault Assertion) ∧
  (k0 < 0xffffffff → ∃ st' l', prepare c st = Val ((), st') ∧ prepared k0 st l c st' l').
Proof.
  intros Hk Hc Hlen Hfree Hzero Hf Ht.
  destruct (allocate_stacks_effect k0 st l c Hk Hc ltac:(lia) Hfree) as (Hact & st1 & l1 & Hrun & Hpm).
  pose proof (prepare_run k0 c st st1 Hrun ltac:(rewrite (pm_cr3 _ _ _ _ _ _ _ Hpm); done)) as Hprep.
  split; intros Hbig; rewrite Hprep; [by rewrite (proj2 (Z.ltb_ge _ _)) by done|].
  rewrite (proj2 (Z.ltb_lt _ _)) by done. rewrite (M_bind_run (liftr _) _ _ () st1) by done.
  destruct (pages_mapped_not_table _ _ _ _ _ _ _ 0 Hpm Hf Ht) as [Hf1 Ht1].
  assert (3 ≤ length l1)%nat as Hl1.
  { destruct (pm_free _ _ _ _ _ _ _ Hpm) as (k & Hkk & ->). rewrite length_drop.
    unfold stack_list in Hkk. rewrite length_stacks_from in Hkk. lia. }
  assert (∀ p, ¬ (v.KERNEL_AP_STACKS ≤ p < v.KERNEL_AP_STACKS + c * STRIDE) →
    space pmo st1 k0 p = space pmo st k0 p) as Hold.
  { intros p Hp. apply (pm_old _ _ _ _ _ _ _ Hpm); [left|]. intros Hp'.
    destruct (stack_list_range c p Hc Hp'). lia. }
  destruct (map_zero_effect k0 st1 l1 (pm_kinv _ _ _ _ _ _ _ Hpm) Hl1 Hf1 Ht1) as (st2 & l2 & Hrun2 & Hl2 & Hs2 & Ho2 & Hcells2).
  { rewrite Hold, Hzero; [done|]. change v.KERNEL_AP_STACKS with (109 * 2 ^ 39). lia. }
  rewrite (M_bind_run _ _ _ _ _ Hrun2).
  rewrite (M_bind_run _ _ _ _ _ (vwrite_bytes_low k0 st2 l2 0 CODE Hl2 ltac:(lia) ltac:(by vm_compute) ltac:(done))).
  rewrite (write_parameters_run k0 st2 l2) by (by apply low_ready_write).
  fold (trampoline_bytes k0 (low_bytes (pmo:=pmo) st2)). set (m := trampoline_bytes _ _).
  destruct (low_ready_write k0 st2 l2 m Hl2) as [Hl3 Hs3].
  exists (with_low (pmo:=pmo) m st2), l2. split; [done|]. split.
  - done.
  - by rewrite Hs3.
  - eexists. by rewrite low_bytes_with.
  - intros p Hp Hns. by rewrite Hs3, Ho2, Hold.
  - intros f Hf0 Hfl Hft. destruct (pages_mapped_not_table _ _ _ _ _ _ _ f Hpm Hfl Hft) as [Hfl1 Hft1].
    destruct (Hcells2 f Hfl1 Hft1) as (Hfl2 & Hft2 & Hd2).
    destruct (write_frame_effect st2 [k0] l2 0 m (lr_kinv _ _ _ Hl2) (lr_free _ _ _ Hl2) (lr_table _ _ _ Hl2))
      as (_ & Hd3 & Hent & _). split_and!; [done| |].
    + split; [apply Hft2|]. intros r i e Hri. unfold with_low. rewrite Hent by done. by apply Hft2.
    + unfold with_low. rewrite Hd3, Hd2 by done. by apply (pm_cells _ _ _ _ _ _ _ Hpm).
Qed.

(** The end of [init_smp] unmaps page 0, and nothing else. *)
Lemma remove_trampoline_run k0 st l f fl :
  kinv pmo st [k0] l → space pmo st k0 0 = Some (f, fl) →
  ∃ st', remove_trampoline st = Val ((), st') ∧ remapped (pmo:=pmo) st [k0] l 0 None st' ∧
    ∀ p, space pmo st' k0 p = if decide (p = 0) then None else space pmo st k0 p.
Proof.
  intros Hk Hs. pose proof (unmap_page_effect _ _ _ 0 Hk) as Hun.
  pose proof (ki_active _ _ _ _ Hk) as Hact. apply list_elem_of_singleton in Hact.
  rewrite Hact, Hs in Hun. destruct Hun as (st4 & Hr4 & Hrm). exists st4. split; [|split; [done|]].
  - unfold remove_trampoline. destruct page_zero_val as [-> _].
    rewrite (M_bind_run _ _ _ 0 st) by done. by rewrite (M_bind_run _ _ _ _ _ Hr4).
  - intros p. rewrite (rm_space _ _ _ _ _ _ Hrm) by left. apply decide_ext.
    split; [by intros [? _]|]. intros ->. split; [done|left; by rewrite Hact].
Qed.

Lemma remove_trampoline_effect k0 st l f fl :
  kinv pmo st [k0] l → space pmo st k0 0 = Some (f, fl) →
  ∃ st', remove_trampoline st = Val ((), st') ∧
    ∀ p, space pmo st' k0 p = if decide (p = 0) then None else space pmo st k0 p.
Proof. intros Hk Hs. destruct (remove_trampoline_run k0 st l f fl Hk Hs) as (st' & ? & _ & ?). by exists st'. Qed.
End Spec.
