(* ===== verification/ApStart.v ===== *)
(** * From the startup command to the kernel

    The 64-bit part of the trampoline, and the whole way of a processor: it
    starts at page 0 in real mode and enters the kernel with an index, a stack
    and the page table of the boot processor. *)

From S2P Require Import Prelude Bytes Constants Platform FrameAlloc Paging Memory AddressSpace Isolation MapPages UserMem RawMem ApMachine ApCode Smp Trampoline.

Section Long.
Context `{Profile} `{X86AddrLaws} `{BootOk pmo} `{Mapper} `{!MapperLaws pmo}.

(** ** The 64-bit part *)

Lemma exec_mov_seg_long k0 m st c s r sel limit base d :
  reads_zero (pmo:=pmo) k0 m c st → PE c = true → s ≠ CS → reg r c `mod` 2 ^ 16 = sel →
  gdtr c = (limit, base) → sel `div` 8 * 8 + 7 ≤ limit →
  bytes_at m (base + sel `div` 8 * 8) (to_le_bytes 8 d) → u64 d →
  present d && negb (Z.testbit d 43) && Z.testbit d 41 = true →
  exec (MovSeg s r) (c, st) = Val ((), (set_sreg s sel (descriptor_base d) c, st)).
Proof.
  intros Hz Hpe Hs <- Hg Hl Hb Hd Hok. unfold exec, require. rewrite bool_decide_eq_false_2 by done. cbn [negb].
  rewrite (M_bind_run (mret ()) _ _ () (c, st)) by done.
  rewrite (M_bind_run (cpu _) _ _ (reg r c `mod` 2 ^ 16) (c, st)) by done.
  unfold load_sreg. rewrite (M_bind_run (cpu PE) _ _ true (c, st)) by (unfold cpu, gets; cbn [fst]; by rewrite Hpe).
  rewrite (M_bind_run _ _ _ _ _ (descriptor_at k0 m st c _ limit base d Hz Hg Hl Hb Hd)).
  unfold require. by rewrite Hok.
Qed.

Lemma exec_to_cr0_long c st r x :
  long_mode c = true → PG c = true → reg r c `mod` 2 ^ 64 = x → Z.testbit x 31 = true → Z.testbit x 0 = true →
  exec (MovToCr CR0 r) (c, st) = Val ((), (set_cr CR0 x c, st)).
Proof.
  intros Hl Hpg <- H31 Hb0. unfold exec. rewrite (M_bind_run (gets fst) _ _ c (c, st)) by done.
  rewrite Hl. unfold load_cr, resize. rewrite (M_bind_run (gets fst) _ _ c (c, st)) by done.
  by rewrite H31, Hb0, Hpg.
Qed.

Lemma operand_at k0 m st c a x :
  reads_zero (pmo:=pmo) k0 m c st → long_mode c = true → u64 x →
  bytes_at m a (to_le_bytes 8 x) → operand W64 (Disp a) (c, st) = Val (x, (c, st)).
Proof.
  intros Hz Hl Hx Hb. unfold operand.
  rewrite (M_bind_run (cpu _) _ _ a (c, st)) by (unfold cpu, gets, linear; cbn [fst]; by rewrite Hl).
  rewrite (read_le_at k0 m st c 8 a x Hz Hb). do 2 f_equal. by apply Z.mod_small.
Qed.

Lemma exec_imul k0 m st c r a x y :
  reads_zero (pmo:=pmo) k0 m c st → long_mode c = true → u64 x →
  bytes_at m a (to_le_bytes 8 x) → reg r c = y →
  exec (Imul r (Disp a)) (c, st) = Val ((), (set_reg W64 r (y * x) c, st)).
Proof.
  intros Hz Hl Hx Hb <-. unfold exec. by rewrite (M_bind_run _ _ _ _ _ (operand_at k0 m st c a x Hz Hl Hx Hb)).
Qed.

Lemma exec_add k0 m st c r a x y :
  reads_zero (pmo:=pmo) k0 m c st → long_mode c = true → u64 x →
  bytes_at m a (to_le_bytes 8 x) → reg r c = y →
  exec (Add r (Disp a)) (c, st) = Val ((), (set_reg W64 r (y + x) c, st)).
Proof.
  intros Hz Hl Hx Hb <-. unfold exec. by rewrite (M_bind_run _ _ _ _ _ (operand_at k0 m st c a x Hz Hl Hx Hb)).
Qed.

Lemma exec_jmp_ind k0 m st c a x :
  reads_zero (pmo:=pmo) k0 m c st → long_mode c = true → u64 x →
  bytes_at m a (to_le_bytes 8 x) →
  exec (JmpInd (Disp a)) (c, st) = Val ((), (set_rip x c, st)).
Proof.
  intros Hz Hl Hx Hb. unfold exec. by rewrite (M_bind_run _ _ _ _ _ (operand_at k0 m st c a x Hz Hl Hx Hb)).
Qed.

(** *** The counter *)

(** The pages of the 8 bytes at [ctr]. *)
Definition word_page (ctr p : Z) : Prop := ∃ x, ctr ≤ x < ctr + 8 ∧ p = page_of x.

(** The word [n] at [ctr], in memory of its own that is not in frame 0. *)
Record counter_at (k0 ctr n : Z) (st : Kernel) (l : list Z) : Prop := {
  ct_kinv : kinv pmo st [k0] l;
  ct_word : holds_word (pmo:=pmo) st k0 ctr n;
  ct_pages : mem_pages (pmo:=pmo) (word_page ctr) st [k0] l;
  ct_low p fl : word_page ctr p → space pmo st k0 p ≠ Some (0, fl) }.

Lemma kinv_root st k0 l : kinv pmo st [k0] l → k_cr3 st = k0.
Proof. intros Hk. by apply list_elem_of_singleton, (ki_active _ _ _ _ Hk). Qed.

Lemma view_same c st k0 l : kinv pmo st [k0] l → cr3 c = k0 → view c st = st.
Proof. intros Hk <-. unfold view. rewrite <-(kinv_root _ _ _ Hk). by destruct st. Qed.

Lemma read_byte_virtual c st k0 l a b :
  kinv pmo st [k0] l → cr3 c = k0 → PG c = true → vbyte pmo st k0 a = Some b →
  read_byte a (c, st) = Val (b, (c, st)).
Proof.
  intros Hk Hc Hpg Hb. unfold read_byte. rewrite Hpg, (view_same c st k0 l Hk Hc).
  rewrite (vread_run st a b); [done|]. by rewrite (kinv_root _ _ _ Hk).
Qed.

Lemma read_bytes_virtual c st k0 l bs :
  kinv pmo st [k0] l → cr3 c = k0 → PG c = true →
  ∀ a, (∀ j b, bs !! j = Some b → vbyte pmo st k0 (a + Z.of_nat j) = Some b) →
  read_bytes (length bs) a (c, st) = Val (bs, (c, st)).
Proof.
  intros Hk Hc Hpg. induction bs as [|b bs IH]; intros a Hb; [done|]. cbn [length read_bytes].
  rewrite (M_bind_run _ _ _ b (c, st)).
  2:{ apply (read_byte_virtual c st k0 l); [done..|]. rewrite <-(Z.add_0_r a). by apply (Hb 0%nat). }
  rewrite (M_bind_run _ _ _ bs (c, st)); [done|]. apply IH. intros j x Hj.
  replace (a + 1 + Z.of_nat j) with (a + Z.of_nat (S j)) by lia. by apply Hb.
Qed.

(** Another processor has drawn the number [n]. *)
Definition counted (k0 ctr n : Z) (st : Kernel) (l : list Z) (st' : Kernel) : Prop :=
  stored (pmo:=pmo) (word_page ctr) st [k0] l ctr 8 (λ j, to_le_bytes 8 (n + 1) !! Z.to_nat j) st'.

Lemma exec_xadd c st k0 l ctr n :
  counter_at k0 ctr n st l → cr3 c = k0 → PG c = true → u64 n → n + 1 < 2 ^ 64 →
  reg RAX c = ctr → reg RBP c = 1 →
  ∃ st', exec (LockXadd RAX RBP) (c, st) = Val ((), (set_reg W64 RBP n c, st')) ∧ counted k0 ctr n st l st'.
Proof.
  intros [Hk Hw Hm Hlow] Hc Hpg Hn Hn1 Hrax Hrbp.
  destruct (vwrite_bytes_stored (word_page ctr) (to_le_bytes 8 (n + 1)) st [k0] l ctr Hk Hm) as (st' & Hr & Hs).
  { intros x Hx. rewrite length_to_le_bytes in Hx. exists x. split; [lia|done]. }
  rewrite length_to_le_bytes in Hs. exists st'. split; [|exact Hs].
  unfold exec. rewrite (M_bind_run (cpu _) _ _ ctr (c, st)) by (unfold cpu, gets; cbn [fst]; by rewrite Hrax).
  rewrite (M_bind_run _ _ _ n (c, st)).
  2:{ unfold read_le. pose proof (read_bytes_virtual c st k0 l (to_le_bytes 8 n) Hk Hc Hpg ctr Hw) as Hrd.
      rewrite length_to_le_bytes in Hrd. rewrite (M_bind_run _ _ _ _ _ Hrd). unfold mret, M_ret.
      by rewrite from_to_le_bytes_u64. }
  rewrite (M_bind_run (cpu _) _ _ 1 (c, st)) by (unfold cpu, gets; cbn [fst]; by rewrite Hrbp).
  rewrite (M_bind_run _ _ _ () (c, st')); [done|]. unfold write64. rewrite Hpg, (view_same c st k0 l Hk Hc).
  rewrite Z.mod_small by (unfold u64 in Hn; lia). unfold vwrite64. rewrite Hr. do 3 f_equal.
  unfold put_phys. rewrite <-(sd_cr3 _ _ _ _ _ _ _ _ Hs), <-(sd_kpt _ _ _ _ _ _ _ _ Hs). by destruct st'.
Qed.

(** Page 0 stays as it is. *)
Lemma counted_zero k0 m ctr n st l st' :
  counter_at k0 ctr n st l → page_zero_holds (pmo:=pmo) k0 m st → counted k0 ctr n st l st' →
  page_zero_holds (pmo:=pmo) k0 m st'.
Proof.
  intros Hct [Hb (fl & Hs & Hx)] Hc. pose proof (kinv_root _ _ _ (ct_kinv _ _ _ _ _ Hct)) as Hroot. split.
  - rewrite (sd_cells _ _ _ _ _ _ _ _ Hc); [done|]. intros p fl' Hp. rewrite Hroot. by apply (ct_low _ _ _ _ _ Hct).
  - exists fl. rewrite (sd_space _ _ _ _ _ _ _ _ Hc) by left. done.
Qed.

(** The next processor finds the next number. *)
Lemma counted_next k0 ctr n st l st' :
  counter_at k0 ctr n st l → counted k0 ctr n st l st' → counter_at k0 ctr (n + 1) st' l.
Proof.
  intros [Hk Hw Hm Hlow] Hc. pose proof (kinv_root _ _ _ Hk) as Hroot. split.
  - apply Hc.
  - intros j b Hj. pose proof (lookup_lt_Some _ _ _ Hj) as Hlt. rewrite length_to_le_bytes in Hlt.
    pose proof (sd_byte _ _ _ _ _ _ _ _ Hc (ctr + Z.of_nat j)) as Hb. rewrite Hroot in Hb. rewrite Hb.
    + rewrite decide_True by lia. by replace (Z.to_nat _) with j by lia.
    + exists (ctr + Z.of_nat j). split; [lia|done].
  - apply Hc.
  - intros p fl Hp. rewrite (sd_space _ _ _ _ _ _ _ _ Hc) by left. by apply Hlow.
Qed.

(** *** The instructions *)

(** In 64-bit mode, at [p]. *)
Record in_setup (k0 p : Z) (c : Cpu) : Prop := {
  st_rip : rip c = p;
  st_cs : cs (sregs c) = (8, 0);
  st_segs : ss (sregs c) = (0x10, 0) ∧ ds (sregs c) = (0x10, 0) ∧ es (sregs c) = (0x10, 0);
  st_long : long_mode c = true;
  st_paging : PG c = true;
  st_cr3 : cr3 c = k0;
  st_nxe : NXE c = true;
  st_fpu : Z.testbit (cr0 c) 1 = true ∧ Z.testbit (cr0 c) 2 = false;
  st_flags : IF c = false ∧ DF c = false }.

Lemma low_bits64 x i : 0 ≤ i < 64 → Z.testbit (x `mod` 2 ^ 64) i = Z.testbit x i.
Proof. intros Hi. apply Z.mod_pow2_bits_low. lia. Qed.

Ltac seg_step p s Hcr3 Hpe Hgdt Hlong Hbase :=
  ap_step p 2%nat (MovSeg s RAX) true ltac:(intros _; exact Hcr3) Hlong Hbase ltac:(reflexivity)
    ltac:(eapply (exec_mov_seg_long _ _ _ _ _ _ 0x10 25 GDT 0x0000920000000000);
      [eassumption|exact Hpe|done|apply resize_low|exact Hgdt|done|by apply code_word|done|done]).

Lemma long_segments k0 m c :
  code_in m → in_long_mode k0 c → reaches (pmo:=pmo) k0 m (length long_mode_code) c (in_setup k0 136).
Proof.
  intros Hm [Hrip Hcs Hlong Hpg Hcr3 Hnxe Hgdt Hfl].
  assert (snd (cs (sregs c)) = 0) as Hbase by by rewrite Hcs.
  assert (PE c = true ∧ LMA c = true ∧ long_cs c = true) as (Hpe & Hlma & Hcsl).
  { unfold long_mode in Hlong. by apply andb_true_iff in Hlong as [[? ?]%andb_true_iff ?]. }
  set (x1 := Z.land (cr0 c `mod` 2 ^ 64) (2 ^ 64 - 1 - Z.shiftl 1 2)).
  set (x2 := Z.lor (x1 `mod` 2 ^ 64) (Z.shiftl 1 1)). set (x3 := x2 `mod` 2 ^ 64 `mod` 2 ^ 64).
  assert (∀ i, 0 ≤ i < 64 → Z.testbit x3 i =
    Z.testbit (cr0 c) i && Z.testbit (2 ^ 64 - 1 - Z.shiftl 1 2) i || Z.testbit (Z.shiftl 1 1) i) as Hbits.
  { intros i Hi. unfold x3. rewrite !low_bits64 by done. unfold x2. rewrite Z.lor_spec, low_bits64 by done.
    unfold x1. by rewrite Z.land_spec, low_bits64 by done. }
  ap_step 108 4%nat (MovImm W16 RAX 0x10) true ltac:(intros _; exact Hcr3) Hlong Hbase ltac:(exact Hrip)
    ltac:(apply exec_mov_imm).
  seg_step 112 DS Hcr3 Hpe Hgdt Hlong Hbase.
  seg_step 114 ES Hcr3 Hpe Hgdt Hlong Hbase.
  seg_step 116 FS Hcr3 Hpe Hgdt Hlong Hbase.
  seg_step 118 GS Hcr3 Hpe Hgdt Hlong Hbase.
  seg_step 120 SS Hcr3 Hpe Hgdt Hlong Hbase.
  ap_step 122 3%nat (MovFromCr RAX CR0) true ltac:(intros _; exact Hcr3) Hlong Hbase ltac:(reflexivity)
    ltac:(apply (exec_from_cr _ _ _ CR0 true (cr0 c)); [exact Hlong|done]).
  ap_step 125 4%nat (AndImm W64 RAX (2 ^ 64 - 1 - Z.shiftl 1 2)) true ltac:(intros _; exact Hcr3) Hlong Hbase
    ltac:(reflexivity) ltac:(by apply (exec_and _ _ _ (cr0 c `mod` 2 ^ 64))).
  ap_step 129 4%nat (OrImm W64 RAX (Z.shiftl 1 1)) true ltac:(intros _; exact Hcr3) Hlong Hbase
    ltac:(reflexivity) ltac:(by apply (exec_or _ _ _ (x1 `mod` 2 ^ 64))).
  assert (Z.testbit x3 31 = true) as H31 by (rewrite Hbits by lia; unfold PG in Hpg; by rewrite Hpg).
  ap_step 133 3%nat (MovToCr CR0 RAX) true ltac:(intros _; exact Hcr3) Hlong Hbase ltac:(reflexivity)
    ltac:(apply (exec_to_cr0_long _ _ _ x3); [exact Hlong|exact Hpg|reflexivity
      |exact H31|rewrite Hbits by lia; unfold PE in Hpe; by rewrite Hpe]).
  apply reaches_O. unfold PE, PG in Hpe, Hpg. split; try done.
  - change (Z.testbit x3 0 && LMA c && long_cs c = true). rewrite Hbits by lia. by rewrite Hpe, Hlma, Hcsl.
  - change (Z.testbit x3 1 = true ∧ Z.testbit x3 2 = false). rewrite !Hbits by lia. split; [by rewrite orb_true_r|].
    by rewrite andb_false_r.
Qed.

(** A processor that has entered the kernel with index [n]. *)
Record in_kernel (k0 entry n stack : Z) (c : Cpu) : Prop := {
  ik_rip : rip c = entry;
  ik_index : reg RDI c = n;
  ik_stack : reg RSP c = stack;
  ik_long : long_mode c = true;
  ik_paging : PG c = true;
  ik_cr3 : cr3 c = k0;
  ik_nxe : NXE c = true;
  ik_segs : cs (sregs c) = (8, 0) ∧ ss (sregs c) = (0x10, 0) ∧ ds (sregs c) = (0x10, 0) ∧ es (sregs c) = (0x10, 0);
  ik_fpu : Z.testbit (cr0 c) 1 = true ∧ Z.testbit (cr0 c) 2 = false;
  ik_flags : IF c = false ∧ DF c = false }.

(** Before [lock xadd]: the counter's address is in rax, 1 in rbp. *)
Record at_xadd (k0 ctr : Z) (c : Cpu) : Prop := {
  ax_setup : in_setup k0 149 c;
  ax_counter : reg RAX c = ctr;
  ax_one : reg RBP c = 1 }.

Lemma setup_before k0 m c ctr stride base entry :
  code_in m → parameters_in m k0 ctr stride base entry → u64 ctr → in_setup k0 136 c →
  reaches (pmo:=pmo) k0 m 2 c (at_xadd k0 ctr).
Proof.
  intros Hm [_ Hctr _ _ _] Hu [Hrip Hcs Hsegs Hlong Hpg Hcr3 Hnxe Hfpu Hfl].
  assert (snd (cs (sregs c)) = 0) as Hbase by by rewrite Hcs.
  ap_step 136 8%nat (MovLoad W64 RAX (Disp CORE_COUNTER_ADDR)) true ltac:(intros _; exact Hcr3) Hlong Hbase
    ltac:(exact Hrip) ltac:(eapply (exec_load _ _ _ _ _ 8);
      [exact Hz|unfold linear; by rewrite (Hlong : long_mode (set_rip _ c) = true)|done|exact Hctr]).
  ap_step 144 5%nat (MovImm W32 RBP 1) true ltac:(intros _; exact Hcr3) Hlong Hbase ltac:(reflexivity)
    ltac:(apply exec_mov_imm).
  apply reaches_O. split; [by split| |done].
  change (ctr `mod` 256 ^ Z.of_nat 8 `mod` 2 ^ 64 = ctr). change (256 ^ Z.of_nat 8) with (2 ^ 64).
  by rewrite !Z.mod_small by (rewrite ?Z.mod_small by done; done).
Qed.

(** The way there. *)
Lemma reaches_xadd k0 m c ctr stride base entry :
  code_in m → parameters_in m k0 ctr stride base entry → 0 ≤ k0 < 2 ^ 32 → u64 ctr → started c →
  reaches (pmo:=pmo) k0 m 33 c (at_xadd k0 ctr).
Proof.
  intros Hm Hpar Hk0 Hu Hc. apply (reaches_app k0 m 21 12 c (in_long_mode k0)); [by eapply real_mode_run|].
  intros c1 R1. apply (reaches_app k0 m 10 2 c1 (in_setup k0 136)); [by apply long_segments|].
  intros c2 R2. by eapply setup_before.
Qed.

(** After it: the index [n] is in rbp. *)
Record has_drawn (k0 n : Z) (c : Cpu) : Prop := {
  hd_setup : in_setup k0 154 c;
  hd_index : reg RBP c = n }.

(** [lock xadd] reads and writes the counter in one step. *)
Lemma draw k0 m st c l ctr n :
  page_zero_holds (pmo:=pmo) k0 m st → code_in m → u64 n → n + 1 < 2 ^ 64 →
  counter_at k0 ctr n st l → at_xadd k0 ctr c →
  ∃ c' st', step (c, st) = Val ((), (c', st')) ∧ has_drawn k0 n c' ∧ counted k0 ctr n st l st'.
Proof.
  intros Hz Hm Hn Hn1 Hct [[Hrip Hcs Hsegs Hlong Hpg Hcr3 Hnxe Hfpu Hfl] Hrax Hrbp].
  assert (snd (cs (sregs c)) = 0) as Hbase by by rewrite Hcs.
  destruct (exec_xadd (set_rip (149 + Z.of_nat 5) c) st k0 l ctr n Hct Hcr3 Hpg Hn Hn1 Hrax Hrbp) as (st' & Hx & Hcnt).
  eexists _, st'. split; [|split; [|exact Hcnt]].
  - refine (proj2 (step_at 149 5 (LockXadd RAX RBP) k0 m c true (λ _, _) Hm _ _ _ (λ _, Hcr3) Hlong Hbase Hrip _ _) st
      (holds_reads _ _ _ _ Hz (λ _, Hcr3)) Hx); [lia..|intros; vm_compute; reflexivity|done].
  - split; [by split|]. change (n `mod` 2 ^ 64 = n). by apply Z.mod_small.
Qed.

Lemma setup_after k0 m c ctr n stride base entry :
  code_in m → parameters_in m k0 ctr stride base entry → u64 stride → u64 base → u64 entry → u64 n →
  has_drawn k0 n c → reaches (pmo:=pmo) k0 m 5 c (in_kernel k0 entry n (ap_rsp n stride base)).
Proof.
  intros Hm [_ _ Hstr Hbas Hent] Hu2 Hu3 Hu4 Hn [[Hrip Hcs Hsegs Hlong Hpg Hcr3 Hnxe Hfpu Hfl] Hrbp].
  assert (snd (cs (sregs c)) = 0) as Hbase by by rewrite Hcs.
  assert (n `mod` 2 ^ 64 = n) as Hnm by by apply Z.mod_small.
  ap_step 154 3%nat (MovReg W64 RDI RBP) true ltac:(intros _; exact Hcr3) Hlong Hbase ltac:(exact Hrip)
    ltac:(apply (exec_mov_reg _ _ _ n); exact Hrbp).
  ap_step 157 9%nat (Imul RBP (Disp STACK_STRIDE)) true ltac:(intros _; exact Hcr3) Hlong Hbase ltac:(reflexivity)
    ltac:(eapply (exec_imul _ _ _ _ _ _ stride n); [exact Hz|exact Hlong|done|exact Hstr|exact Hrbp]).
  ap_step 166 8%nat (Add RBP (Disp STACK_BASE_ADDR)) true ltac:(intros _; exact Hcr3) Hlong Hbase ltac:(reflexivity)
    ltac:(eapply (exec_add _ _ _ _ _ _ base); [exact Hz|exact Hlong|done|exact Hbas|reflexivity]).
  ap_step 174 3%nat (MovReg W64 RSP RBP) true ltac:(intros _; exact Hcr3) Hlong Hbase ltac:(reflexivity)
    ltac:(by eapply exec_mov_reg).
  ap_step 177 7%nat (JmpInd (Disp ENTRY_FUNCTION_ADDR)) true ltac:(intros _; exact Hcr3) Hlong Hbase ltac:(reflexivity)
    ltac:(eapply (exec_jmp_ind _ _ _ _ _ entry); [exact Hz|exact Hlong|done|exact Hent]).
  apply reaches_O. split; try done.
  change (((n * stride) `mod` 2 ^ 64 + base) `mod` 2 ^ 64 `mod` 2 ^ 64 = ap_rsp n stride base).
  rewrite Z.mod_mod by lia. unfold ap_rsp. by rewrite Z.add_mod_idemp_l by lia.
Qed.
End Long.

(** ** The start of all processors *)

Section Start.
Context `{Profile} `{X86AddrLaws} `{BootOk pmo} `{Mapper} `{!MapperLaws pmo} `{SmpImage}.

(** The memory after [i] processors, one after the other, have drawn a number
    from the counter, which started at 0 in [st]. *)
Inductive served (k0 : Z) (st : Kernel) (l : list Z) : Z → Kernel → Prop :=
  | served_0 : served k0 st l 0 st
  | served_S i st1 st2 : served k0 st l i st1 →
      counted (pmo:=pmo) k0 AP_CORE_COUNTER_ptr i st1 l st2 → served k0 st l (i + 1) st2.

Lemma served_counter k0 st l i st1 :
  counter_at (pmo:=pmo) k0 AP_CORE_COUNTER_ptr 0 st l → served k0 st l i st1 →
  counter_at (pmo:=pmo) k0 AP_CORE_COUNTER_ptr i st1 l ∧
  ∀ m, page_zero_holds (pmo:=pmo) k0 m st → page_zero_holds (pmo:=pmo) k0 m st1.
Proof.
  intros Hct. induction 1 as [|i st1 st2 _ [IH1 IH2] Hc]; [done|]. split; [by eapply counted_next|].
  intros m Hm. eapply (counted_zero k0 m); [done|by apply IH2|done].
Qed.

(** The counter survives what leaves its pages and frames alone. *)
Lemma counter_kept k0 ctr n st l st' l' :
  counter_at (pmo:=pmo) k0 ctr n st l → kinv pmo st' [k0] l' →
  (∀ p, word_page ctr p → space pmo st' k0 p = space pmo st k0 p) →
  (∀ f, f ≠ 0 → f ∉ l → not_table (pmo:=pmo) st [k0] f →
    f ∉ l' ∧ not_table (pmo:=pmo) st' [k0] f ∧ k_dm st' !! (pmo + f) = k_dm st !! (pmo + f)) →
  counter_at (pmo:=pmo) k0 ctr n st' l'.
Proof.
  intros [Hk Hw [Hpage Hframe Hinj] Hlow] Hk' Hsame Hcells.
  pose proof (kinv_root _ _ _ Hk) as Hroot. pose proof (kinv_root _ _ _ Hk') as Hroot'.
  rewrite Hroot in Hpage, Hframe, Hinj.
  assert (∀ p f fl, word_page ctr p → space pmo st k0 p = Some (f, fl) →
    f ∉ l' ∧ not_table (pmo:=pmo) st' [k0] f ∧ k_dm st' !! (pmo + f) = k_dm st !! (pmo + f)) as Hf.
  { intros p f fl Hwp Hs. destruct (Hframe p f fl Hwp Hs). apply Hcells; [|done|done].
    intros ->. by apply (Hlow p fl Hwp). }
  split; [done| | |].
  - intros j b Hj. pose proof (lookup_lt_Some _ _ _ Hj) as Hlt. rewrite length_to_le_bytes in Hlt.
    assert (word_page ctr (page_of (ctr + Z.of_nat j))) as Hwp.
    { exists (ctr + Z.of_nat j). split; [lia|done]. }
    specialize (Hw j b Hj). unfold vbyte in *. rewrite Hsame by done.
    destruct (Hpage _ Hwp) as (f & fl & Hs & _). rewrite Hs in *. by destruct (Hf _ _ _ Hwp Hs) as (_ & _ & ->).
  - split; rewrite Hroot'.
    + intros p Hwp. rewrite Hsame by done. by apply Hpage.
    + intros p f fl Hwp. rewrite Hsame by done. intros Hs. by destruct (Hf p f fl Hwp Hs) as (? & ? & _).
    + intros p q f fl fl' Hwp Hwq. rewrite !Hsame by done. by apply Hinj.
  - intros p fl Hwp. rewrite Hsame by done. by apply Hlow.
Qed.

(** The counter survives [prepare]. *)
Lemma prepared_counter k0 st l c st' l' :
  kinv pmo st [k0] l → prepared (pmo:=pmo) k0 st l c st' l' → counter_at (pmo:=pmo) k0 AP_CORE_COUNTER_ptr 0 st l →
  (∀ p, word_page AP_CORE_COUNTER_ptr p → p ≠ 0 ∧
    ¬ (v.KERNEL_AP_STACKS ≤ p < v.KERNEL_AP_STACKS + c * STRIDE)) →
  counter_at (pmo:=pmo) k0 AP_CORE_COUNTER_ptr 0 st' l'.
Proof.
  intros Hk [[Hk' _ _ _] _ _ Hspace Hcells] Hct Hp. eapply counter_kept; [done|done| |done].
  intros p Hwp. by apply Hspace; apply Hp.
Qed.

(** When [init_smp] has prepared page 0, every processor that starts gets to
    the kernel. *)
Definition starts_all (k0 c : Z) (st' : Kernel) (l' : list Z) : Prop :=
  ∀ i st1 cpu, 0 ≤ i < c → served k0 st' l' i st1 → started cpu →
    ∃ cpu' st2, steps 39 (cpu, st1) = Val ((), (cpu', st2)) ∧
      in_kernel k0 ap_entry_fn i (stack_page i 1023 + 4095) cpu' ∧ served k0 st' l' (i + 1) st2.

(** The memory when the commands are sent, with [m] in page 0. *)
Record ready (k0 : Z) (m : gmap Z Z) (st : Kernel) (l : list Z) : Prop := {
  rd_low : low_ready (pmo:=pmo) k0 st l;
  rd_zero : page_zero_holds (pmo:=pmo) k0 m st;
  rd_counter : counter_at (pmo:=pmo) k0 AP_CORE_COUNTER_ptr 0 st l;
  rd_root : 0 ≤ k0 < 2 ^ 32;
  rd_words : u64 AP_CORE_COUNTER_ptr ∧ u64 ap_entry_fn;
  rd_code : code_in m;
  rd_parameters : parameters_in m k0 AP_CORE_COUNTER_ptr STRIDE (v.KERNEL_AP_STACKS + STRIDE - 1) ap_entry_fn }.

Lemma prepared_ready k0 st l c st' l' :
  kinv pmo st [k0] l → k0 < 0xffffffff →
  u64 AP_CORE_COUNTER_ptr → u64 ap_entry_fn → counter_at (pmo:=pmo) k0 AP_CORE_COUNTER_ptr 0 st l →
  (∀ p, word_page AP_CORE_COUNTER_ptr p → p ≠ 0 ∧
    ¬ (v.KERNEL_AP_STACKS ≤ p < v.KERNEL_AP_STACKS + c * STRIDE)) →
  prepared (pmo:=pmo) k0 st l c st' l' → ∃ m, ready k0 m st' l'.
Proof.
  intros Hk Hlt Hptr Hentry Hct Hp Hpre. destruct (pp_bytes _ _ _ _ _ _ Hpre) as [m Hm].
  destruct (ki_roots _ _ _ _ Hk k0 ltac:(left)) as ([? _] & _). exists (trampoline_bytes k0 m). split.
  - apply Hpre.
  - split; [exact Hm|]. exists 3. split; [apply Hpre|done].
  - by apply (prepared_counter k0 st l c).
  - lia.
  - done.
  - apply trampoline_code.
  - apply trampoline_parameters.
Qed.

Lemma prepared_starts k0 st l c st' l' :
  kinv pmo st [k0] l → 0 ≤ c < MAX_CORES → k0 < 0xffffffff →
  u64 AP_CORE_COUNTER_ptr → u64 ap_entry_fn → counter_at (pmo:=pmo) k0 AP_CORE_COUNTER_ptr 0 st l →
  (∀ p, word_page AP_CORE_COUNTER_ptr p → p ≠ 0 ∧
    ¬ (v.KERNEL_AP_STACKS ≤ p < v.KERNEL_AP_STACKS + c * STRIDE)) →
  prepared (pmo:=pmo) k0 st l c st' l' → starts_all k0 c st' l'.
Proof.
  intros Hk Hc Hlt Hptr Hentry Hct Hp Hpre i st1 cpu Hi Hserved Hcpu.
  destruct (prepared_ready k0 st l c st' l' Hk Hlt Hptr Hentry Hct Hp Hpre) as (m & [_ Hz Hct' Hk0 _ Hcode Hpar]).
  destruct (served_counter k0 st' l' i st1 Hct' Hserved) as [Hcti Hz1]. specialize (Hz1 _ Hz).
  assert (u64 STRIDE ∧ u64 (v.KERNEL_AP_STACKS + STRIDE - 1)) as [Hu1 Hu2].
  { unfold u64, STRIDE. change v.KERNEL_AP_STACKS with (109 * 2 ^ 39). lia. }
  assert (u64 i ∧ i + 1 < 2 ^ 64) as [Hui Hui1] by (unfold u64, MAX_CORES in *; lia).
  destruct (reaches_xadd k0 _ cpu _ _ _ _ Hcode Hpar Hk0 Hptr Hcpu) as (c1 & E1 & R1).
  destruct (draw k0 _ st1 c1 l' _ i Hz1 Hcode Hui Hui1 Hcti R1) as (c2 & st2 & E2 & R2 & Hcnt).
  destruct (setup_after k0 _ c2 _ i _ _ _ Hcode Hpar Hu1 Hu2 Hentry Hui R2) as (c3 & E3 & R3).
  exists c3, st2. split_and!; [|by rewrite <-(ap_rsp_val c) by done|by eapply served_S].
  etransitivity; [exact (runs_steps k0 _ 33 6 cpu c1 st1 E1 Hz1)|]. cbn [steps]. rewrite (M_bind_run _ _ _ _ _ E2).
  apply (runs_steps k0 m 5 0 c2 c3 st2 E3). by eapply counted_zero.
Qed.

(** C16 (functional). The bytes that [init_smp] puts at address 0 bring a
    processor into the kernel.  Executed from the state in which the startup
    command leaves a processor, in real mode at address 0 with whatever in its
    registers, they switch it through a legal sequence to 64-bit mode and enter
    [ap_entry_fn] after 39 instructions: with the page table of the boot
    processor, the next index of the counter as argument, the end of the
    stack of that index as stack pointer, interrupts disabled and execute
    permissions enabled.  So the processors, in whatever order they draw, get
    indices 0, 1, 2...  Nothing else is mapped but the stacks, and removing
    the trampoline later unmaps page 0 again.  A page table above 4 GiB, which
    the 32-bit load of the trampoline would cut off, is refused. *)
Theorem trampoline_starts k0 st l c :
  kinv pmo st [k0] l → 0 ≤ c < MAX_CORES → (4 * 1024 * Z.to_nat c + 3 ≤ length l)%nat →
  (∀ p, v.KERNEL_AP_STACKS ≤ p < v.KERNEL_END → space pmo st k0 p = None) →
  space pmo st k0 0 = None → 0 ∉ l → not_table (pmo:=pmo) st [k0] 0 →
  u64 AP_CORE_COUNTER_ptr → u64 ap_entry_fn → counter_at (pmo:=pmo) k0 AP_CORE_COUNTER_ptr 0 st l →
  (∀ p, word_page AP_CORE_COUNTER_ptr p → p ≠ 0 ∧
    ¬ (v.KERNEL_AP_STACKS ≤ p < v.KERNEL_AP_STACKS + c * STRIDE)) →
  (0xffffffff ≤ k0 → prepare c st = Fault Assertion) ∧
  (k0 < 0xffffffff → ∃ st' l', prepare c st = Val ((), st') ∧ kinv pmo st' [k0] l' ∧
    (∀ i st1 cpu, 0 ≤ i < c → served k0 st' l' i st1 → started cpu →
      ∃ cpu' st2, steps 39 (cpu, st1) = Val ((), (cpu', st2)) ∧
        in_kernel k0 ap_entry_fn i (stack_page i 1023 + 4095) cpu' ∧ served k0 st' l' (i + 1) st2) ∧
    (∀ p, p ≠ 0 → ¬ (v.KERNEL_AP_STACKS ≤ p < v.KERNEL_AP_STACKS + c * STRIDE) →
      space pmo st' k0 p = space pmo st k0 p) ∧
    ∃ st'', remove_trampoline st' = Val ((), st'') ∧
      ∀ p, space pmo st'' k0 p = if decide (p = 0) then None else space pmo st' k0 p).
Proof.
  intros Hk Hc Hlen Hfree Hzero Hf Ht Hptr Hentry Hct Hp.
  destruct (prepare_run_effect k0 st l c Hk Hc Hlen Hfree Hzero Hf Ht) as [Hbig Hsmall]. split; [done|].
  intros Hlt. destruct (Hsmall Hlt) as (st' & l' & Hrun & Hpre). exists st', l'.
  pose proof (lr_kinv _ _ _ (pp_low _ _ _ _ _ _ Hpre)) as Hk'.
  split_and!; [done|done| |apply Hpre|by apply (remove_trampoline_effect k0 st' l' 0 3), Hpre].
  exact (prepared_starts k0 st l c st' l' Hk Hc Hlt Hptr Hentry Hct Hp Hpre).
Qed.
End Start.
