(* ===== verification/SmpDemo.v ===== *)
(** * Stacks on a concrete machine

    The machine of [IsolationDemo] with 8192 free frames, at which the theorem
    on the stacks of the application processors is instantiated. *)

From S2P Require Import Prelude Bytes Constants Platform FrameAlloc Paging Memory AddressSpace Isolation IsolationDemo MapPages UserMem RawMem ApMachine ApCode Smp Trampoline ApStart.

#[local] Existing Instance dev_profile.
Import RefX86 RefBoot RefMapper.

Lemma allocate_stacks_spec_witness :
  ∃ st' l', allocate_stacks 1 (machine 8192) = Val ((), st') ∧ kinv pmo st' [0x1000] l' ∧
    space pmo st' 0x1000 (guard_page 0) = None ∧ space pmo st' 0x1000 (guard_page 1) = None.
Proof.
  destruct (allocate_stacks_spec (pmo := pmo) 0x1000 (machine 8192) (free_frames_of 8192) 1)
    as (st' & l' & Hr & Hk & _ & _ & Hg & _).
  - apply machine_inv. lia.
  - unfold MAX_CORES. lia.
  - unfold free_frames_of. rewrite length_fmap, length_seqZ. lia.
  - intros p Hp. apply machine_unmapped. lia.
  - exists st', l'. split_and!; [exact Hr|exact Hk|apply Hg; lia|apply Hg; lia].
Defined.

#[export] Instance demo_smp_image : SmpImage := {|
  AP_CORE_COUNTER_ptr := v.KERNEL_START + 0x5000;
  ap_entry_fn := v.KERNEL_START + 0x9040 |}.

(** The only table below the root is at 0x8000. *)
Lemma machine_used n i e :
  entry_at pmo (k_dm (machine n)) 0x1000 i = Some e → is_unused e = false → pte_addr e = 0x8000.
Proof.
  unfold entry_at, k_dm, machine. cbn [k_phys dm]. rewrite lookup_insert_ne, lookup_insert_eq by done.
  intros He Hu. by rewrite (kernel_table_used _ _ He Hu).
Qed.

(** A page of the kernel in frame 0x9000, which holds zeroes, for the counter. *)
Definition counter_page : Z := v.KERNEL_START + 0x5000.

Lemma counter_word_page p : word_page AP_CORE_COUNTER_ptr p → p = counter_page.
Proof.
  intros (x & Hx & ->). unfold AP_CORE_COUNTER_ptr, demo_smp_image, counter_page, page_of in *.
  change v.KERNEL_START with (100 * 2 ^ 39) in *. Z.div_mod_to_equations. lia.
Qed.

Lemma demo_mapped n : 0x10 ≤ n ≤ 2 ^ 20 → ∃ st l,
  mapped_to pmo (machine n) [0x1000] (free_frames_of n) counter_page 0x9000 3 st l ∧
  n - 3 ≤ Z.of_nat (length l) ∧
  ∀ f, f < 0x10000 → f ≠ 0x8000 → f ≠ 0x1000 → f ∉ l ∧ not_table (pmo := pmo) st [0x1000] f.
Proof.
  intros Hn. pose proof (machine_inv n ltac:(lia)) as Hk. pose proof (machine_used n) as Hused.
  assert (space pmo (machine n) (k_cr3 (machine n)) counter_page = None) as Hnone
    by (change (k_cr3 (machine n)) with 0x1000; apply machine_unmapped; lia).
  assert (∀ f, f ∈ free_frames_of n → 0x10000 ≤ f) as Hl by (intros f Hf%free_frames_bounds; lia).
  assert (Z.of_nat (length (free_frames_of n)) = n) as Hlen
    by (unfold free_frames_of; rewrite length_fmap, length_seqZ; lia).
  assert (mappable pmo (machine n) [0x1000] counter_page) as Hmap by (intros _; by right).
  set (m := machine n) in *. set (l := free_frames_of n) in *. clearbody m l.
  pose proof (map_frame_effect m [0x1000] l counter_page 0x9000 3 Hk Hmap) as He.
  rewrite Hnone in He. destruct He as [[_ ?]|(st & l1 & _ & Hm)]; [lia|].
  destruct (mt_free _ _ _ _ _ _ _ _ _ Hm) as (k & Hk3 & Hl1). exists st, l1. split_and!; [done|rewrite Hl1, length_drop; lia|].
  assert (∀ f, f ∈ l1 → f ∈ l) as Hsub by (intros f; rewrite Hl1; apply elem_of_drop_l).
  intros f Hf H8 H1. split; [intros ?%Hsub%Hl; lia|]. split; [by intros ?%list_elem_of_singleton|].
  intros r i e Hr He Hu ->. destruct (mt_tables _ _ _ _ _ _ _ _ _ Hm r i e Hr He Hu)
    as [?%Hl|(r0 & i0 & e0 & ->%list_elem_of_singleton & He0 & Hu0 & Heq)]; [lia|].
  rewrite (Hused _ _ He0 Hu0) in Heq. by apply H8.
Qed.

Lemma demo_counter n : 0x10 ≤ n ≤ 2 ^ 20 → ∃ st l, kinv pmo st [0x1000] l ∧ n - 3 ≤ Z.of_nat (length l) ∧
  counter_at (pmo := pmo) 0x1000 AP_CORE_COUNTER_ptr 0 st l ∧
  (∀ p, p ≠ counter_page → space pmo st 0x1000 p = None) ∧
  0 ∉ l ∧ not_table (pmo := pmo) st [0x1000] 0.
Proof.
  intros Hn. destruct (demo_mapped n Hn) as (st1 & l1 & Hm & Hlen & Hnt).
  destruct (Hnt 0x9000) as [Hf9 Ht9]; [done..|]. destruct (Hnt 0) as [Hf0 Ht0]; [done..|].
  destruct (write_frame_effect st1 [0x1000] l1 0x9000 (store64 0 0 ∅) (mt_kinv _ _ _ _ _ _ _ _ _ Hm) Hf9 Ht9)
    as (Hk2 & Hd2 & Hent2 & Hsp2). set (st2 := put_phys _ st1) in *.
  assert (∀ f, not_table (pmo := pmo) st1 [0x1000] f → not_table (pmo := pmo) st2 [0x1000] f) as Hnt2.
  { intros f [Hf Hf']. split; [done|]. intros r i e Hr. rewrite Hent2 by done. by apply Hf'. }
  assert (∀ p, space pmo st2 0x1000 p = if decide (p = counter_page) then Some (0x9000, 3) else None) as Hsp.
  { intros p. rewrite Hsp2, (mt_space _ _ _ _ _ _ _ _ _ Hm), machine_unmapped by (left || lia). apply decide_ext.
    split; [by intros [? _]|]. intros ->. split; [done|by left]. }
  pose proof counter_word_page as Hwp.
  exists st2, l1. split_and!; [done|done|split; [done| | |]| |done|by apply Hnt2].
  - intros j b Hj. pose proof (lookup_lt_Some _ _ _ Hj) as Hlt. rewrite length_to_le_bytes in Hlt.
    unfold vbyte. rewrite Hsp, decide_True.
    2:{ apply Hwp. exists (AP_CORE_COUNTER_ptr + Z.of_nat j). split; [lia|done]. }
    unfold k_dm, st2. cbn. rewrite lookup_insert_eq. cbn [frame_bytes].
    do 8 (destruct j as [|j]; [vm_compute in Hj |- *; done|]). lia.
  - assert (k_cr3 st2 = 0x1000) as Hc by (by apply (kinv_root _ _ _ Hk2)). split; rewrite Hc.
    + intros p ->%Hwp. exists 0x9000, 3. by rewrite Hsp, decide_True by done.
    + intros p f fl ->%Hwp. rewrite Hsp, decide_True by done. intros [= <- <-]. split; [done|by apply Hnt2].
    + by intros p q f fl fl' ->%Hwp ->%Hwp.
  - intros p fl ->%Hwp. by rewrite Hsp, decide_True by done.
  - intros p Hp. by rewrite Hsp, decide_False.
Qed.

(** A processor that holds the number 7 everywhere it may. *)
Definition demo_cpu : Cpu :=
  mkCpu (mkRegs 7 7 7 7 7 7 7 7) (mkSregs (7, 112) (0, 0) (7, 112) (7, 112) (7, 112) (7, 112)) 0
    0x60000010 7 0 7 (7, 7) false true true.

Lemma trampoline_starts_witness :
  ∃ st' cpu' st2, steps 39 (demo_cpu, st') = Val ((), (cpu', st2)) ∧
    in_kernel 0x1000 (v.KERNEL_START + 0x9040) 0 (v.KERNEL_AP_STACKS + 1025 * 4096 - 1) cpu'.
Proof.
  destruct (demo_counter 8192 ltac:(lia)) as (st & l & Hk & Hlen & Hct & Hsp & Hf & Ht).
  destruct (proj2 (trampoline_starts (pmo := pmo) 0x1000 st l 1 Hk ltac:(unfold MAX_CORES; lia) ltac:(lia)
    ltac:(intros p Hp; apply Hsp;
      intros ->; unfold counter_page in Hp; change v.KERNEL_START with (100 * 2 ^ 39) in Hp;
      change v.KERNEL_AP_STACKS with (109 * 2 ^ 39) in Hp; lia)
    ltac:(by apply Hsp)
    Hf Ht ltac:(by vm_compute) ltac:(by vm_compute) Hct
    ltac:(intros p (x & Hx & ->); unfold AP_CORE_COUNTER_ptr, demo_smp_image, page_of in *;
      change v.KERNEL_START with (100 * 2 ^ 39) in *; change v.KERNEL_AP_STACKS with (109 * 2 ^ 39);
      split; Z.div_mod_to_equations; lia)) ltac:(lia)) as (st' & l' & _ & _ & Hi & _).
  destruct (Hi 0 st' demo_cpu ltac:(lia) ltac:(constructor) ltac:(by split)) as (cpu' & st2 & Hr & Hin & _).
  exists st', cpu', st2. split; [exact Hr|exact Hin].
Defined.
