(* ===== verification/SmpBoot.v ===== *)
(** * Starting the processors (src/kernel/src/smp.rs, smp_trampoline/ap.asm)

    The boot processor and the application processors run at the same time:
    the application processors draw an index and a stack in the trampoline,
    which lies in page 0, jump to the kernel and report; the boot processor
    waits for the reports with a time-out, unmaps page 0, and panics if the time
    was used up.  The protocol is a step relation over all interleavings. *)

From S2P Require Import Prelude Constants.

(** An application processor: halted until STARTUP arrives; in the trampoline
    before [lock xadd], after it with the index it drew, in [ap_entry_fn] before
    and after its [fetch_add]; or faulted, its page of code gone. *)
Inductive ap_state :=
  | Halted | Trampoline | Indexed (i : Z) | Entered (i : Z) | Started (i : Z) | Crashed (o : option Z).

(** [init_smp] after [startup_aps]: in the waiting loop with this [time_out]
    left, before the unmap, before the test, and its two ends. *)
Inductive bsp_state := Waiting (time_out : nat) | Unmapping (time_out : nat) | Checking (time_out : nat) | Booted | TimedOut.

Record Smp := mkSmp {
  AP_CORE_COUNTER : Z; AP_STARTUP_DONE_COUNTER : Z;
  page0 : bool; bsp : bsp_state; aps : list ap_state }.

Definition TIME_OUT : nat := Z.to_nat 1000000.

(** [n] processors, the commands sent, the trampoline in place. *)
Definition smp_start (n : nat) : Smp := mkSmp 0 0 true (Waiting TIME_OUT) (replicate n Halted).

Definition set_ap (k : nat) (a : ap_state) (s : Smp) : Smp :=
  mkSmp (AP_CORE_COUNTER s) (AP_STARTUP_DONE_COUNTER s) (page0 s) (bsp s) (<[k := a]> (aps s)).
Definition set_bsp (b : bsp_state) (s : Smp) : Smp :=
  mkSmp (AP_CORE_COUNTER s) (AP_STARTUP_DONE_COUNTER s) (page0 s) b (aps s).

(** The loop condition of [init_smp]. *)
Definition still_waiting (ap_core_count : Z) (t : nat) (s : Smp) : bool :=
  (AP_STARTUP_DONE_COUNTER s <? ap_core_count) && (0 <? Z.of_nat t).

Inductive smp_step (ap_core_count : Z) : Smp → Smp → Prop :=
  | st_wake s k :
      aps s !! k = Some Halted → smp_step ap_core_count s (set_ap k Trampoline s)
  | st_draw s k :
      aps s !! k = Some Trampoline → page0 s = true →
      smp_step ap_core_count s
        (mkSmp (AP_CORE_COUNTER s + 1) (AP_STARTUP_DONE_COUNTER s) (page0 s) (bsp s)
          (<[k := Indexed (AP_CORE_COUNTER s)]> (aps s)))
  | st_enter s k i :
      aps s !! k = Some (Indexed i) → page0 s = true → smp_step ap_core_count s (set_ap k (Entered i) s)
  | st_crash s k a o :
      aps s !! k = Some a → (a = Trampoline ∧ o = None ∨ ∃ i, a = Indexed i ∧ o = Some i) →
      page0 s = false → smp_step ap_core_count s (set_ap k (Crashed o) s)
  | st_report s k i :
      aps s !! k = Some (Entered i) →
      smp_step ap_core_count s
        (mkSmp (AP_CORE_COUNTER s) (AP_STARTUP_DONE_COUNTER s + 1) (page0 s) (bsp s) (<[k := Started i]> (aps s)))
  | st_spin s t :
      bsp s = Waiting t → still_waiting ap_core_count t s = true →
      smp_step ap_core_count s (set_bsp (Waiting (pred t)) s)
  | st_leave s t :
      bsp s = Waiting t → still_waiting ap_core_count t s = false →
      smp_step ap_core_count s (set_bsp (Unmapping t) s)
  | st_unmap s t :
      bsp s = Unmapping t →
      smp_step ap_core_count s
        (mkSmp (AP_CORE_COUNTER s) (AP_STARTUP_DONE_COUNTER s) false (Checking t) (aps s))
  | st_check s t :
      bsp s = Checking t →
      smp_step ap_core_count s (set_bsp (if decide (t = 0%nat) then TimedOut else Booted) s).

(** ** Counting processors *)

Lemma sum_list_insert {A} (f : A → nat) (l : list A) k x y :
  l !! k = Some x → (sum_list_with f (<[k := y]> l) + f x = sum_list_with f l + f y)%nat.
Proof.
  revert k. induction l as [|z l IH]; intros [|k] Hk; [done|done|injection Hk as ->; cbn; lia|].
  change (<[S k := y]> (z :: l)) with (z :: <[k := y]> l). cbn [sum_list_with].
  specialize (IH k Hk). lia.
Qed.

Lemma sum_list_bound {A} (f : A → nat) b (l : list A) :
  (∀ x, f x ≤ b)%nat → (sum_list_with f l ≤ b * length l)%nat.
Proof. intros Hf. induction l as [|z l IH]; cbn; [lia|]. specialize (Hf z). lia. Qed.

(** Counting up to the length means counting every element. *)
Lemma sum_list_full {A} (f : A → nat) (l : list A) :
  (∀ x, f x ≤ 1)%nat → (length l ≤ sum_list_with f l)%nat → ∀ x, x ∈ l → f x = 1%nat.
Proof.
  intros Hf. induction l as [|z l IH]; intros Hl x; [by intros ?%elem_of_nil|].
  cbn in Hl. pose proof (Hf z). pose proof (sum_list_bound f 1 l Hf).
  intros [->|Hx]%elem_of_cons; [lia|]. apply IH; [lia|done].
Qed.

Definition index_of (a : ap_state) : option Z :=
  match a with Indexed i | Entered i | Started i => Some i | Crashed o => o | _ => None end.
Definition drew (a : ap_state) : nat := match index_of a with Some _ => 1 | None => 0 end.
Definition started (a : ap_state) : nat := match a with Started _ => 1 | _ => 0 end.

Lemma drew_le a : (drew a ≤ 1)%nat.
Proof. unfold drew. destruct (index_of a); lia. Qed.
Lemma started_le a : (started a ≤ 1)%nat.
Proof. destruct a; cbn; lia. Qed.

(** ** The invariant *)

Definition all_started (s : Smp) : Prop := ∀ k a, aps s !! k = Some a → ∃ i, a = Started i.

Record smp_inv (n : nat) (s : Smp) : Prop := {
  si_length : length (aps s) = n;
  si_drawn : AP_CORE_COUNTER s = Z.of_nat (sum_list_with drew (aps s));
  si_done : AP_STARTUP_DONE_COUNTER s = Z.of_nat (sum_list_with started (aps s));
  si_range k a i : aps s !! k = Some a → index_of a = Some i → 0 ≤ i < AP_CORE_COUNTER s;
  si_inj k k' a a' i : aps s !! k = Some a → aps s !! k' = Some a' →
    index_of a = Some i → index_of a' = Some i → k = k';
  si_page0 : page0 s = match bsp s with Waiting _ | Unmapping _ => true | _ => false end;
  si_all : match bsp s with Unmapping (S _) | Checking (S _) | Booted => all_started s | _ => True end;
  si_crash k o : aps s !! k = Some (Crashed o) → bsp s = Checking 0 ∨ bsp s = TimedOut }.

(** A step of one processor, from [a] to [b], that keeps its index. *)
Lemma smp_inv_ap n s k a b d :
  smp_inv n s → aps s !! k = Some a → index_of b = index_of a → (∀ i, a ≠ Started i) →
  d = AP_STARTUP_DONE_COUNTER s + Z.of_nat (started b) →
  (∀ o, b = Crashed o → page0 s = false) →
  smp_inv n (mkSmp (AP_CORE_COUNTER s) d (page0 s) (bsp s) (<[k := b]> (aps s))).
Proof.
  intros Hi Ha Hidx Hns -> Hcr. pose proof (lookup_lt_Some _ _ _ Ha) as Hlt.
  assert (∀ k' x, <[k := b]> (aps s) !! k' = Some x → ∃ y, aps s !! k' = Some y ∧ index_of x = index_of y) as Hback.
  { intros k' x Hx. destruct (decide (k' = k)) as [->|Hne].
    - rewrite list_lookup_insert_eq in Hx by done. injection Hx as <-. by exists a.
    - rewrite list_lookup_insert_ne in Hx by done. by exists x. }
  assert (match bsp s with Unmapping (S _) | Checking (S _) | Booted => False | _ => True end) as Hb.
  { pose proof (si_all _ _ Hi) as Hall. destruct (bsp s) as [|[|]|[|]| |]; try done;
      destruct (Hall k a Ha) as [i ->]; by apply (Hns i). }
  split; cbn [aps AP_CORE_COUNTER AP_STARTUP_DONE_COUNTER page0 bsp].
  - rewrite length_insert. apply Hi.
  - rewrite (si_drawn _ _ Hi). f_equal. pose proof (sum_list_insert drew _ k a b Ha).
    unfold drew in *. rewrite Hidx in *. lia.
  - rewrite (si_done _ _ Hi). pose proof (sum_list_insert started _ k a b Ha).
    assert (started a = 0%nat) by (destruct a; try done; by destruct (Hns i)). lia.
  - intros k' x i Hx Hxi. destruct (Hback _ _ Hx) as (y & Hy & Hxy). rewrite Hxy in Hxi.
    by apply (si_range _ _ Hi k' y).
  - intros k1 k2 x1 x2 i H1x H2x Hi1 Hi2. destruct (Hback _ _ H1x) as (y1 & Hy1 & Hxy1).
    destruct (Hback _ _ H2x) as (y2 & Hy2 & Hxy2). rewrite Hxy1 in Hi1. rewrite Hxy2 in Hi2.
    by apply (si_inj _ _ Hi k1 k2 y1 y2 i).
  - apply Hi.
  - destruct (bsp s) as [|[|]|[|]| |]; done.
  - intros k' o Hx. destruct (decide (k' = k)) as [->|Hne].
    + rewrite list_lookup_insert_eq in Hx by done. injection Hx as ->.
      pose proof (Hcr o eq_refl) as Hp. rewrite (si_page0 _ _ Hi) in Hp.
      destruct (bsp s) as [| |[|]| |]; try done; by (left + right).
    + rewrite list_lookup_insert_ne in Hx by done. by apply (si_crash _ _ Hi k' o).
Qed.

(** Drawing an index. *)
Lemma smp_inv_draw n s k :
  smp_inv n s → aps s !! k = Some Trampoline → page0 s = true →
  smp_inv n (mkSmp (AP_CORE_COUNTER s + 1) (AP_STARTUP_DONE_COUNTER s) (page0 s) (bsp s)
    (<[k := Indexed (AP_CORE_COUNTER s)]> (aps s))).
Proof.
  intros Hi Ha Hp. pose proof (lookup_lt_Some _ _ _ Ha) as Hlt.
  assert (∀ k' x i, <[k := Indexed (AP_CORE_COUNTER s)]> (aps s) !! k' = Some x → index_of x = Some i →
    (k' = k ∧ i = AP_CORE_COUNTER s) ∨ (k' ≠ k ∧ aps s !! k' = Some x ∧ 0 ≤ i < AP_CORE_COUNTER s)) as Hback.
  { intros k' x i Hx Hxi. destruct (decide (k' = k)) as [->|Hne].
    - rewrite list_lookup_insert_eq in Hx by done. injection Hx as <-. left. split; [done|].
      by injection Hxi.
    - rewrite list_lookup_insert_ne in Hx by done. right. split_and!; [done|done|..];
        pose proof (si_range _ _ Hi k' x i Hx Hxi); lia. }
  assert (0 ≤ AP_CORE_COUNTER s) by (pose proof (si_drawn _ _ Hi); lia).
  assert (match bsp s with Waiting _ | Unmapping O => True | _ => False end) as Hb.
  { pose proof (si_all _ _ Hi) as Hall. pose proof (si_page0 _ _ Hi) as Hp0. rewrite Hp in Hp0.
    destruct (bsp s) as [|[|]|[|]| |]; try done; by destruct (Hall k _ Ha). }
  split; cbn [aps AP_CORE_COUNTER AP_STARTUP_DONE_COUNTER page0 bsp].
  - rewrite length_insert. apply Hi.
  - pose proof (sum_list_insert drew _ k _ (Indexed (AP_CORE_COUNTER s)) Ha). pose proof (si_drawn _ _ Hi). cbn in *. lia.
  - rewrite (si_done _ _ Hi). pose proof (sum_list_insert started _ k _ (Indexed (AP_CORE_COUNTER s)) Ha). cbn in *. lia.
  - intros k' x i Hx Hxi. destruct (Hback _ _ _ Hx Hxi) as [[-> ->]|(_ & _ & ?)]; lia.
  - intros k1 k2 x1 x2 i H1x H2x Hi1 Hi2.
    destruct (Hback _ _ _ H1x Hi1) as [[-> ->]|(Hk1 & Hx1 & Hr1)], (Hback _ _ _ H2x Hi2) as [[-> ?]|(Hk2 & Hx2 & Hr2)];
      [done|lia|lia|]. by apply (si_inj _ _ Hi k1 k2 x1 x2 i).
  - apply Hi.
  - destruct (bsp s) as [|[|]|[|]| |]; done.
  - intros k' o Hx. destruct (decide (k' = k)) as [->|Hne].
    + by rewrite list_lookup_insert_eq in Hx by done.
    + rewrite list_lookup_insert_ne in Hx by done. by apply (si_crash _ _ Hi k' o).
Qed.

(** All reports are in: every processor has started. *)
Lemma done_all_started n s : smp_inv n s → Z.of_nat n ≤ AP_STARTUP_DONE_COUNTER s → all_started s.
Proof.
  intros Hi Hd k a Ha. rewrite (si_done _ _ Hi), <-(si_length _ _ Hi) in Hd.
  assert (started a = 1%nat) as Hs.
  { apply (sum_list_full started (aps s) started_le); [lia|]. by eapply list_elem_of_lookup_2. }
  destruct a; try done. by eexists.
Qed.

Lemma all_started_sum s : all_started s → sum_list_with started (aps s) = length (aps s).
Proof.
  intros Hall. assert (∀ l, (∀ a, a ∈ l → ∃ i, a = Started i) → sum_list_with started l = length l) as Hsum.
  { induction l as [|a l IH]; intros Hl; [done|]. cbn. rewrite IH by (intros b Hb'; apply Hl; by right).
    destruct (Hl a) as [i ->]; [left|done]. }
  apply Hsum. intros a (k & Ha)%list_elem_of_lookup. by apply (Hall k).
Qed.

Lemma smp_inv_bsp n s p b :
  smp_inv n s → p = match b with Waiting _ | Unmapping _ => true | _ => false end →
  match b with Unmapping (S _) | Checking (S _) | Booted => all_started s | _ => True end →
  (bsp s = Checking 0 ∨ bsp s = TimedOut → b = Checking 0 ∨ b = TimedOut) →
  smp_inv n (mkSmp (AP_CORE_COUNTER s) (AP_STARTUP_DONE_COUNTER s) p b (aps s)).
Proof.
  intros [] Hp Hall Hc. split; try done. intros k o Ho. cbn in *. eauto.
Qed.

Lemma smp_step_inv n s s' : smp_inv n s → smp_step (Z.of_nat n) s s' → smp_inv n s'.
Proof.
  intros Hi Hstep. pose proof (si_page0 _ _ Hi) as Hp0. pose proof (si_all _ _ Hi) as Hall.
  destruct Hstep as [s k Ha|s k Ha Hp|s k i Ha Hp|s k a o Ha Hao Hp|s k i Ha|s t Hb Hw|s t Hb Hw|s t Hb|s t Hb];
    try rewrite Hb in *.
  - apply (smp_inv_ap n s k Halted Trampoline); [done..|cbn; lia|done].
  - by apply smp_inv_draw.
  - apply (smp_inv_ap n s k (Indexed i) (Entered i)); [done..|cbn; lia|done].
  - apply (smp_inv_ap n s k a (Crashed o)); [done|done| | |cbn; lia|done].
    + by destruct Hao as [[-> ->]|(i & -> & ->)].
    + by destruct Hao as [[-> ->]|(i & -> & ->)].
  - apply (smp_inv_ap n s k (Entered i) (Started i)); done.
  - unfold set_bsp. rewrite Hp0. apply smp_inv_bsp; [done..|]. rewrite Hb. naive_solver.
  - unfold set_bsp. rewrite Hp0. apply smp_inv_bsp; [done|done| |rewrite Hb; naive_solver].
    destruct t as [|t]; [done|]. apply (done_all_started n); [done|].
    unfold still_waiting in Hw. apply andb_false_iff in Hw as [Hw|Hw].
    + by apply Z.ltb_ge in Hw.
    + apply Z.ltb_ge in Hw. lia.
  - apply smp_inv_bsp; [done|done|by destruct t|rewrite Hb; naive_solver].
  - unfold set_bsp. rewrite Hp0. apply smp_inv_bsp; [done| | |].
    + by destruct (decide (t = 0%nat)).
    + destruct (decide (t = 0%nat)); [done|]. by destruct t.
    + rewrite Hb. destruct (decide (t = 0%nat)); [by right|]. intros [[= ->]|?]; done.
Qed.

Lemma smp_start_inv n : smp_inv n (smp_start n).
Proof.
  assert (∀ k a, replicate n Halted !! k = Some a → a = Halted) as Hh.
  { intros k a Ha. by apply lookup_replicate_1 in Ha as [-> _]. }
  assert (∀ f : ap_state → nat, f Halted = 0%nat → sum_list_with f (replicate n Halted) = 0%nat) as Hsum.
  { intros f Hf. induction n as [|m IH]; [done|]. cbn. rewrite Hf, IH; [done|].
    intros k a Ha. by apply lookup_replicate_1 in Ha as [-> _]. }
  split; cbn [smp_start aps AP_CORE_COUNTER AP_STARTUP_DONE_COUNTER page0 bsp].
  - apply length_replicate.
  - by rewrite Hsum.
  - by rewrite Hsum.
  - by intros k a i ->%Hh.
  - by intros k k' a a' i ->%Hh.
  - done.
  - done.
  - by intros k o ?%Hh.
Qed.

Lemma smp_reachable_inv n s : rtc (smp_step (Z.of_nat n)) (smp_start n) s → smp_inv n s.
Proof.
  intros Hs. pose proof (smp_start_inv n) as Hi. revert Hi. generalize (smp_start n), Hs. clear Hs.
  intros s0 Hs. induction Hs as [|s1 s2 s3 Hstep _ IH]; [done|].
  intros Hi. apply IH. by eapply smp_step_inv.
Qed.

(** ** Progress *)

(** Every step uses up something. *)
Definition ap_rank (a : ap_state) : nat :=
  match a with Halted => 4 | Trampoline => 3 | Indexed _ => 2 | Entered _ => 1 | _ => 0 end.
Definition bsp_rank (b : bsp_state) : nat :=
  match b with Waiting t => t + 3 | Unmapping _ => 2 | Checking _ => 1 | _ => 0 end.
Definition smp_rank (s : Smp) : nat := (sum_list_with ap_rank (aps s) + bsp_rank (bsp s))%nat.

Lemma smp_step_rank c s s' : smp_step c s s' → (smp_rank s' < smp_rank s)%nat.
Proof.
  assert (∀ k a b l, l !! k = Some a → (ap_rank b < ap_rank a)%nat →
    (sum_list_with ap_rank (<[k := b]> l) < sum_list_with ap_rank l)%nat) as Hap.
  { intros k a b l Hk Hlt. pose proof (sum_list_insert ap_rank l k a b Hk). lia. }
  unfold smp_rank.
  intros [s0 k Ha|s0 k Ha _|s0 k i Ha _|s0 k a o Ha Hao _|s0 k i Ha|s0 t Hb Hw|s0 t Hb _|s0 t Hb|s0 t Hb];
    cbn [aps bsp set_ap set_bsp]; try rewrite Hb.
  - apply Nat.add_lt_mono_r. apply (Hap k Halted); [done|cbn; lia].
  - apply Nat.add_lt_mono_r. apply (Hap k Trampoline); [done|cbn; lia].
  - apply Nat.add_lt_mono_r. apply (Hap k (Indexed i)); [done|cbn; lia].
  - apply Nat.add_lt_mono_r. apply (Hap k a); [done|]. destruct Hao as [[-> _]|(i & -> & _)]; cbn; lia.
  - apply Nat.add_lt_mono_r. apply (Hap k (Entered i)); [done|cbn; lia].
  - unfold still_waiting in Hw. apply andb_true_iff in Hw as [_ Hw%Z.ltb_lt]. cbn. lia.
  - cbn. lia.
  - cbn. lia.
  - destruct (decide _); cbn; lia.
Qed.

(** What is left to do when nothing can. *)
Lemma smp_stuck c s : (∀ s', ¬ smp_step c s s') →
  (bsp s = Booted ∨ bsp s = TimedOut) ∧
  ∀ k a, aps s !! k = Some a → (∃ i, a = Started i) ∨ (∃ o, a = Crashed o).
Proof.
  intros Hno. split.
  - destruct (bsp s) as [t|t|t| |] eqn:Hb; [|exfalso..|by left|by right].
    + exfalso. destruct (still_waiting c t s) eqn:Hw.
      * by eapply Hno, st_spin.
      * by eapply Hno, st_leave.
    + by eapply Hno, st_unmap.
    + by eapply Hno, st_check.
  - intros k a Ha. destruct a as [| |i|i|i|o]; [exfalso..|by left; eexists|by right; eexists].
    + by eapply Hno, st_wake.
    + destruct (page0 s) eqn:Hp; [by eapply Hno, st_draw|]. eapply Hno, (st_crash _ _ _ _ None); eauto.
    + destruct (page0 s) eqn:Hp; [by eapply Hno, st_enter|]. eapply Hno, (st_crash _ _ _ _ (Some i)); eauto.
    + by eapply Hno, st_report.
Qed.

(** ** Properties *)

(** C10 (safety). In every interleaving of the boot protocol with the [n]
    application processors the firmware reports: the processors draw distinct
    indices below [n], so their stacks, core numbers and descriptor tables are
    their own; the counters count exactly the processors that drew an index and
    that reported; the kernel only goes on once all of them run in the kernel,
    and none of them ever loses the trampoline under its feet unless the
    time-out panic is already decided. *)
Theorem smp_boot_safe n s :
  rtc (smp_step (Z.of_nat n)) (smp_start n) s →
  (∀ k a i, aps s !! k = Some a → index_of a = Some i → 0 ≤ i < Z.of_nat n) ∧
  (∀ k k' a a' i, aps s !! k = Some a → aps s !! k' = Some a' →
    index_of a = Some i → index_of a' = Some i → k = k') ∧
  AP_CORE_COUNTER s = Z.of_nat (sum_list_with drew (aps s)) ∧
  AP_STARTUP_DONE_COUNTER s = Z.of_nat (sum_list_with started (aps s)) ∧
  (bsp s = Booted → all_started s ∧ AP_STARTUP_DONE_COUNTER s = Z.of_nat n) ∧
  (∀ k o, aps s !! k = Some (Crashed o) → bsp s = Checking 0 ∨ bsp s = TimedOut).
Proof.
  intros Hs. pose proof (smp_reachable_inv n s Hs) as Hi.
  pose proof (sum_list_bound drew 1 (aps s) drew_le) as Hd. rewrite (si_length _ _ Hi) in Hd.
  split_and!; [|apply Hi|apply Hi|apply Hi| |apply Hi].
  - intros k a i Ha Hai. pose proof (si_range _ _ Hi k a i Ha Hai). pose proof (si_drawn _ _ Hi). lia.
  - intros Hb. pose proof (si_all _ _ Hi) as Hall. rewrite Hb in Hall. split; [done|].
    rewrite (si_done _ _ Hi), <-(si_length _ _ Hi). by rewrite (all_started_sum s Hall).
Qed.

(** C14 (termination). Starting the processors always ends: no interleaving has
    more than four steps for each processor and three more than the time-out for
    the boot processor, and where no step is left the kernel has booted or
    panicked and every processor runs or has faulted. *)
Theorem smp_boot_terminates n k s :
  nsteps (smp_step (Z.of_nat n)) k (smp_start n) s →
  (k ≤ 4 * n + TIME_OUT + 3)%nat ∧
  ((∀ s', ¬ smp_step (Z.of_nat n) s s') →
    (bsp s = Booted ∧ all_started s) ∨
    (bsp s = TimedOut ∧ ∀ j a, aps s !! j = Some a → (∃ i, a = Started i) ∨ (∃ o, a = Crashed o))).
Proof.
  intros Hs. split.
  - assert (smp_rank (smp_start n) = 4 * n + TIME_OUT + 3)%nat as <-.
    { unfold smp_rank. cbn [smp_start aps bsp bsp_rank]. rewrite Nat.add_assoc. do 2 f_equal.
      clear. induction n as [|m IH]; [done|]. cbn. rewrite IH. cbn. lia. }
    revert Hs. generalize (smp_start n). clear.
    induction k as [|k IH]; intros s0 Hs; [lia|]. inversion Hs as [|? ? s1 ? Hstep Hrest]; subst.
    apply smp_step_rank in Hstep. specialize (IH s1 Hrest). lia.
  - intros Hno. destruct (smp_stuck _ _ Hno) as [Hb Haps].
    pose proof (smp_reachable_inv n s (rtc_nsteps_2 _ _ _ Hs)) as Hi.
    destruct Hb as [Hb|Hb]; [left|by right]. split; [done|].
    pose proof (si_all _ _ Hi) as Hall. by rewrite Hb in Hall.
Qed.

(** ** Runs *)

(** The waiting loop spins down while the processors are halted. *)
Lemma spin_down n t d : (0 < n)%nat →
  rtc (smp_step (Z.of_nat n)) (mkSmp 0 0 true (Waiting (d + t)) (replicate n Halted))
    (mkSmp 0 0 true (Waiting t) (replicate n Halted)).
Proof.
  intros Hn. induction d as [|d IH]; [done|]. eapply rtc_l; [|exact IH].
  apply (st_spin (Z.of_nat n) (mkSmp 0 0 true (Waiting (S (d + t))) (replicate n Halted)) (S (d + t))); [done|]. unfold still_waiting. cbn [AP_STARTUP_DONE_COUNTER].
  apply andb_true_iff. split; apply Z.ltb_lt; lia.
Qed.

(** One processor, which reports in the last round of the waiting loop. *)
Lemma single_ap_done c s : ¬ smp_step c (mkSmp 1 1 false Booted [Started 0]) s.
Proof.
  inversion 1 as [? k|? k|? k|? k ? ? ? Hao|? k| | | |]; subst; cbn in *;
    try done; destruct k as [|[|k]]; cbn in *; try done; naive_solver.
Qed.

Lemma single_ap_run t :
  rtc (smp_step 1) (mkSmp 0 0 true (Waiting t) [Halted])
    (mkSmp 1 1 false (if decide (t = 0%nat) then TimedOut else Booted) [Started 0]).
Proof.
  eapply rtc_l; [by apply (st_wake 1 _ 0)|]. eapply rtc_l; [by apply (st_draw 1 _ 0)|].
  eapply rtc_l; [by apply (st_enter 1 _ 0 0)|]. eapply rtc_l; [by apply (st_report 1 _ 0 0)|].
  eapply rtc_l; [by apply (st_leave 1 _ t)|]. eapply rtc_l; [by apply (st_unmap 1 _ t)|].
  eapply rtc_l; [by apply (st_check 1 _ t)|]. done.
Qed.

(** The time-out test looks at the time only: there is a run in
    which every processor has started and reported, and the kernel panics all
    the same, because the last report came in the last round. *)
Theorem false_time_out :
  ∃ s, rtc (smp_step 1) (smp_start 1) s ∧ all_started s ∧
    AP_STARTUP_DONE_COUNTER s = 1 ∧ bsp s = TimedOut.
Proof.
  exists (mkSmp 1 1 false TimedOut [Started 0]). split_and!; [|by intros [|?] a [= <-]; eexists|done|done].
  etransitivity; [|apply (single_ap_run 0)].
  pose proof (spin_down 1 0 TIME_OUT ltac:(lia)) as Hspin. by rewrite Nat.add_0_r in Hspin.
Qed.

Lemma smp_boot_safe_witness :
  bsp (mkSmp 1 1 false Booted [Started 0]) = Booted ∧
  all_started (mkSmp 1 1 false Booted [Started 0]).
Proof.
  split; [reflexivity|].
  refine (proj1 (proj1 (proj2 (proj2 (proj2 (proj2 (smp_boot_safe 1 (mkSmp 1 1 false Booted [Started 0]) _))))) eq_refl)).
  exact (single_ap_run TIME_OUT).
Defined.

Lemma smp_boot_terminates_witness : let s := mkSmp 1 1 false Booted [Started 0] in
  ∃ k, nsteps (smp_step 1) k (smp_start 1) s ∧ (k ≤ 4 * 1 + TIME_OUT + 3)%nat ∧
    (bsp s = Booted ∧ all_started s ∨ bsp s = TimedOut).
Proof.
  intros s. destruct (rtc_nsteps_1 _ _ (single_ap_run TIME_OUT)) as [k Hk].
  exists k. split; [exact Hk|]. destruct (smp_boot_terminates 1 k s Hk) as [Hle Hend].
  split; [exact Hle|]. destruct (Hend (single_ap_done 1)) as [?|[? _]]; [by left|by right].
Defined.
