(* ===== verification/ParallelStart.v ===== *)
(** * The start of the processors, instruction by instruction

    The startup commands reach all processors at the same time, and they run
    through the trampoline side by side while the boot processor waits for their
    reports.  The machine here has all of them: a step is one instruction of one
    processor, executed on the shared memory, or a step of [init_smp], whose end
    takes the trampoline out of that memory.  It refines the protocol of
    SmpBoot.v, whose steps are single events. *)

From S2P Require Import Prelude Bytes Constants Platform FrameAlloc Paging Memory AddressSpace Isolation MapPages UserMem RawMem ApMachine ApCode Smp Trampoline ApStart SmpBoot.

(** ** The machine *)

(** A processor that has executed [n] instructions since its startup command;
    one that has reported; one that the hardware has stopped.  Rust code runs
    from the 39th instruction on, with [fetch_add] as its first action. *)
Inductive core := Exec (n : nat) (c : Cpu) | Reported (c : Cpu) | Faulted (c : Cpu).

Record Par := mkPar { p_memory : Kernel; p_done : Z; p_bsp : bsp_state; p_cores : list core }.

Definition set_core (k : nat) (x : core) (s : Par) : Par :=
  mkPar (p_memory s) (p_done s) (p_bsp s) (<[k := x]> (p_cores s)).
Definition set_wait (b : bsp_state) (s : Par) : Par := mkPar (p_memory s) (p_done s) b (p_cores s).

Definition par_start (st : Kernel) (cpus : list Cpu) : Par :=
  mkPar st 0 (Waiting TIME_OUT) (Exec 0 <$> cpus).

Section Machine.
Context `{Profile} `{X86Addr} `{Boot} `{Mapper}.

(** [lock xadd] is one instruction, so its read and write are one step, like
    those of [fetch_add]. *)
Inductive par_step (ap_core_count : Z) : Par → Par → Prop :=
  | ps_instr s k n c c' st :
      p_cores s !! k = Some (Exec n c) → (n < 39)%nat → step (c, p_memory s) = Val ((), (c', st)) →
      par_step ap_core_count s (mkPar st (p_done s) (p_bsp s) (<[k := Exec (S n) c']> (p_cores s)))
  | ps_fault s k n c f :
      p_cores s !! k = Some (Exec n c) → (n < 39)%nat → step (c, p_memory s) = Fault f →
      par_step ap_core_count s (set_core k (Faulted c) s)
  | ps_report s k c :
      p_cores s !! k = Some (Exec 39 c) →
      par_step ap_core_count s (mkPar (p_memory s) (p_done s + 1) (p_bsp s) (<[k := Reported c]> (p_cores s)))
  | ps_spin s t :
      p_bsp s = Waiting t → (p_done s <? ap_core_count) && (0 <? Z.of_nat t) = true →
      par_step ap_core_count s (set_wait (Waiting (pred t)) s)
  | ps_leave s t :
      p_bsp s = Waiting t → (p_done s <? ap_core_count) && (0 <? Z.of_nat t) = false →
      par_step ap_core_count s (set_wait (Unmapping t) s)
  | ps_unmap s t st :
      p_bsp s = Unmapping t → remove_trampoline (p_memory s) = Val ((), st) →
      par_step ap_core_count s (mkPar st (p_done s) (Checking t) (p_cores s))
  | ps_check s t :
      p_bsp s = Checking t →
      par_step ap_core_count s (set_wait (if decide (t = 0%nat) then TimedOut else Booted) s).
End Machine.

(** *** Progress *)

Definition core_rank (x : core) : nat := match x with Exec n _ => 40 - n | _ => 0 end.
Definition par_rank (s : Par) : nat := (sum_list_with core_rank (p_cores s) + bsp_rank (p_bsp s))%nat.

Section Progress.
Context `{Profile} `{X86Addr} `{Boot} `{Mapper}.

Lemma par_step_rank c s s' : par_step c s s' → (par_rank s' < par_rank s)%nat.
Proof.
  assert (∀ k x y l, l !! k = Some x → (core_rank y < core_rank x)%nat →
    (sum_list_with core_rank (<[k := y]> l) < sum_list_with core_rank l)%nat) as Hc.
  { intros k x y l Hk Hlt. pose proof (sum_list_insert core_rank l k x y Hk). lia. }
  unfold par_rank. intros [s0 k n p p' st Hk Hn _|s0 k n p f Hk Hn _|s0 k p Hk|s0 t Hb Hw|s0 t Hb _|s0 t st Hb _|s0 t Hb];
    cbn [p_cores p_bsp set_core set_wait]; try rewrite Hb.
  - apply Nat.add_lt_mono_r, (Hc k (Exec n p)); [done|cbn; lia].
  - apply Nat.add_lt_mono_r, (Hc k (Exec n p)); [done|cbn; lia].
  - apply Nat.add_lt_mono_r, (Hc k (Exec 39 p)); [done|cbn; lia].
  - apply andb_true_iff in Hw as [_ Hw%Z.ltb_lt]. cbn. lia.
  - cbn. lia.
  - cbn. lia.
  - destruct (decide _); cbn; lia.
Qed.

Lemma par_steps_rank c j s s' : nsteps (par_step c) j s s' → (j + par_rank s' ≤ par_rank s)%nat.
Proof. induction 1 as [|j s1 s2 s3 Hs%par_step_rank _ IH]; lia. Qed.

Lemma par_start_rank st cpus : par_rank (par_start st cpus) = (40 * length cpus + TIME_OUT + 3)%nat.
Proof.
  unfold par_rank. cbn [par_start p_cores p_bsp bsp_rank].
  assert (sum_list_with core_rank (Exec 0 <$> cpus) = 40 * length cpus)%nat as ->; [|lia].
  induction cpus as [|c cpus IH]; [done|]. change (sum_list_with core_rank (Exec 0 <$> c :: cpus))
    with (40 + sum_list_with core_rank (Exec 0 <$> cpus))%nat. rewrite IH. cbn [length]. lia.
Qed.
End Progress.

(** ** The simulation *)

Section Simulation.
Context `{Profile} `{X86AddrLaws} `{BootOk pmo} `{Mapper} `{!MapperLaws pmo} `{SmpImage}.
Context (k0 : Z) (m : gmap Z Z) (st0 : Kernel) (l : list Z).

(** The processor with index [i] in [ap_entry_fn]. *)
Definition entered (i : Z) (c : Cpu) : Prop :=
  in_kernel k0 ap_entry_fn i (ap_rsp i STRIDE (v.KERNEL_AP_STACKS + STRIDE - 1)) c.

(** The events of the protocol are the first instruction, [lock xadd], the jump
    to [ap_entry_fn], and the report. *)
Definition core_refines (x : core) (a : ap_state) : Prop :=
  match a, x with
  | Halted, Exec n c => n = 0%nat ∧ ApCode.started c
  | Trampoline, Exec n c => (0 < n ≤ 33)%nat ∧ reaches (pmo:=pmo) k0 m (33 - n) c (at_xadd k0 AP_CORE_COUNTER_ptr)
  | Indexed i, Exec n c => (34 ≤ n < 39)%nat ∧ PG c = true ∧ reaches (pmo:=pmo) k0 m (39 - n) c (entered i)
  | Entered i, Exec n c => n = 39%nat ∧ entered i c
  | Started i, Reported c => entered i c
  | Crashed _, Faulted _ => True
  | _, _ => False
  end.

(** The counter in the memory, or page 0 unmapped. *)
Definition memory_refines (st : Kernel) (a : Smp) : Prop :=
  if page0 a then served (pmo:=pmo) k0 st0 l (AP_CORE_COUNTER a) st
  else frame_bytes (k_dm st !! (pmo + 0)) = m ∧ space pmo st k0 0 = None.

Record refines (s : Par) (a : Smp) : Prop := {
  rf_memory : memory_refines (p_memory s) a;
  rf_done : p_done s = AP_STARTUP_DONE_COUNTER a;
  rf_bsp : p_bsp s = bsp a;
  rf_cores : Forall2 core_refines (p_cores s) (aps a) }.

Context (Hready : ready (pmo:=pmo) k0 m st0 l).

(** *** The memory *)

Lemma served_facts i st : served (pmo:=pmo) k0 st0 l i st →
  low_ready (pmo:=pmo) k0 st l ∧ counter_at (pmo:=pmo) k0 AP_CORE_COUNTER_ptr i st l ∧
  page_zero_holds (pmo:=pmo) k0 m st.
Proof.
  pose proof Hready as [Hlow Hz Hct _ _ _ _].
  induction 1 as [|i st1 st2 _ ([Hk Hf [Hr Ht] (fl & Hs & Hb)] & Hct1 & Hz1) Hc]; [done|].
  split_and!; [|by eapply counted_next|by eapply counted_zero]. split; [apply Hc|done| |].
  - split; [done|]. intros r i' e Hri. rewrite (sd_entry _ _ _ _ _ _ _ _ Hc) by done. by apply Ht.
  - exists fl. by rewrite (sd_space _ _ _ _ _ _ _ _ Hc) by left.
Qed.

(** A processor with paging on cannot fetch from page 0 when it is unmapped. *)
Lemma step_unmapped c st :
  at_low k0 c → PG c = true → space pmo st k0 0 = None → step (c, st) = Fault Undefined.
Proof.
  intros [Hsees Hlin] Hpg Hs. destruct (low_page (linear CS (rip c) c) Hlin) as [Hp _].
  unfold step. cbn [fst]. assert (fetch 15 (linear CS (rip c) c) (c, st) = []) as ->; [|done].
  cbn [fetch]. unfold read_byte. cbn [fst snd]. rewrite Hpg. unfold vread. rewrite physical_memory_offset_val.
  cbn [view k_cr3]. rewrite (Hsees Hpg), Hp. change (space pmo (view c st) k0 0) with (space pmo st k0 0).
  rewrite Hs. by destruct (executable _ _ _).
Qed.

(** Page 0 as the next instruction finds it. *)
Lemma reads_refines c s a :
  refines s a → sees_zero k0 c → page0 a = true ∨ PG c = false → reads_zero (pmo:=pmo) k0 m c (p_memory s).
Proof.
  intros [Hm _ _ _] Hs Hor. unfold memory_refines in Hm. destruct (page0 a).
  - destruct (served_facts _ _ Hm) as (_ & _ & Hz). by apply holds_reads.
  - destruct Hor as [|Hpg]; [done|]. split; [apply Hm|]. by rewrite Hpg.
Qed.

(** An instruction of a run: it is executed, or the trampoline is gone. *)
Lemma run_step n c (Q : Cpu → Prop) s a :
  refines s a → reaches (pmo:=pmo) k0 m (S n) c Q →
  (∃ c1, step (c, p_memory s) = Val ((), (c1, p_memory s)) ∧ (PG c = true → PG c1 = true) ∧
    reaches (pmo:=pmo) k0 m n c1 Q ∧ (page0 a = true ∨ PG c = false)) ∨
  (page0 a = false ∧ PG c = true ∧ step (c, p_memory s) = Fault Undefined).
Proof.
  intros Hr (c2 & Hruns & Hq). inversion Hruns as [|? ? c1 ? Hlow Hpg1 Hstep Hrest]; subst.
  destruct (decide (page0 a = true ∨ PG c = false)) as [Hor|Hno].
  - left. exists c1. split_and!; [|done|by exists c2|done]. apply Hstep. eapply reads_refines; [done|apply Hlow|done].
  - right. assert (page0 a = false ∧ PG c = true) as [Hp Hpg].
    { destruct (page0 a), (PG c); naive_solver. }
    split_and!; [done|done|]. apply step_unmapped; [done|done|].
    pose proof (rf_memory _ _ Hr) as Hm. unfold memory_refines in Hm. rewrite Hp in Hm. apply Hm.
Qed.
(** *** One step *)

Lemma refines_set s a k x b : refines s a → core_refines x b → refines (set_core k x s) (set_ap k b a).
Proof. intros [Hm Hd Hb Hc] Hx. split; [exact Hm|done|done|]. by apply Forall2_insert. Qed.

Lemma set_ap_id a k b : aps a !! k = Some b → set_ap k b a = a.
Proof. intros Hk. unfold set_ap. rewrite list_insert_id by done. by destruct a. Qed.

(** What the protocol does for the next instruction of processor [k]. *)
Definition simulated (n : nat) (s : Par) (a : Smp) (k j : nat) (c : Cpu) : Prop :=
  match step (c, p_memory s) with
  | Val (_, (c', st)) =>
      ∃ a', rtc (smp_step (Z.of_nat n)) a a' ∧
        refines (mkPar st (p_done s) (p_bsp s) (<[k := Exec (S j) c']> (p_cores s))) a'
  | Fault _ => ∃ a', rtc (smp_step (Z.of_nat n)) a a' ∧ refines (set_core k (Faulted c) s) a'
  end.

(** An instruction of a run, with an event [b] of the protocol or none. *)
Lemma simulate_run n s a k j d c x b (Q : Cpu → Prop) :
  refines s a → aps a !! k = Some x → reaches (pmo:=pmo) k0 m (S d) c Q →
  (∀ c1, (PG c = true → PG c1 = true) → reaches (pmo:=pmo) k0 m d c1 Q → core_refines (Exec (S j) c1) b) →
  (page0 a = true ∨ PG c = false → rtc (smp_step (Z.of_nat n)) a (set_ap k b a)) →
  (page0 a = false → PG c = true → ∃ o, smp_step (Z.of_nat n) a (set_ap k (Crashed o) a)) →
  simulated n s a k j c.
Proof.
  intros Hr Hk Hreach Hnext Hev Hcrash. unfold simulated.
  destruct (run_step d c Q s a Hr Hreach) as [(c1 & -> & Hpg & Hre & Hor)|(Hp & Hpg & ->)].
  - exists (set_ap k b a). split; [by apply Hev|]. apply (refines_set s a k (Exec (S j) c1)); [done|by apply Hnext].
  - destruct (Hcrash Hp Hpg) as [o Hs]. exists (set_ap k (Crashed o) a). split; [by apply rtc_once|].
    by apply refines_set.
Qed.

Lemma xadd_low ctr c : at_xadd k0 ctr c → at_low k0 c ∧ PG c = true.
Proof.
  intros [[Hrip _ _ Hlong Hpg Hcr3 _ _ _] _ _]. split; [split; [by intros _|]|done].
  unfold linear. rewrite Hlong, Hrip. lia.
Qed.

(** Drawing an index, or the trampoline is gone. *)
Lemma simulate_draw n s a k c :
  refines s a → smp_inv n a → Z.of_nat n < MAX_CORES → aps a !! k = Some Trampoline →
  at_xadd k0 AP_CORE_COUNTER_ptr c → simulated n s a k 33 c.
Proof.
  intros Hr Hi Hn Hk Hc. unfold simulated. destruct (xadd_low _ _ Hc) as [Hlow Hpg].
  pose proof (rf_memory _ _ Hr) as Hm. unfold memory_refines in Hm. destruct (page0 a) eqn:Hp.
  - destruct (served_facts _ _ Hm) as (_ & Hct & Hz).
    assert (0 ≤ AP_CORE_COUNTER a ≤ Z.of_nat n) as Hi0.
    { rewrite (si_drawn _ _ Hi), <-(si_length _ _ Hi). pose proof (sum_list_bound drew 1 (aps a) drew_le). lia. }
    assert (u64 (AP_CORE_COUNTER a) ∧ AP_CORE_COUNTER a + 1 < 2 ^ 64) as [Hu Hu1] by (unfold u64, MAX_CORES in *; lia).
    destruct (draw k0 m (p_memory s) c l _ _ Hz (rd_code _ _ _ _ Hready) Hu Hu1 Hct Hc) as (c' & st' & -> & Hdr & Hcnt).
    eexists. split; [by apply rtc_once, (st_draw _ a k)|]. destruct Hr as [_ Hd Hb Hcs]. split; [|done|done|].
    + unfold memory_refines. cbn [page0 AP_CORE_COUNTER p_memory]. rewrite Hp. by eapply served_S.
    + apply Forall2_insert; [done|]. split; [lia|]. split; [apply Hdr|]. pose proof (rd_words _ _ _ _ Hready) as [_ Hent].
      apply (setup_after k0 m c' _ _ _ _ _ (rd_code _ _ _ _ Hready) (rd_parameters _ _ _ _ Hready)); [| |done..];
        unfold u64, STRIDE; change v.KERNEL_AP_STACKS with (109 * 2 ^ 39); lia.
  - rewrite (step_unmapped c) by (done || apply Hm). exists (set_ap k (Crashed None) a). split; [|by apply refines_set].
    apply rtc_once, (st_crash _ a k Trampoline); [done|by left|done].
Qed.

Lemma simulate_instr n s a k j c :
  refines s a → smp_inv n a → Z.of_nat n < MAX_CORES → p_cores s !! k = Some (Exec j c) → (j < 39)%nat →
  simulated n s a k j c.
Proof.
  intros Hr Hi Hn Hk Hj. destruct (Forall2_lookup_l _ _ _ _ _ (rf_cores _ _ Hr) Hk) as (x & Hx & Hcx).
  destruct x as [| |i|i|i|o]; cbn [core_refines] in Hcx; [| | |lia|done|done].
  - destruct Hcx as [-> Hc]. pose proof (sr_paging _ Hc) as Hpg.
    apply (simulate_run n s a k 0 32 c Halted Trampoline (at_xadd k0 AP_CORE_COUNTER_ptr)); [done|done| | | |].
    + by apply (reaches_xadd k0 m c _ _ _ _ (rd_code _ _ _ _ Hready) (rd_parameters _ _ _ _ Hready) (rd_root _ _ _ _ Hready)
        (proj1 (rd_words _ _ _ _ Hready))).
    + intros c1 _ Hre. split; [lia|exact Hre].
    + intros _. by apply rtc_once, st_wake.
    + intros _ Ht. congruence.
  - destruct Hcx as [Hj' Hre]. destruct (decide (j = 33%nat)) as [->|Hne].
    { destruct Hre as (c' & Hruns & Hc'). inversion Hruns; subst. by apply simulate_draw. }
    apply (simulate_run n s a k j (32 - j) c Trampoline Trampoline (at_xadd k0 AP_CORE_COUNTER_ptr)); [done|done| | | |].
    + by replace (S (32 - j)) with (33 - j)%nat by lia.
    + intros c1 _ Hre1. split; [lia|]. by replace (33 - S j)%nat with (32 - j)%nat by lia.
    + intros _. by rewrite set_ap_id.
    + intros Hp _. exists None. apply (st_crash _ a k Trampoline); [done|by left|done].
  - destruct Hcx as (Hj' & Hpg & Hre).
    apply (simulate_run n s a k j (38 - j) c (Indexed i) (if decide (j = 38%nat) then Entered i else Indexed i) (entered i));
      [done|done| | | |].
    + by replace (S (38 - j)) with (39 - j)%nat by lia.
    + intros c1 Hpg1 Hre1. destruct (decide (j = 38%nat)) as [->|Hne].
      * destruct Hre1 as (c' & Hruns & Hc'). inversion Hruns; subst. by split.
      * split; [lia|]. split; [by apply Hpg1|]. by replace (39 - S j)%nat with (38 - j)%nat by lia.
    + intros [Hp|?]; [|congruence]. destruct (decide (j = 38%nat)); [by apply rtc_once, st_enter|by rewrite set_ap_id].
    + intros Hp _. exists (Some i). apply (st_crash _ a k (Indexed i)); [done|right; by exists i|done].
Qed.
(** [init_smp] takes page 0 away. *)
Lemma simulate_unmap i st st' :
  served (pmo:=pmo) k0 st0 l i st → remove_trampoline st = Val ((), st') →
  frame_bytes (k_dm st' !! (pmo + 0)) = m ∧ space pmo st' k0 0 = None.
Proof.
  intros Hs Hrun. destruct (served_facts _ _ Hs) as ([Hk Hf [_ Ht] (fl & Hs0 & _)] & _ & [Hb _]).
  destruct (remove_trampoline_run k0 st l 0 fl Hk Hs0) as (st1 & Hr1 & Hrm & Hsp).
  rewrite Hrun in Hr1. injection Hr1 as <-. split; [|by rewrite Hsp, decide_True].
  by rewrite (rm_cells _ _ _ _ _ _ Hrm).
Qed.

Lemma simulate_step n s a s' :
  refines s a → smp_inv n a → Z.of_nat n < MAX_CORES → par_step (Z.of_nat n) s s' →
  ∃ a', rtc (smp_step (Z.of_nat n)) a a' ∧ refines s' a'.
Proof.
  intros Hr Hi Hn Hstep. pose proof Hr as [Hm Hd Hb Hc].
  destruct Hstep as [s k j c c' st Hk Hj Hs|s k j c f Hk Hj Hs|s k c Hk|s t Ht Hw|s t Ht Hw|s t st Ht Hs|s t Ht];
    try rewrite Hb in Ht.
  - pose proof (simulate_instr n s a k j c Hr Hi Hn Hk Hj) as H'. unfold simulated in H'. by rewrite Hs in H'.
  - pose proof (simulate_instr n s a k j c Hr Hi Hn Hk Hj) as H'. unfold simulated in H'. by rewrite Hs in H'.
  - destruct (Forall2_lookup_l _ _ _ _ _ Hc Hk) as (x & Hx & Hcx).
    destruct x as [| |i|i|i|o]; cbn [core_refines] in Hcx; try (exfalso; lia).
    destruct Hcx as [_ He]. eexists. split; [by apply rtc_once, (st_report _ a k i)|].
    split; [exact Hm|cbn; by rewrite Hd|done|]. by apply Forall2_insert.
  - rewrite Hd in Hw. exists (set_bsp (Waiting (pred t)) a). split; [by apply rtc_once, st_spin|by split].
  - rewrite Hd in Hw. exists (set_bsp (Unmapping t) a). split; [by apply rtc_once, st_leave|by split].
  - eexists. split; [by apply rtc_once, (st_unmap _ a t)|]. split; [|done..].
    pose proof (si_page0 _ _ Hi) as Hp. rewrite Ht in Hp. unfold memory_refines in Hm. rewrite Hp in Hm.
    exact (simulate_unmap _ _ _ Hm Hs).
  - eexists. split; [by apply rtc_once, (st_check _ a t)|by split].
Qed.

Lemma start_refines cpus : Forall ApCode.started cpus → refines (par_start st0 cpus) (smp_start (length cpus)).
Proof.
  intros Hcpus. split; [apply served_0|done|done|]. cbn [par_start p_cores smp_start aps].
  induction Hcpus; [constructor|]. cbn [length replicate]. rewrite fmap_cons. by constructor.
Qed.

Lemma par_steps_refine n s a s' :
  refines s a → Z.of_nat n < MAX_CORES → rtc (smp_step (Z.of_nat n)) (smp_start n) a →
  rtc (par_step (Z.of_nat n)) s s' →
  ∃ a', rtc (smp_step (Z.of_nat n)) (smp_start n) a' ∧ refines s' a'.
Proof.
  intros Hr Hn Ha Hs. revert a Ha Hr. induction Hs as [s|s s1 s2 Hstep _ IH]; intros a Ha Hr; [by exists a|].
  destruct (simulate_step _ _ _ _ Hr (smp_reachable_inv _ _ Ha) Hn Hstep) as (a1 & Ha1 & Hr1).
  apply (IH a1); [by etrans|done].
Qed.

(** What is left to do when nothing can. *)
Lemma par_stuck n s a :
  refines s a → smp_inv n a → (∀ s', ¬ par_step (Z.of_nat n) s s') →
  (p_bsp s = Booted ∨ p_bsp s = TimedOut) ∧
  ∀ k x, p_cores s !! k = Some x → (∃ c, x = Reported c) ∨ ∃ c, x = Faulted c.
Proof.
  intros Hr Hi Hno. pose proof Hr as [Hm Hd Hb Hc]. split.
  - destruct (p_bsp s) as [t|t|t| |] eqn:Ht; [exfalso..|by left|by right].
    + destruct ((p_done s <? Z.of_nat n) && (0 <? Z.of_nat t)) eqn:Hw; [by eapply Hno, ps_spin|by eapply Hno, ps_leave].
    + pose proof (si_page0 _ _ Hi) as Hp. rewrite <-Hb in Hp. unfold memory_refines in Hm. rewrite Hp in Hm.
      destruct (served_facts _ _ Hm) as ([Hk _ _ (fl & Hs0 & _)] & _).
      destruct (remove_trampoline_run k0 _ l 0 fl Hk Hs0) as (st1 & Hr1 & _). by eapply Hno, ps_unmap.
    + by eapply Hno, ps_check.
  - intros k x Hk. destruct x as [j c|c|c]; [exfalso|left; by exists c|right; by exists c].
    destruct (decide (j < 39)%nat) as [Hj|Hj].
    + destruct (step (c, p_memory s)) as [[[] [c' st]]|f] eqn:Hs; [by eapply Hno, ps_instr|by eapply Hno, ps_fault].
    + destruct (Forall2_lookup_l _ _ _ _ _ Hc Hk) as (x & _ & Hcx).
      assert (j = 39%nat) as -> by (destruct x; cbn [core_refines] in Hcx; first [lia | done]).
      by eapply Hno, ps_report.
Qed.
(** *** What the protocol gives *)

(** In a state that processors reach together: those that have entered the
    kernel have indices below [c], each its own, with the stack of the index. *)
Record together (c : Z) (s : Par) : Prop := {
  tg_kernel k cpu : p_cores s !! k = Some (Exec 39 cpu) ∨ p_cores s !! k = Some (Reported cpu) →
    ∃ i, 0 ≤ i < c ∧ in_kernel k0 ap_entry_fn i (stack_page i 1023 + 4095) cpu;
  tg_apart k k' cpu cpu' : k ≠ k' →
    p_cores s !! k = Some (Exec 39 cpu) ∨ p_cores s !! k = Some (Reported cpu) →
    p_cores s !! k' = Some (Exec 39 cpu') ∨ p_cores s !! k' = Some (Reported cpu') →
    reg RDI cpu ≠ reg RDI cpu' ∧ reg RSP cpu ≠ reg RSP cpu';
  tg_booted : p_bsp s = Booted → p_done s = c ∧ ∀ k x, p_cores s !! k = Some x → ∃ cpu, x = Reported cpu;
  tg_fault k cpu : p_cores s !! k = Some (Faulted cpu) → p_bsp s = Checking 0 ∨ p_bsp s = TimedOut }.

Lemma refines_entered s a k cpu :
  refines s a → p_cores s !! k = Some (Exec 39 cpu) ∨ p_cores s !! k = Some (Reported cpu) →
  ∃ x i, aps a !! k = Some x ∧ index_of x = Some i ∧ entered i cpu.
Proof.
  intros [_ _ _ Hc] [Hk|Hk]; destruct (Forall2_lookup_l _ _ _ _ _ Hc Hk) as (x & Hx & Hcx);
    destruct x as [| |i|i|i|o]; cbn [core_refines] in Hcx; try (exfalso; lia);
    first [done | exists (Entered i), i; by destruct Hcx | by exists (Started i), i].
Qed.

Lemma stack_apart c i i' : 0 ≤ i < c → 0 ≤ i' < c → 0 ≤ c < MAX_CORES →
  stack_page i 1023 + 4095 = stack_page i' 1023 + 4095 → i = i'.
Proof. unfold stack_page, STRIDE. lia. Qed.

Lemma refines_together n s a :
  refines s a → rtc (smp_step (Z.of_nat n)) (smp_start n) a → Z.of_nat n < MAX_CORES → together (Z.of_nat n) s.
Proof.
  intros Hr Ha Hn. pose proof (smp_reachable_inv _ _ Ha) as Hi.
  assert (∀ k x i, aps a !! k = Some x → index_of x = Some i → 0 ≤ i < Z.of_nat n) as Hidx.
  { intros k x i Hx Hxi. pose proof (si_range _ _ Hi k x i Hx Hxi). pose proof (si_drawn _ _ Hi).
    pose proof (sum_list_bound drew 1 (aps a) drew_le). rewrite (si_length _ _ Hi) in *. lia. }
  assert (∀ k cpu, p_cores s !! k = Some (Exec 39 cpu) ∨ p_cores s !! k = Some (Reported cpu) →
    ∃ x i, aps a !! k = Some x ∧ index_of x = Some i ∧ 0 ≤ i < Z.of_nat n ∧
      in_kernel k0 ap_entry_fn i (stack_page i 1023 + 4095) cpu) as Hin.
  { intros k cpu Hk. destruct (refines_entered s a k cpu Hr Hk) as (x & i & Hx & Hxi & He).
    exists x, i. pose proof (Hidx k x i Hx Hxi). split_and!; [done..|lia|lia|].
    rewrite <-(ap_rsp_val (Z.of_nat n)) by lia. exact He. }
  pose proof Hr as [_ Hd Hb Hc]. split.
  - intros k cpu Hk. destruct (Hin k cpu Hk) as (x & i & _ & _ & ? & ?). by exists i.
  - intros k k' cpu cpu' Hne Hk Hk'.
    destruct (Hin k cpu Hk) as (x & i & Hx & Hxi & Hr1 & He1), (Hin k' cpu' Hk') as (x' & i' & Hx' & Hxi' & Hr2 & He2).
    assert (i ≠ i') as Hii by (intros <-; apply Hne; by apply (si_inj _ _ Hi k k' x x' i)).
    rewrite (ik_index _ _ _ _ _ He1), (ik_index _ _ _ _ _ He2), (ik_stack _ _ _ _ _ He1), (ik_stack _ _ _ _ _ He2).
    split; [done|]. intros Heq. apply Hii. by apply (stack_apart (Z.of_nat n)); [lia..|].
  - rewrite Hb, Hd. intros Hbooted. pose proof (si_all _ _ Hi) as Hall. rewrite Hbooted in Hall. split.
    + rewrite (si_done _ _ Hi), (all_started_sum a Hall). by rewrite (si_length _ _ Hi).
    + intros k x Hk. destruct (Forall2_lookup_l _ _ _ _ _ Hc Hk) as (y & Hy & Hcy).
      destruct (Hall k y Hy) as [i ->]. destruct x as [| cpu |]; try done. by exists cpu.
  - intros k cpu Hk. destruct (Forall2_lookup_l _ _ _ _ _ Hc Hk) as (y & Hy & Hcy).
    destruct y as [| | | | |o]; try done. rewrite Hb. by apply (si_crash _ _ Hi k o).
Qed.
End Simulation.

(** ** The start of all processors *)

Section Together.
Context `{Profile} `{X86AddrLaws} `{BootOk pmo} `{Mapper} `{!MapperLaws pmo} `{SmpImage}.

(** [c] processors that start in the memory [st], whatever their registers hold. *)
Record start_together (k0 c : Z) (m : gmap Z Z) (st : Kernel) (l : list Z) (cpus : list Cpu) : Prop := {
  sg_refines s : rtc (par_step c) (par_start st cpus) s →
    ∃ a, rtc (smp_step c) (smp_start (length cpus)) a ∧ refines (pmo:=pmo) k0 m st l s a;
  sg_together s : rtc (par_step c) (par_start st cpus) s → together k0 c s;
  sg_bound j s : nsteps (par_step c) j (par_start st cpus) s → (j ≤ 40 * length cpus + TIME_OUT + 3)%nat;
  sg_ends s : rtc (par_step c) (par_start st cpus) s → (∀ s', ¬ par_step c s s') →
    p_bsp s = Booted ∨ p_bsp s = TimedOut ∧
      ∀ k x, p_cores s !! k = Some x → (∃ cpu, x = Reported cpu) ∨ ∃ cpu, x = Faulted cpu }.

Lemma ready_together k0 c m st l cpus :
  ready (pmo:=pmo) k0 m st l → Forall ApCode.started cpus → Z.of_nat (length cpus) = c → c < MAX_CORES →
  start_together k0 c m st l cpus.
Proof.
  intros Hr Hcpus <- Hc.
  assert (∀ s, rtc (par_step (Z.of_nat (length cpus))) (par_start st cpus) s →
    ∃ a, rtc (smp_step (Z.of_nat (length cpus))) (smp_start (length cpus)) a ∧ refines (pmo:=pmo) k0 m st l s a) as Href.
  { intros s Hs. by apply (par_steps_refine k0 m st l Hr (length cpus) (par_start st cpus) (smp_start (length cpus)));
      [apply start_refines| | |]. }
  split; [done| | |].
  - intros s Hs. destruct (Href s Hs) as (a & Ha & Hra). by eapply refines_together.
  - intros j s Hs%par_steps_rank. rewrite par_start_rank in Hs. lia.
  - intros s Hs Hno. destruct (Href s Hs) as (a & Ha & Hra).
    destruct (par_stuck _ _ _ _ Hr _ s a Hra (smp_reachable_inv _ _ Ha) Hno) as [[Hb|Hb] Hall]; [by left|by right].
Qed.

(** Any processors, as many as there are stacks. *)
Definition all_start_together (k0 c : Z) (st : Kernel) (l : list Z) : Prop :=
  ∃ m, ∀ cpus, Forall ApCode.started cpus → Z.of_nat (length cpus) = c → start_together k0 c m st l cpus.

(** C11 (refinement). The trampoline, executed by all processors at once, refines the protocol:
    whatever the interleaving of their instructions with each other and with
    [init_smp], each state that is reached is one of the protocol, in which an
    instruction is an event or nothing.  So no instruction before [lock xadd]
    depends on another processor, two processors never get the same index or
    stack, no processor faults unless the time-out panic is decided, and when
    the kernel goes on all of them are in it.  No interleaving takes more than
    39 instructions and a report for each processor and the rounds of the
    waiting loop, and none ends before. *)
Theorem trampoline_refines_protocol k0 st l c cpus :
  kinv pmo st [k0] l → 0 ≤ c < MAX_CORES → (4 * 1024 * Z.to_nat c + 3 ≤ length l)%nat →
  (∀ p, v.KERNEL_AP_STACKS ≤ p < v.KERNEL_END → space pmo st k0 p = None) →
  space pmo st k0 0 = None → 0 ∉ l → not_table (pmo:=pmo) st [k0] 0 → k0 < 0xffffffff →
  u64 AP_CORE_COUNTER_ptr → u64 ap_entry_fn → counter_at (pmo:=pmo) k0 AP_CORE_COUNTER_ptr 0 st l →
  (∀ p, word_page AP_CORE_COUNTER_ptr p → p ≠ 0 ∧
    ¬ (v.KERNEL_AP_STACKS ≤ p < v.KERNEL_AP_STACKS + c * STRIDE)) →
  Forall ApCode.started cpus → Z.of_nat (length cpus) = c →
  ∃ m st' l', prepare c st = Val ((), st') ∧ start_together k0 c m st' l' cpus.
Proof.
  intros Hk Hc Hlen Hfree Hzero Hf Ht Hlt Hptr Hentry Hct Hp Hcpus Hn.
  destruct (proj2 (prepare_run_effect k0 st l c Hk Hc Hlen Hfree Hzero Hf Ht) Hlt) as (st' & l' & Hrun & Hpre).
  destruct (prepared_ready k0 st l c st' l' Hk Hlt Hptr Hentry Hct Hp Hpre) as (m & Hr).
  exists m, st', l'. split; [done|]. apply ready_together; [done..|lia].
Qed.
End Together.
