(* ===== verification/ParallelDemo.v ===== *)
(** * Two processors at once

    The machine of [SmpDemo] with frames for two stacks, at which the refinement
    of the protocol is instantiated. *)

From S2P Require Import Prelude Bytes Constants Platform FrameAlloc Paging Memory AddressSpace Isolation IsolationDemo MapPages UserMem RawMem ApMachine ApCode Smp Trampoline ApStart SmpDemo SmpBoot ParallelStart.

#[local] Existing Instance dev_profile.
Import RefX86 RefBoot RefMapper.

Lemma trampoline_refines_protocol_witness :
  ∃ st st', prepare 2 st = Val ((), st') ∧
    ∀ s, rtc (par_step 2) (par_start st' [demo_cpu; demo_cpu]) s →
      (p_bsp s = Booted → p_done s = 2) ∧
      ∀ cpu cpu', p_cores s = [Reported cpu; Reported cpu'] → reg RSP cpu ≠ reg RSP cpu'.
Proof.
  destruct (demo_counter 16384 ltac:(lia)) as (st & l & Hk & Hlen & Hct & Hsp & Hf & Ht).
  destruct (trampoline_refines_protocol (pmo := pmo) 0x1000 st l 2 [demo_cpu; demo_cpu] Hk
    ltac:(unfold MAX_CORES; lia) ltac:(lia)
    ltac:(intros p Hp; apply Hsp;
      intros ->; unfold counter_page in Hp; change v.KERNEL_START with (100 * 2 ^ 39) in Hp;
      change v.KERNEL_AP_STACKS with (109 * 2 ^ 39) in Hp; lia)
    ltac:(by apply Hsp) Hf Ht ltac:(lia) ltac:(by vm_compute) ltac:(by vm_compute) Hct
    ltac:(intros p ->%counter_word_page; unfold counter_page;
      change v.KERNEL_START with (100 * 2 ^ 39); change v.KERNEL_AP_STACKS with (109 * 2 ^ 39); split; lia)
    ltac:(repeat constructor) eq_refl) as (m & st' & l' & Hr & [_ Htg _ _]).
  exists st, st'. split; [exact Hr|]. intros s Hs. specialize (Htg s Hs). split.
  - intros Hb. apply (tg_booted _ _ _ Htg Hb).
  - intros cpu cpu' Hc. apply (tg_apart _ _ _ Htg 0%nat 1%nat); [done|right; by rewrite Hc|right; by rewrite Hc].
Defined.
