(* ===== verification/Cores.v ===== *)
(** * The cores together (src/kernel/src/main.rs, smp.rs, common_main.rs, macros.rs)

    What every core does from the start of the processors to its last loop, as
    a script of calls, barriers and waiting loops, and all interleavings of the
    scripts.  The calls are the operations of the other files, and return; here
    only what the cores wait for is state: the two barriers (the spin crate's),
    [REFRESH_COUNTER], [NEW_FRAME_REQUESTED], the double buffer, and whether the
    main terminal has got its own window.  Log messages are left out; the build is
    the one without the testing feature. *)

From S2P Require Import Prelude SmpBoot.

(** ** Barriers *)

(** [spin::Barrier]: [wait] arrives, then spins until it is released. *)
Class Barrier := {
  BState : Type;
  Ticket : Type;
  barrier_new : nat → BState;
  arrive : BState → Ticket * BState;
  released : BState → Ticket → bool }.

(** [arrivals m a b]: the barrier [b] is for [m] threads, [a] have arrived so
    far; [nth_arrival m i t]: the ticket [t] was given to arrival number [i].
    The threads are let go in groups of [m], when the group is complete. *)
Class BarrierLaws `{Barrier} := {
  arrivals : nat → nat → BState → Prop;
  nth_arrival : nat → nat → Ticket → Prop;
  barrier_starts m : (0 < m)%nat → arrivals m 0 (barrier_new m);
  barrier_arrive m a b t b' : (0 < m)%nat → arrivals m a b → arrive b = (t, b') →
    arrivals m (a + 1) b' ∧ nth_arrival m a t;
  barrier_release m a b i t : (0 < m)%nat → arrivals m a b → nth_arrival m i t → (i < a)%nat →
    released b t = bool_decide ((i / m + 1) * m ≤ a)%nat }.

(** ** Scripts *)

Inductive call :=
  | InitGdtAndExceptionsAp | InitializeOwnCoreLocalData | ApicInit | EnableInterrupts
  | LogMemoryUtilization | Int3 | AppTest | PrintLogo | TimerTest
  | NewWriter | ClearWriter | PrintLines (n : Z).

Inductive barrier := Sync | Local.

Inductive action :=
  | Do (c : call)
  | Wait (b : barrier)             (** [sync_cores_barrier], and [barrier!(ap_count)] *)
  | SwitchToDoubleBuffer
  | StartTimer
  | SetToDoubleBuffer              (** spins until there is a double buffer *)
  | AwaitRefresh                   (** [while REFRESH_COUNTER < 2] *)
  | MoveMainTerminal
  | FrameLoop
  | EchoLoop.

#[export] Instance call_eq_dec : EqDecision call.
Proof. solve_decision. Defined.
#[export] Instance barrier_eq_dec : EqDecision barrier.
Proof. solve_decision. Defined.
#[export] Instance action_eq_dec : EqDecision action.
Proof. solve_decision. Defined.

(** [kernel_main] after [init_smp], and [ap_entry_fn] after its report, up to
    [common_main::main]. *)
Definition kernel_main : list action :=
  [Do EnableInterrupts; Wait Sync; Do LogMemoryUtilization; Wait Sync].
Definition ap_entry_fn : list action :=
  [Do InitGdtAndExceptionsAp; Do InitializeOwnCoreLocalData; Do ApicInit; Do EnableInterrupts;
   Wait Sync; Wait Sync].

(** [if cpu_index() == 0 { ... }] *)
Definition on_bsp (id : nat) (l : list action) : list action := if decide (id = 0%nat) then l else [].

Definition main (id : nat) : list action :=
  [Do Int3; Do AppTest; Wait Sync] ++ on_bsp id [Do LogMemoryUtilization] ++
  [Wait Sync; Do PrintLogo; Do TimerTest; Do PrintLogo; Wait Sync] ++
  on_bsp id [Do LogMemoryUtilization] ++ [Wait Sync] ++
  match id with
  | 0%nat => [SwitchToDoubleBuffer; StartTimer; FrameLoop]
  | _ =>
      [Do NewWriter; SetToDoubleBuffer; Do ClearWriter; AwaitRefresh] ++
      (if decide (id = 1%nat) then [MoveMainTerminal] else []) ++
      [Wait Local; Do ClearWriter] ++
      match id with
      | 1%nat => [Do (PrintLines 100000000)]
      | 2%nat => [Do (PrintLines 1); Do PrintLogo]
      | _ => [Do (PrintLines 200)]
      end ++ [EchoLoop]
  end.

Definition script (id : nat) : list action := (if decide (id = 0%nat) then kernel_main else ap_entry_fn) ++ main id.

(** ** States *)

Section Cores.
Context `{Barrier}.

(** Where a core is in its script, and its ticket while it waits at a barrier. *)
Record Core := mkCore { pc : nat; ticket : option Ticket }.

Record Shared := mkShared {
  SYNC_STARTUP_BARRIER : option BState;
  BARRIER : option BState;
  REFRESH_COUNTER : Z;
  NEW_FRAME_REQUESTED : bool;
  double_buffered : bool;
  timer_started : bool;
  main_moved : bool }.

Record World := mkWorld { cores : list Core; shared : Shared }.

(** Every barrier is made by the first core that waits at it; there are [n]
    application processors. *)
Definition threads (n : nat) (b : barrier) : nat := match b with Sync => S n | Local => n end.
Definition barrier_state (n : nat) (b : barrier) (s : Shared) : BState :=
  default (barrier_new (threads n b)) (match b with Sync => SYNC_STARTUP_BARRIER s | Local => BARRIER s end).
Definition set_barrier (b : barrier) (x : BState) (s : Shared) : Shared :=
  match b with
  | Sync => mkShared (Some x) (BARRIER s) (REFRESH_COUNTER s) (NEW_FRAME_REQUESTED s) (double_buffered s) (timer_started s) (main_moved s)
  | Local => mkShared (SYNC_STARTUP_BARRIER s) (Some x) (REFRESH_COUNTER s) (NEW_FRAME_REQUESTED s) (double_buffered s) (timer_started s) (main_moved s)
  end.
Definition set_frames (count : Z) (requested : bool) (s : Shared) : Shared :=
  mkShared (SYNC_STARTUP_BARRIER s) (BARRIER s) count requested (double_buffered s) (timer_started s) (main_moved s).
Definition set_flags (double timer moved : bool) (s : Shared) : Shared :=
  mkShared (SYNC_STARTUP_BARRIER s) (BARRIER s) (REFRESH_COUNTER s) (NEW_FRAME_REQUESTED s) double timer moved.

(** One action; [None] while the core can only spin or halt.  An iteration of
    the loop of core 0 takes the request, counts the frame and pushes it. *)
Definition step_core (n id : nat) (c : Core) (s : Shared) : option (Core * Shared) :=
  let next := mkCore (S (pc c)) None in
  a ← script id !! pc c;
  match ticket c, a with
  | Some t, Wait b => if released (barrier_state n b s) t then Some (next, s) else None
  | Some _, _ => None
  | None, Wait b => let '(t, x) := arrive (barrier_state n b s) in Some (mkCore (pc c) (Some t), set_barrier b x s)
  | None, Do _ => Some (next, s)
  | None, SwitchToDoubleBuffer => Some (next, set_flags true (timer_started s) (main_moved s) s)
  | None, StartTimer => Some (next, set_flags (double_buffered s) true (main_moved s) s)
  | None, SetToDoubleBuffer => if double_buffered s then Some (next, s) else None
  | None, AwaitRefresh => if REFRESH_COUNTER s <? 2 then None else Some (next, s)
  | None, MoveMainTerminal => Some (next, set_flags (double_buffered s) (timer_started s) true s)
  | None, FrameLoop =>
      if NEW_FRAME_REQUESTED s then Some (c, set_frames ((REFRESH_COUNTER s + 1) `mod` 2 ^ 64) false s) else None
  | None, EchoLoop => Some (c, s)
  end.

(** The timer interrupt of core 0. *)
Definition request_frame (s : Shared) : Shared := set_frames (REFRESH_COUNTER s) true s.

Inductive cores_step (n : nat) : World → World → Prop :=
  | cs_core w id c c' s' :
      cores w !! id = Some c → step_core n id c (shared w) = Some (c', s') →
      cores_step n w (mkWorld (<[id := c']> (cores w)) s')
  | cs_timer w :
      timer_started (shared w) = true → cores_step n w (mkWorld (cores w) (request_frame (shared w))).

(** The boot processor has left [init_smp]; [n] others have reported. *)
Definition cores_start (n : nat) : World :=
  mkWorld (replicate (S n) (mkCore 0 None)) (mkShared None None 0 true false false false).
End Cores.
