(* ===== verification/CoresSpec.v ===== *)
(** * What the barriers achieve

    No two cores are ever in different phases of the start-up outside of a
    barrier, and every interleaving makes progress until all cores are in their
    last loops. *)

From S2P Require Import Prelude SmpBoot Cores.

(** ** Rendezvous

    [m] threads that only meet at a barrier: each is given by the number of
    times it has arrived, and its ticket while it is inside. *)

Section Rendezvous.
Context `{BarrierLaws} (m : nat) (Hm : (0 < m)%nat).

Implicit Types (l : list (nat * option Ticket)).

(** [g] groups have been let go; whoever has arrived once more is inside. *)
Record entry_ok (g a : nat) (x : nat * option Ticket) : Prop := {
  eo_group : x.1 = g ∨ (x.1 = S g ∧ is_Some x.2);
  eo_ticket t : x.2 = Some t → ∃ i, nth_arrival m i t ∧ (i < a)%nat ∧ (i `div` m + 1)%nat = x.1 }.

Definition total l : nat := sum_list_with fst l.

Definition rendezvous l (b : BState) : Prop :=
  length l = m ∧ arrivals m (total l) b ∧
  ∃ g, (total l < (g + 1) * m)%nat ∧ ∀ x, x ∈ l → entry_ok g (total l) x.

Lemma total_ge g l : (∀ x, x ∈ l → g ≤ x.1)%nat → (g * length l ≤ total l)%nat.
Proof.
  induction l as [|x l IH]; intros Hl; cbn; [lia|].
  pose proof (Hl x ltac:(left)). specialize (IH ltac:(intros; apply Hl; by right)). unfold total in IH. lia.
Qed.

Lemma total_le g l : (∀ x, x ∈ l → x.1 ≤ g)%nat → (total l ≤ g * length l)%nat.
Proof.
  induction l as [|x l IH]; intros Hl; cbn; [lia|].
  pose proof (Hl x ltac:(left)). specialize (IH ltac:(intros; apply Hl; by right)). unfold total in IH. lia.
Qed.

(** A full total leaves nobody behind. *)
Lemma total_full g l :
  (∀ x, x ∈ l → x.1 ≤ g)%nat → (g * length l ≤ total l)%nat → ∀ x, x ∈ l → x.1 = g.
Proof.
  intros Hl. induction l as [|y l IH]; intros Ht x; [by intros ?%elem_of_nil|]. cbn in Ht.
  pose proof (Hl y ltac:(left)).
  assert (∀ z, z ∈ l → z.1 ≤ g)%nat as Hl' by (intros; apply Hl; by right).
  pose proof (total_le g l Hl') as Hle. unfold total in *.
  intros [->|Hx]%elem_of_cons; [lia|]. by apply IH; [|lia|].
Qed.

Lemma rendezvous_start b : arrivals m 0 b → rendezvous (replicate m (0%nat, None)) b.
Proof.
  intros Hb. assert (total (replicate m (0%nat, None : option Ticket)) = 0%nat) as Ht.
  { clear. induction m as [|k IH]; [done|]. cbn. apply IH. }
  split_and!; [apply length_replicate|by rewrite Ht|]. exists 0%nat. rewrite Ht. split; [lia|].
  intros x Hx. apply elem_of_replicate in Hx as [-> _]. split; [by left|done].
Qed.

Lemma elem_of_list_insert {A} (l : list A) k y x : x ∈ <[k := y]> l → x = y ∨ x ∈ l.
Proof.
  intros [j Hj]%list_elem_of_lookup. apply list_lookup_insert_Some in Hj as [(_ & -> & _)|[_ Hj]]; [by left|].
  right. by eapply list_elem_of_lookup_2.
Qed.

(** A thread arrives. *)
Lemma rendezvous_arrive l b k c t b' :
  rendezvous l b → l !! k = Some (c, None) → arrive b = (t, b') → rendezvous (<[k := (S c, Some t)]> l) b'.
Proof.
  intros (Hlen & Ha & g & Hlt & Hok) Hk Har. destruct (barrier_arrive m _ _ _ _ Hm Ha Har) as [Ha' Ht].
  pose proof (sum_list_insert fst l k _ (S c, Some t) Hk) as Htot. cbn in Htot.
  fold (total (<[k := (S c, Some t)]> l)) in Htot. fold (total l) in Htot.
  assert (total (<[k := (S c, Some t)]> l) = total l + 1)%nat as Hnew by lia.
  assert (c = g) as ->.
  { destruct (eo_group _ _ _ (Hok (c, None) ltac:(by eapply list_elem_of_lookup_2))) as [?|[_ [? ?]]]; done. }
  assert (g * m ≤ total l)%nat as Hge.
  { rewrite <-Hlen. apply total_ge. intros x Hx. destruct (eo_group _ _ _ (Hok x Hx)); lia. }
  set (l' := <[k := (S g, Some t)]> l) in *.
  assert (∀ x, x ∈ l' → entry_ok g (total l') x) as Hok'.
  { intros x [->|Hx]%elem_of_list_insert; split; cbn.
    - by right.
    - intros ? [= <-]. exists (total l). split_and!; [done|lia|]. apply Nat.add_cancel_r with (p := 0%nat).
      rewrite !Nat.add_0_r. assert (total l `div` m = g)%nat as ->; [|lia]. symmetry. apply (Nat.div_unique _ _ _ (total l - g * m)); lia.
    - apply (Hok x Hx).
    - intros t' Ht'. destruct (eo_ticket _ _ _ (Hok x Hx) t' Ht') as (i & ? & ? & ?). exists i. split_and!; [done|lia|done]. }
  assert (length l' = m) as Hlen' by (unfold l'; by rewrite length_insert).
  split_and!; [done|by rewrite Hnew|].
  destruct (decide (total l' < (g + 1) * m)%nat) as [Hl|Hl]; [by exists g|].
  exists (g + 1)%nat. split; [lia|]. intros x Hx.
  assert (x.1 = (g + 1)%nat) as Hx1.
  { apply (total_full (g + 1) l'); [|rewrite Hlen'; lia|done]. intros y Hy. destruct (eo_group _ _ _ (Hok' y Hy)); lia. }
  split; [by left|]. apply (Hok' x Hx).
Qed.

(** Who is inside is let go exactly when nobody is a group behind. *)
Lemma rendezvous_released l b k c t :
  rendezvous l b → l !! k = Some (c, Some t) →
  if released b t then (∀ x, x ∈ l → c ≤ x.1)%nat
  else ∃ x, x ∈ l ∧ (x.1 < c)%nat ∧ ∀ y, y ∈ l → (x.1 ≤ y.1)%nat.
Proof.
  intros (Hlen & Ha & g & Hlt & Hok) Hk. pose proof (list_elem_of_lookup_2 _ _ _ Hk) as Hin.
  destruct (eo_ticket _ _ _ (Hok _ Hin) t eq_refl) as (i & Hi & Hia & Hc). cbn in Hc.
  rewrite (barrier_release m _ _ _ _ Hm Ha Hi Hia), Hc.
  assert (∀ x, x ∈ l → g ≤ x.1 ≤ g + 1)%nat as Hg by (intros x Hx; destruct (eo_group _ _ _ (Hok x Hx)); lia).
  pose proof (Hg _ Hin) as Hcg. cbn in Hcg. case_bool_decide as Hr.
  - intros x Hx. pose proof (Hg x Hx). nia.
  - assert (c = S g) as ->.
    { assert (c ≠ g); [|lia]. intros ->. apply Hr. rewrite <-Hlen at 1. apply total_ge. intros x Hx. by apply Hg. }
    destruct (decide (Exists (λ x, x.1 < S g)%nat l)) as [(x & Hx & Hlt')%list.Exists_exists|Hno].
    { exists x. split_and!; [done|done|]. intros y Hy. pose proof (Hg y Hy). lia. }
    exfalso. apply Hr. rewrite <-Hlen at 1. apply total_ge. intros x Hx.
    destruct (decide (x.1 < S g)%nat); [|lia]. exfalso. apply Hno, list.Exists_exists. by exists x.
Qed.

(** A thread that is let go. *)
Lemma rendezvous_leave l b k c t :
  rendezvous l b → l !! k = Some (c, Some t) → released b t = true → rendezvous (<[k := (c, None)]> l) b.
Proof.
  intros Hr Hk Hrel. pose proof (rendezvous_released l b k c t Hr Hk) as Hall. rewrite Hrel in Hall.
  destruct Hr as (Hlen & Ha & g & Hlt & Hok). pose proof (list_elem_of_lookup_2 _ _ _ Hk) as Hin.
  assert (total (<[k := (c, None)]> l) = total l) as Htot.
  { pose proof (sum_list_insert fst l k _ (c, None) Hk) as Ht. cbn in Ht. unfold total. lia. }
  split_and!; [by rewrite length_insert|by rewrite Htot|]. exists g. rewrite Htot. split; [done|].
  intros x [->|Hx]%elem_of_list_insert; [|by apply Hok]. split; [|done]. left. cbn.
  destruct (eo_group _ _ _ (Hok _ Hin)) as [?|[Hc _]]; [done|]. cbn in Hc. exfalso.
  pose proof (total_ge c l Hall). rewrite Hlen in *. nia.
Qed.

(** Two threads outside have arrived equally often; one outside is not ahead. *)
Lemma rendezvous_outside l b c c' x :
  rendezvous l b → (c, None) ∈ l → (c', x) ∈ l →
  c' = c ∨ (c' = S c ∧ is_Some x).
Proof.
  intros (_ & _ & g & _ & Hok) H1 H2.
  destruct (eo_group _ _ _ (Hok _ H1)) as [Hc|[_ [? ?]]]; [|done]. cbn in Hc. subst c.
  apply (eo_group _ _ _ (Hok _ H2)).
Qed.
End Rendezvous.

(** ** Scripts *)

(** How often [b] is waited for in a part of a script. *)
Definition waits (b : barrier) (l : list action) : nat := length (filter (λ a, a = Wait b) l).

Lemma waits_snoc b l a : waits b (l ++ [a]) = (waits b l + if decide (a = Wait b) then 1 else 0)%nat.
Proof.
  unfold waits. rewrite filter_app, length_app. f_equal. cbn. by destruct (decide (a = Wait b)).
Qed.

Definition is_loop (a : action) : bool := match a with FrameLoop | EchoLoop => true | _ => false end.

(** What is checked of the action at [p]: six waits of everybody before the
    last part, one wait of the application processors among themselves, the
    utilisation logged between two barriers, and what comes before what. *)
Definition action_ok (id : nat) (l : list action) (a : action) (last : bool) : bool :=
  let s := waits Sync l in let o := waits Local l in
  Bool.eqb (is_loop a) last &&
  match a with
  | Wait Sync => (s <? 6)%nat
  | Wait Local => (s =? 6)%nat && (o =? 0)%nat && negb (id =? 0)%nat
  | SwitchToDoubleBuffer | StartTimer | MoveMainTerminal => (s =? 6)%nat
  | SetToDoubleBuffer | AwaitRefresh => (s =? 6)%nat && negb (id =? 0)%nat
  | FrameLoop => (s =? 6)%nat && (id =? 0)%nat && bool_decide (SwitchToDoubleBuffer ∈ l) && bool_decide (StartTimer ∈ l)
  | EchoLoop => (s =? 6)%nat && (o =? 1)%nat && negb (id =? 0)%nat
  | Do LogMemoryUtilization => (id =? 0)%nat && Nat.odd s
  | Do (PrintLines _) => (o =? 1)%nat && negb (id =? 0)%nat
  | Do _ => true
  end &&
  (negb (Nat.odd s) || (id =? 0)%nat || bool_decide (a = Wait Sync)) &&
  ((o =? 0)%nat && bool_decide (a ≠ Wait Local) || bool_decide (SetToDoubleBuffer ∈ l) && (negb (id =? 1)%nat || bool_decide (MoveMainTerminal ∈ l))).

Definition script_ok (id : nat) : bool :=
  forallb (λ p, match script id !! p with
    | Some a => action_ok id (take p (script id)) a (S p =? length (script id))%nat
    | None => true end) (seq 0 (length (script id))).

(** All further cores have the script of core 3. *)
Lemma script_checked id p a :
  script id !! p = Some a → action_ok (Nat.min id 3) (take p (script id)) a (S p =? length (script id))%nat = true.
Proof.
  intros Hp. assert (script id = script (Nat.min id 3)) as Heq by by destruct id as [|[|[|id]]].
  rewrite Heq in *. assert (script_ok (Nat.min id 3) = true) as Hok.
  { destruct id as [|[|[|id]]]; by vm_compute. }
  unfold script_ok in Hok. rewrite forallb_forall in Hok. specialize (Hok p). rewrite Hp in Hok. apply Hok.
  apply in_seq. apply lookup_lt_Some in Hp. lia.
Qed.

(** The facts on the action at a place of a script. *)
Ltac script_facts H :=
  let Hf := fresh in
  pose proof (script_checked _ _ _ H) as Hf; unfold action_ok in Hf;
  repeat match goal with E : _ && _ = true |- _ => apply andb_true_iff in E as [? ?] end;
  try done.

Lemma script_loop id p a : script id !! p = Some a → is_loop a = true ↔ S p = length (script id).
Proof.
  intros Hp%script_checked. unfold action_ok in Hp. repeat (apply andb_true_iff in Hp as [Hp _]).
  apply eqb_prop in Hp. rewrite Hp. apply Nat.eqb_eq.
Qed.

Lemma odd_phase id p a :
  script id !! p = Some a → id ≠ 0%nat → Nat.odd (waits Sync (take p (script id))) = true → a = Wait Sync.
Proof.
  intros Hp Hid Hodd. script_facts Hp. rewrite Hodd in *. destruct id as [|[|[|id]]]; [done|..];
    by match goal with E : _ || bool_decide (a = Wait Sync) = true |- _ => apply bool_decide_eq_true in E end.
Qed.

Lemma log_phase p : script 0 !! p = Some (Do LogMemoryUtilization) → Nat.odd (waits Sync (take p (script 0))) = true.
Proof. intros Hp. by script_facts Hp. Qed.

(** The last part, in which the cores do not wait for all others. *)
Definition in_last_part (a : action) : bool :=
  match a with Wait Sync | Do _ => false | _ => true end.

Lemma last_part id p a :
  script id !! p = Some a → in_last_part a = true → waits Sync (take p (script id)) = 6%nat.
Proof. intros Hp Ha. script_facts Hp. by destruct a as [|[]| | | | | | |]; try done; repeat match goal with E : _ && _ = true |- _ => apply andb_true_iff in E as [E ?] end; apply Nat.eqb_eq. Qed.

Lemma sync_bound id p : script id !! p = Some (Wait Sync) → (waits Sync (take p (script id)) < 6)%nat.
Proof. intros Hp. script_facts Hp. by apply Nat.ltb_lt. Qed.

(** The application processors among themselves. *)
Lemma local_done id p a :
  script id !! p = Some a → (waits Local (take p (script id)) ≠ 0%nat ∨ a = Wait Local) →
  SetToDoubleBuffer ∈ take p (script id) ∧ (id = 1%nat → MoveMainTerminal ∈ take p (script id)).
Proof.
  intros Hp Hw. script_facts Hp.
  match goal with E : (_ =? 0)%nat && bool_decide (a ≠ Wait Local) || _ = true |- _ =>
    apply orb_true_iff in E as [E|E]; apply andb_true_iff in E as [E1 E2] end.
  - apply Nat.eqb_eq in E1. apply bool_decide_eq_true in E2. by destruct Hw.
  - apply bool_decide_eq_true in E1. split; [done|]. intros ->. by apply bool_decide_eq_true in E2.
Qed.

Lemma local_zero id p : script id !! p = Some (Wait Local) → waits Local (take p (script id)) = 0%nat ∧ id ≠ 0%nat.
Proof.
  intros Hp. script_facts Hp. split; [|by intros ->].
  repeat match goal with E : _ && _ = true |- _ => apply andb_true_iff in E as [E ?] end. by apply Nat.eqb_eq.
Qed.

Lemma echo_done id p : script id !! p = Some EchoLoop → waits Local (take p (script id)) = 1%nat ∧ id ≠ 0%nat.
Proof.
  intros Hp. script_facts Hp. split; [|by intros ->]. by apply Nat.eqb_eq.
Qed.

Lemma print_done id p m :
  script id !! p = Some (Do (PrintLines m)) → waits Local (take p (script id)) = 1%nat ∧ id ≠ 0%nat.
Proof.
  intros Hp. script_facts Hp. split; [|by intros ->]. by apply Nat.eqb_eq.
Qed.

Lemma frame_done id p :
  script id !! p = Some FrameLoop →
  id = 0%nat ∧ SwitchToDoubleBuffer ∈ take p (script id) ∧ StartTimer ∈ take p (script id).
Proof.
  intros Hp. script_facts Hp. split_and!; [by destruct id|by eapply bool_decide_eq_true..].
Qed.

(** ** The invariant *)

Section Invariant.
Context `{BarrierLaws}.

(** A core as a thread of the barrier [b]. *)
Definition inside (b : barrier) (id : nat) (c : Core) : option Ticket :=
  if decide (script id !! pc c = Some (Wait b)) then ticket c else None.
Definition entry (b : barrier) (id : nat) (c : Core) : nat * option Ticket :=
  ((waits b (take (pc c) (script id)) + match inside b id c with Some _ => 1 | None => 0 end)%nat, inside b id c).

(** The threads of a barrier: all cores, or all but core 0. *)
Definition skipped (b : barrier) : nat := match b with Sync => 0 | Local => 1 end.
Definition members (b : barrier) (l : list Core) : list (nat * option Ticket) :=
  imap (λ j c, entry b (j + skipped b) c) (drop (skipped b) l).

(** The flag that has been set once an action is done. *)
Definition flag_of (a : action) (s : Shared) : bool :=
  match a with
  | SwitchToDoubleBuffer | SetToDoubleBuffer => double_buffered s
  | StartTimer => timer_started s
  | MoveMainTerminal => main_moved s
  | _ => true
  end.

Record cores_inv (n k : nat) (w : World) : Prop := {
  ci_length : length (cores w) = S n;
  ci_barrier b : (0 < threads n b)%nat → rendezvous (threads n b) (members b (cores w)) (barrier_state n b (shared w));
  ci_pc id c : cores w !! id = Some c → (pc c < length (script id))%nat;
  ci_ticket id c t : cores w !! id = Some c → ticket c = Some t → ∃ b, script id !! pc c = Some (Wait b);
  ci_flags id c a : cores w !! id = Some c → a ∈ take (pc c) (script id) → flag_of a (shared w) = true;
  ci_frames : 0 ≤ REFRESH_COUNTER (shared w) ≤ Z.of_nat k }.

Lemma members_lookup b l id c :
  l !! (id + skipped b)%nat = Some c → members b l !! id = Some (entry b (id + skipped b) c).
Proof.
  intros Hl. unfold members. rewrite list_lookup_imap, lookup_drop.
  replace (skipped b + id)%nat with (id + skipped b)%nat by lia. by rewrite Hl.
Qed.

Lemma members_elem b l x :
  x ∈ members b l ↔ ∃ id c, l !! id = Some c ∧ (skipped b ≤ id)%nat ∧ x = entry b id c.
Proof.
  unfold members. rewrite elem_of_lookup_imap. split.
  - intros (j & c & -> & Hj). rewrite lookup_drop in Hj. exists (skipped b + j)%nat, c.
    split_and!; [done|lia|by rewrite Nat.add_comm].
  - intros (id & c & Hc & Hle & ->). exists (id - skipped b)%nat, c. rewrite lookup_drop.
    replace (id - skipped b + skipped b)%nat with id by lia.
    by replace (skipped b + (id - skipped b))%nat with id by lia.
Qed.

Lemma imap_insert {A B} (f : nat → A → B) l i y :
  (i < length l)%nat → imap f (<[i := y]> l) = <[i := f i y]> (imap f l).
Proof.
  intros Hi. apply list_eq. intros j. rewrite list_lookup_imap. destruct (decide (j = i)) as [->|Hne].
  - by rewrite !list_lookup_insert_eq by (rewrite ?length_imap; lia).
  - by rewrite !list_lookup_insert_ne, list_lookup_imap by done.
Qed.

Lemma members_insert b l id c :
  (id < length l)%nat →
  members b (<[id := c]> l) =
    if decide (skipped b ≤ id)%nat then <[(id - skipped b)%nat := entry b id c]> (members b l) else members b l.
Proof.
  intros Hid. unfold members. rewrite drop_insert. destruct (decide _) as [Hle|Hle]; [|done].
  rewrite imap_insert by (rewrite length_drop; lia). by replace (id - skipped b + skipped b)%nat with id by lia.
Qed.

(** What one step of a core is, up to the frames. *)
Inductive kind (n id : nat) (c : Core) (s : Shared) (c' : Core) (s' : Shared) : Prop :=
  | k_arrive b t x : script id !! pc c = Some (Wait b) → ticket c = None → arrive (barrier_state n b s) = (t, x) →
      c' = mkCore (pc c) (Some t) → s' = set_barrier b x s → kind n id c s c' s'
  | k_leave b t : script id !! pc c = Some (Wait b) → ticket c = Some t → released (barrier_state n b s) t = true →
      c' = mkCore (S (pc c)) None → s' = s → kind n id c s c' s'
  | k_advance a : script id !! pc c = Some a → (∀ b, a ≠ Wait b) → is_loop a = false → ticket c = None →
      c' = mkCore (S (pc c)) None → (∀ b, barrier_state n b s' = barrier_state n b s) →
      REFRESH_COUNTER s' = REFRESH_COUNTER s → NEW_FRAME_REQUESTED s' = NEW_FRAME_REQUESTED s →
      flag_of a s' = true → (∀ a', flag_of a' s = true → flag_of a' s' = true) → kind n id c s c' s'
  | k_frame : script id !! pc c = Some FrameLoop → ticket c = None → NEW_FRAME_REQUESTED s = true → c' = c →
      s' = set_frames ((REFRESH_COUNTER s + 1) `mod` 2 ^ 64) false s → kind n id c s c' s'
  | k_echo : script id !! pc c = Some EchoLoop → ticket c = None → c' = c → s' = s → kind n id c s c' s'.

Lemma step_core_kind n id c s c' s' : step_core n id c s = Some (c', s') → kind n id c s c' s'.
Proof.
  unfold step_core. intros (a & Ha & Hs)%bind_Some. destruct (ticket c) as [t|] eqn:Ht.
  - destruct a as [?|b| | | | | | |]; try done. destruct (released _ t) eqn:Hr; [|done]. injection Hs as <- <-.
    by eapply k_leave.
  - destruct a as [?|b| | | | | | |].
    all: try (destruct (arrive _) as [t x] eqn:Har; injection Hs as <- <-; by eapply k_arrive).
    all: try (case_match; try done).
    all: injection Hs as <- <-.
    all: try by eapply k_frame.
    all: try by eapply k_echo.
    all: eapply k_advance; try done.
    all: intros []; done.
Qed.

(** A core of a barrier before and after a step. *)
Lemma entry_advance b id c a :
  script id !! pc c = Some a → a ≠ Wait b →
  entry b id (mkCore (S (pc c)) None) = entry b id (mkCore (pc c) None).
Proof.
  intros Ha Hne. unfold entry, inside. cbn [pc ticket]. rewrite (take_S_r _ _ _ Ha), waits_snoc.
  rewrite (decide_False (P := a = Wait b)) by done. rewrite Nat.add_0_r. by do 2 case_decide.
Qed.

Lemma entry_outside b id c : (∀ t, ticket c = Some t → script id !! pc c ≠ Some (Wait b)) →
  entry b id c = entry b id (mkCore (pc c) None).
Proof.
  intros Ht. destruct c as [p [t|]]; [|done]. unfold entry, inside. cbn [pc ticket] in *.
  rewrite decide_False by by eapply Ht. by case_decide.
Qed.

Lemma entry_arrive b id c t :
  script id !! pc c = Some (Wait b) → ticket c = None →
  entry b id c = (waits b (take (pc c) (script id)), None) ∧
  entry b id (mkCore (pc c) (Some t)) = (S (waits b (take (pc c) (script id))), Some t).
Proof.
  intros Ha Ht. unfold entry, inside. cbn [pc ticket]. rewrite Ht, !decide_True by done.
  by rewrite Nat.add_0_r, Nat.add_1_r.
Qed.

Lemma entry_leave b id c t :
  script id !! pc c = Some (Wait b) → ticket c = Some t →
  entry b id c = (S (waits b (take (pc c) (script id))), Some t) ∧
  entry b id (mkCore (S (pc c)) None) = (S (waits b (take (pc c) (script id))), None).
Proof.
  intros Ha Ht. unfold entry, inside. cbn [pc ticket]. rewrite Ht, decide_True by done.
  rewrite (take_S_r _ _ _ Ha), waits_snoc, !(decide_True (P := Wait b = Wait b)) by done.
  case_decide; rewrite ?Nat.add_0_r, ?Nat.add_1_r; done.
Qed.

(** A step that does not touch the barrier [b]. *)
Lemma rendezvous_same n b l id c c' x :
  l !! id = Some c → entry b id c' = entry b id c → rendezvous (threads n b) (members b l) x →
  rendezvous (threads n b) (members b (<[id := c']> l)) x.
Proof.
  intros Hc He Hr. rewrite members_insert by by eapply lookup_lt_Some. case_decide as Hle; [|done].
  rewrite He, list_insert_id; [done|]. rewrite (members_lookup b l _ c);
    replace (id - skipped b + skipped b)%nat with id by lia; done.
Qed.

Lemma barrier_state_set n b b' x s :
  barrier_state n b (set_barrier b' x s) = if decide (b = b') then x else barrier_state n b s.
Proof. by destruct b, b'. Qed.

(** Core 0 never waits with the others alone. *)
Lemma wait_member b id p : script id !! p = Some (Wait b) → (skipped b ≤ id)%nat.
Proof.
  intros Hp. destruct b; [cbn; lia|]. destruct id; [|cbn; lia]. script_facts Hp.
Qed.

Lemma kind_barriers n k w id c c' s' :
  cores_inv n k w → cores w !! id = Some c → kind n id c (shared w) c' s' →
  ∀ b, (0 < threads n b)%nat → rendezvous (threads n b) (members b (<[id := c']> (cores w))) (barrier_state n b s').
Proof.
  intros Hi Hc Hk b Hb. pose proof (ci_barrier _ _ _ Hi b Hb) as Hr.
  assert (∀ b', script id !! pc c = Some (Wait b') →
    members b' (cores w) !! (id - skipped b')%nat = Some (entry b' id c)) as Hlook.
  { intros b' Hw. pose proof (wait_member _ _ _ Hw). rewrite (members_lookup b' _ _ c);
      replace (id - skipped b' + skipped b')%nat with id by lia; done. }
  destruct Hk as [b' t x Ha Ht Har -> ->|b' t Ha Ht Hrel -> ->|a Ha Hw _ Ht -> Hbs _ _ _ _|Ha Ht _ -> ->|_ _ -> ->].
  - rewrite barrier_state_set. case_decide as Hbb; [subst b'|].
    + destruct (entry_arrive b id c t Ha Ht) as [E1 E2]. specialize (Hlook b Ha).
      rewrite members_insert, E2, decide_True; [|by eapply wait_member|by eapply lookup_lt_Some].
      eapply rendezvous_arrive; [done|done| |done]. by rewrite Hlook, E1.
    + eapply rendezvous_same; [done| |done]. rewrite (entry_outside b id c) by by rewrite Ht.
      rewrite entry_outside; [done|]. cbn. intros _ _. congruence.
  - destruct (decide (b = b')) as [<-|Hne].
    + destruct (entry_leave b id c t Ha Ht) as [E1 E2]. specialize (Hlook b Ha).
      rewrite members_insert, E2, decide_True; [|by eapply wait_member|by eapply lookup_lt_Some].
      eapply rendezvous_leave; [done|done| |done]. by rewrite Hlook, E1.
    + eapply rendezvous_same; [done| |done]. rewrite (entry_outside b id c) by (intros; congruence).
      eapply entry_advance; [done|congruence].
  - rewrite Hbs. eapply rendezvous_same; [done| |done]. rewrite (entry_outside b id c) by by rewrite Ht.
    by eapply entry_advance.
  - assert (barrier_state n b (set_frames ((REFRESH_COUNTER (shared w) + 1) `mod` 2 ^ 64) false (shared w)) =
      barrier_state n b (shared w)) as -> by by destruct b. by rewrite list_insert_id.
  - by rewrite list_insert_id.
Qed.

Lemma flag_set_barrier a b x s : flag_of a (set_barrier b x s) = flag_of a s.
Proof. by destruct a, b. Qed.
Lemma flag_set_frames a f r s : flag_of a (set_frames f r s) = flag_of a s.
Proof. by destruct a. Qed.

(** The flags only go up, and those of the actions a core has done are up. *)
Lemma kind_flags n id c s c' s' :
  kind n id c s c' s' → (∀ a, a ∈ take (pc c) (script id) → flag_of a s = true) →
  (∀ a, flag_of a s = true → flag_of a s' = true) ∧
  (∀ a, a ∈ take (pc c') (script id) → flag_of a s' = true).
Proof.
  intros Hk Hf. destruct Hk as [b t x Ha Ht Har -> ->|b t Ha Ht Hrel -> ->|a Ha Hw _ Ht -> Hbs _ _ Hfa Hmono|Ha Ht _ -> ->|Ha Ht -> ->].
  - split; intros a; rewrite flag_set_barrier; [done|apply Hf].
  - split; [done|]. intros a. cbn. rewrite (take_S_r _ _ _ Ha), elem_of_app, list_elem_of_singleton.
    intros [?| ->]; [by apply Hf|done].
  - split; [done|]. intros a'. cbn. rewrite (take_S_r _ _ _ Ha), elem_of_app, list_elem_of_singleton.
    intros [?| ->]; [by apply Hmono, Hf|done].
  - split; intros a; rewrite flag_set_frames; [done|apply Hf].
  - by split.
Qed.

(** A step stays in the script, and a ticket is held at a barrier only. *)
Lemma kind_place n id c s c' s' :
  kind n id c s c' s' → (pc c < length (script id))%nat →
  (pc c' < length (script id))%nat ∧ (∀ t, ticket c' = Some t → ∃ b, script id !! pc c' = Some (Wait b)).
Proof.
  intros Hk Hpc.
  assert (∀ a, script id !! pc c = Some a → is_loop a = false → (S (pc c) < length (script id))%nat) as Hnext.
  { intros a Ha Hl. pose proof (script_loop _ _ _ Ha) as Hlast. rewrite Hl in Hlast.
    destruct (decide (S (pc c) = length (script id))) as [E|]; [by apply Hlast in E|lia]. }
  destruct Hk as [b t x Ha Ht Har -> ->|b t Ha Ht Hrel -> ->|a Ha Hw Hl Ht -> Hbs _ _ Hfa Hmono|Ha Ht _ -> ->|Ha Ht -> ->]; cbn.
  - split; [done|]. intros _ _. by exists b.
  - split; [by eapply Hnext|done].
  - split; [by eapply Hnext|done].
  - split; [done|]. by rewrite Ht.
  - split; [done|]. by rewrite Ht.
Qed.

Lemma kind_frames n id c s c' s' k :
  kind n id c s c' s' → 0 ≤ REFRESH_COUNTER s ≤ Z.of_nat k → 0 ≤ REFRESH_COUNTER s' ≤ Z.of_nat (S k).
Proof.
  intros Hk Hr. destruct Hk as [b t x Ha Ht Har -> ->|b t Ha Ht Hrel -> ->|a Ha Hw Hl Ht -> Hbs -> _ Hfa Hmono|Ha Ht _ -> ->|Ha Ht -> ->]; cbn.
  1: destruct b; cbn; lia.
  1, 2, 4: lia.
  pose proof (Z.mod_le (REFRESH_COUNTER s + 1) (2 ^ 64)). pose proof (Z.mod_pos_bound (REFRESH_COUNTER s + 1) (2 ^ 64)). lia.
Qed.

Lemma cores_step_inv n k w w' : cores_inv n k w → cores_step n w w' → cores_inv n (S k) w'.
Proof.
  intros Hi Hstep. destruct Hstep as [w id c c' s' Hc Hs|w Ht].
  - apply step_core_kind in Hs. pose proof (kind_barriers _ _ _ _ _ _ _ Hi Hc Hs) as Hb.
    destruct (kind_flags _ _ _ _ _ _ Hs) as [Hmono Hdone]; [by intros; eapply (ci_flags _ _ _ Hi)|].
    destruct (kind_place _ _ _ _ _ _ Hs) as [Hpc Htk]; [by eapply (ci_pc _ _ _ Hi)|].
    split; cbn [cores shared].
    + rewrite length_insert. apply Hi.
    + exact Hb.
    + intros j d [(-> & -> & _)|[_ Hd]]%list_lookup_insert_Some; [done|]. by apply (ci_pc _ _ _ Hi).
    + intros j d t [(-> & -> & _)|[_ Hd]]%list_lookup_insert_Some; [apply Htk|]. by apply (ci_ticket _ _ _ Hi).
    + intros j d a [(-> & -> & _)|[_ Hd]]%list_lookup_insert_Some Ha; [by apply Hdone|].
      apply Hmono. by eapply (ci_flags _ _ _ Hi).
    + eapply kind_frames; [done|]. apply Hi.
  - destruct Hi as [? ? ? ? Hf ?]. split; cbn [cores shared]; [done..| |cbn; lia].
    intros id c a Hc Ha. unfold request_frame. rewrite flag_set_frames. by eapply Hf.
Qed.

Lemma members_start n b :
  members b (cores (cores_start n)) = replicate (threads n b) (0%nat, None).
Proof.
  assert (∀ m id, imap (λ j c, entry b (j + id) c) (replicate m (mkCore 0 None)) = replicate m (0%nat, None)) as Hall.
  { induction m as [|m IH]; intros id; [done|]. cbn [replicate imap]. f_equal.
    - unfold entry, inside. cbn [pc ticket take]. by case_decide.
    - rewrite <-(IH (S id)). apply imap_ext. intros i x _. cbn. f_equal. lia. }
  unfold members, cores_start. cbn [cores]. rewrite drop_replicate, Hall. f_equal. destruct b; cbn; lia.
Qed.

Lemma cores_start_inv n : cores_inv n 0 (cores_start n).
Proof.
  assert (∀ id c, cores (cores_start n) !! id = Some c → c = mkCore 0 None) as Hc.
  { intros id c Hc. by apply lookup_replicate_1 in Hc as [-> _]. }
  split; [apply length_replicate| | | | |done].
  - intros b Hb. rewrite members_start. apply rendezvous_start; [done|]. destruct b; by apply barrier_starts.
  - intros id c ->%Hc. destruct id as [|[|[|id]]]; vm_compute; lia.
  - by intros id c t ->%Hc.
  - intros id c a ->%Hc Ha. by apply elem_of_nil in Ha.
Qed.

Lemma cores_steps_inv n k w : nsteps (cores_step n) k (cores_start n) w → cores_inv n k w.
Proof.
  revert w. induction k as [|k IH]; intros w Hs.
  - inversion Hs; subst. apply cores_start_inv.
  - apply nsteps_inv_r in Hs as (w1 & Hs & Hstep). eapply cores_step_inv; [by apply IH|done].
Qed.

(** ** Phases *)

Definition phase (id : nat) (c : Core) : nat := waits Sync (take (pc c) (script id)).

Lemma cores_reachable_inv n w : rtc (cores_step n) (cores_start n) w → ∃ k, cores_inv n k w.
Proof. intros [k Hk]%rtc_nsteps_1. exists k. by apply cores_steps_inv. Qed.

Lemma core_action n k w id c : cores_inv n k w → cores w !! id = Some c → ∃ a, script id !! pc c = Some a.
Proof. intros Hi Hc. by apply lookup_lt_is_Some_2, (ci_pc _ _ _ Hi). Qed.

Lemma inside_None b id c a : script id !! pc c = Some a → a ≠ Wait b → inside b id c = None.
Proof. intros Ha Hne. unfold inside. rewrite decide_False; [done|]. congruence. Qed.

Lemma entry_None b id c : inside b id c = None → entry b id c = (waits b (take (pc c) (script id)), None).
Proof. intros Hin. unfold entry. rewrite Hin. f_equal. lia. Qed.

(** A core outside of a barrier compared with another one. *)
Lemma outside_phase n k w b id id' c c' :
  cores_inv n k w → (0 < threads n b)%nat → (skipped b ≤ id)%nat → (skipped b ≤ id')%nat →
  cores w !! id = Some c → cores w !! id' = Some c' → inside b id c = None →
  let p := waits b (take (pc c) (script id)) in let p' := waits b (take (pc c') (script id')) in
  p' = p ∨ script id' !! pc c' = Some (Wait b) ∧ (S p' = p ∨ p' = p) ∧ is_Some (inside b id' c').
Proof.
  intros Hi Hb Hs Hs' Hc Hc' Hin. cbn.
  destruct (rendezvous_outside (threads n b) _ _ (waits b (take (pc c) (script id))) (entry b id' c').1 (entry b id' c').2 (ci_barrier _ _ _ Hi b Hb)) as [E|[E Hx]].
  - rewrite <-(entry_None b id c Hin). apply members_elem. by exists id, c.
  - rewrite <-surjective_pairing. apply members_elem. by exists id', c'.
  - cbn [entry fst] in E. destruct (inside b id' c') as [t|] eqn:Hi'; [|left; lia].
    right. split_and!; [|left; lia|done]. unfold inside in Hi'. by destruct (decide _).
  - cbn [entry fst snd] in E, Hx. destruct Hx as [t Ht]. rewrite Ht in E. right.
    split_and!; [|right; lia|done]. unfold inside in Ht. by destruct (decide _).
Qed.

(** C12 (safety). In every interleaving of the cores, two cores outside of the common
    barrier have passed it equally often, so no core enters a part of the
    start-up before every other one has left the part before; whenever core 0
    logs the use of the memory, every other core stands at the barrier; and a
    core prints to its own window only when the main terminal has got out of
    the way and all output goes to the back buffer. *)
Theorem cores_in_phase n w :
  rtc (cores_step n) (cores_start n) w →
  (∀ id id' c c', cores w !! id = Some c → cores w !! id' = Some c' →
    inside Sync id c = None → inside Sync id' c' = None → phase id c = phase id' c') ∧
  (∀ c0 id c, cores w !! 0%nat = Some c0 → script 0 !! pc c0 = Some (Do LogMemoryUtilization) →
    cores w !! id = Some c → id ≠ 0%nat → script id !! pc c = Some (Wait Sync)) ∧
  (∀ id c n, id ≠ 0%nat → cores w !! id = Some c → script id !! pc c = Some (Do (PrintLines n)) →
    double_buffered (shared w) = true ∧ main_moved (shared w) = true).
Proof.
  intros [k Hi]%cores_reachable_inv. split_and!.
  - intros id id' c c' Hc Hc' Hin Hin'. unfold phase.
    destruct (outside_phase n k w Sync id id' c c') as [?|(_ & _ & [t Ht])];
      [done|cbn; lia..|done|done|done|done|congruence].
  - intros c0 id c Hc0 Ha0 Hc Hid.
    destruct (outside_phase n k w Sync 0 id c0 c Hi) as [Hp|(? & _ & _)]; [cbn; lia..|done|done|by eapply inside_None| |done].
    destruct (core_action _ _ _ _ _ Hi Hc) as [a Ha]. rewrite Ha. f_equal.
    eapply odd_phase; [done..|]. rewrite Hp. by apply log_phase.
  - intros id c m _ Hc Ha. destruct (print_done _ _ _ Ha) as [Hw Hid]. split.
    + apply (ci_flags _ _ _ Hi id c SetToDoubleBuffer Hc). apply (local_done id (pc c) _ Ha). left. lia.
    + pose proof (lookup_lt_Some _ _ _ Hc) as Hlt. pose proof (ci_length _ _ _ Hi) as Hlen.
      destruct (lookup_lt_is_Some_2 (cores w) 1) as [c1 Hc1]; [lia|].
      destruct (core_action _ _ _ _ _ Hi Hc1) as [a1 Ha1].
      apply (ci_flags _ _ _ Hi 1%nat c1 MoveMainTerminal Hc1). apply (local_done 1 (pc c1) a1 Ha1); [|done].
      destruct (outside_phase n k w Local id 1 c c1 Hi) as [Hp|(Ht & _ & _)];
        [cbn; lia..|done|done|by eapply inside_None|left; lia|right; congruence].
Qed.

(** ** Progress *)

(** Every core is in its last loop. *)
Definition settled (w : World) : Prop :=
  ∀ id c, cores w !! id = Some c → ∃ a, script id !! pc c = Some a ∧ is_loop a = true.

(** What is left to do: of the scripts, and until the second frame. *)
Definition core_rank (id : nat) (c : Core) : nat :=
  (2 * (length (script id) - 1 - pc c) - match ticket c with Some _ => 1 | None => 0 end)%nat.
Definition frame_rank (s : Shared) : nat :=
  if REFRESH_COUNTER s <? 2
  then (2 * Z.to_nat (2 - REFRESH_COUNTER s) + (if NEW_FRAME_REQUESTED s then 0 else 1))%nat else 0%nat.
Definition rank (w : World) : nat :=
  (sum_list_with id (imap core_rank (cores w)) + frame_rank (shared w))%nat.

Lemma rank_insert w id c c' s' :
  cores w !! id = Some c →
  (rank (mkWorld (<[id := c']> (cores w)) s') + core_rank id c + frame_rank (shared w) =
   rank w + core_rank id c' + frame_rank s')%nat.
Proof.
  intros Hc. unfold rank. cbn [cores shared]. rewrite imap_insert by by eapply lookup_lt_Some.
  assert (imap core_rank (cores w) !! id = Some (core_rank id c)) as Hl by by rewrite list_lookup_imap, Hc.
  pose proof (sum_list_insert Datatypes.id _ _ _ (core_rank id c') Hl) as Hs. unfold Datatypes.id in Hs at 2 4. lia.
Qed.

(** Every step of a core uses something up, but the endless ones of the last loops. *)
Lemma kind_rank n id c s c' s' :
  kind n id c s c' s' → (pc c < length (script id))%nat → 0 ≤ REFRESH_COUNTER s < 2 ^ 64 - 1 →
  (core_rank id c' + frame_rank s' ≤ core_rank id c + frame_rank s)%nat ∧
  (script id !! pc c ≠ Some EchoLoop → (script id !! pc c = Some FrameLoop → (REFRESH_COUNTER s < 2)%Z) →
    core_rank id c' + frame_rank s' < core_rank id c + frame_rank s)%nat.
Proof.
  intros Hk Hpc Hrc.
  assert (∀ a, script id !! pc c = Some a → is_loop a = false → (S (pc c) < length (script id))%nat) as Hnext.
  { intros a Ha Hl. pose proof (script_loop _ _ _ Ha) as Hlast. rewrite Hl in Hlast.
    destruct (decide (S (pc c) = length (script id))) as [E|]; [by apply Hlast in E|lia]. }
  destruct Hk as [b t x Ha Ht Har -> ->|b t Ha Ht Hrel -> ->|a Ha Hw Hl Ht -> Hbs Hr Hn Hfa Hmono|Ha Ht Hn -> ->|Ha Ht -> ->].
  - specialize (Hnext _ Ha eq_refl). assert (frame_rank (set_barrier b x s) = frame_rank s) as -> by by destruct b.
    unfold core_rank. cbn [pc ticket]. rewrite Ht. lia.
  - specialize (Hnext _ Ha eq_refl). unfold core_rank. cbn [pc ticket]. rewrite Ht. lia.
  - specialize (Hnext _ Ha Hl). assert (frame_rank s' = frame_rank s) as -> by (unfold frame_rank; by rewrite Hr, Hn).
    unfold core_rank. cbn [pc ticket]. rewrite Ht. lia.
  - unfold frame_rank. cbn [set_frames REFRESH_COUNTER NEW_FRAME_REQUESTED]. rewrite Z.mod_small, Hn by lia.
    destruct (Z.ltb_spec (REFRESH_COUNTER s) 2), (Z.ltb_spec (REFRESH_COUNTER s + 1) 2); try lia.
    split; [lia|]. intros _ Hf. specialize (Hf Ha). lia.
  - split; [lia|]. by intros ?.
Qed.

Lemma tick_rank s :
  (frame_rank (request_frame s) ≤ frame_rank s)%nat ∧
  ((REFRESH_COUNTER s < 2)%Z → NEW_FRAME_REQUESTED s = false → frame_rank (request_frame s) < frame_rank s)%nat.
Proof.
  unfold frame_rank. cbn [request_frame set_frames REFRESH_COUNTER NEW_FRAME_REQUESTED].
  destruct (Z.ltb_spec (REFRESH_COUNTER s) 2); [|split; lia]. destruct (NEW_FRAME_REQUESTED s); split; lia || done.
Qed.
(** Why a core cannot go on. *)
Inductive stuck (n id : nat) (c : Core) (s : Shared) (a : action) : Prop :=
  | stuck_barrier b t : a = Wait b → ticket c = Some t → released (barrier_state n b s) t = false → stuck n id c s a
  | stuck_buffer : a = SetToDoubleBuffer → double_buffered s = false → stuck n id c s a
  | stuck_refresh : a = AwaitRefresh → REFRESH_COUNTER s < 2 → stuck n id c s a.

Lemma step_core_stuck n k w id c a :
  cores_inv n k w → cores w !! id = Some c → script id !! pc c = Some a → is_loop a = false →
  step_core n id c (shared w) = None → stuck n id c (shared w) a.
Proof.
  intros Hi Hc Ha Hl. unfold step_core. rewrite Ha. cbn [mbind option_bind]. destruct (ticket c) as [t|] eqn:Ht.
  - destruct (ci_ticket _ _ _ Hi id c t Hc Ht) as [b Hb]. rewrite Ha in Hb. injection Hb as ->.
    destruct (released _ t) eqn:Hr; [done|]. intros _. by eapply stuck_barrier.
  - destruct a as [?|b| | | | | | |]; try done.
    + by destruct (arrive _).
    + destruct (double_buffered _) eqn:?; [done|]. intros _. by apply stuck_buffer.
    + destruct (Z.ltb_spec (REFRESH_COUNTER (shared w)) 2); [|done]. intros _. by apply stuck_refresh.
Qed.

(** A core that is kept at a barrier waits for one that is a group behind and
    is not kept at that barrier. *)
Lemma blocked_culprit n k w id c b t :
  cores_inv n k w → cores w !! id = Some c → script id !! pc c = Some (Wait b) → ticket c = Some t →
  released (barrier_state n b (shared w)) t = false →
  ∃ id' c', cores w !! id' = Some c' ∧ (skipped b ≤ id')%nat ∧
    ((entry b id' c').1 ≤ waits b (take (pc c) (script id)))%nat ∧
    ∀ t', script id' !! pc c' = Some (Wait b) → ticket c' = Some t' →
      released (barrier_state n b (shared w)) t' = true.
Proof.
  intros Hi Hc Ha Ht Hrel. pose proof (wait_member _ _ _ Ha) as Hsk.
  assert (0 < threads n b)%nat as Hb.
  { apply lookup_lt_Some in Hc. rewrite (ci_length _ _ _ Hi) in Hc. destruct b; cbn in *; lia. }
  pose proof (ci_barrier _ _ _ Hi b Hb) as Hr.
  assert (∀ j d u, cores w !! j = Some d → (skipped b ≤ j)%nat → script j !! pc d = Some (Wait b) → ticket d = Some u →
    members b (cores w) !! (j - skipped b)%nat = Some (S (waits b (take (pc d) (script j))), Some u)) as Hlook.
  { intros j d u Hd Hj Hw Hu. rewrite (members_lookup b _ _ d);
      replace (j - skipped b + skipped b)%nat with j by lia; [|done]. f_equal. by apply (entry_leave b j d u). }
  pose proof (rendezvous_released _ Hb _ _ _ _ _ Hr (Hlook id c t Hc Hsk Ha Ht)) as Hcul. rewrite Hrel in Hcul.
  destruct Hcul as (x & (id' & c' & Hc' & Hs' & ->)%members_elem & Hlt & Hmin). exists id', c'.
  split_and!; [done|done|lia|]. intros t' Hw' Ht'.
  pose proof (rendezvous_released _ Hb _ _ _ _ _ Hr (Hlook id' c' t' Hc' Hs' Hw' Ht')) as Hcul.
  destruct (released _ t') eqn:Hr'; [done|]. destruct Hcul as (y & Hy & Hylt & _). specialize (Hmin y Hy).
  destruct (entry_leave b id' c' t' Hw' Ht') as [E _]. rewrite E in Hmin. cbn in Hmin. lia.
Qed.

(** All cores that have something left to do are kept from it. *)
Definition all_stuck (n : nat) (w : World) : Prop :=
  ∀ id c a, cores w !! id = Some c → script id !! pc c = Some a → is_loop a = false → stuck n id c (shared w) a.

Lemma stuck_or_step n k w :
  cores_inv n k w →
  all_stuck n w ∨ ∃ id c a c' s', cores w !! id = Some c ∧ script id !! pc c = Some a ∧ is_loop a = false ∧
    step_core n id c (shared w) = Some (c', s').
Proof.
  intros Hi.
  set (moves := λ id c, match script id !! pc c, step_core n id c (shared w) with
    | Some a, Some _ => negb (is_loop a) | _, _ => false end).
  destruct (existsb Datatypes.id (imap moves (cores w))) eqn:He.
  - right. apply existsb_exists in He as (m & Hm & Hmt). apply list_elem_of_In, elem_of_lookup_imap in Hm as (id & c & -> & Hc).
    unfold moves, Datatypes.id in Hmt. destruct (script id !! pc c) as [a|] eqn:Ha; [|done].
    destruct (step_core n id c (shared w)) as [[c' s']|] eqn:Hs; [|done]. exists id, c, a, c', s'.
    by destruct (is_loop a).
  - left. intros id c a Hc Ha Hl. eapply step_core_stuck; [done..|].
    destruct (step_core n id c (shared w)) as [cs|] eqn:Hs; [|done]. exfalso.
    rewrite <-not_true_iff_false, existsb_exists in He. apply He. exists true. split; [|done].
    apply list_elem_of_In, elem_of_lookup_imap. exists id, c. split; [|done]. unfold moves. by rewrite Ha, Hs, Hl.
Qed.

(** A core that is kept, or done, but not at the common barrier, has passed it six times. *)
Lemma stuck_late n k w id c :
  cores_inv n k w → all_stuck n w → cores w !! id = Some c → script id !! pc c ≠ Some (Wait Sync) →
  (entry Sync id c).1 = 6%nat.
Proof.
  intros Hi Hall Hc Hne. destruct (core_action _ _ _ _ _ Hi Hc) as [a Ha].
  rewrite (entry_None Sync id c) by (eapply inside_None; [done|congruence]). cbn.
  apply (last_part id _ a Ha). destruct (is_loop a) eqn:Hl; [by destruct a|].
  destruct (Hall id c a Hc Ha Hl) as [b t -> _ _| -> _| -> _]; [|done..]. destruct b; [congruence|done].
Qed.

(** Nobody is kept at the common barrier when everybody who can go on has done so. *)
Lemma no_sync_block n k w id c t :
  cores_inv n k w → all_stuck n w → cores w !! id = Some c → script id !! pc c = Some (Wait Sync) →
  ticket c = Some t → released (barrier_state n Sync (shared w)) t = false → False.
Proof.
  intros Hi Hall Hc Ha Ht Hrel.
  destruct (blocked_culprit n k w id c Sync t) as (id' & c' & Hc' & _ & Hle & Hgo); [done..|].
  pose proof (sync_bound _ _ Ha).
  destruct (decide (script id' !! pc c' = Some (Wait Sync))) as [Ha'|Hne].
  - destruct (Hall id' c' _ Hc' Ha' eq_refl) as [b' t' [= <-] Ht' Hrel'|?|?]; [|done..]. rewrite (Hgo t') in Hrel'; done.
  - rewrite (stuck_late n k w id' c') in Hle by done. lia.
Qed.

(** Then core 0 is in its loop. *)
Lemma stuck_core_0 n k w c0 :
  cores_inv n k w → all_stuck n w → cores w !! 0%nat = Some c0 → script 0 !! pc c0 = Some FrameLoop.
Proof.
  intros Hi Hall Hc. destruct (core_action _ _ _ _ _ Hi Hc) as [a Ha]. rewrite Ha. f_equal.
  destruct (is_loop a) eqn:Hl.
  - destruct a; try done. by apply echo_done in Ha as [_ ?].
  - exfalso. destruct (Hall 0%nat c0 a Hc Ha Hl) as [b t -> Ht Hrel| -> _| -> _].
    + destruct b; [by eapply no_sync_block|]. by apply wait_member in Ha; cbn in Ha; lia.
    + script_facts Ha.
    + script_facts Ha.
Qed.

(** And once the screen has been refreshed twice, everybody is. *)
Lemma stuck_settled n k w c0 :
  cores_inv n k w → all_stuck n w → cores w !! 0%nat = Some c0 → 2 ≤ REFRESH_COUNTER (shared w) → settled w.
Proof.
  intros Hi Hall Hc0 Hrc. pose proof (stuck_core_0 _ _ _ _ Hi Hall Hc0) as Ha0.
  destruct (frame_done _ _ Ha0) as (_ & Hd & _). pose proof (ci_flags _ _ _ Hi _ _ _ Hc0 Hd) as Hdouble. cbn in Hdouble.
  assert (∀ id c a, cores w !! id = Some c → script id !! pc c = Some a → is_loop a = false → a = Wait Local ∧ is_Some (ticket c)) as Hlocal.
  { intros id c a Hc Ha Hl. destruct (Hall id c a Hc Ha Hl) as [b t -> Ht Hrel| -> ?| -> ?]; [|congruence|lia].
    destruct b; [by exfalso; eapply no_sync_block|by rewrite Ht]. }
  intros id c Hc. destruct (core_action _ _ _ _ _ Hi Hc) as [a Ha]. exists a. split; [done|].
  destruct (is_loop a) eqn:Hl; [done|exfalso].
  destruct (Hall id c a Hc Ha Hl) as [b t -> Ht Hrel| -> ?| -> ?]; [|congruence|lia].
  destruct (Hlocal id c _ Hc Ha Hl) as [[= ->] _].
  destruct (blocked_culprit n k w id c Local t) as (id' & c' & Hc' & Hid' & Hle & Hgo); [done..|].
  rewrite (proj1 (local_zero _ _ Ha)) in Hle.
  destruct (core_action _ _ _ _ _ Hi Hc') as [a' Ha']. destruct (is_loop a') eqn:Hl'.
  - destruct a'; try done; [by apply frame_done in Ha' as [-> _]; cbn in Hid'; lia|].
    rewrite entry_None in Hle by by eapply inside_None. apply echo_done in Ha' as [E _]. rewrite E in Hle. cbn in Hle. lia.
  - destruct (Hlocal id' c' a' Hc' Ha' Hl') as [-> [t' Ht']].
    destruct (entry_leave Local id' c' t' Ha' Ht') as [E _]. rewrite E in Hle. cbn in Hle. lia.
Qed.

Lemma rank_start n : (rank (cores_start n) ≤ 46 * S n)%nat.
Proof.
  assert (∀ m f, (∀ id, f id (mkCore 0 None) ≤ 46)%nat →
    (sum_list_with Datatypes.id (imap f (replicate m (mkCore 0 None))) ≤ 46 * m)%nat) as Hsum.
  { induction m as [|m IH]; intros f Hf; [cbn; lia|]. cbn [replicate imap sum_list_with].
    specialize (IH (f ∘ S) ltac:(intros; apply Hf)). pose proof (Hf 0%nat). unfold Datatypes.id in *. lia. }
  unfold rank, cores_start. cbn [cores shared replicate imap sum_list_with].
  specialize (Hsum n (core_rank ∘ S) ltac:(intros [|[|[|id]]]; vm_compute; lia)).
  assert (core_rank 0 (mkCore 0 None) = 34%nat) as -> by by vm_compute.
  assert (∀ a b, frame_rank (mkShared a b 0 true false false false) = 4%nat) as -> by done.
  unfold Datatypes.id in *. lia.
Qed.

(** No step of a core or of the timer takes the cores further away. *)
Lemma cores_step_rank n k w w' :
  cores_inv n k w → Z.of_nat k < 2 ^ 64 - 1 → cores_step n w w' → (rank w' ≤ rank w)%nat.
Proof.
  intros Hi Hk Hst. pose proof (ci_frames _ _ _ Hi) as Hf. destruct Hst as [w1 id c c' s' Hc Hst%step_core_kind|w1 Ht].
  - pose proof (rank_insert w1 id c c' s' Hc).
    destruct (kind_rank _ _ _ _ _ _ Hst) as [Hle _]; [by eapply (ci_pc _ _ _ Hi)|lia|lia].
  - destruct (tick_rank (shared w1)) as [Hr _]. unfold rank. cbn [cores shared]. lia.
Qed.

Lemma cores_steps_rank n k w :
  nsteps (cores_step n) k (cores_start n) w → Z.of_nat k < 2 ^ 64 - 1 → (rank w ≤ 46 * S n)%nat.
Proof.
  revert w. induction k as [|k IH]; intros w Hs Hk.
  - inversion Hs; subst. apply rank_start.
  - apply nsteps_inv_r in Hs as (w1 & Hs & Hstep). specialize (IH w1 Hs ltac:(lia)).
    pose proof (cores_step_rank n k w1 w (cores_steps_inv n k w1 Hs) ltac:(lia) Hstep). lia.
Qed.

(** A step that brings the cores closer. *)
Lemma closer n k w :
  cores_inv n k w → Z.of_nat k < 2 ^ 64 - 1 → settled w ∨ ∃ w', cores_step n w w' ∧ (rank w' < rank w)%nat.
Proof.
  intros Hi Hk. pose proof (ci_frames _ _ _ Hi) as Hf.
  assert (∀ id c c' s', cores w !! id = Some c → step_core n id c (shared w) = Some (c', s') →
    script id !! pc c ≠ Some EchoLoop → (script id !! pc c = Some FrameLoop → REFRESH_COUNTER (shared w) < 2) →
    ∃ w', cores_step n w w' ∧ (rank w' < rank w)%nat) as Hgo.
  { intros id c c' s' Hc Hst Ha Hb. eexists. split; [by eapply cs_core|].
    apply step_core_kind in Hst. pose proof (rank_insert w id c c' s' Hc).
    destruct (kind_rank _ _ _ _ _ _ Hst) as [_ Hlt]; [by eapply (ci_pc _ _ _ Hi)|lia|]. specialize (Hlt Ha Hb). lia. }
  destruct (stuck_or_step n k w Hi) as [Hall|(id & c & a & c' & s' & Hc & Ha & Hl & Hst)];
    [|right; eapply Hgo; [done..|by rewrite Ha; destruct a|by rewrite Ha; destruct a]].
  destruct (lookup_lt_is_Some_2 (cores w) 0) as [c0 Hc0]; [rewrite (ci_length _ _ _ Hi); lia|].
  destruct (Z.le_gt_cases 2 (REFRESH_COUNTER (shared w))) as [Hge|Hge]; [left; by eapply stuck_settled|right].
  pose proof (stuck_core_0 _ _ _ _ Hi Hall Hc0) as Ha0. destruct (frame_done _ _ Ha0) as (_ & _ & Ht).
  pose proof (ci_flags _ _ _ Hi _ _ _ Hc0 Ht) as Htimer. cbn in Htimer.
  destruct (NEW_FRAME_REQUESTED (shared w)) eqn:Hn.
  - assert (ticket c0 = None) as Htk.
    { destruct (ticket c0) as [t|] eqn:Htk; [|done]. destruct (ci_ticket _ _ _ Hi _ _ _ Hc0 Htk); congruence. }
    eapply (Hgo 0%nat c0); [done| |by rewrite Ha0|done].
    unfold step_core. rewrite Ha0. cbn [mbind option_bind]. by rewrite Htk, Hn.
  - exists (mkWorld (cores w) (request_frame (shared w))). split; [by apply cs_timer|].
    destruct (tick_rank (shared w)) as [_ Hr]. specialize (Hr ltac:(lia) Hn). unfold rank. cbn [cores shared]. lia.
Qed.

(** C13 (liveness). The cores always get to their last loops: in the first 2^64 - 1 steps
    of any interleaving there is, until all cores are there, a step that brings
    them closer, no step takes them further away, and they are never further
    away than 46 steps for each core.  No core waits for ever at a barrier, for
    the double buffer, or for the screen to be refreshed. *)
Theorem cores_progress n k w :
  nsteps (cores_step n) k (cores_start n) w → Z.of_nat k < 2 ^ 64 - 1 →
  (settled w ∨ ∃ w', cores_step n w w' ∧ (rank w' < rank w)%nat) ∧
  (∀ w', cores_step n w w' → (rank w' ≤ rank w)%nat) ∧
  (rank w ≤ 46 * S n)%nat.
Proof.
  intros Hs Hk. pose proof (cores_steps_inv n k w Hs) as Hi.
  split_and!; [by eapply closer|intros w' Hst; by eapply cores_step_rank|by eapply cores_steps_rank].
Qed.
End Invariant.

(** ** The cores that have been started *)

(** When [init_smp] returns, the application processors have the indices below
    [n], each once: with core 0 they are the cores of [cores_start]. *)
Lemma booted_cores n s :
  rtc (smp_step (Z.of_nat n)) (smp_start n) s → bsp s = Booted →
  ∃ indices, aps s = Started <$> indices ∧ indices ≡ₚ range 0 (Z.of_nat n).
Proof.
  intros Hs Hb. pose proof (smp_reachable_inv n s Hs) as Hi. pose proof (si_all _ _ Hi) as Hall. rewrite Hb in Hall.
  assert (∃ indices, aps s = Started <$> indices) as [indices Heq].
  { clear -Hall. unfold all_started in Hall. induction (aps s) as [|a l IH]; [by exists []|].
    destruct (Hall 0%nat a eq_refl) as [i ->]. destruct IH as [ix ->]; [intros k; apply (Hall (S k))|]. by exists (i :: ix). }
  exists indices. split; [done|].
  assert (∀ k i, indices !! k = Some i → aps s !! k = Some (Started i)) as Hat.
  { intros k i Hk. by rewrite Heq, list_lookup_fmap, Hk. }
  assert (NoDup indices) as Hnd.
  { apply NoDup_alt. intros k k' i Hk Hk'. eapply (si_inj _ _ Hi); [by apply Hat|by apply Hat|done..]. }
  assert (length indices = n) as Hlen by (pose proof (si_length _ _ Hi) as Hl; by rewrite Heq, length_fmap in Hl).
  apply submseteq_length_Permutation.
  - apply NoDup_submseteq; [done|]. intros i (k & Hk)%list_elem_of_lookup. apply elem_of_range.
    pose proof (si_range _ _ Hi k _ i (Hat k i Hk) eq_refl). rewrite (si_drawn _ _ Hi) in *.
    pose proof (sum_list_bound drew 1 (aps s) drew_le) as Hd. rewrite (si_length _ _ Hi) in Hd. lia.
  - rewrite range_length. lia.
Qed.
