(* ===== verification/CoresDemo.v ===== *)
(** * Three cores

    A barrier that counts and numbers its groups, and the cores run one after
    the other as far as they come. *)

From S2P Require Import Prelude SmpBoot Cores CoresSpec.

(** The threads, those inside, and the number of groups that were let go; a
    ticket is the number of the group. *)
#[export] Instance counting_barrier : Barrier := {|
  BState := nat * nat * nat;
  Ticket := nat;
  barrier_new m := (m, 0%nat, 0%nat);
  arrive b := let '(m, inside, group) := b in
    (group, if (S inside =? m)%nat then (m, 0%nat, S group) else (m, S inside, group));
  released b t := let '(_, _, group) := b in (t <? group)%nat |}.

Definition demo_counted (m a : nat) (b : nat * nat * nat) : Prop :=
  b.1.1 = m ∧ (b.1.2 < m)%nat ∧ a = (b.2 * m + b.1.2)%nat.

#[export] Instance counting_barrier_laws : BarrierLaws.
Proof.
  refine {| arrivals := demo_counted; nth_arrival m i t := t = (i `div` m)%nat |}.
  - intros m Hm. by split_and!.
  - intros m a [[m' i] g] t b' Hm (<- & Hi & ->) Har. cbn [fst snd] in *.
    assert (t = g ∧ demo_counted m' (g * m' + i + 1) b') as [-> ?]; [|split; [done|]].
    { change ((g, if (S i =? m')%nat then (m', 0%nat, S g) else (m', S i, g)) = (t, b')) in Har.
      destruct (Nat.eqb_spec (S i) m') as [E|E]; simplify_eq; unfold demo_counted; cbn [fst snd]; split_and!; done || nia. }
    apply (Nat.div_unique _ _ _ i); lia.
  - intros m a [[m' i] g] j t Hm (<- & Hi & ->) -> Hj. cbn [fst snd released counting_barrier] in *.
    pose proof (Nat.div_mod_eq j m'). pose proof (Nat.mod_upper_bound j m' ltac:(lia)).
    case_bool_decide; [apply Nat.ltb_lt|apply Nat.ltb_ge]; nia.
Defined.

(** Every core in turn makes [fuel] steps if it can, the timer ticks, [rounds] times. *)
Fixpoint run_core (n fuel id : nat) (w : World) : World :=
  match fuel, cores w !! id with
  | S f, Some c => match step_core n id c (shared w) with
                   | Some (c', s') => run_core n f id (mkWorld (<[id := c']> (cores w)) s')
                   | None => w end
  | _, _ => w
  end.
Definition tick (w : World) : World :=
  if timer_started (shared w) then mkWorld (cores w) (request_frame (shared w)) else w.
Fixpoint run_cores (n rounds : nat) (w : World) : World :=
  match rounds with
  | O => w
  | S r => run_cores n r (tick (foldl (λ w id, run_core n 30 id w) w (seq 0 (S n))))
  end.

Lemma run_core_steps n fuel id w : rtc (cores_step n) w (run_core n fuel id w).
Proof.
  revert w. induction fuel as [|f IH]; intros w; cbn; [done|].
  destruct (cores w !! id) as [c|] eqn:Hc; [|done]. destruct (step_core n id c (shared w)) as [[c' s']|] eqn:Hs; [|done].
  eapply rtc_l; [by eapply cs_core|apply IH].
Qed.

Lemma run_cores_steps n rounds w : rtc (cores_step n) w (run_cores n rounds w).
Proof.
  revert w. induction rounds as [|r IH]; intros w; [done|]. cbn [run_cores]. etransitivity; [|apply IH].
  assert (∀ l w0, rtc (cores_step n) w0 (foldl (λ w id, run_core n 30 id w) w0 l)) as Hf.
  { induction l as [|id l IHl]; intros w0; [done|]. etransitivity; [apply (run_core_steps n 30 id)|apply IHl]. }
  etransitivity; [apply (Hf (seq 0 (S n)))|]. unfold tick. destruct (timer_started _) eqn:Ht; [|done].
  apply rtc_once. by apply cs_timer.
Qed.

(** The scripts of three cores, to the end. *)
Definition finished : World := run_cores 2 12 (cores_start 2).

Example finished_settled :
  map (λ c, script 0 !! pc c) (take 1 (cores finished)) = [Some FrameLoop] ∧
  imap (λ i c, script (S i) !! pc c) (drop 1 (cores finished)) = [Some EchoLoop; Some EchoLoop].
Proof. by vm_compute. Qed.

(** After the first wait core 0 logs, the others are at the barrier. *)
Definition logging : World := run_core 2 1 0 (run_cores 2 1 (run_core 2 1 0 (cores_start 2))).

Definition kept (p t : nat) : @Core counting_barrier := @mkCore counting_barrier p (Some t).

Lemma logging_steps : rtc (cores_step 2) (cores_start 2) logging.
Proof.
  etransitivity; [apply (run_core_steps 2 1 0)|]. etransitivity; [apply (run_cores_steps 2 1)|].
  apply (run_core_steps 2 1 0).
Qed.

Lemma cores_in_phase_witness :
  ∃ c0 c1 c2, cores logging = [c0; c1; c2] ∧
    script 0 !! pc c0 = Some (Do LogMemoryUtilization) ∧
    script 1 !! pc c1 = Some (Wait Sync) ∧ script 2 !! pc c2 = Some (Wait Sync).
Proof.
  destruct (cores_in_phase 2 logging logging_steps) as (_ & Hlog & _).
  exists (mkCore 2 None), (kept 4 0), (kept 5 1). split_and!.
  - by vm_compute.
  - by vm_compute.
  - apply (Hlog (mkCore 2 None) 1%nat (kept 4 0)); by vm_compute.
  - apply (Hlog (mkCore 2 None) 2%nat (kept 5 1)); by vm_compute.
Defined.

Lemma cores_progress_witness :
  (settled (cores_start 2) ∨ ∃ w', cores_step 2 (cores_start 2) w' ∧ (rank w' < rank (cores_start 2))%nat) ∧
  (rank (cores_start 2) ≤ 138)%nat.
Proof.
  destruct (cores_progress 2 0 (cores_start 2) (nsteps_O _ _) ltac:(by vm_compute)) as (H1 & _ & H3).
  split; [exact H1|exact H3].
Defined.
