(* ===== verification/Console.v ===== *)
(** * Shared output (src/kernel/src/terminal_out.rs)

    The main terminal, the double buffer, and the output of panics.  The locks
    are spin locks: a lock that is held by the interrupted code is never
    released, so taking it does not return. *)

From S2P Require Import Prelude Bytes Terminal Windows.

Record DoubleBuffer := mkDouble { back_buffer : Z; front_buffer : Z; length_ : Z }.

(** The statics; [held_*] say which locks someone else holds. *)
Record Console `{Font} := mkConsole {
  TERM : TerminalWriter;
  EMERGENCY_PANIC_TERM : option TerminalWriter;     (** [None] until its first use *)
  PANICKED_STOP_PRINTING : bool;
  DOUBLE_BUFFER : option DoubleBuffer;
  held_term : bool; held_swap : bool; held_back : bool; held_panic : bool; held_emergency : bool;
  screen : gmap Z Z }.
Arguments mkConsole {_} _ _ _ _ _ _ _ _ _ _.

Section Console.
Context `{Profile} `{Screen} `{Font}.

(** [lock()] on a lock that someone else holds for good. *)
Definition lock (held : Console → bool) : M Console () := λ s,
  if held s then Fault NoFuel else Val ((), s).

Definition set_term (t : TerminalWriter) (v : gmap Z Z) (s : Console) : Console :=
  mkConsole t (EMERGENCY_PANIC_TERM s) (PANICKED_STOP_PRINTING s) (DOUBLE_BUFFER s)
    (held_term s) (held_swap s) (held_back s) (held_panic s) (held_emergency s) v.
Definition set_emergency (t : TerminalWriter) (v : gmap Z Z) (s : Console) : Console :=
  mkConsole (TERM s) (Some t) (PANICKED_STOP_PRINTING s) (DOUBLE_BUFFER s)
    (held_term s) (held_swap s) (held_back s) (held_panic s) (held_emergency s) v.
Definition set_panicked (s : Console) : Console :=
  mkConsole (TERM s) (EMERGENCY_PANIC_TERM s) true (DOUBLE_BUFFER s)
    (held_term s) (held_swap s) (held_back s) (held_panic s) (held_emergency s) (screen s).
Definition set_screen (v : gmap Z Z) (s : Console) : Console := set_term (TERM s) v s.
Definition set_double (t : TerminalWriter) (d : DoubleBuffer) (v : gmap Z Z) (s : Console) : Console :=
  mkConsole t (EMERGENCY_PANIC_TERM s) (PANICKED_STOP_PRINTING s) (Some d)
    (held_term s) (held_swap s) (held_back s) (held_panic s) (held_emergency s) v.

(** Running an operation of a terminal. *)
Definition on_term (m : M TermState ()) : M Console () :=
  zoom (λ s, mkTS (TERM s) (screen s)) (λ t s, set_term (term t) (vram t) s) m.

(** The emergency terminal, made on its first use. *)
Definition emergency_term (s : Console) : res TerminalWriter :=
  match EMERGENCY_PANIC_TERM s with
  | Some t => Val t
  | None => from_placement FULL_SCREEN_PLACEMENT ≫= TerminalWriter_new
  end.
Definition on_emergency (prepare : TerminalWriter → TerminalWriter) (m : M TermState ()) : M Console () := λ s,
  match emergency_term s with
  | Val t =>
      match m (mkTS (prepare t) (screen s)) with
      | Val (_, t') => Val ((), set_emergency (term t') (vram t') s)
      | Fault f => Fault f
      end
  | Fault f => Fault f
  end.

(** ** The double buffer *)

Definition zeroes (a n : Z) (v : gmap Z Z) : gmap Z Z := store_bytes a (replicate (Z.to_nat n) 0) v.

(** [switch_to_double_buffer], its buffer allocated at [new_back_buffer]; the
    address of element 0 is taken, so the buffers must not be empty. *)
Definition switch_to_double_buffer (new_back_buffer : Z) : M Console () :=
  gets DOUBLE_BUFFER ≫= λ d,
  match d with
  | Some _ => mret ()
  | None =>
      liftr (unwrap framebuffer) ≫= λ '(info_, front),
      liftr (mul64 (fb_stride info_) (fb_bytes_per_pixel info_)) ≫= λ row,
      liftr (mul64 row (fb_height info_)) ≫= λ all,
      let frame_buffer_size := Z.min (fb_byte_len info_) all in
      lock held_term ≫= λ _,
      gets (λ s, info (TERM s)) ≫= λ i,
      liftr (construct_buffer new_back_buffer i) ≫= λ buf,
      liftr (if (0 <? snd buf) && (0 <? fb_byte_len info_) then Val () else Fault Bounds) ≫= λ _,
      modify (λ s, set_double
        (term (set_buffer new_back_buffer buf i (mkTS (TERM s) (screen s))))
        (mkDouble (fst buf) front frame_buffer_size)
        (zeroes new_back_buffer frame_buffer_size (screen s)) s)
  end.

(** [ptr::copy_nonoverlapping] *)
Definition copy_bytes (src dst n : Z) (v : gmap Z Z) : gmap Z Z :=
  foldl (λ v k, partial_alter (λ _, v !! (src + k)) (dst + k) v) v (range 0 n).

Definition push_to_frame_buffer : M Console () :=
  gets PANICKED_STOP_PRINTING ≫= λ stop : bool,
  if stop then mret () else
  liftr (unwrap framebuffer) ≫= λ '(fb_info, _),
  gets DOUBLE_BUFFER ≫= λ d,
  liftr (unwrap d) ≫= λ db,
  lock held_term ≫= λ _,
  lock held_back ≫= λ _,
  lock held_swap ≫= λ _,
  for_each (range 0 (fb_height fb_info)) (λ y,
    liftr (mul64 y (fb_stride fb_info)) ≫= λ ys,
    liftr (mul64 ys (fb_bytes_per_pixel fb_info)) ≫= λ offset,
    liftr (mul64 (fb_width fb_info) (fb_bytes_per_pixel fb_info)) ≫= λ n,
    modify (λ s, set_screen (copy_bytes (back_buffer db + offset) (front_buffer db + offset) n (screen s)) s)).

(** ** Panics *)

(** The tries for [SWAP_LOCK]: [free k] says whether it is free when [k] tries
    are left. *)
Fixpoint try_swap (free : nat → bool) (time_out : nat) : bool :=
  free time_out || match time_out with O => false | S t => try_swap free t end.

Definition SWAP_TRIES : nat := Z.to_nat 1000000.

Definition panic_print (free : nat → bool) (callback : M TermState ()) : M Console () :=
  modify set_panicked ≫= λ _,
  lock held_panic ≫= λ _,
  gets DOUBLE_BUFFER ≫= λ d,
  match d with
  | Some db =>
      let _swap := try_swap free SWAP_TRIES in
      lock held_emergency ≫= λ _,
      on_emergency (λ t, term (set_buffer (buffer_base_ptr t) (front_buffer db, length_ db) (info t) (mkTS t ∅)))
        callback
  | None =>
      gets held_term ≫= λ busy : bool,
      if busy then lock held_emergency ≫= λ _, on_emergency (λ t, t) callback
      else on_term callback
  end.

(** ** [Stdout]: the main terminal, unless a panic has stopped printing *)

Definition acquire : M Console () := lock held_term.

Definition unless_panicked (m : M TermState ()) : M Console () :=
  gets PANICKED_STOP_PRINTING ≫= λ stop : bool, if stop then mret () else on_term m.

Definition Stdout_print (s : list Z) : M Console () := unless_panicked (write_str s).
Definition Stdout_print_pixels (w : Z) (colors : list Color) : M Console () :=
  unless_panicked (print_pixels w colors).
Definition Stdout_clear (font_height : option FontSize) : M Console () := unless_panicked (clear font_height).

Definition with_colors (fg bg cl : Color) (w : FontWeight) (t : TerminalWriter) : TerminalWriter :=
  mkTerm (buffer_base_ptr t) (buffer t) (info t) (x_pos t) (y_pos t) (font_height t) (line_height t) w fg bg cl.
Definition update_term (g : TerminalWriter → TerminalWriter) : M Console () :=
  modify (λ s, set_term (g (TERM s)) (screen s) s).

Definition set_font_weight (w : FontWeight) : M Console () :=
  update_term (λ t, with_colors (foreground t) (background t) (clear_color t) w t).
Definition get_font_weight : M Console FontWeight := gets (λ s, font_weight (TERM s)).
Definition set_foreground (c : Color) : M Console () :=
  update_term (λ t, with_colors c (background t) (clear_color t) (font_weight t) t).
Definition get_foreground : M Console Color := gets (λ s, foreground (TERM s)).
Definition set_background (c : Color) : M Console () :=
  update_term (λ t, with_colors (foreground t) c (clear_color t) (font_weight t) t).
Definition get_background : M Console Color := gets (λ s, background (TERM s)).
Definition set_clear_color (c : Color) : M Console () :=
  update_term (λ t, with_colors (foreground t) (background t) c (font_weight t) t).
Definition get_clear_color : M Console Color := gets (λ s, clear_color (TERM s)).

(** [println!] to a terminal that is locked already, and [print!]. *)
Definition Stdout_println (s : list Z) : M Console () := Stdout_print (s ++ [10]).
Definition print (s : list Z) : M Console () := acquire ≫= λ _, Stdout_print s.
End Console.
