(* ===== verification/ConsoleSpec.v ===== *)
(** * What reaches the screen

    Pushing the back buffer shows it on the screen, and a panic message is
    printed whatever locks the panicking code holds, and is not overdrawn. *)

From S2P Require Import Prelude Bytes Terminal Windows TermSpec Console.

(** ** Copying *)

Lemma copy_bytes_lookup src dst n v q :
  src + n ≤ dst ∨ dst + n ≤ src → 0 ≤ n →
  copy_bytes src dst n v !! q =
    if bool_decide (dst ≤ q < dst + n) then v !! (src + (q - dst)) else v !! q.
Proof.
  intros Hd Hn. unfold copy_bytes. rewrite <-(Z2Nat.id n) in * by done. set (m := Z.to_nat n) in *.
  assert (∀ j, (j ≤ m)%nat →
    foldl (λ v k, partial_alter (λ _, v !! (src + k)) (dst + k) v) v (range 0 (Z.of_nat j)) !! q =
      if bool_decide (dst ≤ q < dst + Z.of_nat j) then v !! (src + (q - dst)) else v !! q) as Hall.
  { intros j. revert q. induction j as [|j IH]; intros q Hj.
    - cbn. by rewrite bool_decide_false by lia.
    - replace (Z.of_nat (S j)) with (Z.of_nat j + 1) by lia.
      rewrite range_snoc, foldl_snoc by lia. destruct (decide (q = dst + Z.of_nat j)) as [->|Hne].
      + rewrite lookup_partial_alter_eq, IH by lia. rewrite bool_decide_false by lia.
        rewrite bool_decide_true by lia. f_equal. lia.
      + rewrite lookup_partial_alter_ne by done. rewrite IH by lia.
        repeat case_bool_decide; done || lia. }
  by apply Hall.
Qed.

Section Push.
Context `{Profile} `{Screen} `{Font}.

(** The bytes of the screen that [push_to_frame_buffer] writes. *)
Definition visible (fi : FrameBufferInfo) (base q : Z) : Prop :=
  ∃ x y k, 0 ≤ x < fb_width fi ∧ 0 ≤ y < fb_height fi ∧ 0 ≤ k < fb_bytes_per_pixel fi ∧
    q = screen_byte fi base x y k.

Definition buffer_bytes (fi : FrameBufferInfo) : Z := fb_height fi * fb_stride fi * fb_bytes_per_pixel fi.

(** A row of a buffer. *)
Lemma row_byte fi base y q :
  0 < fb_bytes_per_pixel fi →
  base + y * fb_stride fi * fb_bytes_per_pixel fi ≤ q <
    base + y * fb_stride fi * fb_bytes_per_pixel fi + fb_width fi * fb_bytes_per_pixel fi ↔
  ∃ x k, 0 ≤ x < fb_width fi ∧ 0 ≤ k < fb_bytes_per_pixel fi ∧ q = screen_byte fi base x y k.
Proof.
  intros Hb. unfold screen_byte. split.
  - intros Hq. set (o := q - (base + y * fb_stride fi * fb_bytes_per_pixel fi)).
    exists (o `div` fb_bytes_per_pixel fi), (o `mod` fb_bytes_per_pixel fi).
    pose proof (Z.div_mod o (fb_bytes_per_pixel fi) ltac:(lia)).
    pose proof (Z.mod_pos_bound o (fb_bytes_per_pixel fi) Hb).
    split_and!; [apply Z.div_pos; lia|apply Z.div_lt_upper_bound; lia|lia|lia|lia].
  - intros (x & k & Hx & Hk & ->). nia.
Qed.

Definition row_start (fi : FrameBufferInfo) (y : Z) : Z := y * fb_stride fi * fb_bytes_per_pixel fi.
Definition row_bytes (fi : FrameBufferInfo) : Z := fb_width fi * fb_bytes_per_pixel fi.

Lemma screen_bpp fi : screen_ok fi → 0 < fb_bytes_per_pixel fi ≤ 8.
Proof. intros [_ _ _ [Hb ?]]. destruct (fb_pixel_format fi); cbn in *; lia. Qed.

Lemma row_in_buffer fi y :
  screen_ok fi → 0 ≤ y < fb_height fi →
  0 ≤ y * fb_stride fi ≤ 2 ^ 40 ∧ 0 ≤ row_start fi y ∧ row_start fi y + row_bytes fi ≤ buffer_bytes fi ∧
  0 < row_bytes fi ∧ buffer_bytes fi ≤ 2 ^ 44.
Proof.
  intros Hso Hy. pose proof (screen_bpp fi Hso). destruct Hso as [Hw Hs Hh _].
  unfold row_start, row_bytes, buffer_bytes.
  assert (0 ≤ y * fb_stride fi) by nia. assert (y * fb_stride fi + fb_width fi ≤ fb_height fi * fb_stride fi) by nia.
  assert (fb_height fi * fb_stride fi ≤ 2 ^ 40) by nia. split_and!; nia.
Qed.

(** Earlier rows end before later ones start. *)
Lemma row_before fi y y' :
  screen_ok fi → 0 ≤ y' < y → row_start fi y' + row_bytes fi ≤ row_start fi y.
Proof.
  intros Hso Hy. pose proof (screen_bpp fi Hso). destruct Hso as [Hw Hs Hh _]. unfold row_start, row_bytes.
  assert (y' * fb_stride fi + fb_width fi ≤ y * fb_stride fi) by nia. nia.
Qed.

(** One iteration of the loop. *)
Definition push_row (fi : FrameBufferInfo) (db : DoubleBuffer) (y : Z) (v : gmap Z Z) : gmap Z Z :=
  copy_bytes (back_buffer db + row_start fi y) (front_buffer db + row_start fi y) (row_bytes fi) v.

Lemma push_run fi base db s :
  framebuffer = Some (fi, base) → screen_ok fi → DOUBLE_BUFFER s = Some db →
  PANICKED_STOP_PRINTING s = false → held_term s = false → held_back s = false → held_swap s = false →
  ∃ body, push_to_frame_buffer s = for_each (range 0 (fb_height fi)) body s ∧
    ∀ y v, 0 ≤ y < fb_height fi → body y (set_screen v s) = Val ((), set_screen (push_row fi db y v) s).
Proof.
  intros Hfb Hso Hdb Hpan Hht Hhb Hhs. eexists. split.
  - unfold push_to_frame_buffer, lock.
    rewrite (M_bind_run (gets _) _ _ false s) by (unfold gets; by rewrite Hpan).
    rewrite Hfb. rewrite (M_bind_run (liftr _) _ _ (fi, base) s) by done.
    rewrite (M_bind_run (gets _) _ _ (Some db) s) by (unfold gets; by rewrite Hdb).
    rewrite (M_bind_run (liftr _) _ _ db s) by done.
    rewrite (M_bind_run _ _ _ () s) by (by rewrite Hht). rewrite (M_bind_run _ _ _ () s) by (by rewrite Hhb).
    by rewrite (M_bind_run _ _ _ () s) by (by rewrite Hhs).
  - intros y v Hy. cbn beta. destruct (row_in_buffer fi y Hso Hy) as (Hys & Hr0 & Hr1 & Hb0 & Hmax).
    m_step.
    rewrite (M_bind_run _ _ _ (row_start fi y) (set_screen v s)).
    2:{ apply liftr_run, mul64_in. unfold row_start in *. lia. }
    rewrite (M_bind_run _ _ _ (row_bytes fi) (set_screen v s)); [done|].
    apply liftr_run, mul64_in. unfold row_bytes in *. lia.
Qed.

(** After the rows [l1]: their bytes are copied, the others are kept. *)
Definition pushed (fi : FrameBufferInfo) (db : DoubleBuffer) (v0 : gmap Z Z) (l1 : list Z) (v : gmap Z Z) : Prop :=
  (∀ y o, y ∈ l1 → 0 ≤ o < row_bytes fi →
    v !! (front_buffer db + row_start fi y + o) = v0 !! (back_buffer db + row_start fi y + o)) ∧
  (∀ q, (∀ y, y ∈ l1 → ¬ (front_buffer db + row_start fi y ≤ q < front_buffer db + row_start fi y + row_bytes fi)) →
    v !! q = v0 !! q).

Lemma pushed_row fi db v0 v l1 y :
  screen_ok fi → 0 ≤ y < fb_height fi → (∀ y', y' ∈ l1 → 0 ≤ y' < y) →
  back_buffer db + buffer_bytes fi ≤ front_buffer db ∨ front_buffer db + buffer_bytes fi ≤ back_buffer db →
  pushed fi db v0 l1 v → pushed fi db v0 (l1 ++ [y]) (push_row fi db y v).
Proof.
  intros Hso Hy Hbefore Hapart [Hcopied Hkept]. destruct (row_in_buffer fi y Hso Hy) as (_ & Hr0 & Hr1 & Hb0 & _).
  unfold push_row. split.
  - intros y' o [Hy'| ->%list_elem_of_singleton]%elem_of_app Ho; rewrite copy_bytes_lookup by lia.
    + pose proof (row_before fi y y' Hso (Hbefore y' Hy')).
      rewrite bool_decide_false by lia. by apply Hcopied.
    + rewrite bool_decide_true by lia. etransitivity; [|apply Hkept]; [f_equal; lia|].
      intros y' Hy' Hq. pose proof (Hbefore y' Hy').
      destruct (row_in_buffer fi y' Hso ltac:(lia)) as (_ & ? & ? & _). lia.
  - intros q Hq. rewrite copy_bytes_lookup by lia. rewrite bool_decide_false.
    + apply Hkept. intros y' Hy'. apply Hq. apply elem_of_app. by left.
    + apply Hq. apply elem_of_app. right. left.
Qed.

(** What precedes an element of a range is smaller. *)
Lemma range_prefix a b l1 y l2 y' : range a b = l1 ++ y :: l2 → y' ∈ l1 → a ≤ y' < y.
Proof.
  intros Hl (i & Hi)%list_elem_of_lookup. pose proof (lookup_lt_Some _ _ _ Hi).
  assert (∀ i z, range a b !! i = Some z → z = a + Z.of_nat i) as Hidx.
  { intros j z. unfold range. rewrite lookup_seqZ. by intros [-> _]. }
  assert (y = a + Z.of_nat (length l1)) as ->.
  { apply Hidx. by rewrite Hl, lookup_app_r, Nat.sub_diag by lia. }
  assert (y' = a + Z.of_nat i) as -> by (apply Hidx; by rewrite Hl, lookup_app_l). lia.
Qed.

(** C35 (functional). Pushing the double buffer, when no lock is stuck, copies
    every byte of every visible pixel from the back buffer to the screen, row by
    row whatever the stride, and writes nothing else: neither the padding of
    the rows nor the back buffer. *)
Theorem push_shows_back_buffer fi base db s :
  framebuffer = Some (fi, base) → screen_ok fi → DOUBLE_BUFFER s = Some db →
  PANICKED_STOP_PRINTING s = false → held_term s = false → held_back s = false → held_swap s = false →
  back_buffer db + buffer_bytes fi ≤ front_buffer db ∨ front_buffer db + buffer_bytes fi ≤ back_buffer db →
  ∃ v', push_to_frame_buffer s = Val ((), set_screen v' s) ∧
    (∀ x y k, 0 ≤ x < fb_width fi → 0 ≤ y < fb_height fi → 0 ≤ k < fb_bytes_per_pixel fi →
      v' !! screen_byte fi (front_buffer db) x y k = screen s !! screen_byte fi (back_buffer db) x y k) ∧
    (∀ q, ¬ visible fi (front_buffer db) q → v' !! q = screen s !! q).
Proof.
  intros Hfb Hso Hdb Hpan Hht Hhb Hhs Hapart. pose proof (screen_bpp fi Hso).
  destruct (push_run fi base db s Hfb Hso Hdb Hpan Hht Hhb Hhs) as (body & -> & Hbody).
  destruct (for_each_ind body (λ l1 s', ∃ v, s' = set_screen v s ∧ pushed fi db (screen s) l1 v)
    (range 0 (fb_height fi)) s) as (s' & Hrun & v & -> & Hcopied & Hkept).
  - exists (screen s). split; [by destruct s|]. split; [by intros ? ? ?%elem_of_nil|done].
  - intros l1 y l2 s1 Hl (v & -> & Hp).
    assert (0 ≤ y < fb_height fi) as Hy.
    { apply (elem_of_range 0). rewrite Hl. apply elem_of_app. right. left. }
    eexists. split; [by apply Hbody|]. eexists. split; [done|].
    apply pushed_row; [done..| |done|done]. intros y' Hy'. by eapply range_prefix.
  - exists v. split_and!; [done| |].
    + intros x y k Hx Hy Hk. unfold screen_byte.
      replace ((y * fb_stride fi + x) * fb_bytes_per_pixel fi)
        with (row_start fi y + x * fb_bytes_per_pixel fi) by (unfold row_start; lia).
      rewrite !Z.add_assoc, <-!(Z.add_assoc (_ + row_start fi y)).
      apply Hcopied; [by apply elem_of_range|]. unfold row_bytes. nia.
    + intros q Hq. apply Hkept. intros y Hy%elem_of_range Hr. apply Hq.
      apply row_byte in Hr as (x & k & Hx & Hk & ->); [|lia]. by exists x, y, k.
Qed.
End Push.

Section Panic.
Context `{Profile} `{Screen} `{FontLaws}.

(** The window of the whole screen, and a terminal on it as [TerminalWriter::new]
    makes it, drawing to the buffer at [start]. *)
Definition full_window (fi : FrameBufferInfo) : WindowInfo := window_at fi 0 0 (fb_width fi) (fb_height fi).
Definition full_length (fi : FrameBufferInfo) : Z := fb_stride fi * fb_height fi * fb_bytes_per_pixel fi.
Definition full_term (fi : FrameBufferInfo) (base start : Z) : TerminalWriter :=
  mkTerm base (start, full_length fi) (full_window fi) 0 0 Size24 (24 + LETTER_SPACING) Regular white black
    (mkColor 70 60 60).

(** A screen with room for a line of the default font. *)
Record text_screen (fi : FrameBufferInfo) : Prop := {
  ts_ok : screen_ok fi;
  ts_landscape : fb_height fi ≤ fb_width fi;
  ts_line : 24 ≤ fb_height fi;
  ts_char : get_raster_width Regular Size24 ≤ fb_width fi }.

Lemma full_window_ok fi : screen_ok fi → window_ok (full_window fi).
Proof. intros [? ? ? ?]. split; cbn; lia || done. Qed.

Lemma full_window_val fi base :
  framebuffer = Some (fi, base) → text_screen fi → from_placement FULL_SCREEN_PLACEMENT = Val (full_window fi).
Proof.
  intros Hfb [Hso Hl _ _]. pose proof Hso as [Hw Hs Hh _].
  rewrite (from_placement_new fi base) by (try done; cbn; lia).
  cbn [FULL_SCREEN_PLACEMENT x_index y_index x_div y_div x_size y_size].
  change (0 + 1) with 1. rewrite !edge_zero, !edge_all by lia. rewrite !Z.sub_0_r.
  rewrite (WindowInfo_new_val fi base) by (try done; lia). by rewrite (proj2 (Z.leb_le _ _)) by lia.
Qed.

Lemma emergency_val fi base s :
  framebuffer = Some (fi, base) → text_screen fi → EMERGENCY_PANIC_TERM s = None →
  emergency_term s = Val (full_term fi base base).
Proof.
  intros Hfb Hts He. pose proof (screen_bpp fi (ts_ok _ Hts)). pose proof (ts_ok _ Hts) as [Hw Hs Hh _].
  unfold emergency_term. rewrite He, (full_window_val fi base Hfb Hts). cbn [mbind res_bind].
  unfold TerminalWriter_new. rewrite Hfb. cbn [unwrap mbind res_bind]. unfold construct_buffer, full_window. cbn -[Z.mul].
  assert (0 ≤ fb_stride fi * fb_height fi ≤ 2 ^ 40) by nia.
  rewrite (mul64_in (fb_stride fi)) by lia. cbn -[Z.mul].
  rewrite (mul64_in (fb_stride fi * fb_height fi)) by nia. cbn -[Z.mul].
  unfold full_term, full_length, full_window, window_at. rewrite !Z.mul_0_l, Z.add_0_r. done.
Qed.

Lemma full_term_ok fi base start : text_screen fi → term_ok (full_term fi base start) ∧ pos_ok (full_term fi base start).
Proof.
  intros [Hso Hl Hh Hc]. pose proof Hso as [Hw _ _ _]. pose proof font_24. unfold full_term, LETTER_SPACING.
  split; split; cbn; try lia; [by apply full_window_ok|done|]. unfold byte_color. cbn. lia.
Qed.

(** Where a panic message is drawn: on the screen, or, before there is a double
    buffer, through the main terminal if its lock is free. *)
Definition panic_start (base : Z) (s : Console) : Z :=
  match DOUBLE_BUFFER s with
  | Some db => front_buffer db
  | None => if held_term s then base else fst (buffer (TERM s))
  end.
Definition panic_window (fi : FrameBufferInfo) (s : Console) : WindowInfo :=
  match DOUBLE_BUFFER s with
  | Some _ => full_window fi
  | None => if held_term s then full_window fi else info (TERM s)
  end.

(** The console as a panic needs it; [panic_keeps] shows that the next panic
    finds it so, too. *)
Record panic_ready (fi : FrameBufferInfo) (base : Z) (s : Console) : Prop := {
  pr_panic : held_panic s = false;
  pr_emergency : held_emergency s = false;
  pr_double db : DOUBLE_BUFFER s = Some db → length_ db = full_length fi;
  pr_term : DOUBLE_BUFFER s = None → held_term s = false → term_ok (TERM s) ∧ pos_ok (TERM s);
  pr_made t : EMERGENCY_PANIC_TERM s = Some t → term_ok t ∧ pos_ok t ∧ info t = full_window fi ∧
    (DOUBLE_BUFFER s = None → fst (buffer t) = base) }.

(** The terminal that a panic draws on: the emergency terminal, new or used
    before, on the front buffer if there is a double buffer; or the main
    terminal. *)
Definition emergency (fi : FrameBufferInfo) (base : Z) (s : Console) : TerminalWriter :=
  default (full_term fi base base) (EMERGENCY_PANIC_TERM s).

Definition draws_to (start length : Z) (t : TerminalWriter) : TerminalWriter :=
  mkTerm (buffer_base_ptr t) (start, length) (info t) (x_pos t) (y_pos t) (font_height t) (line_height t)
    (font_weight t) (foreground t) (background t) (clear_color t).

Definition panic_term (fi : FrameBufferInfo) (base : Z) (s : Console) : TerminalWriter :=
  match DOUBLE_BUFFER s with
  | Some db => draws_to (front_buffer db) (length_ db) (emergency fi base s)
  | None => if held_term s then emergency fi base s else TERM s
  end.

(** The emergency terminal, new or used before. *)
Lemma emergency_term_ok fi base s :
  framebuffer = Some (fi, base) → text_screen fi → panic_ready fi base s →
  let t := emergency fi base s in
  emergency_term s = Val t ∧ term_ok t ∧ pos_ok t ∧ info t = full_window fi ∧
    (DOUBLE_BUFFER s = None → fst (buffer t) = base).
Proof.
  intros Hfb Hts Hr. unfold emergency. destruct (EMERGENCY_PANIC_TERM s) as [t|] eqn:He; cbn.
  - destruct (pr_made _ _ _ Hr t He) as (? & ? & ? & ?). split_and!; try done.
    unfold emergency_term. by rewrite He.
  - destruct (full_term_ok fi base base Hts).
    by split_and!; [apply emergency_val|..].
Qed.

Lemma draws_to_ok fi start t :
  info t = full_window fi → term_ok t → pos_ok t →
  term_ok (draws_to start (full_length fi) t) ∧ pos_ok (draws_to start (full_length fi) t).
Proof.
  intros Hi [? ? ? ? ? ?] [? ?]. split; split; try done. unfold buffer_ok. cbn. by rewrite Hi.
Qed.

Lemma on_emergency_run prepare m fi base start s :
  framebuffer = Some (fi, base) → text_screen fi → panic_ready fi base s → keeps m →
  (∀ t, term_ok t → pos_ok t → info t = full_window fi → (DOUBLE_BUFFER s = None → fst (buffer t) = base) →
    term_ok (prepare t) ∧ pos_ok (prepare t) ∧ info (prepare t) = full_window fi ∧
    fst (buffer (prepare t)) = start) →
  ∃ t v, on_emergency prepare m s = Val ((), set_emergency t v s) ∧
    m (mkTS (prepare (emergency fi base s)) (screen s)) = Val ((), mkTS t v) ∧
    outside start (full_window fi) (screen s) v ∧
    term_ok t ∧ pos_ok t ∧ info t = full_window fi ∧ fst (buffer t) = start.
Proof.
  intros Hfb Hts Hready Hm Hprep. unfold on_emergency.
  destruct (emergency_term_ok fi base s Hfb Hts Hready) as (-> & Ht & Hp & Hi & Hb). set (t0 := emergency fi base s) in *.
  destruct (Hprep t0 Ht Hp Hi Hb) as (Ht1 & Hp1 & Hi1 & Hb1).
  destruct (Hm (mkTS (prepare t0) (screen s)) Ht1 Hp1) as ([t v] & -> & (Ht2 & Hp2 & Hb2 & Hi2) & Ho).
  cbn in *. exists t, v. rewrite Hb1, Hi1 in Ho. split_and!; try done; congruence.
Qed.

Lemma panicked_quiet s : PANICKED_STOP_PRINTING s = true →
  (∀ text, Stdout_print text s = Val ((), s)) ∧ push_to_frame_buffer s = Val ((), s).
Proof.
  intros Hp. split; [intros text|];
    unfold Stdout_print, unless_panicked, push_to_frame_buffer;
    by rewrite (M_bind_run (gets _) _ _ true s) by (unfold gets; by rewrite Hp).
Qed.

(** The output of a panic, whoever holds the locks of the terminal, the back
    buffer and the swap. *)
Lemma panic_keeps fi base free m s :
  framebuffer = Some (fi, base) → text_screen fi → panic_ready fi base s → keeps m →
  ∃ s', panic_print free m s = Val ((), s') ∧ panic_ready fi base s' ∧
    outside (panic_start base s) (panic_window fi s) (screen s) (screen s') ∧
    (∃ t, m (mkTS (panic_term fi base s) (screen s)) = Val ((), mkTS t (screen s'))) ∧
    PANICKED_STOP_PRINTING s' = true ∧ held_term s' = held_term s.
Proof.
  intros Hfb Hts Hready Hm. pose proof Hready as [Hhp Hhe Hdb Hterm Hmade]. set (s1 := set_panicked s).
  assert (panic_ready fi base s1) as Hready1 by by split.
  unfold panic_print. rewrite (M_bind_run (modify _) _ _ () s1) by done.
  rewrite (M_bind_run (lock _) _ _ () s1) by (unfold lock; cbn; by rewrite Hhp).
  rewrite (M_bind_run (gets _) _ _ (DOUBLE_BUFFER s) s1) by done.
  assert (lock held_emergency s1 = Val ((), s1)) as Hlock by (unfold lock; cbn; by rewrite Hhe).
  unfold panic_start, panic_window, panic_term. destruct (DOUBLE_BUFFER s) as [db|] eqn:Hd.
  - cbv zeta. rewrite (M_bind_run _ _ _ _ _ Hlock).
    destruct (on_emergency_run (draws_to (front_buffer db) (length_ db)) m fi base (front_buffer db) s1
      Hfb Hts Hready1 Hm) as (t & v & Hrun & Hmsg & Ho & Ht & Hp & Hi & Hb).
    { intros t Ht Hp Hi _. rewrite (Hdb db eq_refl). destruct (draws_to_ok fi (front_buffer db) t Hi Ht Hp).
      by split_and!. }
    exists (set_emergency t v s1). split_and!; try done; [|by exists t].
    split; cbn; rewrite ?Hd; try done. by intros t' [= <-].
  - rewrite (M_bind_run (gets _) _ _ (held_term s) s1) by done. destruct (held_term s) eqn:Hht.
    + rewrite (M_bind_run _ _ _ _ _ Hlock).
      destruct (on_emergency_run (λ t, t) m fi base base s1 Hfb Hts Hready1 Hm)
        as (t & v & Hrun & Hmsg & Ho & Ht & Hp & Hi & Hb); [intros; split_and!; auto|].
      exists (set_emergency t v s1). split_and!; try done; [|by exists t].
      split; cbn; rewrite ?Hd, ?Hht; try done. by intros t' [= <-].
    + destruct (Hterm eq_refl eq_refl) as [Ht Hpos].
      destruct (Hm (mkTS (TERM s) (screen s)) Ht Hpos) as ([t v] & Hrun & (? & ? & _) & Ho).
      exists (set_term t v s1). split_and!; try done; [unfold on_term, zoom; cbn [TERM screen s1 set_panicked]; by rewrite Hrun| |by exists t].
      split; cbn; rewrite ?Hd; try done.
Qed.

(** A panic gets its message out: even if the panicking core
    itself holds the lock of the main terminal, of the back buffer or of the
    buffer swap (no other panic being under way, whose locks it would wait for), however the tries for the swap lock go, and however many cores
    have panicked before, [panic_print] returns after printing any message on
    [panic_term], writing only to the window it prints in; and from then on the message
    stays, because neither standard output nor a frame pushed by another core
    changes anything. *)
Theorem panic_print_prints fi base free text s :
  framebuffer = Some (fi, base) → text_screen fi → panic_ready fi base s →
  ∃ s', panic_print free (write_str text) s = Val ((), s') ∧ panic_ready fi base s' ∧
    outside (panic_start base s) (panic_window fi s) (screen s) (screen s') ∧
    (∃ t, write_str text (mkTS (panic_term fi base s) (screen s)) = Val ((), mkTS t (screen s'))) ∧
    PANICKED_STOP_PRINTING s' = true ∧
    (∀ text', Stdout_print text' s' = Val ((), s')) ∧ push_to_frame_buffer s' = Val ((), s').
Proof.
  intros Hfb Hts Hready.
  destruct (panic_keeps fi base free (write_str text) s Hfb Hts Hready) as (s' & Hr & Hready' & Ho & Hm & Hp & _);
    [apply confined_keeps, confined_write_str|].
  exists s'. destruct (panicked_quiet s' Hp). by split_and!.
Qed.
End Panic.
