(* ===== verification/ConsoleDemo.v ===== *)
(** * Shared output on a small screen

    The theorems of [ConsoleSpec] at the screen and font of [TermDemo]: a
    screen of 64 by 48 pixels at 4096, a back buffer at 65536. *)

From S2P Require Import Prelude Bytes Terminal Windows TermSpec TermDemo Console ConsoleSpec.

Definition demo_double : DoubleBuffer := mkDouble 65536 4096 12288.

(** Nothing is locked; the main terminal draws to the back buffer. *)
Definition demo_console : Console :=
  mkConsole (full_term demo_fb 65536 65536) None false (Some demo_double)
    false false false false false ∅.

(** The panicking core holds the main terminal and all locks of the buffers. *)
Definition stuck_console : Console :=
  mkConsole (full_term demo_fb 65536 65536) None false (Some demo_double)
    true true true false false ∅.

Lemma demo_text_screen : text_screen demo_fb.
Proof. split; [apply demo_screen_ok|by cbn|by cbn|by cbn]. Qed.

Lemma push_shows_back_buffer_witness :
  ∃ v', push_to_frame_buffer demo_console = Val ((), set_screen v' demo_console) ∧
    ∀ q, ¬ visible demo_fb 4096 q → v' !! q = (∅ : gmap Z Z) !! q.
Proof.
  destruct (push_shows_back_buffer demo_fb 4096 demo_double demo_console eq_refl demo_screen_ok
    eq_refl eq_refl eq_refl eq_refl eq_refl) as (v' & Hr & _ & Hk); [by right; vm_compute|].
  exists v'. split; [exact Hr|exact Hk].
Defined.

Lemma panic_print_prints_witness :
  lock held_term stuck_console = Fault NoFuel ∧
  ∃ s', panic_print (λ _, false) (write_str [66; 111; 111; 109]) stuck_console = Val ((), s') ∧
    outside 4096 (full_window demo_fb) ∅ (screen s') ∧
    push_to_frame_buffer s' = Val ((), s').
Proof.
  split; [done|].
  destruct (panic_print_prints demo_fb 4096 (λ _, false) [66; 111; 111; 109] stuck_console eq_refl
    demo_text_screen) as (s' & Hr & _ & Ho & _ & _ & _ & Hp); [by split; try done; intros ? [= <-]|].
  exists s'. split; [exact Hr|]. split; [exact Ho|exact Hp].
Defined.
