(* ===== verification/UserPrint.v ===== *)
(** * The print function of the kernel (src/kernel/src/loader.rs)

    [user_functions::print], through which an application writes to the main
    terminal: it reads the bytes in the application's space and panics when
    they are not UTF-8.  The pointer and the length are not checked; a slice
    that [from_raw_parts] does not allow is undefined. *)

From S2P Require Import Prelude Bytes Utf8 Constants Platform FrameAlloc Paging Memory AddressSpace Isolation MapPages UserMem Terminal Windows TermSpec Console.

Section Print.
Context `{Profile} `{X86Addr} `{Boot} `{Screen} `{Font}.

(** [slice::from_raw_parts], and the bytes behind it. *)
Definition from_raw_parts (string len : Z) : M Kernel (list Z) :=
  if (string =? 0) || (2 ^ 63 <=? len) then λ _, Fault Undefined
  else vread_bytes (Z.to_nat len) string.

(** The terminal is locked before the argument of [print!] is evaluated. *)
Definition print (string len : Z) : M (Kernel * Console) () :=
  zoom snd (λ c s, (fst s, c)) acquire ≫= λ _,
  zoom fst (λ k s, (k, snd s)) (from_raw_parts string len) ≫= λ slice,
  liftr (unwrap (from_utf8 slice)) ≫= λ text,
  zoom snd (λ c s, (fst s, c)) (Stdout_print text).
End Print.

Section Spec.
Context `{Profile} `{X86AddrLaws} `{BootOk pmo} `{Screen} `{FontLaws}.

(** The bytes [bs] lie at [a] in the active space. *)
Definition holds_bytes (k : Kernel) (a : Z) (bs : list Z) : Prop :=
  ∀ j b, bs !! j = Some b → vbyte pmo k (k_cr3 k) (a + Z.of_nat j) = Some b.

(** The steps of [print] up to the decoding. *)
Lemma print_run k c string bs :
  0 < string → Z.of_nat (length bs) < 2 ^ 63 → holds_bytes k string bs → held_term c = false →
  print string (Z.of_nat (length bs)) (k, c) =
    (liftr (unwrap (from_utf8 bs)) ≫= λ text, zoom snd (λ c s, (fst s, c)) (Stdout_print text)) (k, c).
Proof.
  intros Hs Hl Hb Hh. unfold print.
  rewrite (M_bind_run _ _ _ () (k, c)) by (unfold zoom, acquire, lock; cbn; by rewrite Hh).
  rewrite (M_bind_run _ _ _ bs (k, c)); [done|]. unfold zoom, from_raw_parts. cbn [fst snd].
  rewrite (proj2 (Z.eqb_neq string 0)), (proj2 (Z.leb_gt _ _)) by lia. cbn [orb].
  rewrite Nat2Z.id. by rewrite vread_bytes_run.
Qed.

(** C32 (roundtrip). What an application prints is what the main terminal
    writes: of any text, whose UTF-8 bytes lie in the application's space, every
    character, in order and nothing else, inside of the terminal's window and
    without a change to the memory; bytes that are the encoding of no text
    make the kernel panic. *)
Theorem user_print_spec k c string bs :
  0 < string → Z.of_nat (length bs) < 2 ^ 63 → holds_bytes k string bs →
  held_term c = false → PANICKED_STOP_PRINTING c = false → term_ok (TERM c) → pos_ok (TERM c) →
  (∀ text, Forall (λ ch, is_char ch = true) text → encode_str text = bs →
    ∃ s', write_str text (mkTS (TERM c) (screen c)) = Val ((), s') ∧ usable (TERM c) (term s') ∧
      outside (fst (buffer (TERM c))) (info (TERM c)) (screen c) (vram s') ∧
      print string (Z.of_nat (length bs)) (k, c) = Val ((), (k, set_term (term s') (vram s') c))) ∧
  ((∀ text, Forall (λ ch, is_char ch = true) text → encode_str text ≠ bs) →
    print string (Z.of_nat (length bs)) (k, c) = Fault Unwrap).
Proof.
  intros Hs Hl Hb Hh Hp Ht Hpos. rewrite print_run by done. split.
  - intros text Hc He.
    destruct (confined_keeps _ (confined_write_str text) (mkTS (TERM c) (screen c)) Ht Hpos) as (s' & Hr & Hu & Ho).
    exists s'. split_and!; [done..|].
    rewrite (M_bind_run _ _ _ text (k, c)) by (apply liftr_run; by rewrite (proj2 (from_utf8_spec bs text))).
    unfold zoom, Stdout_print, unless_panicked. cbn [fst snd].
    rewrite (M_bind_run _ _ _ false c) by (unfold gets; by rewrite Hp).
    unfold on_term, zoom. by rewrite Hr.
  - intros Hno. apply M_bind_fault. destruct (from_utf8 bs) as [text|] eqn:E; [|done].
    apply from_utf8_spec in E as [E Hc]. by destruct (Hno text Hc).
Qed.
End Spec.
