(* ===== verification/UserPrintDemo.v ===== *)
(** * Printing from an application, on a concrete machine

    The text "Hé→😀", with one character of each encoded length, lies in the
    stack page of the application of [IsolationDemo]; the terminal is that of
    [ConsoleDemo]. *)

From S2P Require Import Prelude Bytes Utf8 Constants Platform FrameAlloc Paging Memory AddressSpace Isolation IsolationDemo MapPages UserMem Terminal Windows TermSpec TermDemo Console ConsoleSpec ConsoleDemo UserPrint.

#[local] Existing Instance dev_profile.
Import RefX86 RefBoot.

Definition text : list Z := [72; 0xe9; 0x2192; 0x1f600].
Definition utf8 : list Z := [72; 0xc3; 0xa9; 0xe2; 0x86; 0x92; 0xf0; 0x9f; 0x98; 0x80].

Example encode_text : encode_str text = utf8.
Proof. reflexivity. Qed.

(** Continuation bytes alone, overlong forms, surrogates, numbers that are too
    big and incomplete sequences are refused. *)
Example refused :
  from_utf8 <$> [[0x80]; [0xc0; 0x80]; [0xe0; 0x80; 0x80]; [0xed; 0xa0; 0x80]; [0xf4; 0x90; 0x80; 0x80]; [0xe2; 0x86]] =
    replicate 6 None.
Proof. reflexivity. Qed.

Definition with_text : Kernel := after st4 (vwrite_bytes page utf8).

Lemma user_print_spec_witness :
  ∃ s', write_str text (mkTS (TERM demo_console) ∅) = Val ((), s') ∧
    print page 10 (with_text, demo_console) = Val ((), (with_text, set_term (term s') (vram s') demo_console)).
Proof.
  destruct (user_print_spec (pmo := pmo) with_text demo_console page utf8) as [Hok _].
  - by vm_compute.
  - by vm_compute.
  - intros j b Hj. do 10 (destruct j as [|j]; [injection Hj as <-; by vm_compute|]). done.
  - done.
  - done.
  - apply (full_term_ok demo_fb 65536 65536), demo_text_screen.
  - apply (full_term_ok demo_fb 65536 65536), demo_text_screen.
  - destruct (Hok text) as (s' & Hr & _ & _ & Hp).
    + repeat constructor.
    + reflexivity.
    + exists s'. split; [exact Hr|exact Hp].
Defined.
