(* ===== verification/UserCalls.v ===== *)
(** * What an application can do (src/kernel/src/loader.rs, src/user_app/src/os_functions.rs)

    The kernel passes a table of four functions to the entry point of an
    application; [os_functions] calls them through [_FP].  The functions run on
    the core of the application, in its space, and find its resources through
    the core local data.  The allocator crate keeps its free lists in the memory
    of the heap, so [alloc] and [dealloc] also write there, [dealloc] at the
    pointer it is given.  What a memory-safe application does with its own memory
    and the four functions, [confined] by induction, stays in its own space and
    heap; and its allocator serves it from that heap. *)

From S2P Require Import Prelude Bytes Constants Platform FrameAlloc Paging Memory AddressSpace Isolation MapPages UserMem Heap RawMem KernelAlloc Loader Terminal Windows TermSpec Console UserPrint UserSwitch.

(** ** The kernel, as its functions see it *)

(** [c_heaps] are the heaps in the [ApplicationResources], by the address of the
    resources; [c_running] is the pointer to them in the run record of the core;
    [c_left] is the exit code after a call of [abort], which does not return. *)
Record Calls `{Font} (Heap : Type) := mkCalls {
  c_kernel : Kernel; c_console : Console; c_heaps : gmap Z Heap; c_running : option Z; c_left : option Z }.
Arguments mkCalls {_ _} _ _ _ _ _.
Arguments c_kernel {_ _} _.
Arguments c_console {_ _} _.
Arguments c_heaps {_ _} _.
Arguments c_running {_ _} _.
Arguments c_left {_ _} _.

Module user_functions.
Section Code.
Context `{Profile} `{X86Addr} `{Boot} `{Mapper} `{BuddyHeap Heap} `{!BuddyNodes Heap} `{Screen} `{Font}.

(** [Layout::from_size_align_unchecked]: a layout that is not valid is
    undefined. *)
Definition from_size_align_unchecked (size alignment : Z) : res Layout :=
  if (0 <? alignment) && (2 ^ Z.log2 alignment =? alignment) && (size <=? 2 ^ 63 - alignment)
  then Val (mkLayout size alignment) else Fault Undefined.

(** [app_res.heap.inner], behind the pointer [app_res]. *)
Definition on_heap {A} (app_res : Z) (m : M (Kernel * Heap) A) : M (Calls Heap) A := λ s,
  match c_heaps s !! app_res with
  | Some h =>
      match m (c_kernel s, h) with
      | Val (a, (k, h')) => Val (a, mkCalls k (c_console s) (<[app_res := h']> (c_heaps s)) (c_running s) (c_left s))
      | Fault f => Fault f
      end
  | None => Fault Undefined
  end.

(** [get_cld().running_application_data.as_mut().unwrap().application_resources] *)
Definition app_res : M (Calls Heap) Z := gets c_running ≫= λ running, liftr (unwrap running).

Definition print (string len : Z) : M (Calls Heap) () :=
  zoom (λ s, (c_kernel s, c_console s)) (λ '(k, c) s, mkCalls k c (c_heaps s) (c_running s) (c_left s))
    (UserPrint.print string len).

(** The jump out of the application is that of UserSwitch.v. *)
Definition abort (exit_code : Z) : M (Calls Heap) () :=
  app_res ≫= λ _,
  modify (λ s, mkCalls (c_kernel s) (c_console s) (c_heaps s) (c_running s) (Some exit_code)).

(** The words the crate stores when an allocation takes the heap from [h] to
    [h']: the heap grows from its end when no block is found. *)
Definition call_nodes (layout : Layout) (h h' : Heap) : list (Z * Z) :=
  match heap_alloc layout h with
  | Some _ => alloc_nodes layout h
  | None =>
      let start := v.USER_HEAP_START + stats_total_bytes h in
      let stop := v.USER_HEAP_START + stats_total_bytes h' in
      add_nodes start stop h ++ alloc_nodes layout (add_to_heap start stop h)
  end.

(** [inner.alloc(layout)] and [inner.dealloc(ptr, layout)]. *)
Definition inner_alloc (layout : Layout) : M (Kernel * Heap) (option Z) :=
  gets snd ≫= λ h, user_alloc layout ≫= λ ptr, gets snd ≫= λ h',
  KernelAlloc.on_kernel (store_nodes (call_nodes layout h h')) ≫= λ _, mret ptr.
Definition inner_dealloc (ptr : Z) (layout : Layout) : M (Kernel * Heap) () :=
  gets snd ≫= λ h, KernelAlloc.on_kernel (store_nodes (dealloc_nodes ptr layout h)) ≫= λ _,
  user_dealloc ptr layout.

Definition alloc (size alignment : Z) : M (Calls Heap) (option Z) :=
  liftr (from_size_align_unchecked size alignment) ≫= λ layout,
  app_res ≫= λ res, on_heap res (inner_alloc layout).

Definition dealloc (ptr size alignment : Z) : M (Calls Heap) () :=
  liftr (from_size_align_unchecked size alignment) ≫= λ layout,
  app_res ≫= λ res, on_heap res (inner_dealloc ptr layout).
End Code.
End user_functions.

Section Shim.
Context `{Profile} `{X86Addr} `{Boot} `{Mapper} `{BuddyHeap Heap} `{!BuddyNodes Heap} `{Screen} `{Font}.

(** The table, declared alike in the kernel and in the programs. *)
Record FunctionPointers := mkFP {
  fp_print : Z → Z → M (Calls Heap) ();
  fp_abort : Z → M (Calls Heap) ();
  fp_alloc : Z → Z → M (Calls Heap) (option Z);
  fp_dealloc : Z → Z → Z → M (Calls Heap) () }.

Definition FUNCTION_POINTERS : FunctionPointers :=
  mkFP user_functions.print user_functions.abort user_functions.alloc user_functions.dealloc.

(** [_FP.get().unwrap_unchecked()] *)
Definition get_unchecked (_FP : option FunctionPointers) : M (Calls Heap) FunctionPointers :=
  liftr (match _FP with Some fp => Val fp | None => Fault Undefined end).

(** [os_functions::_print] of the string at [ptr], [os_functions::abort], and
    the program's global [Allocator]. *)
Definition user_print (_FP : option FunctionPointers) (ptr len : Z) : M (Calls Heap) () :=
  get_unchecked _FP ≫= λ fp, fp_print fp ptr len.
Definition user_abort (_FP : option FunctionPointers) (exit_code : Z) : M (Calls Heap) () :=
  get_unchecked _FP ≫= λ fp, fp_abort fp exit_code.
Definition Allocator_alloc (_FP : option FunctionPointers) (layout : Layout) : M (Calls Heap) (option Z) :=
  get_unchecked _FP ≫= λ fp, fp_alloc fp (size layout) (align layout).
Definition Allocator_dealloc (_FP : option FunctionPointers) (ptr : Z) (layout : Layout) : M (Calls Heap) () :=
  get_unchecked _FP ≫= λ fp, fp_dealloc fp ptr (size layout) (align layout).
End Shim.
Arguments FunctionPointers Heap {_}.

(** ** What the functions change *)

Section Confined.
Context `{Profile} `{X86AddrLaws} `{BootOk pmo} `{Mapper} `{!MapperLaws pmo}.
Context `{BuddyHeap Heap} `{!BuddyLaws} `{!BuddySpace} `{!BuddyNodes Heap} `{!BuddyNodesLaws}.
Context `{Screen} `{FontLaws}.
Context (k0 : Z) (pool us : list Z).

(** The change of one action: steps of the running application's space, its
    own heap, and the main terminal. *)
Record confined (r ptr : Z) (s s' : Calls Heap) : Prop := {
  cf_steps : rtc (app_step pmo us r) (c_kernel s) (c_kernel s');
  cf_heaps q : q ≠ ptr → c_heaps s' !! q = c_heaps s !! q;
  cf_running : c_running s' = c_running s }.

Lemma confined_trans r ptr s1 s2 s3 : confined r ptr s1 s2 → confined r ptr s2 s3 → confined r ptr s1 s3.
Proof.
  intros [Hs1 Hh1 Hr1] [Hs2 Hh2 Hr2]. split; [by etrans| |congruence].
  intros q Hq. by rewrite Hh2, Hh1.
Qed.

Lemma vread_bytes_same n a k bs k' : vread_bytes n a k = Val (bs, k') → k' = k.
Proof.
  revert a bs. induction n as [|n IH]; intros a bs Hr; cbn in Hr; [by apply mret_Val in Hr as [_ ->]|].
  apply M_bind_Val in Hr as (b & k1 & Hb & Hr). apply M_bind_Val in Hr as (l & k2 & Hl & Hr).
  apply mret_Val in Hr as [_ ->]. assert (k1 = k) as -> by (unfold vread in Hb; repeat case_match; by simplify_eq).
  by eapply IH.
Qed.

Lemma print_kernel string len k c k' c' : UserPrint.print string len (k, c) = Val ((), (k', c')) → k' = k.
Proof.
  intros Hr. unfold UserPrint.print in Hr. apply M_bind_Val in Hr as ([] & [k1 c1] & Ha & Hr).
  apply M_bind_Val in Hr as (bs & [k2 c2] & Hb & Hr). apply M_bind_Val in Hr as (text & [k3 c3] & Hc & Hr).
  apply liftr_Val in Hc as [_ [= -> ->]]. apply zoom_Val in Ha as (x & _ & [= -> ->]).
  apply zoom_Val in Hr as (y & _ & [= -> ->]). apply zoom_Val in Hb as (k4 & Hb & [= -> ->]). cbn in Hb |- *.
  unfold from_raw_parts in Hb. destruct (_ || _); [done|]. by apply vread_bytes_same in Hb.
Qed.

Lemma map_app_steps ps flags st st' :
  k_cr3 st ∈ us → for_each ps (λ p, map_ram_user p flags ≫= λ _, mret ()) st = Val ((), st') →
  rtc (app_step pmo us (k_cr3 st)) st st'.
Proof.
  intros Hact. remember (k_cr3 st) as r eqn:Hr. symmetry in Hr. revert st Hr.
  induction ps as [|p ps IH]; intros st Hr Hrun; cbn [for_each] in Hrun.
  - by apply mret_Val in Hrun as [_ ->].
  - apply M_bind_Val in Hrun as ([] & st1 & Hp & Hrun). apply M_bind_Val in Hp as (f & st2 & Hmap & Hret).
    apply mret_Val in Hret as [_ ->]. pose proof (map_ram_user_cr3 _ _ _ _ _ Hmap) as Hc.
    apply (rtc_l _ _ st2); [|apply IH; [congruence|done]].
    split_and!; [eapply ms_map_user; [by rewrite Hr|done]|done|congruence].
Qed.

Lemma user_rescue_steps lay st h st' h' :
  k_cr3 st ∈ us → user_rescue lay (st, h) = Val ((), (st', h')) → rtc (app_step pmo us (k_cr3 st)) st st'.
Proof.
  intros Hact Hr. unfold user_rescue, rescue in Hr.
  rewrite (M_bind_run (gets _) _ _ _ _ eq_refl) in Hr. cbn beta in Hr.
  do 2 (apply M_bind_Val in Hr as (? & ? & [_ ->]%liftr_Val & Hr)).
  apply M_bind_Val in Hr as ([first last] & ? & [_ ->]%liftr_Val & Hr).
  apply M_bind_Val in Hr as ([] & [st1 h1] & Hmap & Hr). apply zoom_Val in Hmap as (st2 & Hmap & Heq); injection Heq as -> ->.
  cbn [fst snd] in *. rewrite (M_bind_run (gets _) _ _ _ _ eq_refl) in Hr. cbn beta in Hr.
  do 2 (apply M_bind_Val in Hr as (? & ? & [_ ->]%liftr_Val & Hr)).
  apply modify_Val in Hr as [= -> ->]. cbn [fst]. by eapply map_app_steps.
Qed.

Lemma user_alloc_steps lay st h o st' h' :
  k_cr3 st ∈ us → user_alloc lay (st, h) = Val (o, (st', h')) → rtc (app_step pmo us (k_cr3 st)) st st'.
Proof.
  intros Hact. unfold user_alloc. rewrite locked_alloc_law.
  destruct (heap_alloc lay h) as [[p h1]|]; [by intros [= <- <- <-]|].
  destruct (user_rescue lay (st, h)) as [[[] [st1 h1]]|] eqn:Hr; [|done].
  apply user_rescue_steps in Hr; [|done]. destruct (heap_alloc lay h1) as [[p h2]|]; by intros [= <- <- <-].
Qed.

Lemma app_res_Val q (s s' : Calls Heap) : user_functions.app_res s = Val (q, s') ↔ c_running s = Some q ∧ s' = s.
Proof.
  unfold user_functions.app_res. rewrite (M_bind_run (gets _) _ _ _ _ eq_refl), liftr_Val.
  unfold unwrap. destruct (c_running s); naive_solver.
Qed.

Lemma on_heap_Val {A} q (m : M (Kernel * Heap) A) (s : Calls Heap) a s' :
  user_functions.on_heap q m s = Val (a, s') ↔
  ∃ h k h', c_heaps s !! q = Some h ∧ m (c_kernel s, h) = Val (a, (k, h')) ∧
    s' = mkCalls k (c_console s) (<[q := h']> (c_heaps s)) (c_running s) (c_left s).
Proof.
  unfold user_functions.on_heap. split.
  - destruct (c_heaps s !! q) as [h|]; [|done].
    destruct (m (c_kernel s, h)) as [[a' [k h']]|] eqn:Hm; [|done]. intros [= <- <-]. by exists h, k, h'.
  - intros (h & k & h' & -> & -> & ->). done.
Qed.

Lemma app_steps_cr3 r st st' : rtc (app_step pmo us r) st st' → k_cr3 st = r → k_cr3 st' = r.
Proof. induction 1 as [|k1 k2 k3 (_ & _ & ?) _ IH]; [done|]. intros _. by apply IH. Qed.

(** Each function of the table. *)
Lemma print_confined ptr string len (s s' : Calls Heap) :
  fp_print FUNCTION_POINTERS string len s = Val ((), s') → confined (k_cr3 (c_kernel s)) ptr s s'.
Proof.
  intros Hr. cbn in Hr. unfold user_functions.print in Hr. apply zoom_Val in Hr as ([k c] & Hr & ->).
  apply print_kernel in Hr as ->. by split.
Qed.

Lemma abort_confined ptr exit_code (s s' : Calls Heap) :
  fp_abort FUNCTION_POINTERS exit_code s = Val ((), s') → confined (k_cr3 (c_kernel s)) ptr s s'.
Proof.
  intros Hr. cbn in Hr. unfold user_functions.abort in Hr. apply M_bind_Val in Hr as (q & s1 & [_ ->]%app_res_Val & Hr).
  apply modify_Val in Hr as ->. by split.
Qed.

Lemma own_heap_confined ptr (s : Calls Heap) k h' :
  c_running s = Some ptr → rtc (app_step pmo us (k_cr3 (c_kernel s))) (c_kernel s) k →
  confined (k_cr3 (c_kernel s)) ptr s
    (mkCalls k (c_console s) (<[ptr := h']> (c_heaps s)) (c_running s) (c_left s)).
Proof. intros Hrun Hs. split; cbn; [done| |done]. intros q Hne. by rewrite lookup_insert_ne. Qed.

(** *** The memory of a user heap *)

(** The memory of a user heap in the active space, and its bytes in use. *)
Definition user_mem : Kernel → Heap → list Z → list Z → Prop :=
  heap_mem (pmo:=pmo) v.USER_HEAP_START user_heap_flags.
Definition user_live : Heap → Z → Prop := live v.USER_HEAP_START.
Definition user_took : Kernel → Heap → Layout → Z → Kernel → Heap → Prop :=
  took_block (pmo:=pmo) v.USER_HEAP_START.
Definition user_keeps : Kernel → Heap → Kernel → Heap → Prop :=
  keeps_live (pmo:=pmo) v.USER_HEAP_START.

Lemma user_heap_base : (2 ^ 33 | v.USER_HEAP_START) ∧ 0 ≤ v.USER_HEAP_START < 2 ^ 46.
Proof. split; [by exists 1|by vm_compute]. Qed.

Definition heap_addr (a : Z) : Prop := v.USER_HEAP_START ≤ a < v.USER_HEAP_START + 2 ^ 38.

Lemma heap_addr_user a : heap_addr a → user_page (page_of a).
Proof.
  intros Ha. apply user_page_of. unfold heap_addr in Ha. change v.USER_HEAP_START with (2 ^ 33) in Ha.
  change v.USER_END with (2 ^ 39). lia.
Qed.

Lemma store_nodes_steps ns st st' :
  k_cr3 st ∈ us → nodes_in heap_addr ns → store_nodes ns st = Val ((), st') →
  rtc (app_step pmo us (k_cr3 st)) st st' ∧ k_cr3 st' = k_cr3 st.
Proof.
  revert st. induction ns as [|[a w] ns IH]; intros st Hact Hns Hr; unfold store_nodes in Hr; cbn [for_each] in Hr.
  - by apply mret_Val in Hr as [_ ->].
  - apply M_bind_Val in Hr as ([] & st1 & Hw & Hr).
    assert (rtc (app_step pmo us (k_cr3 st)) st st1) as Hs1.
    { eapply vwrite_app_steps; [done| |exact Hw]. rewrite length_to_le_bytes. intros x Hx. apply heap_addr_user.
      replace x with (a + (x - a)) by lia. apply (Hns a w); [left|lia]. }
    pose proof (app_steps_cr3 _ _ _ Hs1 eq_refl) as Hc1.
    destruct (IH st1) as [Hs2 Hc2]; [by rewrite Hc1| |done|].
    { intros b v i Hb. apply (Hns b v). by right. }
    rewrite Hc1 in *. split; [by etrans|done].
Qed.

Lemma call_nodes_in st h l lay h1 :
  user_mem st h (k0 :: us) l → stats_total_bytes h ≤ stats_total_bytes h1 → (4096 | stats_total_bytes h1) →
  nodes_in (λ a, v.USER_HEAP_START ≤ a < v.USER_HEAP_START + stats_total_bytes h1 ∧ ¬ user_live h a)
    (user_functions.call_nodes lay h h1).
Proof.
  intros Hm Hle Hd1. pose proof Hm as [_ Hready Hok Hfree _]. destruct user_heap_base as [Hb1 Hb2].
  assert ((4096 | stats_total_bytes h)) as Hd0 by by eapply ready_total.
  assert ((4096 | v.USER_HEAP_START)) as Hd by by exists (2 ^ 21).
  pose proof (total_nonneg h). unfold user_functions.call_nodes, user_live, live. case_match.
  - eapply nodes_in_weaken; [|by apply alloc_nodes_in]. intros a Ha. specialize (Hfree a Ha). naive_solver lia.
  - set (s := v.USER_HEAP_START + stats_total_bytes h). set (e := v.USER_HEAP_START + stats_total_bytes h1).
    assert (∀ a, heap_free h a ∨ s ≤ a < e → v.USER_HEAP_START ≤ a < v.USER_HEAP_START + stats_total_bytes h1 ∧
      ¬ (v.USER_HEAP_START ≤ a < v.USER_HEAP_START + stats_total_bytes h ∧ ¬ heap_free h a)) as Hin.
    { intros a [Ha|Ha]; [specialize (Hfree a Ha); naive_solver lia|]. unfold s, e in Ha. split; [lia|]. intros [? _]. lia. }
    apply nodes_in_app.
    + eapply nodes_in_weaken, add_nodes_in; [exact Hin|done|lia|by apply Z.divide_add_r..].
    + eapply nodes_in_weaken; [|apply alloc_nodes_in, ok_add; [done|]].
      * intros a Ha. apply Hin. by apply free_add.
      * intros a Ha Hf. specialize (Hfree a Hf). unfold s in Ha. lia.
Qed.

(** [inner.alloc]: a panic, a block, or null for a request that is over-aligned. *)
Lemma inner_alloc_mem st h l lay :
  k_cr3 st ∈ us → user_mem st h (k0 :: us) l → request_ok (stats_total_bytes h) lay →
  (user_functions.inner_alloc lay (st, h) = Fault Explicit ∧ ¬ frames_for (stats_total_bytes h) lay l) ∨
  ∃ o st' h' l', user_functions.inner_alloc lay (st, h) = Val (o, (st', h')) ∧
    user_mem st' h' (k0 :: us) l' ∧ user_keeps st h st' h' ∧ stats_total_bytes h' ≤ 2 ^ 38 ∧
    (o = None ↔ over_aligned (stats_total_bytes h) lay) ∧
    (∀ p, o = Some p → user_took st h lay p st' h') ∧
    rtc (app_step pmo us (k_cr3 st)) st st'.
Proof.
  intros Hact Hm Hrq. destruct user_heap_base as [Hb1 Hb2].
  assert (∀ o st1 h1 l1, user_alloc lay (st, h) = Val (o, (st1, h1)) → user_mem st1 h1 (k0 :: us) l1 →
    k_cr3 st1 = k_cr3 st → stats_total_bytes h ≤ stats_total_bytes h1 ≤ 2 ^ 38 → user_keeps st h st1 h1 →
    ∃ st2, user_functions.inner_alloc lay (st, h) = Val (o, (st2, h1)) ∧ user_mem st2 h1 (k0 :: us) l1 ∧
      user_keeps st h st2 h1 ∧ k_cr3 st2 = k_cr3 st ∧ rtc (app_step pmo us (k_cr3 st)) st st2) as Hstore.
  { intros o st1 h1 l1 Hr Hm1 Hc1 Ht Hkeep.
    pose proof (call_nodes_in st h l lay h1 Hm) as Hns.
    assert (nodes_in (λ a, v.USER_HEAP_START ≤ a < v.USER_HEAP_START + stats_total_bytes h1 ∧ ¬ user_live h a)
      (user_functions.call_nodes lay h h1)) as Hns'.
    { apply Hns; [lia|]. by eapply ready_total, Hm1. }
    clear Hns.
    destruct (nodes_mem map_ram_user v.USER_HEAP_START user_heap_flags (λ p Hp st, user_heap_op p st Hp)
      Hb1 Hb2 ltac:(done) st1 h1 (k0 :: us) l1 (user_functions.call_nodes lay h h1) Hm1) as (st2 & Hr2 & Hm2 & Hc2 & Hb).
    { eapply nodes_in_weaken, Hns'. by intros a [? _]. }
    destruct (store_nodes_steps (user_functions.call_nodes lay h h1) st1 st2) as [Hst _]; [by rewrite Hc1| |exact Hr2|].
    { eapply nodes_in_weaken, Hns'. intros a [? _]. unfold heap_addr. lia. }
    exists st2. split_and!; [|done| |congruence|].
    - unfold user_functions.inner_alloc. rewrite (M_bind_run (gets snd) _ _ h (st, h)) by done.
      rewrite (M_bind_run _ _ _ _ _ Hr). rewrite (M_bind_run (gets snd) _ _ h1 (st1, h1)) by done.
      by rewrite (M_bind_run _ _ _ () (st2, h1)) by (unfold KernelAlloc.on_kernel, zoom; cbn; by rewrite Hr2).
    - intros a Ha. destruct (Hkeep a Ha) as [Hl Hv]. split; [done|]. rewrite <-Hv. rewrite Hc1 in Hb.
      destruct (Hb a) as [Hn|He]; [apply Hl| |done]. exfalso. apply Hn.
      eapply nodes_in_weaken, Hns'. by intros x [_ Hx] ->.
    - etrans; [by eapply user_alloc_steps|]. by rewrite <-Hc1. }
  destruct (alloc_mem map_ram_user v.USER_HEAP_START user_heap_flags (λ p Hp st, user_heap_op p st Hp)
    Hb1 Hb2 ltac:(done) st h (k0 :: us) l lay Hm Hrq)
    as [[Hf Hn]|[(p & st1 & h1 & l1 & Hr & Hm1 & [Hal Hblk Hlive Hc Ht] & _ & [_ Hlim] & Hov)|
       (st1 & h1 & l1 & Hr & Hm1 & Hc & Hkeep & Ht & Hov)]]; [left|right..].
  - split; [|done]. unfold user_functions.inner_alloc. rewrite (M_bind_run (gets snd) _ _ h (st, h)) by done.
    by apply M_bind_fault.
  - destruct (Hstore _ _ _ _ Hr Hm1 Hc) as (st2 & Hr2 & Hm2 & Hk2 & Hc2 & Hs2); [lia|exact Hlive|].
    exists (Some p), st2, h1, l1. split_and!; [done..|by split| |done]. intros q [= <-]. by split.
  - destruct (Hstore _ _ _ _ Hr Hm1 Hc) as (st2 & Hr2 & Hm2 & Hk2 & Hc2 & Hs2); [lia|done|].
    exists None, st2, h1, l1. split_and!; [done|done|done|lia|done|done|done].
Qed.

(** [inner.dealloc] of a block in use: the node is stored in the block. *)
Lemma inner_dealloc_mem st h l p lay :
  k_cr3 st ∈ us → user_mem st h (k0 :: us) l → stats_total_bytes h ≤ 2 ^ 38 →
  (∀ a, p ≤ a < p + block_size lay → user_live h a) →
  ∃ st', user_functions.inner_dealloc p lay (st, h) = Val ((), (st', heap_dealloc p lay h)) ∧
    user_mem st' (heap_dealloc p lay h) (k0 :: us) l ∧
    (∀ a, ¬ (p ≤ a < p + block_size lay) → user_live h a → user_live (heap_dealloc p lay h) a ∧
      vbyte pmo st' (k_cr3 st) a = vbyte pmo st (k_cr3 st) a) ∧
    rtc (app_step pmo us (k_cr3 st)) st st'.
Proof.
  intros Hact Hm Hlim Hl. destruct user_heap_base as [Hb1 Hb2].
  assert (nodes_in (λ a, (v.USER_HEAP_START ≤ a < v.USER_HEAP_START + stats_total_bytes h) ∧
    (p ≤ a < p + block_size lay ∨ ¬ user_live h a)) (dealloc_nodes p lay h)) as Hns.
  { eapply nodes_in_weaken; [|apply dealloc_nodes_in; [apply Hm|intros a Ha; by apply Hl]].
    intros a [Hf|Ha]; [|split; [by apply Hl|by left]].
    split; [by apply (hm_free _ _ _ _ _ _ Hm)|right]. by intros [_ ?]. }
  destruct (nodes_mem map_ram_user v.USER_HEAP_START user_heap_flags (λ p Hp st, user_heap_op p st Hp)
    Hb1 Hb2 ltac:(done) st h (k0 :: us) l (dealloc_nodes p lay h) Hm) as (st' & Hr & Hm' & Hc & Hb).
  { eapply nodes_in_weaken, Hns. by intros a [? _]. }
  destruct (dealloc_mem map_ram_user v.USER_HEAP_START user_heap_flags (λ p Hp st, user_heap_op p st Hp)
    Hb1 Hb2 ltac:(done) st' h (k0 :: us) l lay p Hm' Hl) as [Hm2 Hl2].
  destruct (store_nodes_steps (dealloc_nodes p lay h) st st') as [Hst _]; [done| |done|].
  { eapply nodes_in_weaken, Hns. intros a [? _]. unfold heap_addr. lia. }
  exists st'. split_and!; [|done| |done].
  - unfold user_functions.inner_dealloc. rewrite (M_bind_run (gets snd) _ _ h (st, h)) by done.
    by rewrite (M_bind_run _ _ _ () (st', h)) by (unfold KernelAlloc.on_kernel, zoom; cbn; by rewrite Hr).
  - intros a Hn Ha. split; [by apply Hl2|]. destruct (Hb a) as [Hin|]; [apply Ha| |done].
    exfalso. apply Hin. eapply nodes_in_weaken, Hns. intros x [_ [Hx|Hx]] ->; [by apply Hn|by apply Hx].
Qed.

(** The free frames are determined by the memory. *)
Lemma free_list_unique st r1 r2 l1 l2 : kinv pmo st r1 l1 → kinv pmo st r2 l2 → l1 = l2.
Proof.
  intros Hk1 Hk2. pose proof (ki_fa _ _ _ _ Hk1) as F1. pose proof (ki_fa _ _ _ _ Hk2) as F2.
  eapply node_list_unique; [apply F1|apply F2].
Qed.

(** A write of the application to a page of its own. *)
Lemma write_mem st h l a b st' :
  user_inv pmo k0 pool st us l → k_cr3 st ∈ us → user_mem st h (k0 :: us) l →
  stats_total_bytes h ≤ 2 ^ 38 → user_page (page_of a) → vwrite a b st = Val ((), st') →
  user_mem st' h (k0 :: us) l.
Proof.
  intros Hi Hact Hm Hlim Ha Hr. destruct user_heap_base as [Hb1 Hb2].
  set (P := λ p, user_page p ∧ ∃ f fl, space pmo st (k_cr3 st) p = Some (f, fl) ∧ Z.testbit fl 1 = true).
  assert (mem_pages (pmo:=pmo) P st (k0 :: us) l) as HP.
  { split.
    - by intros p [_ ?].
    - intros p f fl [Hp _] Hs. by destruct (ui_leaf _ _ _ _ _ _ Hi _ _ _ _ Hact Hp Hs) as (_ & ? & ?).
    - intros p q f fl fl' [Hp _] [Hq _] Hsp Hsq.
      by destruct (ui_inj _ _ _ _ _ _ Hi _ _ _ _ _ _ _ Hact Hact Hp Hq Hsp Hsq). }
  assert (P (page_of a)) as HPa.
  { split; [done|]. unfold vwrite in Hr. rewrite physical_memory_offset_val in Hr.
    destruct (space pmo st (k_cr3 st) (page_of a)) as [[f fl]|]; [|done].
    destruct (Z.testbit fl 1) eqn:Hw; [|done]. by exists f, fl. }
  destruct (vput_effect P st (k0 :: us) l a (Some b) ltac:(apply Hm) HP HPa) as (st2 & Hr2 & Hs).
  assert (st2 = st') as ->.
  { change (vput a (Some b) st = Val ((), st')) in Hr. congruence. }
  destruct (stored_mem map_ram_user v.USER_HEAP_START user_heap_flags (λ p Hp st, user_heap_op p st Hp)
    Hb1 Hb2 ltac:(done) P st h (k0 :: us) l a 1 (λ _, Some b) st') as (Hm' & _); [|done|done|done].
  intros p Hp. split; [|by apply (mp_page _ _ _ _ (hm_pages _ _ _ _ _ _ Hm))].
  destruct Hp as [Hd Hp]. rewrite <-(page_of_aligned p Hd). apply heap_addr_user. unfold heap_addr. lia.
Qed.

(** *** Calls on the own heap *)

(** What Rust promises of a layout. *)
Definition layout_valid (lay : Layout) : Prop := is_pow2 (align lay) ∧ size lay ≤ 2 ^ 63 - align lay.

Lemma from_valid lay :
  layout_valid lay → user_functions.from_size_align_unchecked (size lay) (align lay) = Val lay.
Proof.
  intros [Hp Hs]. pose proof (is_pow2_pos _ Hp). destruct Hp as (k & Hk & Ha).
  unfold user_functions.from_size_align_unchecked.
  rewrite (proj2 (Z.ltb_lt _ _)), (proj2 (Z.leb_le _ _)) by lia.
  rewrite Ha, Z.log2_pow2, Z.eqb_refl by done. rewrite <-Ha. by destruct lay.
Qed.

(** The result of a call on the heap of the running application. *)
Definition own_result {A} (ptr : Z) (s : Calls Heap) (r : res (A * (Kernel * Heap))) : res (A * Calls Heap) :=
  match r with
  | Val (a, (k, h')) => Val (a, mkCalls k (c_console s) (<[ptr := h']> (c_heaps s)) (c_running s) (c_left s))
  | Fault f => Fault f
  end.

Lemma own_heap {A} ptr h (m : M (Kernel * Heap) A) (s : Calls Heap) :
  c_running s = Some ptr → c_heaps s !! ptr = Some h →
  (user_functions.app_res ≫= λ res, user_functions.on_heap res m) s = own_result ptr s (m (c_kernel s, h)).
Proof.
  intros Hr Hh. rewrite (M_bind_run _ _ _ ptr s) by by apply app_res_Val.
  unfold user_functions.on_heap. by rewrite Hh.
Qed.

Lemma alloc_call ptr h (s : Calls Heap) lay :
  c_running s = Some ptr → c_heaps s !! ptr = Some h → layout_valid lay →
  fp_alloc FUNCTION_POINTERS (size lay) (align lay) s =
    own_result ptr s (user_functions.inner_alloc lay (c_kernel s, h)).
Proof.
  intros Hr Hh Hv. cbn. unfold user_functions.alloc. rewrite from_valid by done.
  rewrite (M_bind_run (liftr _) _ _ lay s) by done. by apply own_heap.
Qed.

Lemma dealloc_call ptr h (s : Calls Heap) p lay :
  c_running s = Some ptr → c_heaps s !! ptr = Some h → layout_valid lay →
  fp_dealloc FUNCTION_POINTERS p (size lay) (align lay) s =
    own_result ptr s (user_functions.inner_dealloc p lay (c_kernel s, h)).
Proof.
  intros Hr Hh Hv. cbn. unfold user_functions.dealloc. rewrite from_valid by done.
  rewrite (M_bind_run (liftr _) _ _ lay s) by done. by apply own_heap.
Qed.

(** [dealloc] writes at the pointer it is given, whatever that is: a pointer
    without a page faults, in the kernel's code. *)
Lemma dealloc_writes_pointer ptr h (s : Calls Heap) p lay :
  c_running s = Some ptr → c_heaps s !! ptr = Some h → layout_valid lay →
  space pmo (c_kernel s) (k_cr3 (c_kernel s)) (page_of p) = None →
  fp_dealloc FUNCTION_POINTERS p (size lay) (align lay) s = Fault PageFault.
Proof.
  intros Hr Hh Hv Hs. rewrite (dealloc_call ptr h) by done. unfold user_functions.inner_dealloc.
  rewrite (M_bind_run (gets snd) _ _ h (c_kernel s, h)) by done.
  destruct (dealloc_node_first p lay h) as (w & ns & ->).
  rewrite (M_bind_fault _ _ _ PageFault); [done|]. unfold KernelAlloc.on_kernel, zoom. cbn [fst].
  unfold store_nodes. cbn [for_each]. rewrite (M_bind_fault (vwrite64 p w) _ _ PageFault); [done|].
  unfold vwrite64. apply M_bind_fault. unfold vwrite. by rewrite physical_memory_offset_val, Hs.
Qed.

(** *** What an application does *)

(** The blocks an application was given and has not given back, by their
    pointers: they are in use in its heap, and apart. *)
Record owned (given : gmap Z Layout) (h : Heap) : Prop := {
  ow_limit : stats_total_bytes h ≤ 2 ^ 38;
  ow_valid p lay : given !! p = Some lay → layout_valid lay;
  ow_live p lay a : given !! p = Some lay → p ≤ a < p + block_size lay → user_live h a;
  ow_apart p q lay lay' a : given !! p = Some lay → given !! q = Some lay' → p ≠ q →
    p ≤ a < p + block_size lay → ¬ (q ≤ a < q + block_size lay') }.

(** Requests up to 8 GiB, with which a heap of up to 128 GiB grows. *)
Definition moderate (lay : Layout) (s : Calls Heap) : Prop :=
  layout_valid lay ∧ 1 ≤ size lay ≤ 2 ^ 33 ∧ align lay ≤ 2 ^ 33 ∧
  ∀ q h, c_running s = Some q → c_heaps s !! q = Some h → stats_total_bytes h ≤ 2 ^ 37.

(** A memory-safe program writes to pages of its space, in the range of its
    heap only to the blocks it was given. *)
Definition may_write (given : gmap Z Layout) (a : Z) : Prop :=
  user_page (page_of a) ∧
  (heap_addr a → ∃ p lay, given !! p = Some lay ∧ p ≤ a < p + size lay).

(** What it does between its start and its end, until it has called [abort]: it
    writes, and calls the functions it was given, [dealloc] with the blocks it
    was given, the others with any arguments. *)
Inductive app_action : gmap Z Layout * Calls Heap → gmap Z Layout * Calls Heap → Prop :=
  | act_write given s a b k :
      c_left s = None → may_write given a → vwrite a b (c_kernel s) = Val ((), k) →
      app_action (given, s) (given, mkCalls k (c_console s) (c_heaps s) (c_running s) (c_left s))
  | act_print given s string len s' :
      c_left s = None → fp_print FUNCTION_POINTERS string len s = Val ((), s') →
      app_action (given, s) (given, s')
  | act_alloc given s lay o s' :
      c_left s = None → moderate lay s → fp_alloc FUNCTION_POINTERS (size lay) (align lay) s = Val (o, s') →
      app_action (given, s) (match o with Some p => <[p := lay]> given | None => given end, s')
  | act_dealloc given s p lay s' :
      c_left s = None → given !! p = Some lay →
      fp_dealloc FUNCTION_POINTERS p (size lay) (align lay) s = Val ((), s') →
      app_action (given, s) (delete p given, s')
  | act_abort given s exit_code s' :
      c_left s = None → fp_abort FUNCTION_POINTERS exit_code s = Val ((), s') →
      app_action (given, s) (given, s').

(** The application with the resources [ptr] is running, in a heap that is in
    order. *)
Record app_ok (ptr : Z) (given : gmap Z Layout) (s : Calls Heap) : Prop := {
  ao_active : k_cr3 (c_kernel s) ∈ us;
  ao_running : c_running s = Some ptr;
  ao_heap : ∃ h l, c_heaps s !! ptr = Some h ∧ user_inv pmo k0 pool (c_kernel s) us l ∧
    user_mem (c_kernel s) h (k0 :: us) l ∧ owned given h }.

Lemma owned_alloc given st h lay p st' h' :
  owned given h → layout_valid lay → user_took st h lay p st' h' → stats_total_bytes h' ≤ 2 ^ 38 →
  owned (<[p := lay]> given) h'.
Proof.
  intros [Hlim Hval Hlive Hap] Hv [_ Hblk Hkeep _ _] Hlim'. split.
  - done.
  - intros q lay' [[-> ->]|[? ?]]%lookup_insert_Some; [done|by eapply Hval].
  - intros q lay' a [[-> ->]|[? ?]]%lookup_insert_Some Ha; [by apply Hblk|]. by apply Hkeep, (Hlive q lay').
  - intros q q' lay1 lay2 a Hq Hq' Hne Ha Ha'.
    apply lookup_insert_Some in Hq as [[-> ->]|[? Hq]]; apply lookup_insert_Some in Hq' as [[-> ->]|[? Hq']].
    + done.
    + by apply (Hblk a Ha), (Hlive q' lay2).
    + by apply (Hblk a Ha'), (Hlive q lay1).
    + by apply (Hap q q' lay1 lay2 a).
Qed.

Lemma owned_dealloc given h p lay :
  owned given h → given !! p = Some lay →
  (∀ a, ¬ (p ≤ a < p + block_size lay) → user_live h a → user_live (heap_dealloc p lay h) a) →
  owned (delete p given) (heap_dealloc p lay h).
Proof.
  intros [Hlim Hval Hlive Hap] Hp Hl. split.
  - by rewrite dealloc_total.
  - intros q lay' [_ ?]%lookup_delete_Some. by eapply Hval.
  - intros q lay' a [Hne Hq]%lookup_delete_Some Ha. apply Hl; [by apply (Hap q p lay' lay)|by apply (Hlive q lay')].
  - intros q q' lay1 lay2 a [_ Hq]%lookup_delete_Some [_ Hq']%lookup_delete_Some. by apply (Hap q q' lay1 lay2).
Qed.

Lemma owned_keep given st h st' h' :
  owned given h → user_keeps st h st' h' → stats_total_bytes h' ≤ 2 ^ 38 → owned given h'.
Proof. intros [Hlim Hval Hlive Hap] Hk Hle. split; try done. intros p lay a Hp Ha. by apply Hk, (Hlive p lay). Qed.

(** A state after steps of the running space, with its heap in order again. *)
Lemma app_ok_after ptr given' (s s' : Calls Heap) h' l l2 :
  user_inv pmo k0 pool (c_kernel s) us l → k_cr3 (c_kernel s) ∈ us → c_running s = Some ptr →
  confined (k_cr3 (c_kernel s)) ptr s s' → c_heaps s' !! ptr = Some h' →
  user_mem (c_kernel s') h' (k0 :: us) l2 → owned given' h' →
  app_ok ptr given' s' ∧ k_cr3 (c_kernel s') = k_cr3 (c_kernel s).
Proof.
  intros Hi Hact Hrun [Hs _ Hr] Hh Hm Ho.
  destruct (app_steps_effect k0 pool us _ _ _ l Hi Hs) as (_ & [l' Hi'] & Hc & _).
  specialize (Hc eq_refl). split; [|done]. split; [by rewrite Hc|by rewrite Hr|].
  assert (l' = l2) as -> by (eapply free_list_unique; [apply Hi'|apply Hm]). by exists h', l2.
Qed.

Lemma action_ok ptr given s given' s' :
  app_ok ptr given s → app_action (given, s) (given', s') →
  app_ok ptr given' s' ∧ k_cr3 (c_kernel s') = k_cr3 (c_kernel s) ∧ confined (k_cr3 (c_kernel s)) ptr s s'.
Proof.
  intros [Hact Hrun (h & l & Hh & Hi & Hm & Ho)] Hstep.
  cut (confined (k_cr3 (c_kernel s)) ptr s s' ∧ ∃ h' l2, c_heaps s' !! ptr = Some h' ∧
    user_mem (c_kernel s') h' (k0 :: us) l2 ∧ owned given' h').
  { intros [Hc (h' & l2 & Hh' & Hm' & Ho')]. destruct (app_ok_after ptr given' s s' h' l l2) as [? ?]; done. }
  inversion Hstep as [? ? a b k _ [Ha _] Hw|? ? string len ? _ Hr|? ? lay o ? _ (Hv & Hsz & Hal & Hlim) Hr|
    ? ? p lay ? _ Hp Hr|? ? e ? _ Hr]; simplify_eq.
  - split.
    + split; [|done|done]. cbn. eapply (vwrite_app_steps us [b] a); [done| |].
      * intros x Hx. cbn in Hx. by assert (x = a) as -> by lia.
      * cbn. by rewrite (M_bind_run _ _ _ _ _ Hw).
    + exists h, l. split_and!; [done| |done]. eapply write_mem; try done. apply Ho.
  - split; [by eapply print_confined|]. cbn in Hr. unfold user_functions.print in Hr.
    apply zoom_Val in Hr as ([k c] & Hr & ->). apply print_kernel in Hr as ->. by exists h, l.
  - rewrite (alloc_call ptr h) in Hr by done.
    assert (request_ok (stats_total_bytes h) lay) as Hrq.
    { split; [apply (hm_ready _ _ _ _ _ _ Hm)|by eapply Hlim|done|]. split; [apply Hv|done]. }
    destruct (inner_alloc_mem _ _ _ _ Hact Hm Hrq)
      as [[Hf _]|(o' & k & h' & l' & Hr' & Hm' & Hkeep & Hle & _ & Htook & Hst)]; [by rewrite Hf in Hr|].
    rewrite Hr' in Hr. injection Hr as <- <-. split.
    + by apply own_heap_confined.
    + exists h', l'. cbn. rewrite lookup_insert_eq. split_and!; [done|done|].
      destruct o' as [p|]; [|by eapply owned_keep]. eapply owned_alloc; [done|done|by apply Htook|done].
  - rewrite (dealloc_call ptr h) in Hr by (done || by eapply ow_valid).
    destruct (inner_dealloc_mem _ _ _ p lay Hact Hm) as (k & Hr' & Hm' & Hl' & Hst);
      [apply Ho|intros a Ha; by eapply (ow_live _ _ Ho p)|].
    rewrite Hr' in Hr. injection Hr as <-. split.
    + by apply own_heap_confined.
    + exists (heap_dealloc p lay h), l. cbn. rewrite lookup_insert_eq. split_and!; [done|done|].
      apply owned_dealloc; [done|done|]. intros a Hn Ha. by apply Hl'.
  - split; [by eapply abort_confined|]. cbn in Hr. unfold user_functions.abort in Hr.
    apply M_bind_Val in Hr as (q & s1 & [_ ->]%app_res_Val & Hr). apply modify_Val in Hr as ->. by exists h, l.
Qed.

(** C8 (safety). A memory-safe application, one that writes to its own pages and, in
    the range of its heap, only to the blocks it was given, gives back only such
    blocks and asks for at most 8 GiB at once, does not leave its space whatever
    it does with the four functions of the kernel: the pages of every other
    application and their contents stay, and so do the heaps of the others; the
    invariant of the memory holds after it, and the space and the run record of
    the core are those it was started with.  Its heap stays in order although
    the free lists lie in its memory: the blocks it has are in use and do not
    overlap, and each can be given back without a fault. *)
Theorem application_confined ptr h given s given' s' l :
  user_inv pmo k0 pool (c_kernel s) us l → k_cr3 (c_kernel s) ∈ us → c_running s = Some ptr →
  c_heaps s !! ptr = Some h → user_mem (c_kernel s) h (k0 :: us) l → owned given h →
  rtc app_action (given, s) (given', s') →
  rtc (app_step pmo us (k_cr3 (c_kernel s))) (c_kernel s) (c_kernel s') ∧
  (∃ l' h', user_inv pmo k0 pool (c_kernel s') us l' ∧ c_heaps s' !! ptr = Some h' ∧
    user_mem (c_kernel s') h' (k0 :: us) l' ∧ owned given' h') ∧
  k_cr3 (c_kernel s') = k_cr3 (c_kernel s) ∧ c_running s' = Some ptr ∧
  (∀ q, q ≠ ptr → c_heaps s' !! q = c_heaps s !! q) ∧
  (∀ p lay, given' !! p = Some lay →
    ∃ s'', fp_dealloc FUNCTION_POINTERS p (size lay) (align lay) s' = Val ((), s'')) ∧
  ∀ x a, x ∈ us → x ≠ k_cr3 (c_kernel s) → user_page (page_of a) →
    space pmo (c_kernel s') x (page_of a) = space pmo (c_kernel s) x (page_of a) ∧
    vbyte pmo (c_kernel s') x a = vbyte pmo (c_kernel s) x a.
Proof.
  intros Hi Hact Hrun Hh Hm Ho Hsteps.
  assert (app_ok ptr given s) as Hok by (split; [done..|by exists h, l]).
  assert (app_ok ptr given' s' ∧ confined (k_cr3 (c_kernel s)) ptr s s' ∧ k_cr3 (c_kernel s') = k_cr3 (c_kernel s))
    as ([Hact' Hrun' (h' & l' & Hh' & Hi' & Hm' & Ho')] & [Hs Hhs Hr] & Hc).
  { clear Hi Hact Hrun Hh Hm Ho. remember (given, s) as x0 eqn:E0. remember (given', s') as x1 eqn:E1.
    revert given s E0 Hok E1. induction Hsteps as [x|x [g2 s2] x3 Hstep _ IH]; intros g s1 -> Hok E1; [by simplify_eq|].
    destruct (action_ok ptr g s1 g2 s2 Hok Hstep) as (Hok2 & Hc2 & Hcf2).
    destruct (IH g2 s2 eq_refl Hok2 E1) as (Hok3 & Hcf3 & Hc3). rewrite Hc2 in Hcf3, Hc3.
    split_and!; [done|by eapply confined_trans|done]. }
  destruct (app_steps_effect k0 pool us _ _ _ l Hi Hs) as (_ & _ & _ & Hothers).
  split_and!; [done|by exists l', h'|done|done|done| |done].
  intros p lay Hp. destruct (inner_dealloc_mem _ _ _ p lay Hact' Hm') as (k & Hr' & _);
    [apply Ho'|intros a Ha; by eapply (ow_live _ _ Ho' p)|].
  rewrite (dealloc_call ptr h') by (done || by eapply ow_valid). rewrite Hr'. by eexists.
Qed.

(** ** The allocator of an application *)

(** The call, on the heap of the running application. *)
Lemma app_alloc_effect ptr h (s : Calls Heap) l2 lay :
  k_cr3 (c_kernel s) ∈ us → c_running s = Some ptr → c_heaps s !! ptr = Some h →
  user_mem (c_kernel s) h (k0 :: us) l2 → layout_valid lay → request_ok (stats_total_bytes h) lay →
  (Allocator_alloc (Some FUNCTION_POINTERS) lay s = Fault Explicit ∧
    ¬ frames_for (stats_total_bytes h) lay l2) ∨
  ∃ o k' h' l2', let s' := mkCalls k' (c_console s) (<[ptr := h']> (c_heaps s)) (c_running s) (c_left s) in
    Allocator_alloc (Some FUNCTION_POINTERS) lay s = Val (o, s') ∧
    user_mem k' h' (k0 :: us) l2' ∧ user_keeps (c_kernel s) h k' h' ∧ stats_total_bytes h' ≤ 2 ^ 38 ∧
    (o = None ↔ over_aligned (stats_total_bytes h) lay) ∧
    (∀ p, o = Some p → user_took (c_kernel s) h lay p k' h') ∧
    rtc (app_step pmo us (k_cr3 (c_kernel s))) (c_kernel s) k'.
Proof.
  intros Hact Hrun Hh Hm Hv Hrq.
  assert (Allocator_alloc (Some FUNCTION_POINTERS) lay s =
    own_result ptr s (user_functions.inner_alloc lay (c_kernel s, h))) as Heq.
  { unfold Allocator_alloc. rewrite (M_bind_run _ _ _ FUNCTION_POINTERS s) by done. by apply alloc_call. }
  rewrite Heq. destruct (inner_alloc_mem _ _ _ lay Hact Hm Hrq)
    as [[Hf Hn]|(o & k' & h' & l' & Hr & ? & ? & ? & ? & ? & ?)]; [left; by rewrite Hf|right].
  exists o, k', h', l'. rewrite Hr. by split_and!.
Qed.

(** C25 (functional). The allocator of the running application has three outcomes.  The
    kernel panics, and only when the growth of the heap does not find its
    frames; or the application gets an aligned block in its own space that no
    live block of it overlaps; or it gets null, exactly for a request that is
    over-aligned: the first of the application, with an alignment above a page
    and at least four times the size.  In the last two cases what it has keeps
    its contents, and the other applications keep their heaps, their pages and
    the contents of their pages, and no page of theirs shows a page of its
    space. *)
Theorem app_alloc_spec ptr h (s : Calls Heap) l l2 lay :
  user_inv pmo k0 pool (c_kernel s) us l → k_cr3 (c_kernel s) ∈ us →
  c_running s = Some ptr → c_heaps s !! ptr = Some h → user_mem (c_kernel s) h (k0 :: us) l2 →
  layout_valid lay → request_ok (stats_total_bytes h) lay →
  (Allocator_alloc (Some FUNCTION_POINTERS) lay s = Fault Explicit ∧
    ¬ frames_for (stats_total_bytes h) lay l2) ∨
  ∃ o s' h' l' l2', Allocator_alloc (Some FUNCTION_POINTERS) lay s = Val (o, s') ∧
    user_inv pmo k0 pool (c_kernel s') us l' ∧ user_mem (c_kernel s') h' (k0 :: us) l2' ∧
    (o = None ↔ over_aligned (stats_total_bytes h) lay) ∧
    (∀ p, o = Some p → user_took (c_kernel s) h lay p (c_kernel s') h') ∧
    user_keeps (c_kernel s) h (c_kernel s') h' ∧
    c_running s' = Some ptr ∧ c_heaps s' = <[ptr := h']> (c_heaps s) ∧
    ∀ x a, x ∈ us → x ≠ k_cr3 (c_kernel s) → user_page (page_of a) →
      space pmo (c_kernel s') x (page_of a) = space pmo (c_kernel s) x (page_of a) ∧
      vbyte pmo (c_kernel s') x a = vbyte pmo (c_kernel s) x a ∧
      ∀ b f fl fl', user_page (page_of b) →
        space pmo (c_kernel s') (k_cr3 (c_kernel s)) (page_of b) = Some (f, fl) →
        space pmo (c_kernel s') x (page_of a) ≠ Some (f, fl').
Proof.
  intros Hi Hact Hrun Hh Hm Hv Hrq.
  destruct (app_alloc_effect ptr h s l2 lay)
    as [Hf|(o & k' & h' & l2' & Heq & Hm' & Hk & _ & Ho & Ht & Hst)]; [done..|by left|right].
  destruct (app_steps_effect k0 pool us _ _ _ l Hi Hst) as (_ & [l' Hi'] & Hc & Hothers).
  eexists o, _, h', l', l2'. split_and!; [exact Heq|done|done|done|done|done|done|done|].
  intros x a Hx Hne Hp. destruct (Hothers x a Hx Hne Hp) as [Hs Hb]. split_and!; [done|done|].
  intros b f fl fl' Hpb Hsb Hsx. apply Hne. symmetry.
  by destruct (ui_inj _ _ _ _ _ _ Hi' _ _ _ _ _ _ _ Hact Hx Hpb Hp Hsb Hsx).
Qed.

(** Giving back a block in use: the crate's words go to that block and to free
    memory, and the other blocks stay in use with their contents. *)
Theorem app_dealloc_spec ptr h (s : Calls Heap) l2 lay p :
  k_cr3 (c_kernel s) ∈ us → c_running s = Some ptr → c_heaps s !! ptr = Some h →
  user_mem (c_kernel s) h (k0 :: us) l2 → stats_total_bytes h ≤ 2 ^ 38 →
  layout_valid lay → (∀ a, p ≤ a < p + block_size lay → user_live h a) →
  ∃ k' h', Allocator_dealloc (Some FUNCTION_POINTERS) p lay s =
      Val ((), mkCalls k' (c_console s) (<[ptr := h']> (c_heaps s)) (c_running s) (c_left s)) ∧
    user_mem k' h' (k0 :: us) l2 ∧
    ∀ a, ¬ (p ≤ a < p + block_size lay) → user_live h a → user_live h' a ∧
      vbyte pmo k' (k_cr3 (c_kernel s)) a = vbyte pmo (c_kernel s) (k_cr3 (c_kernel s)) a.
Proof.
  intros Hact Hrun Hh Hm Hlim Hv Hl.
  destruct (inner_dealloc_mem _ _ _ p lay Hact Hm Hlim Hl) as (k' & Hr & Hm' & Hl' & _).
  exists k', (heap_dealloc p lay h). split_and!; [|done|done].
  unfold Allocator_dealloc. rewrite (M_bind_run _ _ _ FUNCTION_POINTERS s) by done.
  cbn [fp_dealloc FUNCTION_POINTERS]. change user_functions.dealloc with (fp_dealloc FUNCTION_POINTERS).
  rewrite (dealloc_call ptr h) by done. by rewrite Hr.
Qed.

(** Before the entry point has set the table, every call is undefined; outside
    of a run the kernel's functions panic. *)
Theorem calls_outside_run lay p string len exit_code (s : Calls Heap) :
  Allocator_alloc None lay s = Fault Undefined ∧ Allocator_dealloc None p lay s = Fault Undefined ∧
  user_print None string len s = Fault Undefined ∧ user_abort None exit_code s = Fault Undefined ∧
  (c_running s = None → layout_valid lay →
    Allocator_alloc (Some FUNCTION_POINTERS) lay s = Fault Unwrap ∧
    Allocator_dealloc (Some FUNCTION_POINTERS) p lay s = Fault Unwrap ∧
    user_abort (Some FUNCTION_POINTERS) exit_code s = Fault Unwrap).
Proof.
  split_and!; try done. intros Hn Hv.
  assert (∀ A (k : Z → M (Calls Heap) A), (user_functions.app_res ≫= k) s = Fault Unwrap) as Hu.
  { intros A k. apply M_bind_fault. unfold user_functions.app_res.
    rewrite (M_bind_run (gets _) _ _ _ _ eq_refl). by rewrite Hn. }
  unfold Allocator_alloc, Allocator_dealloc, user_abort, get_unchecked.
  do 3 rewrite (M_bind_run (liftr _) _ _ FUNCTION_POINTERS s) by done.
  cbn [fp_alloc fp_dealloc fp_abort FUNCTION_POINTERS]. unfold user_functions.alloc, user_functions.dealloc.
  rewrite from_valid by done. do 2 rewrite (M_bind_run (liftr _) _ _ lay s) by done.
  split_and!; apply Hu.
Qed.
End Confined.
