(* ===== verification/UserCallsDemo.v ===== *)
(** * The calls of an application, on a concrete machine

    The first application of [IsolationDemo] runs; its resources are at 0x100,
    those of the second application at 0x200. *)

From S2P Require Import Prelude Constants Platform FrameAlloc Paging Memory AddressSpace Isolation IsolationDemo MapPages UserMem Heap HeapDemo RawMem KernelAlloc KernelAllocDemo Terminal TermDemo Console ConsoleDemo UserPrint UserSwitch UserCalls.

#[local] Existing Instance dev_profile.
Import RefX86 RefBoot RefMapper.

Definition demo_calls : Calls RefHeap :=
  mkCalls st3 demo_console {[ 0x100 := empty; 0x200 := empty ]} (Some 0x100) None.

Lemma st3_user_inv : ∃ l, user_inv pmo 0x1000 free st3 us l.
Proof. exact (reachable_user_inv 0x1000 free st0 free st3 us st0_inv eq_refl eq_refl mem_run3). Qed.

Lemma st3_user_mem l : user_inv pmo 0x1000 free st3 us l → user_mem (pmo:=pmo) st3 empty (0x1000 :: us) l.
Proof.
  intros Hi. pose proof (ui_kinv _ _ _ _ _ _ Hi) as Hk.
  assert (∀ p, ¬ heap_page v.USER_HEAP_START (stats_total_bytes empty) p) as Hn.
  { intros p [_ Hp]. change (stats_total_bytes empty) with 0 in Hp. lia. }
  split; [done| |done| |].
  - split; [by left| |].
    + intros p Hd Hp. exfalso. by apply (Hn p).
    + intros p _ Hp. change (stats_total_bytes empty) with 0 in Hp.
      change v.USER_HEAP_START with (2 ^ 33) in Hp. split.
      * apply mappable_user. unfold user_page. change v.USER_START with 0. change v.USER_END with (2 ^ 39). lia.
      * destruct (kinv_slot _ _ _ _ (k_cr3 st3) p Hk) as (e & He & _ & ->); [right; exact st3_active|].
        assert (l4_slot p = 0%nat) as Hs.
        { unfold l4_slot. pose proof (l4_index_between 0 1 p ltac:(lia) ltac:(lia) ltac:(lia)). lia. }
        rewrite Hs in He. change (entry_at pmo (k_dm st3) (k_cr3 st3) 0) with (Some entry_empty) in He || idtac.
        assert (match entry_at pmo (k_dm st3) (k_cr3 st3) 0 with Some e0 => is_unused e0 | None => false end = true)
          as Hu by by vm_compute.
        rewrite He in Hu. unfold leaves_of. by rewrite Hu.
  - by intros a (r & Hr%elem_of_nil & _).
  - split; intros p ** ; by destruct (Hn p).
Qed.

Lemma demo_layout_valid : layout_valid (mkLayout 24 8).
Proof. split; [by exists 3|by vm_compute]. Qed.

Lemma demo_request lay k : 1 ≤ size lay ≤ 2 ^ 33 → 0 ≤ k ≤ 33 → align lay = 2 ^ k →
  request_ok (stats_total_bytes empty) lay.
Proof. by apply small_request_ok. Qed.

Lemma demo_over_layout : layout_valid (mkLayout 8 8192).
Proof. split; [by exists 13|by vm_compute]. Qed.

Lemma demo_over_aligned : over_aligned (stats_total_bytes empty) (mkLayout 8 8192).
Proof. by vm_compute. Qed.

(** 24 bytes are served; 8 bytes aligned to 8 KiB, as the first request, are not. *)
Lemma app_alloc_spec_witness :
  (∃ p s', Allocator_alloc (Some FUNCTION_POINTERS) (mkLayout 24 8) demo_calls = Val (Some p, s') ∧ (8 | p) ∧
    c_heaps s' !! 0x200 = Some empty ∧
    ∀ a, user_page (page_of a) → space pmo (c_kernel s') 0x11000 (page_of a) = space pmo st3 0x11000 (page_of a)) ∧
  ∃ s', Allocator_alloc (Some FUNCTION_POINTERS) (mkLayout 8 8192) demo_calls = Val (None, s').
Proof.
  destruct st3_user_inv as [l Hi]. split.
  - assert (is_val (Allocator_alloc (Some FUNCTION_POINTERS) (mkLayout 24 8) demo_calls) = true) as Hv by by vm_compute.
    destruct (app_alloc_spec 0x1000 free us 0x100 empty demo_calls l l (mkLayout 24 8) Hi st3_active eq_refl eq_refl
      (st3_user_mem l Hi)) as [[Hf _]|(o & s' & h' & l' & l2' & Hr & _ & _ & Ho & Ht & _ & _ & Hh & Hot)].
    + exact demo_layout_valid.
    + apply (demo_request _ 3); cbn; lia.
    + exfalso. rewrite Hf in Hv. discriminate Hv.
    + destruct o as [p|]; [|exfalso; destruct (proj1 Ho eq_refl) as (_ & Ha & _); by vm_compute in Ha].
      exists p, s'. split_and!; [exact Hr|by apply Ht|by rewrite Hh|].
      intros a Ha. apply Hot; [left|by vm_compute|exact Ha].
  - assert (is_val (Allocator_alloc (Some FUNCTION_POINTERS) (mkLayout 8 8192) demo_calls) = true) as Hv by by vm_compute.
    destruct (app_alloc_spec 0x1000 free us 0x100 empty demo_calls l l (mkLayout 8 8192) Hi st3_active eq_refl eq_refl
      (st3_user_mem l Hi)) as [[Hf _]|(o & s' & h' & l' & l2' & Hr & _ & _ & Ho & _)].
    + exact demo_over_layout.
    + apply (demo_request _ 13); cbn; lia.
    + exfalso. rewrite Hf in Hv. discriminate Hv.
    + exists s'. rewrite Hr, (proj2 Ho demo_over_aligned). reflexivity.
Defined.

(** A block is taken and given back. *)
Lemma app_dealloc_spec_witness :
  ∃ p s' s'', Allocator_alloc (Some FUNCTION_POINTERS) (mkLayout 24 8) demo_calls = Val (Some p, s') ∧
    Allocator_dealloc (Some FUNCTION_POINTERS) p (mkLayout 24 8) s' = Val ((), s'').
Proof.
  destruct st3_user_inv as [l Hi].
  assert (is_val (Allocator_alloc (Some FUNCTION_POINTERS) (mkLayout 24 8) demo_calls) = true) as Hv by by vm_compute.
  destruct (app_alloc_effect 0x1000 us 0x100 empty demo_calls l (mkLayout 24 8) st3_active eq_refl eq_refl
    (st3_user_mem l Hi) demo_layout_valid) as [[Hf _]|(o & k' & h' & l2' & Hr & Hm' & _ & Hlim & Ho & Ht & Hst)].
  - apply (demo_request _ 3); cbn; lia.
  - exfalso. rewrite Hf in Hv. discriminate Hv.
  - destruct o as [p|]; [|exfalso; destruct (proj1 Ho eq_refl) as (_ & Ha & _); by vm_compute in Ha].
    destruct (app_dealloc_spec 0x1000 us 0x100 h' (mkCalls k' (c_console demo_calls) (<[0x100 := h']> (c_heaps demo_calls))
      (c_running demo_calls) (c_left demo_calls)) l2' (mkLayout 24 8) p) as (k2 & h2 & Hr2 & _).
    + cbn [c_kernel]. rewrite (app_steps_cr3 us _ _ _ Hst eq_refl). exact st3_active.
    + reflexivity.
    + apply lookup_insert_eq.
    + exact Hm'.
    + exact Hlim.
    + exact demo_layout_valid.
    + intros a Ha. by apply (Ht p).
    + eexists p, _, _. split; [exact Hr|exact Hr2].
Defined.

(** The first application allocates, writes to its block, gives it back and
    aborts. *)
Definition first_block : Z := 0x200000000.

Lemma demo_other : 0x11000 ≠ k_cr3 (c_kernel demo_calls).
Proof. by vm_compute. Qed.

Lemma owned_nothing : owned ∅ empty.
Proof. split; [by vm_compute|intros *; rewrite lookup_empty; done..]. Qed.

Lemma demo_moderate : moderate (mkLayout 24 8) demo_calls.
Proof.
  split_and!; [exact demo_layout_valid|cbn; lia..|]. intros q h [= <-] [= <-]. by vm_compute.
Qed.

Lemma demo_may_write : may_write {[ first_block := mkLayout 24 8 ]} (first_block + 3).
Proof.
  split; [apply heap_addr_user; by vm_compute|]. intros _. exists first_block, (mkLayout 24 8).
  split; [apply lookup_insert_eq|by vm_compute].
Qed.

Lemma application_confined_witness :
  ∃ s', rtc app_action (∅, demo_calls) (∅, s') ∧ c_left s' = Some 7 ∧ c_heaps s' !! 0x200 = Some empty ∧
    ∀ a, user_page (page_of a) → vbyte pmo (c_kernel s') 0x11000 a = vbyte pmo st3 0x11000 a.
Proof.
  destruct st3_user_inv as [l Hi].
  assert (match fp_alloc FUNCTION_POINTERS 24 8 demo_calls with
    | Val (Some p, s1) => (p =? first_block) && bool_decide (c_left s1 = None) &&
        match vwrite (first_block + 3) 0x41 (c_kernel s1) with
        | Val (_, k) =>
            match fp_dealloc FUNCTION_POINTERS first_block 24 8 (mkCalls k (c_console s1) (c_heaps s1) (c_running s1) (c_left s1)) with
            | Val (_, s3) => is_val (fp_abort FUNCTION_POINTERS 7 s3) && bool_decide (c_left s3 = None)
            | Fault _ => false end
        | Fault _ => false end
    | _ => false end = true) as Hv by by vm_compute.
  destruct (fp_alloc FUNCTION_POINTERS 24 8 demo_calls) as [[[p|] s1]|] eqn:H1; [|done..].
  apply andb_true_iff in Hv as [[->%Z.eqb_eq Hl1%bool_decide_eq_true]%andb_true_iff Hv].
  destruct (vwrite (first_block + 3) 0x41 (c_kernel s1)) as [[[] k]|] eqn:H2; [|done].
  set (s2 := mkCalls k (c_console s1) (c_heaps s1) (c_running s1) (c_left s1)) in Hv.
  destruct (fp_dealloc FUNCTION_POINTERS first_block 24 8 s2) as [[[] s3]|] eqn:H3; [|done].
  destruct (fp_abort FUNCTION_POINTERS 7 s3) as [[[] s4]|] eqn:H4; [|done].
  apply andb_true_iff in Hv as [_ Hl3%bool_decide_eq_true].
  assert (rtc app_action (∅, demo_calls) (∅, s4)) as Hs.
  { eapply rtc_l; [eapply (act_alloc ∅ demo_calls (mkLayout 24 8)); [reflexivity| |exact H1]|].
    { exact demo_moderate. }
    eapply rtc_l; [eapply act_write; [exact Hl1| |exact H2]|].
    { exact demo_may_write. }
    eapply rtc_l; [eapply (act_dealloc _ s2 first_block (mkLayout 24 8)); [exact Hl1|apply lookup_insert_eq|exact H3]|].
    rewrite delete_insert_eq, delete_empty. apply rtc_once. by eapply act_abort. }
  destruct (application_confined 0x1000 free us 0x100 empty ∅ demo_calls ∅ s4 l Hi st3_active eq_refl eq_refl
    (st3_user_mem l Hi)) as (_ & _ & _ & _ & Hh & _ & Ho).
  - exact owned_nothing.
  - exact Hs.
  - exists s4. split_and!; [exact Hs| |exact (Hh 0x200 ltac:(lia))|].
    + cbn in H4. unfold user_functions.abort in H4. apply M_bind_Val in H4 as (q & s5 & _ & H4).
      apply modify_Val in H4 as ->. reflexivity.
    + intros a Ha. apply Ho; [left|exact demo_other|exact Ha].
Defined.

Lemma calls_outside_run_witness :
  Allocator_alloc (Some FUNCTION_POINTERS) (mkLayout 24 8) (mkCalls st3 demo_console (∅ : gmap Z RefHeap) None None) = Fault Unwrap.
Proof.
  apply (calls_outside_run (mkLayout 24 8) 0 0 0 0); [reflexivity|exact demo_layout_valid].
Defined.
