(* ===== verification/Logo.v ===== *)
(** * The picture on the terminal (src/kernel/src/common_main.rs)

    [print_logo]: the third file of the ram disk is decoded and printed to the
    main terminal.  The decoder is the zune-jpeg crate's. *)

From S2P Require Import Prelude Bytes RamDisk Terminal Windows TermSpec Console.

(** [JpegDecoder::decode] and [dimensions]: the width of the picture and its
    bytes; [None] is an error of the decoder. *)
Class JpegDecoder := jpeg_decode : list Z → option (Z * list Z).

(** [pixels.chunks(3)], each as a colour. *)
Fixpoint chunk_colors (pixels : list Z) : res (list Color) :=
  match pixels with
  | [] => Val []
  | r :: g :: b :: pixels' => chunk_colors pixels' ≫= λ colors, Val (mkColor r g b :: colors)
  | _ => Fault Bounds
  end.

Section Logo.
Context `{Profile} `{Screen} `{Font} `{JpegDecoder} (ramdisk_addr : option Z) (disk : list Z).

(** The pixels are only looked at while they are printed. *)
Definition print_logo : M Console () :=
  liftr (get_file_slice ramdisk_addr disk 2) ≫= λ image_bytes,
  liftr (unwrap (jpeg_decode image_bytes)) ≫= λ '(width, pixels),
  acquire ≫= λ _,
  gets PANICKED_STOP_PRINTING ≫= λ stop : bool,
  if stop then mret () else
  liftr (chunk_colors pixels) ≫= λ it,
  Stdout_print_pixels width it.
End Logo.

(** The bytes of a list of colours. *)
Definition color_bytes (colors : list Color) : list Z := colors ≫= λ c, [r c; g c; b c].

Lemma chunk_color_bytes colors : chunk_colors (color_bytes colors) = Val colors.
Proof.
  induction colors as [|[r g b] colors IH]; [done|]. unfold color_bytes. rewrite bind_cons. cbn [app Terminal.r Terminal.g Terminal.b].
  cbn [chunk_colors]. unfold color_bytes in IH. by rewrite IH.
Qed.

Section Spec.
Context `{Profile} `{Screen} `{FontLaws} `{JpegDecoder} (ramdisk_addr : option Z) (disk : list Z).

(** A picture that decodes is printed: its pixels, in order, to the window of
    the main terminal and nowhere else, without a panic; after a panic of
    another core nothing is printed. *)
Theorem print_logo_spec bytes w colors c :
  get_file_slice ramdisk_addr disk 2 = Val bytes → jpeg_decode bytes = Some (w, color_bytes colors) →
  0 < w ≤ 2 ^ 32 → held_term c = false → term_ok (TERM c) → pos_ok (TERM c) →
  if PANICKED_STOP_PRINTING c then print_logo ramdisk_addr disk c = Val ((), c)
  else ∃ s', print_pixels w colors (mkTS (TERM c) (screen c)) = Val ((), s') ∧ usable (TERM c) (term s') ∧
    outside (fst (buffer (TERM c))) (info (TERM c)) (screen c) (vram s') ∧
    print_logo ramdisk_addr disk c = Val ((), set_term (term s') (vram s') c).
Proof.
  intros Hfile Hdec Hw Hh Ht Hp.
  assert (print_logo ramdisk_addr disk c =
    if PANICKED_STOP_PRINTING c then Val ((), c) else on_term (print_pixels w colors) c) as Hr.
  { unfold print_logo. rewrite (M_bind_run _ _ _ bytes c) by by apply liftr_run.
    rewrite (M_bind_run _ _ _ (w, color_bytes colors) c) by (apply liftr_run; by rewrite Hdec).
    rewrite (M_bind_run _ _ _ () c) by (unfold acquire, lock; by rewrite Hh).
    rewrite (M_bind_run _ _ _ (PANICKED_STOP_PRINTING c) c) by done.
    destruct (PANICKED_STOP_PRINTING c) eqn:Hs; [done|].
    rewrite (M_bind_run _ _ _ colors c) by (apply liftr_run, chunk_color_bytes).
    unfold Stdout_print_pixels, unless_panicked. by rewrite (M_bind_run _ _ _ false c) by (unfold gets; by rewrite Hs). }
  rewrite Hr. destruct (PANICKED_STOP_PRINTING c); [done|].
  destruct (confined_keeps _ (confined_print_pixels w colors Hw) (mkTS (TERM c) (screen c)) Ht Hp) as (s' & Hs & Hu & Ho).
  exists s'. split_and!; [done..|]. unfold on_term, zoom. by rewrite Hs.
Qed.
End Spec.
