(* ===== verification/LogoDemo.v ===== *)
(** * The picture on a small screen

    A decoder that takes the bytes of the file for the pixels of a picture two
    pixels wide, on the terminal of [ConsoleDemo]. *)

From S2P Require Import Prelude Bytes RamDisk Terminal Windows TermSpec TermDemo Console ConsoleSpec ConsoleDemo Logo.

#[local] Instance raw_decoder : JpegDecoder := λ bytes, Some (2, bytes).

Definition picture : list Color := [white; black; mkColor 1 2 3; mkColor 4 5 6].

(** A ram disk of three files, the last of which is the picture. *)
Definition picture_disk : list Z :=
  words [0; 0; 3; 1; 2; 2 + Z.of_nat (length (color_bytes picture))] ++ [7; 8] ++ color_bytes picture.

Lemma print_logo_spec_witness :
  ∃ s', print_pixels 2 picture (mkTS (TERM demo_console) ∅) = Val ((), s') ∧
    print_logo (Some 4096) picture_disk demo_console = Val ((), set_term (term s') (vram s') demo_console).
Proof.
  destruct (full_term_ok demo_fb 65536 65536 demo_text_screen) as [Ht Hp].
  destruct (print_logo_spec (Some 4096) picture_disk (color_bytes picture) 2 picture demo_console)
    as (s' & Hr & _ & _ & Hl); [by vm_compute|done|lia|done|done|done|].
  exists s'. split; [exact Hr|exact Hl].
Defined.
