(* ===== verification/Logging.v ===== *)
(** * The logger (src/kernel/src/logging.rs)

    A record goes to the serial port and to the main terminal, each with its own
    level.  A [print!] or [serial_print!] writes its pieces one after the other;
    [write_str] of their concatenation is the same.  A lock that someone holds
    for good is never taken, as in Console.v. *)

From Stdlib Require Import String Ascii.
From S2P Require Import Prelude Bytes Format Ports Serial Terminal TermSpec Console.

(** ** Levels *)

Inductive Level := Error | Warn | Info | Debug | Trace.
Definition level_usize (l : Level) : Z :=
  match l with Error => 1 | Warn => 2 | Info => 3 | Debug => 4 | Trace => 5 end.

Inductive LevelFilter := Off | UpTo (l : Level).
Definition filter_usize (f : LevelFilter) : Z := match f with Off => 0 | UpTo l => level_usize l end.

(** [transmute] of a stored level: undefined unless it is one. *)
Definition filter_of (z : Z) : res LevelFilter :=
  match z with
  | 0 => Val Off | 1 => Val (UpTo Error) | 2 => Val (UpTo Warn) | 3 => Val (UpTo Info)
  | 4 => Val (UpTo Debug) | 5 => Val (UpTo Trace)
  | _ => Fault Undefined
  end.

(** [level <= filter] *)
Definition enabled (l : Level) (f : LevelFilter) : bool := level_usize l <=? filter_usize f.

Lemma filter_of_usize f : filter_of (filter_usize f) = Val f.
Proof. by destruct f as [|[]]. Qed.

(** ** Formatting *)

Definition level_name (l : Level) : list Z :=
  match l with
  | Error => chars "ERROR" | Warn => chars "WARN" | Info => chars "INFO" | Debug => chars "DEBUG" | Trace => chars "TRACE"
  end.

Record LogRecord := mkRecord {
  log_level : Level; file : option (list Z); line : option Z; args : list Z }.

(** The line on the serial port; [cpu] is the index of the core, once it has its
    data. *)
Definition serial_text (cpu : option Z) (r : LogRecord) : list Z :=
  chars "[" ++ pad_right 5 (level_name (log_level r)) ++
  match cpu with Some i => chars " " ++ pad_left 2 (show i) | None => [] end ++
  match file r, line r with
  | Some f, Some l => chars " " ++ f ++ chars ":" ++ show l ++ chars "] " ++ args r ++ [10]
  | _, _ => chars " " ++ args r ++ [10]
  end.

(** The place of a record on the terminal: the last 50 bytes of a long path. *)
Definition place_text (r : LogRecord) : list Z :=
  match file r, line r with
  | Some f, Some l =>
      if (50 <? length f)%nat then chars " |" ++ drop (length f - 50) f ++ chars ":" ++ show l
      else chars " " ++ f ++ chars ":" ++ show l
  | _, _ => []
  end.

Definition info_color (l : Level) : Color :=
  match l with
  | Error => mkColor 255 50 50
  | Warn => mkColor 255 200 0
  | Info => mkColor 220 220 220
  | Debug => mkColor 0 40 255
  | Trace => mkColor 130 130 130
  end.

(** ** The logger *)

(** [held_write] and [held_port] say whether someone else holds
    [SERIAL_WRITE_LOCK] and the lock of the port, [SERIAL.1]. *)
Record LogState `{Font} (W : Type) := mkLog {
  log_console : Console; log_world : W; SERIAL_LOG_LEVEL : Z; GRAPHICS_LOG_LEVEL : Z;
  held_write : bool; held_port : bool }.
Arguments mkLog {_ _} _ _ _ _ _ _.
Arguments log_console {_ _} _.
Arguments log_world {_ _} _.
Arguments SERIAL_LOG_LEVEL {_ _} _.
Arguments GRAPHICS_LOG_LEVEL {_ _} _.
Arguments held_write {_ _} _.
Arguments held_port {_ _} _.

Section Logger.
Context `{Profile} `{Screen} `{Font} {W : Type} `{PortIo W}.

Definition with_console (k : Console) (s : LogState W) : LogState W :=
  mkLog k (log_world s) (SERIAL_LOG_LEVEL s) (GRAPHICS_LOG_LEVEL s) (held_write s) (held_port s).
Definition with_world (w : W) (s : LogState W) : LogState W :=
  mkLog (log_console s) w (SERIAL_LOG_LEVEL s) (GRAPHICS_LOG_LEVEL s) (held_write s) (held_port s).
Definition with_levels (serial graphics : Z) (s : LogState W) : LogState W :=
  mkLog (log_console s) (log_world s) serial graphics (held_write s) (held_port s).

Definition on_console {A} : M Console A → M (LogState W) A := zoom log_console with_console.
Definition on_serial {A} : M W A → M (LogState W) A := zoom log_world with_world.

(** [lock()] *)
Definition log_lock (held : LogState W → bool) : M (LogState W) () := λ s,
  if held s then Fault NoFuel else Val ((), s).

(** [serial_print!] and [serial_println!] *)
Definition serial_print (fuel : nat) (text : list Z) : M (LogState W) () :=
  log_lock held_port ≫= λ _, on_serial (_print_serial fuel text).
Definition serial_println (fuel : nat) (text : list Z) : M (LogState W) () := serial_print fuel (text ++ [10]).

Definition set_serial_log_level (f : LevelFilter) : M (LogState W) () :=
  modify (λ s, with_levels (filter_usize f) (GRAPHICS_LOG_LEVEL s) s).
Definition set_graphics_log_level (f : LevelFilter) : M (LogState W) () :=
  modify (λ s, with_levels (SERIAL_LOG_LEVEL s) (filter_usize f) s).

(** The part of [log] under the lock of the main terminal, with the style it
    found. *)
Definition log_styled (cpu : option Z) (r : LogRecord) (fg bg : Color) (font : FontWeight) : M Console () :=
  set_foreground fg ≫= λ _,
  set_background bg ≫= λ _,
  set_font_weight Light ≫= λ _,
  Stdout_print (chars "[") ≫= λ _,
  set_foreground (info_color (log_level r)) ≫= λ _,
  set_font_weight Bold ≫= λ _,
  Stdout_print (pad_right 5 (level_name (log_level r))) ≫= λ _,
  set_foreground fg ≫= λ _,
  (match cpu with Some i => Stdout_print (chars " " ++ pad_left 2 (show i)) | None => mret () end) ≫= λ _,
  set_font_weight Light ≫= λ _,
  Stdout_print (place_text r) ≫= λ _,
  Stdout_print (chars "] - ") ≫= λ _,
  set_font_weight Regular ≫= λ _,
  Stdout_println (args r) ≫= λ _,
  set_foreground fg ≫= λ _,
  set_background bg ≫= λ _,
  set_font_weight font.

Definition log_graphics (cpu : option Z) (r : LogRecord) : M Console () :=
  acquire ≫= λ _,
  get_foreground ≫= λ fg,
  get_background ≫= λ bg,
  get_font_weight ≫= λ font,
  log_styled cpu r fg bg font.

Definition log_to_serial (fuel : nat) (cpu : option Z) (r : LogRecord) : M (LogState W) () :=
  log_lock held_write ≫= λ _,
  serial_print fuel (chars "[" ++ pad_right 5 (level_name (log_level r))) ≫= λ _,
  (match cpu with Some i => serial_print fuel (chars " " ++ pad_left 2 (show i)) | None => mret () end) ≫= λ _,
  match file r, line r with
  | Some f, Some l => serial_println fuel (chars " " ++ f ++ chars ":" ++ show l ++ chars "] " ++ args r)
  | _, _ => serial_println fuel (chars " " ++ args r)
  end.

Definition log (fuel : nat) (cpu : option Z) (r : LogRecord) : M (LogState W) () :=
  gets SERIAL_LOG_LEVEL ≫= λ sl,
  liftr (filter_of sl) ≫= λ serial_level,
  gets GRAPHICS_LOG_LEVEL ≫= λ gl,
  liftr (filter_of gl) ≫= λ graphics_level,
  (if enabled (log_level r) serial_level
   then log_to_serial fuel cpu r else mret ()) ≫= λ _,
  (if enabled (log_level r) graphics_level then on_console (log_graphics cpu r) else mret ()).

(** [Log::flush] *)
Definition log_flush (fuel : nat) : M (LogState W) () :=
  log_lock held_port ≫= λ _, on_serial (flush fuel COM1).

Definition first_record : LogRecord :=
  mkRecord Debug (Some (chars "kernel/src/logging.rs")) (Some 102) (chars "Logging initialized").

(** [init_logging]; [set_logger] is the result of [log::set_logger], an error
    from the second call on. *)
Definition init_logging (set_logger : result () ()) (fuel : nat) (cpu : option Z)
    (serial_level graphics_level : LevelFilter) : M (LogState W) () :=
  set_serial_log_level serial_level ≫= λ _,
  set_graphics_log_level graphics_level ≫= λ _,
  match set_logger with
  | Ok _ => log fuel cpu first_record
  | Err _ => liftr (Fault Unwrap)
  end.
End Logger.

(** ** What logging leaves behind *)

Section Spec.
Context `{Profile} `{Screen} `{FontLaws}.

(** The part of a terminal's state that the logger sets and restores. *)
Definition style (t : TerminalWriter) : FontWeight * Color * Color := (font_weight t, foreground t, background t).

(** A console whose main terminal can be used, in every weight of the font. *)
Record console_ok (s : Console) : Prop := {
  co_term : term_ok (TERM s);
  co_pos : pos_ok (TERM s);
  co_weights : ∀ w, get_raster_width w (font_height (TERM s)) ≤ width (info (TERM s)) }.

(** Only the main terminal and its window have changed. *)
Record term_only (s s' : Console) : Prop := {
  tr_buffer : buffer (TERM s') = buffer (TERM s);
  tr_info : info (TERM s') = info (TERM s);
  tr_screen : outside (fst (buffer (TERM s))) (info (TERM s)) (screen s) (screen s');
  tr_rest : s' = set_term (TERM s') (screen s') s }.

Lemma term_only_refl s : term_only s s.
Proof. split; try done. by destruct s. Qed.

Lemma term_only_trans s1 s2 s3 : term_only s1 s2 → term_only s2 s3 → term_only s1 s3.
Proof.
  intros [Hb1 Hi1 Ho1 Hr1] [Hb2 Hi2 Ho2 Hr2]. split; [congruence|congruence| |].
  - intros q Hq. rewrite Ho2, Ho1; [done|done|]. by rewrite Hb1, Hi1.
  - rewrite Hr2 at 1. by rewrite Hr1 at 1.
Qed.

(** [m] works on every good console and changes the style by [f]. *)
Definition restyles (m : M Console ()) (f : FontWeight * Color * Color → FontWeight * Color * Color) : Prop :=
  ∀ s, console_ok s → ∃ s', m s = Val ((), s') ∧ console_ok s' ∧ term_only s s' ∧ style (TERM s') = f (style (TERM s)).

Lemma restyles_bind (m1 m2 : M Console ()) f1 f2 :
  restyles m1 f1 → restyles m2 f2 → restyles (m1 ≫= λ _, m2) (λ x, f2 (f1 x)).
Proof.
  intros Hm1 Hm2 s Hs. destruct (Hm1 s Hs) as (s1 & R1 & O1 & T1 & S1).
  destruct (Hm2 s1 O1) as (s2 & R2 & O2 & T2 & S2). exists s2. rewrite (M_bind_run _ _ _ _ _ R1).
  split_and!; [done|done|by eapply term_only_trans|congruence].
Qed.

Lemma restyles_mret : restyles (mret ()) (λ x, x).
Proof. intros s Hs. exists s. split_and!; [done|done|apply term_only_refl|done]. Qed.

Lemma restyles_print text : restyles (Stdout_print text) (λ x, x).
Proof.
  intros s Hs. unfold Stdout_print, unless_panicked.
  rewrite (M_bind_run (gets _) _ _ (PANICKED_STOP_PRINTING s) s) by done.
  destruct (PANICKED_STOP_PRINTING s); [by apply restyles_mret|].
  destruct (confined_write_str text (mkTS (TERM s) (screen s)) (co_term s Hs) (co_pos s Hs))
    as ([t v] & Hr & Hst & Hp & Ho).
  exists (set_term t v s). split; [unfold on_term, zoom; by rewrite Hr|].
  pose proof (same_term_ok _ _ Hst (co_term s Hs)) as Hok. cbn in *.
  destruct Hst as (Hb & Hi & Hf & Hl & Hw & Hfg & Hbg). split_and!.
  - split; [done|done|]. cbn. rewrite Hf, Hi. apply Hs.
  - by split.
  - unfold style. cbn. congruence.
Qed.

(** The setters. *)
Lemma restyles_set m w fg bg f :
  (∀ s, console_ok s → byte_color (fg s) ∧ byte_color (bg s)) →
  (∀ s, console_ok s → m s = Val ((), set_term (with_colors (fg s) (bg s) (clear_color (TERM s)) (w s) (TERM s)) (screen s) s)) →
  (∀ s, console_ok s → (w s, fg s, bg s) = f (style (TERM s))) → restyles m f.
Proof.
  intros Hc Hm Hf s Hs. eexists. split; [by apply Hm|].
  pose proof Hs as [[? ? ? ? ? _] [? ?] Hw]. split_and!.
  - split; [split; try done; by apply Hc|by split|done].
  - by split.
  - by rewrite <-Hf.
Qed.

Lemma restyles_foreground c :
  byte_color c → restyles (set_foreground c) (λ '(w, _, b), (w, c, b)).
Proof.
  intros Hc. apply (restyles_set _ (λ s, font_weight (TERM s)) (λ _, c) (λ s, background (TERM s))); try done.
  intros s Hs. split; [done|]. apply (co_term s Hs).
Qed.

Lemma restyles_background c :
  byte_color c → restyles (set_background c) (λ '(w, f, _), (w, f, c)).
Proof.
  intros Hc. apply (restyles_set _ (λ s, font_weight (TERM s)) (λ s, foreground (TERM s)) (λ _, c)); try done.
  intros s Hs. split; [|done]. apply (co_term s Hs).
Qed.

Lemma restyles_weight w : restyles (set_font_weight w) (λ '(_, f, b), (w, f, b)).
Proof.
  apply (restyles_set _ (λ _, w) (λ s, foreground (TERM s)) (λ s, background (TERM s))); try done.
  intros s Hs. apply (co_term s Hs).
Qed.

Lemma info_color_ok l : byte_color (info_color l).
Proof. destruct l; unfold byte_color; cbn; lia. Qed.

(** Whatever it prints, the logger puts back the style it was given. *)
Lemma restyles_log cpu r fg bg font :
  byte_color fg → byte_color bg → restyles (log_styled cpu r fg bg font) (λ _, (font, fg, bg)).
Proof.
  intros Hfg Hbg. pose proof (info_color_ok (log_level r)) as Hc.
  assert (∃ f, restyles (log_styled cpu r fg bg font) f ∧ ∀ x, f x = (font, fg, bg)) as (f & Hf & Hx).
  { eexists. split.
    - unfold log_styled.
      repeat first [apply restyles_bind | by apply restyles_foreground | by apply restyles_background
        | apply restyles_weight | apply restyles_print].
      instantiate (1 := λ x, x). destruct cpu; [apply restyles_print|apply restyles_mret].
    - by intros [[? ?] ?]. }
  intros s Hs. destruct (Hf s Hs) as (s' & ? & ? & ? & Hst). exists s'. by rewrite Hx in Hst.
Qed.

(** *** What a record looks like on the terminal

    Spelled out apart from the code: segments, each with its weight, its colour
    and its text, drawn one after the other. *)
Record segment := mkSegment { sg_weight : FontWeight; sg_color : Color; sg_text : list Z }.

(** A terminal with another weight and foreground. *)
Definition styled (w : FontWeight) (c : Color) (ts : TermState) : TermState :=
  mkTS (with_colors c (background (term ts)) (clear_color (term ts)) w (term ts)) (vram ts).

Definition draw (sg : segment) : M TermState () := λ ts,
  write_str (sg_text sg) (styled (sg_weight sg) (sg_color sg) ts).

Definition level_word (l : Level) : list Z :=
  match l with
  | Error => chars "ERROR" | Warn => chars "WARN " | Info => chars "INFO " | Debug => chars "DEBUG" | Trace => chars "TRACE"
  end.

(** Red, amber, light grey, blue and grey. *)
Definition level_rgb (l : Level) : Z * Z * Z :=
  match l with
  | Error => (255, 50, 50) | Warn => (255, 200, 0) | Info => (220, 220, 220)
  | Debug => (0, 40, 255) | Trace => (130, 130, 130)
  end.

(** The file and the line, of a path longer than 50 bytes a bar and its end. *)
Definition place_spelled (r : LogRecord) (text : list Z) : Prop :=
  match file r, line r with
  | Some f, Some l => ∃ d, decimal l d ∧
      ((length f ≤ 50)%nat ∧ text = chars " " ++ f ++ chars ":" ++ d ∨
       ∃ start rest, f = start ++ rest ∧ length rest = 50%nat ∧ start ≠ [] ∧
         text = chars " |" ++ rest ++ chars ":" ++ d)
  | _, _ => text = []
  end.

(** The number of the core, in two places. *)
Definition core_spelled (fg : Color) (cpu : option Z) (sgs : list segment) : Prop :=
  match cpu with
  | Some i => ∃ d, decimal i d ∧
      sgs = [mkSegment Bold fg (chars " " ++ (if (length d <? 2)%nat then chars " " ++ d else d))]
  | None => sgs = []
  end.

(** A record on a terminal whose own colour is [fg]. *)
Definition record_spelled (cpu : option Z) (fg : Color) (r : LogRecord) (sgs : list segment) : Prop :=
  ∃ core place, core_spelled fg cpu core ∧ place_spelled r place ∧
    let '(red, green, blue) := level_rgb (log_level r) in
    sgs = [mkSegment Light fg (chars "["); mkSegment Bold (mkColor red green blue) (level_word (log_level r))] ++ core ++
      [mkSegment Light fg place; mkSegment Light fg (chars "] - "); mkSegment Regular fg (args r ++ [10])].

(** The numbers of a record are machine words. *)
Definition numbers_ok (cpu : option Z) (r : LogRecord) : Prop :=
  (∀ i, cpu = Some i → 0 ≤ i < 2 ^ 64) ∧ (∀ l, line r = Some l → 0 ≤ l < 2 ^ 64).

(** What the segments leave of the console: the main terminal has drawn them and
    has its style back, unless a panic has stopped it. *)
Definition drawn (sgs : list segment) (s s' : Console) : Prop :=
  if PANICKED_STOP_PRINTING s then s' = s
  else ∃ ts, for_each sgs draw (mkTS (TERM s) (screen s)) = Val ((), ts) ∧
    s' = set_term (term (styled (font_weight (TERM s)) (foreground (TERM s)) ts)) (vram ts) s.

Lemma drawn_none s : drawn [] s s.
Proof.
  unfold drawn. destruct (PANICKED_STOP_PRINTING s); [done|]. eexists. split; [reflexivity|]. by destruct s as [[]].
Qed.

Lemma show_length n : 0 ≤ n → (1 ≤ length (show n))%nat.
Proof. intros _. unfold show. cbn [digits]. rewrite length_app. cbn. lia. Qed.

(** The texts of the code are those. *)
Lemma place_text_spelled cpu r : numbers_ok cpu r → place_spelled r (place_text r).
Proof.
  intros [_ Hl]. unfold place_spelled, place_text. destruct (file r) as [f|], (line r) as [l|]; [|done..].
  exists (show l). split; [by apply show_decimal, Hl|]. destruct (Nat.ltb_spec 50 (length f)); [right|left; split; [lia|done]].
  exists (take (length f - 50) f), (drop (length f - 50) f). split_and!; [by rewrite take_drop|rewrite length_drop; lia| |done].
  intros Hn%(f_equal length). rewrite length_take in Hn. cbn in Hn. lia.
Qed.

Lemma core_text_spelled fg cpu r : numbers_ok cpu r →
  core_spelled fg cpu (match cpu with Some i => [mkSegment Bold fg (chars " " ++ pad_left 2 (show i))] | None => [] end).
Proof.
  intros [Hi _]. destruct cpu as [i|]; [|done]. exists (show i). split; [by apply show_decimal, Hi|].
  pose proof (show_length i (proj1 (Hi i eq_refl))). do 3 f_equal. unfold pad_left.
  destruct (Nat.ltb_spec (length (show i)) 2) as [Hlt|Hge].
  - by replace (2 - length (show i))%nat with 1%nat by lia.
  - by replace (2 - length (show i))%nat with 0%nat by lia.
Qed.

(** The segments of the code. *)
Definition record_segments (cpu : option Z) (fg : Color) (r : LogRecord) : list segment :=
  [mkSegment Light fg (chars "["); mkSegment Bold (info_color (log_level r)) (pad_right 5 (level_name (log_level r)))] ++
  (match cpu with Some i => [mkSegment Bold fg (chars " " ++ pad_left 2 (show i))] | None => [] end) ++
  [mkSegment Light fg (place_text r); mkSegment Light fg (chars "] - "); mkSegment Regular fg (args r ++ [10])].

Lemma record_segments_spelled cpu fg r : numbers_ok cpu r → record_spelled cpu fg r (record_segments cpu fg r).
Proof.
  intros Hn. eexists _, (place_text r). split_and!; [by eapply core_text_spelled|by eapply place_text_spelled|].
  unfold record_segments. by destruct (log_level r).
Qed.

(** The operations of a console on its terminal. *)
Definition with_ts (s : Console) (ts : TermState) : Console := set_term (term ts) (vram ts) s.

Lemma set_style_ts s w c ts :
  set_foreground c (with_ts s ts) = Val ((), with_ts s (styled (font_weight (term ts)) c ts)) ∧
  set_font_weight w (with_ts s ts) = Val ((), with_ts s (styled w (foreground (term ts)) ts)) ∧
  set_background (background (term ts)) (with_ts s ts) = Val ((), with_ts s ts).
Proof. split_and!; [done..|]. by destruct ts as [[] ?]. Qed.

Lemma styled_own ts : styled (font_weight (term ts)) (foreground (term ts)) ts = ts.
Proof. by destruct ts as [[] ?]. Qed.

(** One piece of a record: its style is set, in two steps, and it is printed. *)
Lemma print_ts s w c text ts :
  PANICKED_STOP_PRINTING s = false → console_ok (with_ts s (styled w c ts)) →
  ∃ ts', draw (mkSegment w c text) ts = Val ((), ts') ∧
    Stdout_print text (with_ts s (styled w c ts)) = Val ((), with_ts s ts') ∧
    console_ok (with_ts s ts') ∧ style (term ts') = (w, c, background (term ts)).
Proof.
  intros Hp Hok. destruct (restyles_print text _ Hok) as (s' & Hr & Hok' & Ht & Hst).
  unfold Stdout_print, unless_panicked in Hr |- *.
  rewrite (M_bind_run (gets _) _ _ false (with_ts s (styled w c ts))) in Hr |- * by (unfold gets; cbn; by rewrite Hp).
  unfold on_term, zoom in Hr |- *. change (mkTS (TERM (with_ts s (styled w c ts))) (screen (with_ts s (styled w c ts))))
    with (styled w c ts) in *. unfold draw. cbn [sg_text sg_weight sg_color].
  destruct (write_str text (styled w c ts)) as [[[] ts']|]; [|done]. injection Hr as <-.
  exists ts'. by split_and!.
Qed.

Lemma console_ok_styled s w c ts : byte_color c → console_ok (with_ts s ts) → console_ok (with_ts s (styled w c ts)).
Proof.
  intros Hc [[? ? ? ? ? [_ Hbg]] [? ?] Hw]. split; [split; try done|by split|done].
Qed.

(** A style that is set twice is the second one. *)
Lemma styled_styled w c w' c' ts : styled w c (styled w' c' ts) = styled w c ts.
Proof. done. Qed.

Lemma M_bind_after {S} (m1 m2 m3 : M S ()) (k : () → M S ()) s s' :
  (m1 ≫= λ _, m2 ≫= λ _, m3) s = Val ((), s') → (m1 ≫= λ _, m2 ≫= λ _, m3 ≫= k) s = k () s'.
Proof.
  unfold mbind, M_bind. destruct (m1 s) as [[[] s1]|]; [|done]. destruct (m2 s1) as [[[] s2]|]; [|done]. by intros ->.
Qed.

(** [log_styled] draws the segments, and sets the style it was given. *)
Lemma log_styled_draws cpu r s (ts0 : TermState) fg bg font :
  PANICKED_STOP_PRINTING s = false → console_ok (with_ts s ts0) → style (term ts0) = (font, fg, bg) →
  ∃ ts, for_each (record_segments cpu fg r) draw ts0 = Val ((), ts) ∧
    log_styled cpu r fg bg font (with_ts s ts0) = Val ((), with_ts s (styled font fg ts)).
Proof.
  intros Hp Hok [= W0 F0 B0]. assert (byte_color fg) as Hfg by (rewrite <-F0; apply (co_term _ Hok)).
  pose proof (info_color_ok (log_level r)) as Hic.
  destruct (print_ts s Light fg (chars "[") ts0 Hp) as (t1 & D1 & R1 & O1 & S1); [by apply console_ok_styled|].
  destruct (print_ts s Bold (info_color (log_level r)) (pad_right 5 (level_name (log_level r))) t1 Hp)
    as (t2 & D2 & R2 & O2 & S2); [by apply console_ok_styled|].
  assert (∃ t3, for_each (match cpu with Some i => [mkSegment Bold fg (chars " " ++ pad_left 2 (show i))] | None => [] end)
      draw t2 = Val ((), t3) ∧ console_ok (with_ts s t3) ∧ background (term t3) = bg ∧
    (set_foreground fg ≫= λ _, (match cpu with Some i => Stdout_print (chars " " ++ pad_left 2 (show i)) | None => mret () end) ≫= λ _,
      set_font_weight Light) (with_ts s t2) = Val ((), with_ts s (styled Light fg t3)))
    as (t3 & D3 & O3 & B3 & R3).
  { unfold style in S1, S2. injection S1 as W1 F1 B1. injection S2 as W2 F2 B2. rewrite B1 in B2.
    rewrite (M_bind_run _ _ _ _ _ (proj1 (set_style_ts s Bold fg t2))), W2. destruct cpu as [i|].
    - destruct (print_ts s Bold fg (chars " " ++ pad_left 2 (show i)) t2 Hp) as (t3 & D3 & R3 & O3 & S3);
        [by apply console_ok_styled|]. injection S3 as W3 F3 B3.
      exists t3. split_and!; [cbn [for_each]; by rewrite (M_bind_run _ _ _ _ _ D3)|done|congruence|].
      rewrite (M_bind_run _ _ _ _ _ R3). rewrite (proj1 (proj2 (set_style_ts s Light fg t3))). by rewrite F3.
    - exists t2. split_and!; [done|done|congruence|]. rewrite (M_bind_run (mret ()) _ _ () (with_ts s (styled Bold fg t2))) by done.
      done. }
  destruct (print_ts s Light fg (place_text r) t3 Hp) as (t4 & D4 & R4 & O4 & S4); [by apply console_ok_styled|].
  destruct (print_ts s Light fg (chars "] - ") t4 Hp) as (t5 & D5 & R5 & O5 & S5); [by apply console_ok_styled|].
  destruct (print_ts s Regular fg (args r ++ [10]) t5 Hp) as (t6 & D6 & R6 & O6 & S6); [by apply console_ok_styled|].
  unfold style in S1, S2, S4, S5, S6. injection S1 as W1 F1 B1. injection S2 as W2 F2 B2. injection S4 as W4 F4 B4.
  injection S5 as W5 F5 B5. injection S6 as W6 F6 B6.
  exists t6. split.
  - unfold record_segments. rewrite for_each_app.
    rewrite (M_bind_run _ _ _ () t2) by (cbn [for_each]; rewrite (M_bind_run _ _ _ _ _ D1); by rewrite (M_bind_run _ _ _ _ _ D2)).
    rewrite for_each_app. rewrite (M_bind_run _ _ _ _ _ D3). cbn [for_each].
    rewrite (M_bind_run _ _ _ _ _ D4), (M_bind_run _ _ _ _ _ D5). by rewrite (M_bind_run _ _ _ _ _ D6).
  - assert (∀ ts, set_background (background (term ts)) (with_ts s ts) = Val ((), with_ts s ts)) as Hbg
      by (intros ts; by destruct ts as [[] ?]).
    unfold log_styled.
    rewrite (M_bind_run _ _ _ () (with_ts s (styled font fg ts0))) by (by rewrite <-W0).
    rewrite (M_bind_run (set_background bg) _ _ () (with_ts s (styled font fg ts0)))
      by (rewrite <-B0; apply (Hbg (styled font fg ts0))).
    rewrite (M_bind_run (set_font_weight Light) _ _ () (with_ts s (styled Light fg ts0))) by done.
    rewrite (M_bind_run _ _ _ _ _ R1).
    rewrite (M_bind_run (set_foreground _) _ _ () (with_ts s (styled Light (info_color (log_level r)) t1)))
      by (by rewrite <-W1).
    rewrite (M_bind_run (set_font_weight Bold) _ _ () (with_ts s (styled Bold (info_color (log_level r)) t1))) by done.
    rewrite (M_bind_run _ _ _ _ _ R2).
    rewrite (M_bind_after _ _ _ _ _ _ R3).
    rewrite (M_bind_run _ _ _ _ _ R4).
    assert (styled Light fg t4 = t4) as E4 by (rewrite <-W4 at 1; rewrite <-F4; apply styled_own).
    rewrite E4 in R5. rewrite (M_bind_run _ _ _ _ _ R5).
    rewrite (M_bind_run (set_font_weight Regular) _ _ () (with_ts s (styled Regular fg t5))) by (by rewrite <-F5).
    rewrite (M_bind_run (Stdout_println _) _ _ _ _ R6).
    rewrite (M_bind_run (set_foreground fg) _ _ () (with_ts s (styled Regular fg t6))) by (by rewrite <-W6).
    rewrite (M_bind_run (set_background bg) _ _ () (with_ts s (styled Regular fg t6))); [done|].
    assert (background (term t6) = bg) as <- by congruence. apply (Hbg (styled Regular fg t6)).
Qed.

(** A panic has stopped the terminal: only the style is set, and set back. *)
Definition with_style (x : FontWeight * Color * Color) (t : TerminalWriter) : TerminalWriter :=
  with_colors (snd (fst x)) (snd x) (clear_color t) (fst (fst x)) t.

Definition silent (m : M Console ()) (f : FontWeight * Color * Color → FontWeight * Color * Color) : Prop :=
  ∀ s, PANICKED_STOP_PRINTING s = true → m s = Val ((), set_term (with_style (f (style (TERM s))) (TERM s)) (screen s) s).

Lemma silent_bind m1 m2 f1 f2 : silent m1 f1 → silent m2 f2 → silent (m1 ≫= λ _, m2) (λ x, f2 (f1 x)).
Proof. intros Hm1 Hm2 s Hp. rewrite (M_bind_run _ _ _ _ _ (Hm1 s Hp)), Hm2 by done. by destruct (f1 _) as [[??]?]. Qed.

Lemma silent_mret : silent (mret ()) (λ x, x).
Proof. intros s _. by destruct s as [[]]. Qed.

Lemma silent_print text : silent (Stdout_print text) (λ x, x).
Proof.
  intros s Hp. unfold Stdout_print, unless_panicked. rewrite (M_bind_run (gets _) _ _ true s) by (unfold gets; by rewrite Hp).
  by apply silent_mret.
Qed.

Lemma silent_foreground c : silent (set_foreground c) (λ '(w, _, b), (w, c, b)).
Proof. by intros s _. Qed.
Lemma silent_background c : silent (set_background c) (λ '(w, f, _), (w, f, c)).
Proof. by intros s _. Qed.
Lemma silent_weight w : silent (set_font_weight w) (λ '(_, f, b), (w, f, b)).
Proof. by intros s _. Qed.

Lemma silent_log cpu r fg bg font : ∃ f, silent (log_styled cpu r fg bg font) f ∧ ∀ x, f x = (font, fg, bg).
Proof.
  eexists. split.
  - unfold log_styled.
    repeat first [apply silent_bind | apply silent_foreground | apply silent_background | apply silent_weight
      | apply silent_print].
    instantiate (1 := λ x, x). destruct cpu; [apply silent_print|apply silent_mret].
  - by intros [[? ?] ?].
Qed.

Lemma log_styled_silent cpu r s :
  PANICKED_STOP_PRINTING s = true →
  log_styled cpu r (foreground (TERM s)) (background (TERM s)) (font_weight (TERM s)) s = Val ((), s).
Proof.
  intros Hp. destruct (silent_log cpu r (foreground (TERM s)) (background (TERM s)) (font_weight (TERM s)))
    as (f & Hf & Hx).
  rewrite (Hf s Hp), Hx. by destruct s as [[]].
Qed.

(** Drawing some segments, and others later. *)
Lemma draw_styled sgs w c ts :
  match for_each sgs draw (styled w c ts), for_each sgs draw ts with
  | Val (_, t1), Val (_, t2) => ∀ w' c', styled w' c' t1 = styled w' c' t2
  | Fault _, Fault _ => True
  | _, _ => False
  end.
Proof.
  destruct sgs as [|sg sgs]; [done|]. cbn [for_each]. unfold mbind, M_bind.
  assert (draw sg (styled w c ts) = draw sg ts) as -> by done.
  destruct (draw sg ts) as [[[] t]|]; [|done]. by destruct (for_each sgs draw t) as [[[] t']|].
Qed.

Lemma drawn_app sgs1 sgs2 s s1 s2 :
  style (TERM s1) = style (TERM s) → drawn sgs1 s s1 → drawn sgs2 s1 s2 → drawn (sgs1 ++ sgs2) s s2.
Proof.
  intros Hst. unfold drawn. destruct (PANICKED_STOP_PRINTING s) eqn:Hp; [by intros ->; rewrite Hp|].
  injection Hst as Hw Hfg _. rewrite Hw, Hfg. intros (t1 & R1 & ->). cbn [PANICKED_STOP_PRINTING set_term]. rewrite Hp.
  intros (t2 & R2 & ->). cbn [TERM screen set_term] in R2.
  change (mkTS (term (styled (font_weight (TERM s)) (foreground (TERM s)) t1)) (vram t1))
    with (styled (font_weight (TERM s)) (foreground (TERM s)) t1) in R2.
  pose proof (draw_styled sgs2 (font_weight (TERM s)) (foreground (TERM s)) t1) as Hd. rewrite R2 in Hd.
  destruct (for_each sgs2 draw t1) as [[[] t3]|] eqn:R3; [|done].
  exists t3. split; [rewrite for_each_app; by rewrite (M_bind_run _ _ _ _ _ R1)|].
  change (with_ts s (styled (font_weight (TERM s)) (foreground (TERM s)) t2) =
    with_ts s (styled (font_weight (TERM s)) (foreground (TERM s)) t3)). by rewrite Hd.
Qed.

Lemma log_graphics_keeps cpu r s :
  console_ok s → held_term s = false →
  ∃ s', log_graphics cpu r s = Val ((), s') ∧ console_ok s' ∧ term_only s s' ∧ style (TERM s') = style (TERM s) ∧
    drawn (record_segments cpu (foreground (TERM s)) r) s s'.
Proof.
  intros Hs Hl. pose proof (to_colors _ (co_term s Hs)) as [Hfg Hbg].
  destruct (restyles_log cpu r _ _ (font_weight (TERM s)) Hfg Hbg s Hs) as (s' & Hr & Ho & Ht & Hst).
  exists s'. split_and!; [|done|done|done|].
  - unfold log_graphics.
    rewrite (M_bind_run acquire _ _ () s) by (unfold acquire, lock; by rewrite Hl).
    rewrite (M_bind_run get_foreground _ _ _ _ eq_refl), (M_bind_run get_background _ _ _ _ eq_refl),
      (M_bind_run get_font_weight _ _ _ _ eq_refl). exact Hr.
  - unfold drawn. destruct (PANICKED_STOP_PRINTING s) eqn:Hp.
    + rewrite (log_styled_silent cpu r s Hp) in Hr. by injection Hr as <-.
    + destruct (log_styled_draws cpu r s (mkTS (TERM s) (screen s)) (foreground (TERM s)) (background (TERM s)) (font_weight (TERM s)) Hp)
        as (ts & R & Rl); [by destruct s|done|].
      exists ts. split; [done|]. assert (with_ts s (mkTS (TERM s) (screen s)) = s) as E by by destruct s.
      rewrite E, Hr in Rl. by injection Rl as ->.
Qed.

(** What a record puts on the serial port: its text without the characters that
    are not ASCII. *)
Definition serial_part (cpu : option Z) (f : LevelFilter) (r : LogRecord) : list Z :=
  if enabled (log_level r) f then filter (λ c, c < 128) (serial_text cpu r) else [].

(** One [serial_print!]. *)
Lemma serial_print_run {W} `{PortIo W} (U : Uart16550 W (com_u16 COM1)) B text (s : LogState W) :
  ready_within COM1 B → dlab (uart_of (log_world s)) = false → held_port s = false →
  ∃ w', serial_print (S B) text s = Val ((), with_world w' s) ∧
    tx (uart_of w') = tx (uart_of (log_world s)) ++ filter (λ c, c < 128) text ∧ dlab (uart_of w') = false.
Proof.
  intros Hr Hd Hp. destruct (write_str_tx COM1 U B text (log_world s) Hr Hd) as (w' & Hrun & Htx & Hlcr).
  exists w'. split; [|split; [done|unfold dlab in *; by rewrite Hlcr]]. unfold serial_print.
  rewrite (M_bind_run (log_lock _) _ _ () s) by (unfold log_lock; by rewrite Hp).
  unfold on_serial, zoom, _print_serial. by rewrite Hrun.
Qed.

(** The two halves of [log]. *)
Lemma log_serial {W} `{PortIo W} (U : Uart16550 W (com_u16 COM1)) B cpu r f (s : LogState W) :
  ready_within COM1 B → dlab (uart_of (log_world s)) = false →
  held_write s = false → held_port s = false →
  ∃ w', (if enabled (log_level r) f then log_to_serial (S B) cpu r else mret ()) s =
      Val ((), with_world w' s) ∧
    tx (uart_of w') = tx (uart_of (log_world s)) ++ serial_part cpu f r ∧ dlab (uart_of w') = false.
Proof.
  intros Hr Hd Hw Hp. unfold serial_part.
  destruct (enabled (log_level r) f); [|exists (log_world s); rewrite app_nil_r; by destruct s].
  destruct (serial_print_run U B (chars "[" ++ pad_right 5 (level_name (log_level r))) s Hr Hd Hp)
    as (w1 & R1 & T1 & D1).
  assert (∃ w2, (match cpu with Some i => serial_print (S B) (chars " " ++ pad_left 2 (show i)) | None => mret () end)
      (with_world w1 s) = Val ((), with_world w2 s) ∧ dlab (uart_of w2) = false ∧
    tx (uart_of w2) = tx (uart_of w1) ++ filter (λ c, c < 128)
      (match cpu with Some i => chars " " ++ pad_left 2 (show i) | None => [] end)) as (w2 & R2 & D2 & T2).
  { destruct cpu as [i|]; [|exists w1; by rewrite app_nil_r].
    destruct (serial_print_run U B (chars " " ++ pad_left 2 (show i)) (with_world w1 s) Hr D1 Hp)
      as (w2 & ? & ? & ?). by exists w2. }
  destruct (serial_print_run U B (match file r, line r with
    | Some f, Some l => chars " " ++ f ++ chars ":" ++ show l ++ chars "] " ++ args r ++ [10]
    | _, _ => chars " " ++ args r ++ [10] end) (with_world w2 s) Hr D2 Hp) as (w3 & R3 & T3 & D3).
  exists w3. split; [|split; [|done]].
  - unfold log_to_serial. rewrite (M_bind_run (log_lock _) _ _ () s) by (unfold log_lock; by rewrite Hw).
    rewrite (M_bind_run _ _ _ _ _ R1), (M_bind_run _ _ _ _ _ R2).
    etransitivity; [|exact R3]. unfold serial_println. destruct (file r), (line r); by rewrite <-?app_assoc.
  - rewrite T3. cbn [log_world with_world] in T2 |- *. rewrite T2, T1. unfold serial_text.
    rewrite !filter_app, <-!app_assoc. done.
Qed.

(** [log] after the levels are read. *)
Lemma log_run {W} `{PortIo W} fuel cpu r serial_level graphics_level (s : LogState W) :
  SERIAL_LOG_LEVEL s = filter_usize serial_level → GRAPHICS_LOG_LEVEL s = filter_usize graphics_level →
  log fuel cpu r s =
    ((if enabled (log_level r) serial_level then log_to_serial fuel cpu r else mret ()) ≫= λ _,
     (if enabled (log_level r) graphics_level then on_console (log_graphics cpu r) else mret ())) s.
Proof.
  intros Hsl Hgl. unfold log.
  rewrite (M_bind_run (gets _) _ _ (filter_usize serial_level) s) by (unfold gets; by rewrite Hsl).
  rewrite filter_of_usize, (M_bind_run (liftr _) _ _ serial_level s) by done.
  rewrite (M_bind_run (gets _) _ _ (filter_usize graphics_level) s) by (unfold gets; by rewrite Hgl).
  by rewrite filter_of_usize, (M_bind_run (liftr _) _ _ graphics_level s) by done.
Qed.

(** What logging the records [rs] does, when nothing is locked. *)
Record logged {W} `{PortIo W} (U : Uart16550 W (com_u16 COM1)) (cpu : option Z) (rs : list LogRecord)
    (serial_level graphics_level : LevelFilter) (s s' : LogState W) : Prop := {
  lg_tx : tx (uart_of (log_world s')) = tx (uart_of (log_world s)) ++ concat (serial_part cpu serial_level <$> rs);
  lg_quiet : (∀ r, r ∈ rs → enabled (log_level r) graphics_level = false) → log_console s' = log_console s;
  lg_drawn : ∃ sgs, Forall2 (record_spelled cpu (foreground (TERM (log_console s))))
      (filter (λ r, enabled (log_level r) graphics_level = true) rs) sgs ∧
    drawn (concat sgs) (log_console s) (log_console s');
  lg_ok : console_ok (log_console s');
  lg_only : term_only (log_console s) (log_console s');
  lg_style : style (TERM (log_console s')) = style (TERM (log_console s));
  lg_dlab : dlab (uart_of (log_world s')) = false;
  lg_rest : s' = with_world (log_world s') (with_console (log_console s') s) }.

Lemma logged_app {W} `{PortIo W} (U : Uart16550 W (com_u16 COM1)) cpu rs1 rs2 serial_level graphics_level (s s1 s2 : LogState W) :
  logged U cpu rs1 serial_level graphics_level s s1 → logged U cpu rs2 serial_level graphics_level s1 s2 →
  logged U cpu (rs1 ++ rs2) serial_level graphics_level s s2.
Proof.
  intros [Htx1 Hq1 (l1 & F1 & D1) _ Ho1 Hs1 _ Hr1] [Htx2 Hq2 (l2 & F2 & D2) Hok Ho2 Hs2 Hd Hr2].
  split; [| | |done| |congruence|done|].
  - by rewrite Htx2, Htx1, fmap_app, concat_app, app_assoc.
  - intros Hl. rewrite Hq2, Hq1; [done|intros r Hr; apply Hl; set_solver..].
  - exists (l1 ++ l2). injection Hs1 as Hw Hfg Hbg. rewrite Hfg in F2.
    rewrite filter_app, concat_app. split; [by apply Forall2_app|].
    eapply drawn_app; [|exact D1|exact D2]. unfold style. congruence.
  - by eapply term_only_trans.
  - rewrite Hr2, Hr1. by destruct s.
Qed.

Lemma log_outcome {W} `{PortIo W} (U : Uart16550 W (com_u16 COM1)) B cpu r serial_level graphics_level (s : LogState W) :
  SERIAL_LOG_LEVEL s = filter_usize serial_level → GRAPHICS_LOG_LEVEL s = filter_usize graphics_level →
  ready_within COM1 B → dlab (uart_of (log_world s)) = false → held_write s = false → held_port s = false →
  console_ok (log_console s) → held_term (log_console s) = false → numbers_ok cpu r →
  ∃ s', log (S B) cpu r s = Val ((), s') ∧ logged U cpu [r] serial_level graphics_level s s'.
Proof.
  intros Hsl Hgl Hr Hd Hhw Hhp Hok Hheld Hnum.
  destruct (log_serial U B cpu r serial_level s Hr Hd Hhw Hhp) as (w' & Hser & Htx & Hd').
  rewrite <-(app_nil_r (serial_part _ _ _)) in Htx.
  rewrite (log_run _ _ _ _ _ _ Hsl Hgl), (M_bind_run _ _ _ _ _ Hser).
  destruct (enabled (log_level r) graphics_level) eqn:Hg.
  - destruct (log_graphics_keeps cpu r (log_console s) Hok Hheld) as (k & Hk & Hko & Hkt & Hks & Hdr).
    exists (with_console k (with_world w' s)). split; [unfold on_console, zoom; cbn [log_console with_world]; by rewrite Hk|].
    split; try done; [intros Hl; rewrite Hl in Hg; [done|set_solver]|].
    exists [record_segments cpu (foreground (TERM (log_console s))) r].
    rewrite filter_cons_True, filter_nil by done. cbn [concat]. rewrite app_nil_r.
    split; [constructor; [by apply record_segments_spelled|constructor]|exact Hdr].
  - exists (with_world w' s). split; [done|]. split; try done; [|apply term_only_refl].
    exists []. rewrite filter_cons_False, filter_nil by (by rewrite Hg). split; [constructor|apply drawn_none].
Qed.

(** C38 (functional). Logging returns whenever the main terminal is free and the serial port
    accepts bytes.  Of the records [rs], those at or below the serial level are
    sent on the serial port, complete, in order and with nothing in between;
    those above it are not.  Of the records those at or below the terminal's
    level are drawn on it, in order and nothing else: each the level in its own
    colour and in bold between a bracket and the number of the core, the file and
    the line (the last 50 bytes of a long path), and the text in the colour that
    was set, by [write_str]; after a panic has stopped the terminal, nothing is.
    Everything stays inside the window, and the weight and colours that were set
    before are set again after, so that logging between two prints does not show
    in the second; no lock, buffer or other static changes. *)
Theorem log_spec {W} `{PortIo W} (U : Uart16550 W (com_u16 COM1)) B cpu rs serial_level graphics_level (s : LogState W) :
  SERIAL_LOG_LEVEL s = filter_usize serial_level → GRAPHICS_LOG_LEVEL s = filter_usize graphics_level →
  ready_within COM1 B → dlab (uart_of (log_world s)) = false → held_write s = false → held_port s = false →
  console_ok (log_console s) → held_term (log_console s) = false →
  (∀ r, r ∈ rs → numbers_ok cpu r) →
  ∃ s', for_each rs (log (S B) cpu) s = Val ((), s') ∧ logged U cpu rs serial_level graphics_level s s'.
Proof.
  intros Hsl Hgl Hr Hd Hhw Hhp Hok Hheld Hnum. revert s Hsl Hgl Hd Hhw Hhp Hok Hheld.
  induction rs as [|r rs IH]; intros s Hsl Hgl Hd Hhw Hhp Hok Hheld.
  - exists s. split; [done|]. split; try done; [by rewrite app_nil_r| |apply term_only_refl|by destruct s].
    exists []. split; [constructor|apply drawn_none].
  - assert (numbers_ok cpu r ∧ ∀ r0, r0 ∈ rs → numbers_ok cpu r0) as [Hn Hrs] by (split; [|intros r0 Hr0]; apply Hnum; set_solver). destruct (log_outcome U B cpu r serial_level graphics_level s) as (s1 & Hrun & Hl); [done..|].
    pose proof Hl as [_ _ _ Hok1 [_ _ _ Ht] _ Hd1 Hs1].
    destruct (IH Hrs s1) as (s2 & Hrun2 & Hl2);
      [by rewrite Hs1|by rewrite Hs1|done|by rewrite Hs1|by rewrite Hs1|done|by rewrite Ht|].
    exists s2. split; [cbn [for_each]; by rewrite (M_bind_run _ _ _ _ _ Hrun)|].
    by apply (logged_app U cpu [r] rs _ _ s s1 s2).
Qed.

(** The first call of [init_logging] sets both levels, whatever they were, and
    logs a first record at them; a second call panics. *)
Theorem init_logging_spec {W} `{PortIo W} (U : Uart16550 W (com_u16 COM1)) B cpu serial_level graphics_level (s : LogState W) :
  ready_within COM1 B → dlab (uart_of (log_world s)) = false → held_write s = false → held_port s = false →
  console_ok (log_console s) → held_term (log_console s) = false → numbers_ok cpu first_record →
  (∃ s', init_logging (Ok ()) (S B) cpu serial_level graphics_level s = Val ((), s') ∧
    logged U cpu [first_record] serial_level graphics_level
      (with_levels (filter_usize serial_level) (filter_usize graphics_level) s) s') ∧
  init_logging (Err ()) (S B) cpu serial_level graphics_level s = Fault Unwrap.
Proof.
  intros Hr Hd Hhw Hhp Hok Hheld Hnum. split; [|done].
  unfold init_logging, set_serial_log_level, set_graphics_log_level.
  do 2 rewrite (M_bind_run (modify _) _ _ _ _ eq_refl). cbn -[log first_record].
  by apply (log_outcome U B).
Qed.
End Spec.
