(* ===== verification/LoggingDemo.v ===== *)
(** * A logged record

    The record of a warning on the small screen of [TermDemo] and the serial
    port of [Serial.SerialDemo]. *)

From Stdlib Require Import String.
From S2P Require Import Prelude Format Ports Serial Terminal TermDemo Console ConsoleSpec ConsoleDemo Logging.

#[local] Existing Instance SerialDemo.demo_ports.

Definition demo_record : LogRecord :=
  mkRecord Warn (Some (chars "kernel/src/smp.rs")) (Some 61) (chars "Hi").

(** [[WARN  2 kernel/src/smp.rs:61] Hi] *)
Example serial_text_demo :
  serial_text (Some 2) demo_record = (chars "[WARN   2 kernel/src/smp.rs:61] Hi" ++ [10])%list.
Proof. by vm_compute. Qed.

Definition demo_log : LogState SerialDemo.world := mkLog demo_console SerialDemo.idle 5 2 false false.

Lemma demo_console_ok : console_ok demo_console.
Proof. split; [apply full_term_ok, demo_text_screen..|done]. Qed.

Lemma demo_numbers r : r ∈ [demo_record; first_record] → numbers_ok (Some 2) r.
Proof.
  intros [->| ->%list_elem_of_singleton]%elem_of_cons; split; intros ? [= <-]; lia.
Qed.

(** The warning is drawn, the second record, a debug message, is not. *)
Lemma log_spec_witness :
  ∃ s' sgs, for_each [demo_record; first_record] (log 2 (Some 2)) demo_log = Val ((), s') ∧
    Forall2 (record_spelled (Some 2) (foreground (TERM demo_console))) [demo_record] sgs ∧
    drawn (concat sgs) demo_console (log_console s') ∧
    style (TERM (log_console s')) = style (TERM demo_console) ∧
    term_only demo_console (log_console s').
Proof.
  destruct (log_spec SerialDemo.demo_uart 1 (Some 2) [demo_record; first_record] (UpTo Trace) (UpTo Warn) demo_log eq_refl eq_refl
    SerialDemo.demo_ready eq_refl eq_refl eq_refl demo_console_ok eq_refl demo_numbers)
    as (s' & Hr & [_ _ (sgs & Hs & Hd) _ Ht Hst _ _]).
  exists s', sgs. exact (conj Hr (conj Hs (conj Hd (conj Hst Ht)))).
Defined.

(** Its segments. *)
Example segments_demo :
  record_segments (Some 2) (mkColor 1 2 3) demo_record =
    [mkSegment Light (mkColor 1 2 3) (chars "["); mkSegment Bold (mkColor 255 200 0) (chars "WARN ");
     mkSegment Bold (mkColor 1 2 3) (chars "  2"); mkSegment Light (mkColor 1 2 3) (chars " kernel/src/smp.rs:61");
     mkSegment Light (mkColor 1 2 3) (chars "] - "); mkSegment Regular (mkColor 1 2 3) (chars "Hi" ++ [10])].
Proof. by vm_compute. Qed.
