(* ===== verification/Tester.v ===== *)
(** * The test runner (src/kernel/src/tester.rs)

    In a test build the boot processor runs the registered tests and reports a
    verdict to QEMU's debug-exit device.  The test blocks are parameters: a
    block panics when its run faults.  Output is left out. *)

From S2P Require Import Prelude.

Inductive QemuExitCode := Success | Failed.
Definition exit_code_u32 (c : QemuExitCode) : Z := match c with Success => 0x10 | Failed => 0x11 end.

#[export] Instance QemuExitCode_eq_dec : EqDecision QemuExitCode.
Proof. solve_decision. Defined.

(** The port, and the 32-bit value written to it. *)
Definition exit_qemu (exit_code : QemuExitCode) : Z * Z := (0xf4, exit_code_u32 exit_code).

Record Tester := mkTester { number_of_tests : Z; counter : Z }.

Section Runner.
Context `{Profile} {W : Type}.

Definition start_test : M Tester () := λ t,
  match arith 32 (counter t + 1) with
  | Val c => Val ((), mkTester (number_of_tests t) c)
  | Fault f => Fault f
  end.

(** What the [test!] macro makes of a block. *)
Definition test_fn (block : M W ()) : M (Tester * W) () :=
  zoom fst (λ t s, (t, snd s)) start_test ≫= λ _,
  zoom snd (λ w s, (fst s, w)) block.

(** [Some] code if it exits, [None] if it returns. *)
Definition run_tests (TESTS : list (M W ())) : M W (option QemuExitCode) :=
  let n := Z.of_nat (length TESTS) `mod` 2 ^ 32 in
  if n =? 0 then mret None else
  zoom (λ w, (mkTester n 0, w)) (λ s _, snd s) (for_each (rev TESTS) test_fn) ≫= λ _,
  mret (Some Success).

(** The faults that reach the panic handler: a page fault does so through the
    handler of the exception. *)
Definition is_panic (f : fault) : bool :=
  match f with Undefined | NoFuel => false | _ => true end.

(** [bsp_test_main], with the [panic] handler of the test build: the code QEMU
    is told, if any. *)
Definition bsp_test_main (TESTS : list (M W ())) (w : W) : option QemuExitCode :=
  match run_tests TESTS w with
  | Val (o, _) => o
  | Fault f => if is_panic f then Some Failed else None
  end.

(** [same!] and [different!], for the equality of a type. *)
Definition same {A} `{EqDecision A} (a b : A) : res () := ass (bool_decide (a = b)).
Definition different {A} `{EqDecision A} (a b : A) : res () := ass (negb (bool_decide (a = b))).

(** [assertion_test] *)
Definition assertion_test : M W () :=
  liftr (ass (5 =? 5)) ≫= λ _,
  liftr (ass (5 =? 3 + 2)) ≫= λ _,
  liftr (same 5 (3 + 2)) ≫= λ _,
  liftr (ass (5 >? 3 + 1)) ≫= λ _,
  liftr (ass (5 - 4 <? 3 + 1)) ≫= λ _,
  liftr (ass (existsb (λ e, e >? 2) [0; 1; 2; 3])) ≫= λ _,
  liftr (different [97] [98]).

(** ** Properties *)

(** The tests count themselves; the counter does not change what they do. *)
Lemma run_test_fns (tests : list (M W ())) n c w :
  0 ≤ c → c + Z.of_nat (length tests) < 2 ^ 32 →
  for_each tests test_fn (mkTester n c, w) =
    match for_each tests id w with
    | Val (_, w') => Val ((), (mkTester n (c + Z.of_nat (length tests)), w'))
    | Fault f => Fault f
    end.
Proof.
  revert c w. induction tests as [|t tests IH]; intros c w Hc Hlt.
  - cbn. by rewrite Z.add_0_r.
  - cbn [length] in *. rewrite Nat2Z.inj_succ in *. cbn [for_each].
    assert (test_fn t (mkTester n c, w) =
      match t w with Val (_, w') => Val ((), (mkTester n (c + 1), w')) | Fault f => Fault f end) as Ht.
    { unfold test_fn. rewrite (M_bind_run _ _ _ () (mkTester n (c + 1), w)).
      - unfold zoom. cbn. by destruct (t w) as [[[] ?]|].
      - unfold zoom, start_test. cbn. by rewrite arith_in by lia. }
    unfold id at 1. destruct (t w) as [[[] w1]|f] eqn:Hw.
    + rewrite (M_bind_run _ _ _ _ _ Ht), (M_bind_run _ _ _ _ _ Hw). rewrite IH by lia.
      by replace (c + 1 + Z.of_nat (length tests)) with (c + Z.succ (Z.of_nat (length tests))) by lia.
    + by rewrite (M_bind_fault _ _ _ _ Ht), (M_bind_fault _ _ _ _ Hw).
Qed.

(** The verdict of a test build is right: it is a success exactly when there is
    a test and all of them, run from the last registered to the first, pass,
    each on the state the one before left; it is a failure exactly when one of
    them panics.  Without a test there is no verdict at all. *)
Theorem tests_verdict (TESTS : list (M W ())) (w : W) :
  Z.of_nat (length TESTS) < 2 ^ 32 →
  (bsp_test_main TESTS w = Some Success ↔ TESTS ≠ [] ∧ ∃ w', for_each (rev TESTS) id w = Val ((), w')) ∧
  (bsp_test_main TESTS w = Some Failed ↔ ∃ f, for_each (rev TESTS) id w = Fault f ∧ is_panic f = true).
Proof.
  intros Hlen. unfold bsp_test_main, run_tests. rewrite Z.mod_small by lia.
  destruct (decide (TESTS = [])) as [->|Hne].
  - cbn. split; (split; [done|]); [by intros [? _]|by intros (? & ? & _)].
  - rewrite (proj2 (Z.eqb_neq _ 0)) by (destruct TESTS; [done|cbn; lia]).
    unfold mbind, M_bind, zoom. rewrite run_test_fns by (rewrite ?length_rev; lia).
    destruct (for_each (rev TESTS) id w) as [[[] w']|f]; cbn.
    + split; split; [by eauto|done|done|by intros (? & ? & _)].
    + destruct (is_panic f) eqn:Hf; (split; [split; [done|by intros (_ & ? & ?)]|split; [by eauto|]]);
        [done|intros (f' & Heq & Hf'); congruence].
Qed.
End Runner.
