(* ===== verification/Panic.v ===== *)
(** * The panic handlers (src/kernel/src/main.rs, tester.rs)

    A panic is reported twice: on the screen by [panic_print], which works around
    the locks that the panicking core may hold, and by a record of the logger,
    which takes them.  Then the core stops, or, in a test build, tells QEMU that
    the tests failed.  [info] is the text of the [PanicInfo]. *)

From Stdlib Require Import String.
From S2P Require Import Prelude Bytes Format Ports Serial Terminal TermSpec Console ConsoleSpec Logging Tester.

Section Handlers.
Context `{Profile} `{Screen} `{Font} {W : Type} `{PortIo W}.

(** The closure that both handlers give to [panic_print]. *)
Definition panic_message (info : list Z) : M TermState () :=
  modify (λ s, mkTS (with_colors (mkColor 0xFF 0x00 0x00) (mkColor 0x70 0x70 0x00)
    (clear_color (term s)) (font_weight (term s)) (term s)) (vram s)) ≫= λ _,
  Terminal.write_str ([10] ++ info ++ [10]).

(** The handlers up to where they differ; [file], [line] is the place of the
    [log::error!]. *)
Definition panic_report (free : nat → bool) (fuel : nat) (cpu : option Z) (file : list Z) (line : Z)
    (info : list Z) : M (LogState W) () :=
  on_console (panic_print free (panic_message info)) ≫= λ _,
  log fuel cpu (mkRecord Error (Some file) (Some line) ([10; 9] ++ info)).

(** [loop {}] *)
Definition forever {S A} : M S A := liftr (Fault NoFuel).

(** The handler of main.rs never returns. *)
Definition panic (free : nat → bool) (fuel : nat) (cpu : option Z) (info : list Z) : M (LogState W) False :=
  panic_report free fuel cpu (chars "kernel/src/main.rs") 143 info ≫= λ _, forever.

(** The handler of tester.rs, up to the write that ends QEMU. *)
Definition test_panic (free : nat → bool) (fuel : nat) (cpu : option Z) (info : list Z) : M (LogState W) (Z * Z) :=
  panic_report free fuel cpu (chars "kernel/src/tester.rs") 95 info ≫= λ _, mret (exit_qemu Failed).
End Handlers.

(** ** Properties *)

Section Spec.
Context `{Profile} `{Screen} `{FontLaws}.

(** [m] runs on a console where a panic has stopped printing, and draws nothing. *)
Definition quiet (m : M Console ()) : Prop := ∀ s,
  PANICKED_STOP_PRINTING s = true →
  ∃ s', m s = Val ((), s') ∧ PANICKED_STOP_PRINTING s' = true ∧ screen s' = screen s.

Lemma quiet_bind m1 m2 : quiet m1 → quiet m2 → quiet (m1 ≫= λ _, m2).
Proof.
  intros Hm1 Hm2 s Hs. destruct (Hm1 s Hs) as (s1 & R1 & P1 & V1). destruct (Hm2 s1 P1) as (s2 & R2 & P2 & V2).
  exists s2. rewrite (M_bind_run _ _ _ _ _ R1). split_and!; congruence.
Qed.

Lemma quiet_print text : quiet (Stdout_print text).
Proof. intros s Hs. exists s. split_and!; [by apply panicked_quiet|done..]. Qed.

Lemma quiet_update g : quiet (update_term g).
Proof. intros s Hs. by eexists. Qed.

Lemma quiet_mret : quiet (mret ()).
Proof. intros s Hs. by exists s. Qed.

(** The logger after a panic: it waits for the main terminal, and draws
    nothing. *)
Lemma quiet_log_graphics cpu r s :
  PANICKED_STOP_PRINTING s = true →
  if held_term s then log_graphics cpu r s = Fault NoFuel
  else ∃ s', log_graphics cpu r s = Val ((), s') ∧ screen s' = screen s.
Proof.
  intros Hs. unfold log_graphics, acquire, lock. destruct (held_term s) eqn:Hh.
  - apply M_bind_fault. by rewrite Hh.
  - rewrite (M_bind_run _ _ _ () s) by by rewrite Hh.
    rewrite (M_bind_run get_foreground _ _ _ _ eq_refl), (M_bind_run get_background _ _ _ _ eq_refl),
      (M_bind_run get_font_weight _ _ _ _ eq_refl).
    assert (∀ fg bg font, quiet (log_styled cpu r fg bg font)) as Hq.
    { intros fg bg font. unfold log_styled, set_foreground, set_background, set_font_weight.
      repeat first [apply quiet_bind | apply quiet_update | apply quiet_print].
      destruct cpu; [apply quiet_print|apply quiet_mret]. }
    destruct (Hq (foreground (TERM s)) (background (TERM s)) (font_weight (TERM s)) s Hs) as (s' & Hr & _ & Hv).
    by exists s'.
Qed.

(** The message leaves a usable terminal. *)
Lemma keeps_message info : keeps (panic_message info).
Proof.
  intros [t v] Ht Hp. set (t1 := with_colors (mkColor 0xFF 0x00 0x00) (mkColor 0x70 0x70 0x00) (clear_color t) (font_weight t) t).
  assert (term_ok t1 ∧ pos_ok t1) as [Ht1 Hp1].
  { destruct Ht, Hp. split; split; try done. }
  destruct (confined_keeps _ (confined_write_str ([10] ++ info ++ [10])) (mkTS t1 v) Ht1 Hp1) as (s' & Hr & Hu & Ho).
  exists s'. split_and!; [exact Hr|exact Hu|exact Ho].
Qed.

(** The record after the message, on the console [k] that the message leaves:
    on the serial port first, and then stopped by a held terminal. *)
Lemma record_after_message {W} `{PortIo W} (U : Uart16550 W (com_u16 COM1)) B cpu r serial_level graphics_level
    (s : LogState W) :
  PANICKED_STOP_PRINTING (log_console s) = true → log_level r = Error →
  SERIAL_LOG_LEVEL s = filter_usize serial_level → GRAPHICS_LOG_LEVEL s = filter_usize graphics_level →
  ready_within COM1 B → dlab (uart_of (log_world s)) = false → held_write s = false → held_port s = false →
  ∃ w', tx (uart_of w') = tx (uart_of (log_world s)) ++ serial_part cpu serial_level r ∧
    log (S B) cpu r s =
      (if enabled Error graphics_level then on_console (log_graphics cpu r) else mret ()) (with_world w' s) ∧
    if enabled Error graphics_level && held_term (log_console s) then log (S B) cpu r s = Fault NoFuel
    else ∃ s', log (S B) cpu r s = Val ((), s') ∧
      log_world s' = w' ∧ screen (log_console s') = screen (log_console s).
Proof.
  intros Hp Hlvl Hsl Hgl Hr Hd Hw Hport.
  destruct (log_serial U B cpu r serial_level s Hr Hd Hw Hport) as (w' & Hser & Htx & _).
  rewrite (log_run _ _ _ _ _ _ Hsl Hgl), (M_bind_run _ _ _ _ _ Hser), Hlvl.
  exists w'. split_and!; [done|done|]. pose proof (quiet_log_graphics cpu r (log_console s) Hp) as Hq.
  unfold on_console, zoom. destruct (enabled Error graphics_level); [|by eexists]. cbn [andb].
  change (log_console (with_world w' s)) with (log_console s).
  destruct (held_term (log_console s)); [by rewrite Hq|]. destruct Hq as (k' & -> & Hv). by eexists.
Qed.

(** Both handlers, up to where they differ, from the two halves. *)
Lemma panic_report_run {W} `{PortIo W} free fuel cpu file line info (s : LogState W) k :
  panic_print free (panic_message info) (log_console s) = Val ((), k) →
  panic_report free fuel cpu file line info s =
    log fuel cpu (mkRecord Error (Some file) (Some line) ([10; 9] ++ info)) (with_console k s).
Proof.
  intros Hk. unfold panic_report. by rewrite (M_bind_run _ _ _ () (with_console k s)) by
    (unfold on_console, zoom; by rewrite Hk).
Qed.

(** Red on a dark yellow. *)
Definition in_panic_colors (t : TerminalWriter) : TerminalWriter :=
  with_colors (mkColor 255 0 0) (mkColor 112 112 0) (clear_color t) (font_weight t) t.


(** A test build that panics with the main terminal locked prints its message
    and its record, but never tells QEMU that the tests failed. *)
Theorem test_panic_verdict {W} `{PortIo W} (U : Uart16550 W (com_u16 COM1)) B fi base free cpu info
    serial_level graphics_level (s : LogState W) :
  framebuffer = Some (fi, base) → text_screen fi → panic_ready fi base (log_console s) →
  SERIAL_LOG_LEVEL s = filter_usize serial_level → GRAPHICS_LOG_LEVEL s = filter_usize (UpTo graphics_level) →
  ready_within COM1 B → dlab (uart_of (log_world s)) = false → held_write s = false → held_port s = false →
  if held_term (log_console s) then test_panic free (S B) cpu info s = Fault NoFuel
  else ∃ s', test_panic free (S B) cpu info s = Val (exit_qemu Failed, s').
Proof.
  intros Hfb Hts Hready Hsl Hgl Hr Hd Hw Hport.
  destruct (panic_keeps fi base free (panic_message info) (log_console s) Hfb Hts Hready (keeps_message info))
    as (k & Hrun & _ & _ & _ & Hp & Hht).
  destruct (record_after_message U B cpu (mkRecord Error (Some (chars "kernel/src/tester.rs")) (Some 95)
    ([10; 9] ++ info)) serial_level (UpTo graphics_level) (with_console k s) Hp eq_refl)
    as (w' & _ & _ & Hend); [done..|].
  assert (enabled Error (UpTo graphics_level) = true) as Hen by by destruct graphics_level.
  rewrite Hen in Hend. cbn [andb log_console with_console] in Hend. rewrite Hht in Hend.
  rewrite <-(panic_report_run _ _ _ _ _ _ _ _ Hrun) in Hend. unfold test_panic.
  destruct (held_term (log_console s)); [by apply M_bind_fault|].
  destruct Hend as (s' & Hrep & _). exists s'. by rewrite (M_bind_run _ _ _ _ _ Hrep).
Qed.
End Spec.
