(* ===== verification/PanicDemo.v ===== *)
(** * A panic on the small screen

    The core of [ConsoleDemo.stuck_console] holds the main terminal and the locks
    of the buffers when it panics. *)

From Stdlib Require Import String.
From S2P Require Import Prelude Format Ports Serial Terminal TermSpec TermDemo Console ConsoleSpec ConsoleDemo Logging Tester Panic.

#[local] Existing Instance SerialDemo.demo_ports.
#[local] Existing Instance SerialDemo.demo_uart.

Definition stuck_log : LogState SerialDemo.world := mkLog stuck_console SerialDemo.idle 5 5 false false.
Definition free_log : LogState SerialDemo.world := mkLog demo_console SerialDemo.idle 5 5 false false.

Lemma stuck_ready : panic_ready demo_fb 4096 stuck_console.
Proof. split; try done. by intros ? [= <-]. Qed.

Lemma demo_panic_ready : panic_ready demo_fb 4096 demo_console.
Proof. split; try done. by intros ? [= <-]. Qed.


Lemma test_panic_verdict_witness :
  (∃ s', test_panic (λ _, false) 2 (Some 2) (chars "Boom") free_log = Val ((0xf4, 0x11), s')) ∧
  test_panic (λ _, false) 2 (Some 2) (chars "Boom") stuck_log = Fault NoFuel.
Proof.
  split.
  - exact (test_panic_verdict SerialDemo.demo_uart 1 demo_fb 4096 (λ _, false) (Some 2) (chars "Boom") (UpTo Trace)
      Trace free_log eq_refl demo_text_screen demo_panic_ready eq_refl eq_refl SerialDemo.demo_ready eq_refl eq_refl eq_refl).
  - exact (test_panic_verdict SerialDemo.demo_uart 1 demo_fb 4096 (λ _, false) (Some 2) (chars "Boom") (UpTo Trace)
      Trace stuck_log eq_refl demo_text_screen stuck_ready eq_refl eq_refl SerialDemo.demo_ready eq_refl eq_refl eq_refl).
Defined.
