(* ===== verification/Boot.v ===== *)
(** * Setting up a core (src/kernel/src/main.rs, acpi.rs, apic.rs, smp.rs)

    The order in which [kernel_main] and [ap_entry_fn] set up the local APIC and
    the core's own data, and the ACPI tables the boot processor starts from.
    Barriers and the enabling of interrupts are in Cores.v; logging is left out. *)

From S2P Require Import Prelude Constants Platform Ports Bitfield Pit Apic.

(** ** ACPI *)

(** What the acpi crate reads from the tables. *)
Inductive ProcessorState := Disabled | WaitingForSipi | Running.
Record Processor := mkProcessor { state : ProcessorState; is_ap : bool }.
Inductive InterruptModel := ApicModel (local_apic_address : Z) | OtherModel.
Record PlatformInfo := mkPlatform {
  interrupt_model : InterruptModel;
  application_processors : option (list Processor) }.

(** [AcpiTables::from_rsdp] followed by [platform_info]; [None] is an error of
    either. *)
Class AcpiTables := platform_info : Z → option PlatformInfo.

#[export] Instance ProcessorState_eq_dec : EqDecision ProcessorState.
Proof. solve_decision. Defined.

(** The tables are known by the address they were read from. *)
Record Acpi := mkAcpi { acpi_tables : Z; local_apic_ptr : Z; ap_count : Z }.

Section Acpi.
Context `{Profile} `{X86Addr} `{Boot} `{AcpiTables}.

Definition counted (e : Processor) : bool := negb (bool_decide (state e = Disabled)) && is_ap e.

(** The processors it logs, one record for each. *)
Definition log_proccessor_info (s : Acpi) : res (list Processor) :=
  unwrap (platform_info (acpi_tables s)) ≫= λ platform_info,
  unwrap (application_processors platform_info).

Definition Acpi_new (rsdp_addr : option Z) : res Acpi :=
  unwrap rsdp_addr ≫= λ rsdp,
  unwrap (platform_info rsdp) ≫= λ info,
  (match interrupt_model info with ApicModel a => Val a | OtherModel => Fault Explicit end) ≫= λ local_apic_address,
  unwrap (application_processors info) ≫= λ processors,
  physical_memory_offset ≫= λ off,
  add64 off local_apic_address ≫= λ ptr,
  let s := mkAcpi rsdp ptr (Z.of_nat (length (filter (λ e, counted e = true) processors))) in
  log_proccessor_info s ≫= λ _,
  Val s.

(** [map_physical_region]: the pointer of the mapping it returns. *)
Definition map_physical_region (physical_address : Z) : res Z :=
  physical_memory_offset ≫= λ offset,
  add64 physical_address offset ≫= λ p,
  unwrap (if p =? 0 then None else Some p).
End Acpi.

(** ** Cores *)

Section Cores.
Context `{Profile} `{Bitfield} {W F Stuff : Type} `{PortIo W} `{Mmio W}.

(** [kernel_main]: the steps on the local APIC and the core's data. *)
Definition bsp_setup (fuel : nat) (acpi : Acpi) : M (Sys W F Stuff) () :=
  create (local_apic_ptr acpi) ≫= λ _,
  initialize_own_core_local_data (default_cld 0) ≫= λ _,
  init fuel.

(** [ap_entry_fn]: the same. *)
Definition ap_setup (fuel : nat) (ap_index : Z) : M (Sys W F Stuff) () :=
  liftr (add64 ap_index 1) ≫= λ cpu_index,
  initialize_own_core_local_data (default_cld cpu_index) ≫= λ _,
  init fuel.
End Cores.

Section Spec.
Context `{Profile} `{BitfieldLaws} {W F Stuff : Type} `{PitDevice W} `{Mmio W} (apic i : Z) `{!CoreId apic i}.

Implicit Types (s : Sys W F Stuff) (c : CoreLocalData F Stuff).

(** The world when the calibration starts, with the task priority and the
    spurious vector set and the timer counting down from its maximum. *)
Definition calibrating (w : W) : W :=
  write_volatile (offset apic Offset.TimerInitialCount) 0xffffffff
    (write_volatile (offset apic Offset.TimerDivideConfiguration) 3
      (write_volatile (offset apic Offset.SpuriousInterruptVector) 0x11ff
        (write_volatile (offset apic Offset.TaskPriority) 0 w))).

(** The timer is masked after the delay, then its count is read. *)
Definition masked (w : W) : W := write_volatile (offset apic Offset.TimerLocalVectorTableEntry) (Z.shiftl 1 16) w.
Definition count_read (w : W) : Z * W := read_volatile (offset apic Offset.TimerCurrentCount) (masked w).

Definition cld_calibrated (count : Z) c : CoreLocalData F Stuff := set_ticks ((0xffffffff - count) * 20) c.

(** [init] on a core with its own data [c]. *)
Lemma init_run s c :
  at_core apic i s c →
  ∃ n, 59659 ≤ since (programmed 50000 (calibrating (world s))) n ∧
    let w1 := polls (S n) (programmed 50000 (calibrating (world s))) in
    let '(count, w2) := count_read w1 in
    0 ≤ count ≤ 0xffffffff →
    ∀ fuel, (n < fuel)%nat → init fuel s =
      if count =? 0xffffffff then Fault Unwrap
      else Val ((), with_cld i (put_world w2 s) (cld_calibrated count c)).
Proof.
  intros Hc. destruct (delay_in_range 50000 (calibrating (world s)) ltac:(lia)) as (n & Hn & _ & Hd).
  exists n. split; [exact Hn|]. cbv zeta. destruct (count_read _) as [count w2] eqn:Hcount.
  intros Hrange fuel Hf. pose proof Hc as [Hp _].
  unfold init. rewrite (M_bind_run _ _ _ apic s).
  2:{ unfold get_apic. by rewrite (M_bind_run _ _ _ (Some apic) s) by (unfold gets; by rewrite Hp). }
  unfold apic_init, init_timer. do 4 (erewrite M_bind_run by apply write_run). cbn [world put_world].
  erewrite (M_bind_run (on_world _)).
  2:{ unfold on_world, zoom. cbn [world put_world]. fold (calibrating (world s)). by rewrite Hd. }
  cbv beta iota. erewrite M_bind_run by apply write_run. cbn [world put_world].
  set (s1 := put_world w2 s).
  erewrite (M_bind_run (read apic _) _ _ count s1).
  2:{ unfold read, on_world, zoom. cbn [world put_world]. fold (masked (polls (S n) (programmed 50000 (calibrating (world s))))).
      unfold count_read in Hcount. by rewrite Hcount. }
  m_step.
  m_step.
  destruct (Z.eqb_spec count 0xffffffff) as [->|Hne]; [done|].
  rewrite (proj2 (Z.eqb_neq _ 0)) by lia. rewrite (M_bind_run _ _ _ () s1) by done.
  by rewrite (update_cld_run apic i s1 c).
Qed.

(** A core sets itself up exactly when its timer counted during the 50 ms: it
    finds the calibration in its own slot, the only one that changes, under the
    number the boot protocol gave it (0 for the boot processor, which also
    publishes the registers' address). *)
Theorem core_setup_spec s (acpi : Acpi) (ap : option Z) :
  CORE_LOCAL s !! Z.to_nat i = Some None →
  match ap with
  | None => LOCAL_APIC_PTR s = None ∧ local_apic_ptr acpi = apic
  | Some ap_index => LOCAL_APIC_PTR s = Some apic ∧ 0 ≤ ap_index < 2 ^ 64 - 1
  end →
  ∃ n, 59659 ≤ since (programmed 50000 (calibrating (world s))) n ∧
    let '(count, w2) := count_read (polls (S n) (programmed 50000 (calibrating (world s)))) in
    0 ≤ count ≤ 0xffffffff →
    ∀ fuel, (n < fuel)%nat →
      match ap with None => bsp_setup fuel acpi s | Some ap_index => ap_setup fuel ap_index s end =
        if count =? 0xffffffff then Fault Unwrap
        else Val ((), mkSys w2
          (<[Z.to_nat i := Some (mkCld None (match ap with None => 0 | Some ap_index => ap_index + 1 end)
              (Some ((0xffffffff - count) * 20)) None None)]> (CORE_LOCAL s)) (Some apic)).
Proof.
  intros Hslot Hap. set (index := match ap with None => 0 | Some ap_index => ap_index + 1 end).
  set (s0 := mkSys (world s) (CORE_LOCAL s) (Some apic)).
  destruct (init_run (with_cld i s0 (default_cld index)) (default_cld index)) as (n & Hn & Hrun).
  { split; [done|]. apply list_lookup_insert_eq. by eapply lookup_lt_Some. }
  exists n. split; [exact Hn|]. cbv zeta in Hrun. destruct (count_read _) as [count w2].
  intros Hc fuel Hf. specialize (Hrun Hc fuel Hf).
  assert (initialize_own_core_local_data (default_cld index) s0 = Val ((), with_cld i s0 (default_cld index))) as Hown.
  { unfold initialize_own_core_local_data. rewrite (M_bind_run _ _ _ _ _ (own_id_run apic i s0 eq_refl)).
    rewrite (M_bind_run _ _ _ (CORE_LOCAL s0) s0) by done. cbn [s0 CORE_LOCAL]. by rewrite Hslot. }
  assert (with_cld i (put_world w2 (with_cld i s0 (default_cld index))) (cld_calibrated count (default_cld index)) =
    mkSys w2 (<[Z.to_nat i := Some (mkCld None index (Some ((0xffffffff - count) * 20)) None None)]> (CORE_LOCAL s)) (Some apic)) as <-.
  { unfold with_cld, put_world, put_local. cbn. by rewrite list_insert_insert_eq. }
  destruct ap as [ap_index|]; destruct Hap as [Hp Hx].
  - assert (s = s0) as Hs by (unfold s0; by rewrite <-Hp; destruct s). rewrite Hs. unfold ap_setup.
    rewrite (M_bind_run _ _ _ index s0) by (apply liftr_run, arith_in; subst index; lia).
    by rewrite (M_bind_run _ _ _ _ _ Hown).
  - unfold bsp_setup. rewrite (M_bind_run _ _ _ () s0) by (unfold create, modify; by rewrite Hp, Hx).
    by rewrite (M_bind_run _ _ _ _ _ Hown).
Qed.
End Spec.
