(* ===== verification/BootCheck.v ===== *)
(** * What the boot loader hands over ([assert_boot_info] of src/kernel/src/main.rs)

    The checks the kernel makes before it relies on the mappings of the boot
    loader, and what they are for: the framebuffer, the ram disk and the mapping
    of the physical memory lie in the kernel's part of the address space, which
    every application's space shares. *)

From S2P Require Import Prelude Constants Platform Paging Memory AddressSpace MapPages Isolation RamDisk Terminal.

#[local] Arguments v.KERNEL_DYNAMIC_START : simpl never.
#[local] Arguments v.KERNEL_DYNAMIC_END : simpl never.
#[local] Arguments assert_soundness : simpl never.

(** ** The boot loader's configuration

    The fields that [BOOTLOADER_CONFIG] sets; the others keep their defaults. *)
Inductive Mapping := Dynamic | FixedAddress (a : Z).
Record BootloaderConfig := mkConfig {
  physical_memory : option Mapping;
  kernel_stack_size : Z;
  dynamic_range_start : option Z;
  dynamic_range_end : option Z }.

Definition BOOTLOADER_CONFIG : BootloaderConfig := mkConfig
  (Some Dynamic) KERNEL_STACK_SIZE (Some v.KERNEL_DYNAMIC_START) (Some v.KERNEL_DYNAMIC_END).

(** What the boot loader documents of a dynamic mapping at [a]: the two fields
    are the lowest and the highest address that it uses for those. *)
Definition dynamic_mapping (config : BootloaderConfig) (a : Z) : Prop :=
  (∀ lo, dynamic_range_start config = Some lo → lo ≤ a) ∧ (∀ hi, dynamic_range_end config = Some hi → a ≤ hi).

Section Check.
Context `{Profile} `{X86Addr} `{Boot} `{Crc32} `{Screen}.

(** [FrameBuffer::buffer] has this many bytes; the memory of the ram disk. *)
Context (buffer_len : Z) (disk : list Z).

(** The checks of the addresses. *)
Definition assert_mappings : res () :=
  unwrap (bi_physical_memory_offset boot_info) ≫= λ _,
  unwrap framebuffer ≫= λ '(info, buffer),
  ass (buffer_len =? fb_byte_len info) ≫= λ _,
  ass (buffer >? v.KERNEL_DYNAMIC_START) ≫= λ _,
  ass (default 0 (bi_ramdisk_addr boot_info) >? v.KERNEL_DYNAMIC_START) ≫= λ _,
  ass (default 0 (bi_physical_memory_offset boot_info) >? v.KERNEL_DYNAMIC_START) ≫= λ _,
  ass (buffer <? v.KERNEL_DYNAMIC_END) ≫= λ _,
  unwrap (bi_ramdisk_addr boot_info) ≫= λ ramdisk_addr,
  ass (ramdisk_addr <? v.KERNEL_DYNAMIC_END) ≫= λ _,
  unwrap (bi_physical_memory_offset boot_info) ≫= λ physical_memory_offset,
  ass (physical_memory_offset <? v.KERNEL_DYNAMIC_END).

Definition assert_boot_info : res () :=
  assert_mappings ≫= λ _, assert_soundness (bi_ramdisk_addr boot_info) disk.

Definition in_dynamic_range (a : Z) : Prop := v.KERNEL_DYNAMIC_START < a < v.KERNEL_DYNAMIC_END.

(** The check passes exactly when everything is there, in its place. *)
Lemma assert_boot_info_ok :
  assert_boot_info = Val () ↔
  ∃ info buffer ramdisk offset,
    framebuffer = Some (info, buffer) ∧ bi_ramdisk_addr boot_info = Some ramdisk ∧
    bi_physical_memory_offset boot_info = Some offset ∧
    buffer_len = fb_byte_len info ∧
    (∀ a, a ∈ [buffer; ramdisk; offset] → in_dynamic_range a) ∧
    assert_soundness (Some ramdisk) disk = Val ().
Proof.
  unfold assert_boot_info, assert_mappings. split.
  - destruct (bi_physical_memory_offset boot_info) as [offset|]; [|done].
    destruct framebuffer as [[info buffer]|]; [|done]. destruct (bi_ramdisk_addr boot_info) as [ramdisk|]; [|by intros Hs; res_inv].
    intros Hs. res_inv. do 4 eexists.
    repeat match goal with
    | H : (_ =? _) = true |- _ => apply Z.eqb_eq in H
    | H : (_ >? _) = true |- _ => apply Z.gtb_gt in H
    | H : (_ <? _) = true |- _ => apply Z.ltb_lt in H
    end. cbn in *.
    split_and!; [reflexivity..|done| |eassumption]. intros a Ha. rewrite !elem_of_cons, elem_of_nil in Ha. unfold in_dynamic_range. lia.
  - intros (info & buffer & ramdisk & offset & -> & -> & -> & -> & Ha & Hs).
    pose proof (Ha buffer ltac:(left)) as Hb. pose proof (Ha ramdisk ltac:(right; left)) as Hd.
    pose proof (Ha offset ltac:(right; right; left)) as Ho.
    cbn [unwrap mbind res_bind from_option]. rewrite Z.eqb_refl. unfold id.
    assert (∀ a, in_dynamic_range a → (a >? v.KERNEL_DYNAMIC_START) = true ∧ (a <? v.KERNEL_DYNAMIC_END) = true) as Hr.
    { intros a [Hlo Hhi]. split; [by apply Z.gtb_gt, Z.lt_gt|by apply Z.ltb_lt]. }
    destruct (Hr buffer Hb) as [-> ->], (Hr ramdisk Hd) as [-> ->], (Hr offset Ho) as [-> ->]. exact Hs.
Qed.

(** A boot loader that follows the configuration passes the checks, once the
    framebuffer and the ram disk are there and sound, exactly when it starts no
    mapping at the lowest or the highest address: [ass!] wants more and less. *)
Theorem configured_loader_passes info buffer ramdisk offset :
  framebuffer = Some (info, buffer) → bi_ramdisk_addr boot_info = Some ramdisk →
  bi_physical_memory_offset boot_info = Some offset →
  (∀ a, a ∈ [buffer; ramdisk; offset] → dynamic_mapping BOOTLOADER_CONFIG a) →
  buffer_len = fb_byte_len info → assert_soundness (Some ramdisk) disk = Val () →
  assert_boot_info = Val () ↔
    ∀ a, a ∈ [buffer; ramdisk; offset] → a ≠ v.KERNEL_DYNAMIC_START ∧ a ≠ v.KERNEL_DYNAMIC_END.
Proof.
  intros Hfb Hrd Hoff Hcfg Hlen Hs. rewrite assert_boot_info_ok. split.
  - intros (info' & b & rd & off & Hfb' & Hrd' & Hoff' & _ & Ha & _) a Hin.
    assert (b = buffer ∧ rd = ramdisk ∧ off = offset) as (-> & -> & ->) by (split_and!; congruence).
    destruct (Ha a Hin). lia.
  - intros Hne. exists info, buffer, ramdisk, offset. split_and!; [done..| |done]. intros a Hin.
    destruct (Hne a Hin), (Hcfg a Hin) as [Hlo Hhi]. specialize (Hlo _ eq_refl). specialize (Hhi _ eq_refl).
    unfold in_dynamic_range. lia.
Qed.
End Check.

Section Spec.
Context `{Profile} `{X86AddrLaws} `{BootOk pmo} `{Mapper} `{!MapperLaws pmo} `{Crc32} `{Screen}.

(** C17 (safety). The boot checks are enough for the applications: once they have passed, the
    framebuffer, the ram disk and the mapping of the physical memory start on
    pages that, in every reachable state, translate the same way in every
    user space as in the kernel's, and no application page shares their
    addresses. *)
Theorem boot_info_shared buffer_len disk st0 k0 l0 st us :
  assert_boot_info buffer_len disk = Val () →
  kinv pmo st0 [k0] l0 → kernel_page_table st0 = mkOPT (pmo + k0) pmo →
  rtc (mem_step pmo) (st0, []) (st, us) →
  ∃ info buffer ramdisk,
    framebuffer = Some (info, buffer) ∧ bi_ramdisk_addr boot_info = Some ramdisk ∧
    buffer_len = fb_byte_len info ∧ assert_soundness (Some ramdisk) disk = Val () ∧
    ∀ a, a ∈ [buffer; ramdisk; pmo] →
      ¬ user_page (page_of a) ∧ ∀ r, r ∈ us → space pmo st r (page_of a) = space pmo st k0 (page_of a).
Proof.
  intros (info & buffer & ramdisk & offset & Hfb & Hrd & Hoff & Hlen & Ha & Hs)%assert_boot_info_ok Hk Hkpt Hsteps.
  assert (offset = pmo) as -> by (pose proof boot_pmo; congruence).
  exists info, buffer, ramdisk. split_and!; [exact Hfb|exact Hrd|exact Hlen|exact Hs|].
  intros a Hin%Ha. unfold in_dynamic_range in Hin.
  assert (v.KERNEL_START ≤ page_of a < v.KERNEL_END) as Hp.
  { pose proof (page_of_bounds a).
    change v.KERNEL_START with (100 * 2 ^ 39). change v.KERNEL_END with (116 * 2 ^ 39).
    change v.KERNEL_DYNAMIC_START with (100 * 2 ^ 39 + 2 ^ 12) in Hin. change v.KERNEL_DYNAMIC_END with (108 * 2 ^ 39) in Hin. lia. }
  split.
  - unfold user_page. change v.USER_END with (2 ^ 39). change v.KERNEL_START with (100 * 2 ^ 39) in Hp. lia.
  - intros r Hr. by apply (kernel_half_same st0 k0 l0 st us).
Qed.
End Spec.
