(* ===== verification/BootDemo.v ===== *)
(** * Booting the small machine

    The theorems on a core's set-up and on the boot loader's information at the
    machines of [DeviceDemo] and [IsolationDemo]. *)

From S2P Require Import Prelude Constants Platform FrameAlloc Paging Memory AddressSpace Isolation IsolationDemo MapPages Ports Bitfield Pit Apic DeviceDemo Boot RamDisk Terminal BootCheck.

#[local] Existing Instance dev_profile.
Import RefX86 RefBoot RefMapper.

(** The core with APIC id 5 before it has any data of its own. *)
Definition fresh : DemoSys := mkSys idle (replicate 256 None) (Some demo_apic).

(** Ports and device memory are apart. *)
Lemma polls_mmio n w : w_mmio (polls n w) = w_mmio w.
Proof. induction n as [|n IH]; [done|]. rewrite polls_S. exact IH. Qed.

(** The third application processor: the demo timer reads 0 after the 50 ms. *)
Lemma core_setup_spec_witness :
  ∃ n w, ∀ fuel, (n < fuel)%nat →
    ap_setup fuel 2 fresh =
      Val ((), mkSys w (<[5%nat := Some (mkCld None 3 (Some 85899345900) None None)]> (replicate 256 None)) (Some demo_apic)).
Proof.
  destruct (core_setup_spec demo_apic 5 fresh (mkAcpi 0 0 3) (Some 2)) as (n & _ & Hrun); [reflexivity|by split; [reflexivity|lia]|].
  exists n. assert (count_read demo_apic (polls (S n) (programmed 50000 (calibrating demo_apic (world fresh)))) =
    (0, masked demo_apic (polls (S n) (programmed 50000 (calibrating demo_apic (world fresh)))))) as Hc.
  { unfold count_read, masked. cbn [read_volatile demo_mmio write_volatile w_mmio]. rewrite polls_mmio. by vm_compute. }
  rewrite Hc in Hrun. eexists. intros fuel Hf. exact (Hrun ltac:(lia) fuel Hf).
Defined.

(** ** The boot information *)

#[local] Existing Instance RamDiskDemo.sum_crc.

(** A framebuffer in the first page of the dynamic range after the stack guard. *)
#[local] Instance demo_screen : Screen := Some (mkFbInfo 12288 64 48 Bgr 4 64, v.KERNEL_DYNAMIC_START + 4096).

Lemma boot_info_shared_witness :
  space pmo st4 0x10000 (page_of pmo) = space pmo st4 0x1000 (page_of pmo).
Proof.
  destruct (boot_info_shared (pmo := pmo) 12288 RamDiskDemo.disk st0 0x1000 free st4 us) as (? & ? & ? & _ & _ & _ & _ & Hs);
    [by vm_compute|exact st0_inv|reflexivity|exact mem_run4|].
  apply (Hs pmo); [right; right; left|right; left].
Defined.

Lemma configured_loader_passes_witness : assert_boot_info 12288 RamDiskDemo.disk = Val ().
Proof.
  destruct framebuffer as [[info buffer]|] eqn:Hfb; [|done].
  destruct (bi_ramdisk_addr boot_info) as [rd|] eqn:Hrd; [|done].
  destruct (bi_physical_memory_offset boot_info) as [off|] eqn:Hoff; [|done].
  assert (∀ a, a ∈ [buffer; rd; off] → v.KERNEL_DYNAMIC_START < a < v.KERNEL_DYNAMIC_END) as Hin.
  { vm_compute in Hfb, Hrd, Hoff. simplify_eq. apply Forall_forall. repeat constructor. }
  apply (configured_loader_passes 12288 RamDiskDemo.disk info buffer rd off Hfb Hrd Hoff).
  - intros a Ha%Hin. split; intros ? [= <-]; lia.
  - by vm_compute in Hfb; simplify_eq.
  - by vm_compute in Hrd; simplify_eq; vm_compute.
  - intros a Ha%Hin. lia.
Defined.
