(* ===== verification/BootImage.v ===== *)
(** * The build tool (src/bootimage/src/main.rs)

    [main] builds the kernel and the user programs, packs the ram disk, makes
    the two disk images and runs QEMU.  What it does to its host is a trace of
    events; what the host answers depends on the events so far and is a
    parameter.  The packing itself is in [RamDisk]. *)

From Stdlib Require Import String.
From stdpp Require Import strings pretty.
From S2P Require Import Prelude Bytes RamDisk Tester.

#[local] Open Scope string_scope.
#[local] Open Scope list_scope.
#[local] Open Scope Z_scope.

Inductive Bootloader := Uefi | Bios.
Inductive RedirectSerial := NoSerial | ToFile | ToStdout.
Inductive CargoProfile := Dev | OptDev | Release.

Record Args := mkArgs {
  smp : N; build_only : bool; bootloader : Bootloader; test : bool; redirect_serial : RedirectSerial;
  kernel_profile : CargoProfile; user_app_profile : CargoProfile; assemble_smp_trampoline : bool }.

(** The defaults of the command line. *)
Definition default_args : Args := mkArgs 4 false Bios false ToStdout OptDev OptDev false.

#[export] Instance Bootloader_eq_dec : EqDecision Bootloader.
Proof. solve_decision. Defined.

(** A process: its program, working directory and arguments. *)
Record Command := mkCommand { program : string; current_dir : option string; arguments : list string }.

(** What happens to the host. *)
Inductive event :=
  | Spawned (c : Command)
  | CreatedDir (path : string)
  | WroteTemp (contents : list Z)                  (** [NamedTempFile] *)
  | ClosedTemp (path : string)
  | MadeUefi (kernel ramdisk out : string)         (** [UefiBoot::create_disk_image] *)
  | MadeBios (kernel ramdisk out : string)
  | Exists (path : string)
  | Removed (path : string)
  | Renamed (old new : string).

(** The host: whether a process can be started, and the exit code it ends with
    ([None] if it has none); the path of a temporary file; whether a file
    operation succeeds; the prebuilt firmware; the files, and the variable
    CARGO_TARGET_DIR. *)
Class HostOs := {
  spawn_wait : list event → Command → option (option Z);
  temp_path : list event → option string;
  fs_op : list event → event → bool;
  ovmf_pure_efi : string;
  host_files : list event → string → option (list Z);
  cargo_target_dir : option string }.

Section Main.
Context `{P : Profile} `{Crc32} `{HostOs}.

Notation HostM := (M (list event)).

Definition emit (e : event) : HostM () := modify (λ h, h ++ [e]).

(** [cmd.spawn().unwrap().wait().unwrap()] *)
Definition run_command (c : Command) : HostM (option Z) :=
  gets (λ h, spawn_wait h c) ≫= λ o,
  liftr (unwrap o) ≫= λ code,
  emit (Spawned c) ≫= λ _, mret code.

Definition or_panic (f : fault) (b : bool) : HostM () := liftr (if b then Val tt else Fault f).

(** A file operation whose failure is a panic. *)
Definition must (e : event) : HostM () :=
  gets (λ h, fs_op h e) ≫= λ ok, or_panic Unwrap ok ≫= λ _, emit e.

(** [Path::exists] *)
Definition exists_path (path : string) : HostM bool :=
  gets (λ h, fs_op h (Exists path)) ≫= λ b, emit (Exists path) ≫= λ _, mret b.

(** The arguments added for a profile, and the directory cargo builds it in. *)
Definition add_profile_args (profile : CargoProfile) : list string * string :=
  match profile with
  | Dev => ([], "debug")
  | OptDev => (["--profile"; "opt-dev"], "opt-dev")
  | Release => (["--profile"; "release-lto"], "release-lto")
  end.

Definition nasm : Command := mkCommand "nasm" (Some "kernel/smp_trampoline") ["-fbin"; "ap.asm"; "-o"; "ap.bin"].

Definition build_kernel (profile : CargoProfile) (test_mode : bool) : Command :=
  mkCommand "cargo" None (["build"; "--bin"; "kernel"; "--target"; "x86_64-unknown-none"] ++
    fst (add_profile_args profile) ++ (if test_mode then ["--features"; "testing"] else [])).

Definition build_user_app (profile : CargoProfile) : Command :=
  mkCommand "cargo" (Some "user_app") (["build"] ++ fst (add_profile_args profile)).

Definition succeeded (code : option Z) : bool := bool_decide (code = Some 0).

(** [if !... .success() { panic!(..) }] *)
Definition cargo (c : Command) : HostM () :=
  run_command c ≫= λ code, or_panic Explicit (succeeded code).

Definition kernel_path (profile : CargoProfile) : string :=
  default "target" cargo_target_dir +:+ "/x86_64-unknown-none/" +:+ snd (add_profile_args profile) +:+ "/kernel".

(** [create_ram_disk(..).into_temp_path()] *)
Definition ram_disk_path (profile : CargoProfile) : HostM string :=
  gets (λ h, create_ram_disk (host_files h) cargo_target_dir (snd (add_profile_args profile))) ≫= λ r,
  liftr r ≫= λ contents,
  gets temp_path ≫= λ o,
  liftr (unwrap o) ≫= λ path,
  emit (WroteTemp contents) ≫= λ _, mret path.

Definition uefi_path : string := "bootimage/out/uefi.img".
Definition bios_path : string := "bootimage/out/bios.img".
Definition log_path : string := "kernel.log".
Definition last_log : string := "kernel_last.log".

(** The log of the previous run is kept. *)
Definition rotate_log : HostM () :=
  exists_path log_path ≫= λ b : bool,
  if b then
    exists_path last_log ≫= λ b' : bool,
    (if b' then must (Removed last_log) else mret ()) ≫= λ _,
    must (Renamed log_path last_log)
  else mret ().

Definition qemu (args : Args) : Command :=
  mkCommand "qemu-system-x86_64" None (
    (if decide (bootloader args = Bios) then ["-drive"; "format=raw,file=" +:+ bios_path]
     else ["-bios"; ovmf_pure_efi; "-drive"; "format=raw,file=" +:+ uefi_path]) ++
    ["-device"; "isa-debug-exit,iobase=0xf4,iosize=0x04"; "-m"; "8G"] ++
    ["-smp"; pretty (smp args)] ++
    match redirect_serial args with
    | NoSerial => []
    | ToFile => ["-serial"; "file:" +:+ log_path]
    | ToStdout => ["-serial"; "stdio"]
    end).

(** The images, from the built kernel and user programs. *)
Definition make_images (args : Args) : HostM () :=
  let kernel := kernel_path (kernel_profile args) in
  emit (CreatedDir "bootimage/out") ≫= λ _,
  ram_disk_path (user_app_profile args) ≫= λ ram_disk,
  must (MadeUefi kernel ram_disk uefi_path) ≫= λ _,
  must (MadeBios kernel ram_disk bios_path) ≫= λ _,
  must (ClosedTemp ram_disk).

(** [main], up to the disk images. *)
Definition build_images (args : Args) : HostM () :=
  (if assemble_smp_trampoline args then run_command nasm ≫= λ _, mret tt else mret tt) ≫= λ _,
  cargo (build_kernel (kernel_profile args) (test args)) ≫= λ _,
  cargo (build_user_app (user_app_profile args)) ≫= λ _,
  make_images args.

(** The rest of [main], unless it is only to build. *)
Definition run_qemu (args : Args) : HostM () :=
  rotate_log ≫= λ _,
  run_command (qemu args) ≫= λ exit_code,
  if test args
  then liftr (unwrap exit_code) ≫= λ code, liftr (ass (code =? 33))
  else mret tt.

Definition main (args : Args) : HostM () :=
  build_images args ≫= λ _, if build_only args then mret tt else run_qemu args.

(** ** Properties *)

Lemma emit_Val e h u h' : emit e h = Val (u, h') ↔ h' = h ++ [e].
Proof. unfold emit. by rewrite modify_Val. Qed.

Lemma or_panic_Val f b h u h' : or_panic f b h = Val (u, h') ↔ b = true ∧ h' = h.
Proof. unfold or_panic. rewrite liftr_Val. destruct b, u; naive_solver. Qed.

Lemma run_command_Val c h code h' :
  run_command c h = Val (code, h') ↔ spawn_wait h c = Some code ∧ h' = h ++ [Spawned c].
Proof.
  unfold run_command, gets, emit, modify, mret, M_ret, mbind, M_bind, liftr, unwrap.
  destruct (spawn_wait h c); naive_solver.
Qed.

Lemma must_Val e h u h' : must e h = Val (u, h') ↔ fs_op h e = true ∧ h' = h ++ [e].
Proof.
  destruct u. unfold must, or_panic, gets, emit, modify, mbind, M_bind, liftr.
  destruct (fs_op h e); naive_solver.
Qed.

Lemma exists_path_Val path h b h' :
  exists_path path h = Val (b, h') ↔ b = fs_op h (Exists path) ∧ h' = h ++ [Exists path].
Proof. unfold exists_path, gets, emit, modify, mret, M_ret, mbind, M_bind. naive_solver. Qed.

Lemma cargo_Val c h u h' :
  cargo c h = Val (u, h') ↔ spawn_wait h c = Some (Some 0) ∧ h' = h ++ [Spawned c].
Proof.
  unfold cargo. rewrite M_bind_Val. setoid_rewrite run_command_Val. setoid_rewrite or_panic_Val. unfold succeeded. split.
  - intros (code & h1 & [Hs ->] & [->%bool_decide_eq_true ->]). done.
  - intros [Hs ->]. eexists _, _. split_and!; [done..|by rewrite bool_decide_eq_true|done].
Qed.

(** The events of a build, from the host's answers. *)
Definition before_cargo (args : Args) : list event :=
  if assemble_smp_trampoline args then [Spawned nasm] else [].
Definition compiled (args : Args) : list event :=
  before_cargo args ++ [Spawned (build_kernel (kernel_profile args) (test args));
    Spawned (build_user_app (user_app_profile args)); CreatedDir "bootimage/out"].
Definition imaged (args : Args) (disk : list Z) (path : string) : list event :=
  let kernel := kernel_path (kernel_profile args) in
  [WroteTemp disk; MadeUefi kernel path uefi_path; MadeBios kernel path bios_path; ClosedTemp path].

(** What a build that succeeds did to the host, and the answers it had. *)
Record build_trace (args : Args) (h h' : list event) (disk : list Z) (path : string) : Prop := {
  bt_events : h' = h ++ compiled args ++ imaged args disk path;
  bt_kernel : spawn_wait (h ++ before_cargo args) (build_kernel (kernel_profile args) (test args)) = Some (Some 0);
  bt_user : spawn_wait (h ++ before_cargo args ++ [Spawned (build_kernel (kernel_profile args) (test args))])
    (build_user_app (user_app_profile args)) = Some (Some 0);
  bt_disk : create_ram_disk (host_files (h ++ compiled args)) cargo_target_dir
    (snd (add_profile_args (user_app_profile args))) = Val disk }.

Lemma build_images_trace args h h' :
  build_images args h = Val ((), h') → ∃ disk path, build_trace args h h' disk path.
Proof.
  unfold build_images. intros Hrun.
  assert (∃ h1, h1 = h ++ before_cargo args ∧ (cargo (build_kernel (kernel_profile args) (test args)) ≫= λ _,
    cargo (build_user_app (user_app_profile args)) ≫= λ _, make_images args) h1 = Val ((), h')) as (h1 & Hh1 & Hrun').
  { apply M_bind_Val in Hrun as ([] & h1 & Hn & Hrun). exists h1. split; [|exact Hrun].
    unfold before_cargo. destruct (assemble_smp_trampoline args).
    - apply M_bind_Val in Hn as (code & h2 & [_ ->]%run_command_Val & [_ ->]%mret_Val). done.
    - apply mret_Val in Hn as [_ ->]. by rewrite app_nil_r. }
  clear Hrun. subst h1.
  apply M_bind_Val in Hrun' as ([] & h2 & [Hk ->]%cargo_Val & Hrun).
  apply M_bind_Val in Hrun as ([] & h3 & [Hu ->]%cargo_Val & Hrun). unfold make_images, ram_disk_path in Hrun.
  res_inv.
  repeat match goal with
  | H : emit _ _ = Val _ |- _ => apply emit_Val in H
  | H : must _ _ = Val _ |- _ => apply must_Val in H as [? H]
  end. simplify_eq.
  eexists _, _. split.
  - unfold compiled, imaged. rewrite <-!app_assoc. cbn. reflexivity.
  - exact Hk.
  - by rewrite app_assoc.
  - unfold compiled. match goal with H : Val _ = create_ram_disk _ _ _ |- _ => rewrite <-!app_assoc in H; exact (eq_sym H) end.
Qed.

Definition rotation (h : list event) : list event :=
  if fs_op h (Exists log_path) then
    [Exists log_path; Exists last_log] ++
    (if fs_op (h ++ [Exists log_path]) (Exists last_log) then [Removed last_log] else []) ++
    [Renamed log_path last_log]
  else [Exists log_path].

Lemma rotate_log_Val h h' : rotate_log h = Val ((), h') → h' = h ++ rotation h.
Proof.
  unfold rotate_log, rotation. intros Hrun.
  apply M_bind_Val in Hrun as (b & h1 & [-> ->]%exists_path_Val & Hrun).
  destruct (fs_op h (Exists log_path)); [|by apply mret_Val in Hrun as [_ ->]].
  apply M_bind_Val in Hrun as (b & h1 & [-> ->]%exists_path_Val & Hrun).
  apply M_bind_Val in Hrun as ([] & h1 & Hr & [_ ->]%must_Val).
  destruct (fs_op _ (Exists last_log)).
  - apply must_Val in Hr as [_ ->]. by rewrite <-!app_assoc.
  - apply mret_Val in Hr as [_ ->]. by rewrite <-!app_assoc.
Qed.

(** A run of the build tool that succeeds did everything in its place: the
    trampoline is assembled first if asked for, then kernel and user programs
    are compiled with their profiles, both successfully, the ram disk is packed
    from what the host holds after that, and both disk images are made from it.
    Then either nothing more happens, or the old log is kept and QEMU runs the
    image asked for, in test mode to the exit code 33. *)
Theorem main_trace args h h' :
  main args h = Val ((), h') →
  ∃ disk path h1, build_trace args h h1 disk path ∧
    if build_only args then h' = h1
    else h' = h1 ++ rotation h1 ++ [Spawned (qemu args)] ∧
      (test args = true → spawn_wait (h1 ++ rotation h1) (qemu args) = Some (Some 33)).
Proof.
  unfold main. intros Hrun. apply M_bind_Val in Hrun as ([] & h1 & Hb & Hrun).
  destruct (build_images_trace _ _ _ Hb) as (disk & path & Ht). exists disk, path, h1. split; [exact Ht|].
  destruct (build_only args); [by apply mret_Val in Hrun as [_ ->]|]. unfold run_qemu in Hrun.
  apply M_bind_Val in Hrun as ([] & h2 & ->%rotate_log_Val & Hrun).
  apply M_bind_Val in Hrun as (code & h2 & [Hq ->]%run_command_Val & Hrun).
  destruct (test args).
  - apply M_bind_Val in Hrun as (c & h2 & [->%unwrap_Val ->]%liftr_Val & [Hc ->]%liftr_Val).
    apply ass_Val, Z.eqb_eq in Hc. subst c. by rewrite <-app_assoc.
  - apply mret_Val in Hrun as [_ ->]. by rewrite <-app_assoc.
Qed.

(** *** Test mode *)

(** QEMU's isa-debug-exit device ends QEMU with the status [2 v + 1] when the
    guest writes [v] to its port. *)
Definition debug_exit_status (iobase : Z) (o : option QemuExitCode) : option Z :=
  c ← o; let '(port, v) := exit_qemu c in if port =? iobase then Some (2 * v + 1) else None.

(** C39 (equivalence). In test mode, once the images are built, the build tool succeeds exactly
    when the kernel's tests do: QEMU runs the kernel, whose test runner reports
    to the debug-exit device at the port QEMU is given. *)
Theorem test_build_verdict `{K : Profile} {W : Type} (TESTS : list (M W ())) (w : W) args h h1 :
  Z.of_nat (length TESTS) < 2 ^ 32 →
  test args = true → build_only args = false →
  (∀ h, spawn_wait h (qemu args) = Some (debug_exit_status 0xf4 (bsp_test_main (H := K) TESTS w))) →
  build_images args h = Val ((), h1) → is_val (rotate_log h1) = true →
  is_val (main args h) = true ↔ TESTS ≠ [] ∧ ∃ w', for_each (rev TESTS) id w = Val ((), w').
Proof.
  intros Hlen Ht Hbo Hq Hb Hr. destruct (tests_verdict TESTS w Hlen) as [<- _].
  destruct (rotate_log h1) as [[[] h2]|] eqn:Hrot; [|done].
  unfold main. rewrite (M_bind_run _ _ _ _ _ Hb), Hbo. unfold run_qemu. rewrite (M_bind_run _ _ _ _ _ Hrot).
  rewrite (M_bind_run _ _ _ (debug_exit_status 0xf4 (bsp_test_main TESTS w)) (h2 ++ [Spawned (qemu args)]))
    by by apply run_command_Val.
  rewrite Ht. destruct (bsp_test_main TESTS w) as [[]|]; cbn; split; done.
Qed.
End Main.

(** ** A host *)

Module BootImageDemo.
#[local] Existing Instance dev_profile.
#[local] Existing Instance RamDiskDemo.sum_crc.

(** A host with a log of an earlier run, whose QEMU runs a kernel with two
    tests, the second of which adds to what the first left. *)
Definition demo_tests : list (M Z ()) :=
  [assertion_test; (λ w, Val ((), w + 1)); (λ w, if w =? 41 then Val ((), w) else Fault Assertion)].

#[local] Instance demo_host : HostOs := {|
  spawn_wait h c := if bool_decide (program c = "qemu-system-x86_64")
    then Some (debug_exit_status 0xf4 (bsp_test_main demo_tests 41)) else Some (Some 0);
  temp_path _ := Some "/tmp/ramdisk";
  fs_op _ e := match e with Exists p => bool_decide (p = log_path) | _ => true end;
  ovmf_pure_efi := "OVMF.fd";
  host_files _ p := Some [1; 2; 3];
  cargo_target_dir := None |}.

Definition demo_args : Args := mkArgs 4 false Bios true ToStdout OptDev OptDev false.

Lemma main_trace_witness :
  ∃ disk path h1, build_trace demo_args [] h1 disk path ∧
    option_map snd (match main demo_args [] with Val r => Some r | _ => None end) =
      Some (h1 ++ rotation h1 ++ [Spawned (qemu demo_args)]).
Proof.
  destruct (main demo_args []) as [[[] h']|f] eqn:Hrun; [|by vm_compute in Hrun].
  destruct (main_trace demo_args [] h' Hrun) as (disk & path & h1 & Ht & Hh & _).
  exists disk, path, h1. split; [exact Ht|]. cbn. by rewrite Hh.
Defined.

Lemma test_build_verdict_witness : is_val (main demo_args []) = true.
Proof.
  destruct (build_images demo_args []) as [[[] h1]|f] eqn:Hb; [|by vm_compute in Hb].
  apply (test_build_verdict demo_tests 41 demo_args [] h1); [by vm_compute|reflexivity|reflexivity|done|exact Hb| |].
  - revert Hb. vm_compute. by intros [= <-].
  - split; [done|]. eexists. by vm_compute.
Defined.
End BootImageDemo.
