(* ===== verification/KernelMain.v ===== *)
(** * The start of the kernel ([kernel_main] of src/kernel/src/main.rs)

    What the boot processor does from the entry of the kernel until its checks
    of the boot information have passed: the operations of the other files, in
    the order of the source, on the state they share, with the records they
    log.  Up to there nothing needs the heap or the frame allocator; the steps
    that follow are in Boot.v, Trampoline.v, SmpBoot.v and Cores.v. *)

From Stdlib Require Import String.
From S2P Require Import Prelude Bytes Constants Platform FrameAlloc Paging Memory AddressSpace MapPages WriteCombining Ports Pic Interrupts Format Serial Terminal Windows TermSpec Console Logging RamDisk BootCheck.

(** The boot processor: its tables, its model-specific registers, the memory,
    the console, the logger's levels and locks, and the devices. *)
Record Bsp `{Font} (W : Type) := mkBsp {
  b_cpu : Interrupts.Cpu; b_msrs : Msrs; b_kernel : Kernel; b_console : Console;
  b_levels : Z * Z; b_locks : bool * bool; b_world : W }.
Arguments mkBsp {_ _} _ _ _ _ _ _ _.
Arguments b_cpu {_ _} _.
Arguments b_msrs {_ _} _.
Arguments b_kernel {_ _} _.
Arguments b_console {_ _} _.
Arguments b_levels {_ _} _.
Arguments b_locks {_ _} _.
Arguments b_world {_ _} _.

(** The records of these steps after the first one of the logger. *)
Definition pat_record : LogRecord :=
  mkRecord Info (Some (chars "kernel/src/memory.rs")) (Some 117)
    (chars "Changed PAT: write_through + cache_disabled -> Write combining").
Definition soundness_record : LogRecord :=
  mkRecord Debug (Some (chars "kernel/src/ram_disk.rs")) (Some 52) (chars "Checking ram disk soundness").
Definition sound_record : LogRecord :=
  mkRecord Debug (Some (chars "kernel/src/ram_disk.rs")) (Some 81) (chars "Ramdisk ok").

Section Code.
Context `{Profile} `{X86Addr} `{Boot} `{Mapper} `{Screen} `{Font} `{Crc32} `{FaultStacks}.
Context {W : Type} `{PortIo W}.

Local Abbreviation BspM := (M (Bsp W)).

Definition on_cpu {A} : M Interrupts.Cpu A → BspM A :=
  zoom b_cpu (λ c s, mkBsp c (b_msrs s) (b_kernel s) (b_console s) (b_levels s) (b_locks s) (b_world s)).
Definition on_msrs {A} : M Msrs A → BspM A :=
  zoom b_msrs (λ m s, mkBsp (b_cpu s) m (b_kernel s) (b_console s) (b_levels s) (b_locks s) (b_world s)).
Definition on_memory {A} : M Kernel A → BspM A :=
  zoom b_kernel (λ k s, mkBsp (b_cpu s) (b_msrs s) k (b_console s) (b_levels s) (b_locks s) (b_world s)).
Definition on_stdout {A} : M Console A → BspM A :=
  zoom b_console (λ c s, mkBsp (b_cpu s) (b_msrs s) (b_kernel s) c (b_levels s) (b_locks s) (b_world s)).
Definition on_world {A} : M W A → BspM A :=
  zoom b_world (λ w s, mkBsp (b_cpu s) (b_msrs s) (b_kernel s) (b_console s) (b_levels s) (b_locks s) w).

(** The logger writes to the console and to the serial port. *)
Definition b_log (s : Bsp W) : LogState W :=
  mkLog (b_console s) (b_world s) (fst (b_levels s)) (snd (b_levels s)) (fst (b_locks s)) (snd (b_locks s)).
Definition put_log (g : LogState W) (s : Bsp W) : Bsp W :=
  mkBsp (b_cpu s) (b_msrs s) (b_kernel s) (log_console g) (SERIAL_LOG_LEVEL g, GRAPHICS_LOG_LEVEL g)
    (held_write g, held_port g) (log_world g).
Definition on_log {A} : M (LogState W) A → BspM A := zoom b_log put_log.

Definition init_gdt_and_exceptions_bsp : BspM () :=
  on_cpu load_tables_bsp ≫= λ _,
  on_world (remap_and_disable_pic 32 (32 + 8)).

(** [kernel_main] up to [apic::create].  The framebuffer of the boot information
    has [buffer_len] bytes, [disk] is the memory of the ram disk; no core has
    data of its own yet that a record could name.  The first record makes the
    lazy [SERIAL], which sets up the port. *)
Definition early_boot (buffer_len : Z) (disk : list Z) (fuel : nat) : BspM () :=
  init_gdt_and_exceptions_bsp ≫= λ _,
  on_world SERIAL_init ≫= λ _,
  on_log (init_logging (Ok ()) fuel None (UpTo Trace) (UpTo Trace)) ≫= λ _,
  on_msrs change_pat_so_write_through_plus_cache_disabled_is_write_combining ≫= λ _,
  on_log (log fuel None pat_record) ≫= λ _,
  liftr (unwrap framebuffer) ≫= λ '(_, buffer),
  on_memory (set_frame_buffer_cache_to_write_combining buffer buffer_len) ≫= λ _,
  on_stdout (acquire ≫= λ _, Stdout_clear (Some Size20)) ≫= λ _,
  liftr (assert_mappings buffer_len) ≫= λ _,
  on_log (log fuel None soundness_record) ≫= λ _,
  liftr (assert_soundness (bi_ramdisk_addr boot_info) disk) ≫= λ _,
  on_log (log fuel None sound_record).
End Code.

(** ** What the boot loader hands over *)

Section Spec.
Context `{Profile} `{X86AddrLaws} `{BootOk pmo} `{Mapper} `{!MapperLaws pmo}.
Context `{Screen} `{FontLaws} `{Crc32} `{FaultStacks}.
Context {W : Type} `{PicDevice W} (U : Uart16550 W (com_u16 COM1)) (B : nat).
Context (k0 : Z) (buffer_len : Z) (disk : list Z) (fb : FrameBufferInfo) (buffer : Z).

Implicit Types s : Bsp W.

Definition fb_page (p : Z) : Prop := buffer_page buffer buffer_len p.

(** A machine on which the kernel starts: page tables in order, a framebuffer
    that is mapped, a main terminal that the text fits in, nobody who holds a
    lock, and a serial port that takes bytes. *)
Record handover (l : list Z) s : Prop := {
  ho_kinv : kinv pmo (b_kernel s) [k0] l;
  ho_screen : framebuffer = Some (fb, buffer);
  ho_buffer : 0 ≤ buffer ∧ 0 < buffer_len ∧ buffer + buffer_len < 2 ^ 47 ∧
    ∀ p, fb_page p → space pmo (b_kernel s) k0 p ≠ None;
  ho_console : console_ok (b_console s);
  ho_font : cmd_ok (info (TERM (b_console s))) (Wipe (Some Size20));
  ho_free : held_term (b_console s) = false ∧ PANICKED_STOP_PRINTING (b_console s) = false ∧ b_locks s = (false, false);
  ho_serial : ready_within COM1 B }.

(** *** The state after it *)

(** The logger when the tables are loaded and the legacy controllers and the
    serial port are set up, the world being [w]. *)
Definition log_start (w : W) s : LogState W :=
  with_levels (filter_usize (UpTo Trace)) (filter_usize (UpTo Trace)) (with_world w (b_log s)).

(** What [kernel_main] has reached: [w0] is the world after the legacy
    controllers are programmed, [w1] after the port is, and [c] the console
    after the screen is cleared. *)
Record booted (l : list Z) s s' : Prop := {
  bo_tables : stack_for (b_cpu s') vector.double_fault = Some (bsp_stack + STACK_SIZE) ∧
    ∀ v, v ≠ vector.double_fault → stack_for (b_cpu s') v = None;
  bo_devices : ∃ w0 w1, remap_and_disable_pic 32 40 (b_world s) = Val ((), w0) ∧
    (∀ n, 0 ≤ n < 8 → delivers (fst (pics_of w0)) n = None ∧ delivers (snd (pics_of w0)) n = None) ∧
    init COM1 BAUD_115200 w0 = Val ((), w1) ∧
    tx (uart_of (b_world s')) = tx (uart_of w1) ++
      concat (serial_part None (UpTo Trace) <$> [first_record; pat_record; soundness_record; sound_record]);
  bo_cache p : fb_page p → ∃ f fl flags, space pmo (b_kernel s) k0 p = Some (f, fl) ∧
    space pmo (b_kernel s') k0 p = Some (f, flags) ∧ page_type (b_msrs s') flags = Some WriteCombining;
  bo_screen : ∃ c sgs,
    (∀ x y, in_window (TERM c) x y → shows (TERM c) (screen c) x y (clear_color (TERM c))) ∧
    x_pos (TERM c) = 0 ∧ y_pos (TERM c) = 0 ∧ font_height (TERM c) = Size20 ∧
    Forall2 (record_spelled None (foreground (TERM c))) [soundness_record; sound_record] sgs ∧
    drawn (concat sgs) c (b_console s') ∧ console_ok (b_console s');
  bo_window : info (TERM (b_console s')) = info (TERM (b_console s)) ∧
    Terminal.buffer (TERM (b_console s')) = Terminal.buffer (TERM (b_console s)) ∧
    outside (fst (Terminal.buffer (TERM (b_console s)))) (info (TERM (b_console s))) (screen (b_console s)) (screen (b_console s'));
  bo_levels : b_levels s' = (filter_usize (UpTo Trace), filter_usize (UpTo Trace)) ∧ b_locks s' = b_locks s;
  bo_memory : kinv pmo (b_kernel s') [k0] l ∧ kernel_page_table (b_kernel s') = kernel_page_table (b_kernel s) ∧
    (∀ p, ¬ fb_page p → space pmo (b_kernel s') k0 p = space pmo (b_kernel s) k0 p) ∧
    ∀ f, f ∉ l → not_table (pmo := pmo) (b_kernel s) [k0] f →
      k_dm (b_kernel s') !! (pmo + f) = k_dm (b_kernel s) !! (pmo + f) }.

(** ** The start *)

Lemma record_numbers r : r ∈ [first_record; pat_record; soundness_record; sound_record] → numbers_ok None r.
Proof.
  intros Hr. split; [done|]. intros n Hn.
  repeat (apply elem_of_cons in Hr as [->|Hr]; [injection Hn as <-; lia|]). by apply elem_of_nil in Hr.
Qed.

(** A record, on the boot processor. *)
Lemma boot_record r s :
  r ∈ [first_record; pat_record; soundness_record; sound_record] →
  b_levels s = (filter_usize (UpTo Trace), filter_usize (UpTo Trace)) → b_locks s = (false, false) →
  held_term (b_console s) = false → console_ok (b_console s) → ready_within COM1 B → dlab (uart_of (b_world s)) = false →
  ∃ g, on_log (log (S B) None r) s = Val ((), put_log g s) ∧
    logged U None [r] (UpTo Trace) (UpTo Trace) (b_log s) g.
Proof.
  intros Hin Hlv Hlk Hh Hok Hr Hd.
  destruct (log_outcome U B None r (UpTo Trace) (UpTo Trace) (b_log s)) as (g & Hrun & Hg);
    [by cbn; rewrite Hlv|by cbn; rewrite Hlv|done|done|by cbn; rewrite Hlk|by cbn; rewrite Hlk|done|done|by apply record_numbers|].
  exists g. split; [|done]. unfold on_log, zoom. by rewrite Hrun.
Qed.

(** What a record leaves alone. *)
Lemma logged_state rs sl gl (g0 g : LogState W) :
  logged U None rs sl gl g0 g →
  SERIAL_LOG_LEVEL g = SERIAL_LOG_LEVEL g0 ∧ GRAPHICS_LOG_LEVEL g = GRAPHICS_LOG_LEVEL g0 ∧
  held_write g = held_write g0 ∧ held_port g = held_port g0 ∧
  held_term (log_console g) = held_term (log_console g0) ∧
  PANICKED_STOP_PRINTING (log_console g) = PANICKED_STOP_PRINTING (log_console g0).
Proof.
  intros [_ _ _ _ [_ _ _ Ht] _ _ Hr]. split_and!; [by rewrite Hr..| |]; by rewrite Ht.
Qed.

Lemma put_put_log g g' s : put_log g (put_log g' s) = put_log g s.
Proof. done. Qed.

Lemma b_log_put g s : b_log (put_log g s) = g.
Proof. by destruct g. Qed.

(** The tables, the legacy controllers and the port. *)
Lemma boot_tables s : ∃ w0 w1,
  remap_and_disable_pic 32 40 (b_world s) = Val ((), w0) ∧
  (∀ n, 0 ≤ n < 8 → delivers (fst (pics_of w0)) n = None ∧ delivers (snd (pics_of w0)) n = None) ∧
  init COM1 BAUD_115200 w0 = Val ((), w1) ∧ dlab (uart_of w1) = false ∧
  ∃ s0, init_gdt_and_exceptions_bsp s = Val ((), s0) ∧ on_world SERIAL_init s0 =
    Val ((), mkBsp (load_tables GDT (b_cpu s)) (b_msrs s) (b_kernel s) (b_console s) (b_levels s) (b_locks s) w1).
Proof.
  destruct (remap_and_disable_pic_spec 32 40 (b_world s)) as (w0 & Hr & _ & Hd); [by exists 4|by exists 5|].
  destruct (init_configures_uart COM1 U BAUD_115200 w0) as (w1 & Hi & _ & _ & Hl & _).
  exists w0, w1. split_and!; [done..|]. eexists. split.
  - unfold init_gdt_and_exceptions_bsp. erewrite (M_bind_run (on_cpu _)) by done.
    unfold on_world. apply zoom_run. exact Hr.
  - unfold on_world. erewrite zoom_run; [done|exact Hi].
Qed.

(** The screen. *)
Lemma boot_clear (c : Console) :
  held_term c = false → PANICKED_STOP_PRINTING c = false → console_ok c → cmd_ok (info (TERM c)) (Wipe (Some Size20)) →
  ∃ c', (acquire ≫= λ _, Stdout_clear (Some Size20)) c = Val ((), c') ∧
    (∀ x y, in_window (TERM c') x y → shows (TERM c') (screen c') x y (clear_color (TERM c'))) ∧
    TERM c' = cleared (Some Size20) (TERM c) ∧ console_ok c' ∧ term_only c c' ∧
    held_term c' = false.
Proof.
  intros Hh Hp [Ht _ _] Hf. destruct (clear_run (Some Size20) (TERM c) (screen c)) as (v' & Hr & Ho & _); [apply Ht..|].
  destruct (clear_spec (Some Size20) (TERM c) (screen c)) as (v2 & Hr2 & Hs & _); [apply Ht..|].
  rewrite Hr in Hr2. injection Hr2 as <-.
  destruct (clear_keeps (Some Size20) (mkTS (TERM c) (screen c)) Ht Hf) as ([t2 v2] & Hr2 & (Ht2 & Hp2 & Hb2 & Hi2) & _).
  rewrite Hr in Hr2. injection Hr2 as <- <-. cbn in Ht2, Hp2.
  exists (set_term (cleared (Some Size20) (TERM c)) v' c). split_and!; [|exact Hs|done| |by split|done].
  - rewrite (M_bind_run _ _ _ () c) by (unfold acquire, lock; by rewrite Hh).
    unfold Stdout_clear, unless_panicked. rewrite (M_bind_run _ _ _ false c) by (unfold gets; by rewrite Hp).
    unfold on_term, zoom. by rewrite Hr.
  - split; [done|done|]. intros w. apply (Hf Size20 eq_refl).
Qed.

(** The two steps on the framebuffer's cache mode. *)
Lemma boot_cache l s : handover l s → ∃ k1,
  set_frame_buffer_cache_to_write_combining buffer buffer_len (b_kernel s) = Val ((), k1) ∧
  kinv pmo k1 [k0] l ∧ kernel_page_table k1 = kernel_page_table (b_kernel s) ∧
  (∀ p, fb_page p → ∃ f fl, space pmo (b_kernel s) k0 p = Some (f, fl) ∧ space pmo k1 k0 p = Some (f, frame_buffer_flags)) ∧
  (∀ p, ¬ fb_page p → space pmo k1 k0 p = space pmo (b_kernel s) k0 p) ∧
  ∀ f, f ∉ l → not_table (pmo := pmo) (b_kernel s) [k0] f → k_dm k1 !! (pmo + f) = k_dm (b_kernel s) !! (pmo + f).
Proof.
  intros [Hk _ (Hb & Hl & He & Hm) _ _ _ _].
  destruct (set_frame_buffer_effect (b_kernel s) k0 l buffer buffer_len Hk Hb Hl He Hm) as (k1 & ps & Hr & Hel & Hfs).
  exists k1. split_and!; [done|apply Hfs|apply Hfs| | |].
  - intros p Hp%Hel. by apply (fs_new _ _ _ _ _ _ Hfs).
  - intros p Hp. apply (fs_old _ _ _ _ _ _ Hfs). by rewrite Hel.
  - intros f Hf Ht. by apply (fs_cells _ _ _ _ _ _ Hfs).
Qed.

End Spec.
