(* ===== verification/KernelMainDemo.v ===== *)
(** * The start of a small machine

    The memory of [IsolationDemo] with a framebuffer of one page, and a board
    that joins the interrupt controllers of [InterruptDemo] and the serial port
    of [Serial.SerialDemo], at which the theorem on the start of the kernel is
    instantiated. *)

From S2P Require Import Prelude Bytes Constants Platform FrameAlloc Paging Memory AddressSpace Isolation IsolationDemo MapPages WriteCombining Ports Pic Interrupts InterruptDemo Serial Terminal Windows TermSpec TermDemo Console ConsoleSpec Logging RamDisk BootCheck KernelMain.

#[local] Existing Instance dev_profile.
#[local] Existing Instance RamDiskDemo.sum_crc.
Import RefX86 RefBoot RefMapper.

(** ** The board *)

Definition board : Type := (pic * pic) * SerialDemo.world.

Definition com1 (p : Z) : bool := (com_u16 COM1 <=? p) && (p <? com_u16 COM1 + 8).

#[local] Instance board_ports : PortIo board := {|
  inb p w :=
    if com1 p then let '(b, u) := @inb _ SerialDemo.demo_ports p (snd w) in (b, (fst w, u))
    else let '(b, m) := inb p (fst w) in (b, (m, snd w));
  outb p v w :=
    if com1 p then (fst w, @outb _ SerialDemo.demo_ports p v (snd w)) else (outb p v (fst w), snd w) |}.

Lemma com1_in off : 0 ≤ off < 8 → com1 (com_u16 COM1 + off) = true.
Proof. intros Hoff. unfold com1. rewrite (proj2 (Z.leb_le _ _)), (proj2 (Z.ltb_lt _ _)) by lia. done. Qed.

#[local] Instance board_uart : Uart16550 board (com_u16 COM1).
Proof.
  refine {| uart_of w := fst (snd w) |}.
  - intros off v w Hoff. unfold outb, board_ports. rewrite com1_in by done. cbn [snd].
    exact (@uart_outb _ _ _ SerialDemo.demo_uart off v (snd w) Hoff).
  - intros off w Hoff. unfold inb, board_ports. rewrite com1_in by done.
    destruct (@uart_inb _ _ _ SerialDemo.demo_uart off (snd w) Hoff) as [new Hn]. exists new.
    revert Hn. cbn [snd]. by destruct (inb (com_u16 COM1 + off) _).
  - intros w b l Hd Hrx. unfold inb, board_ports. rewrite com1_in by done.
    pose proof (@uart_rbr _ _ _ SerialDemo.demo_uart (snd w) b l Hd Hrx) as Hb.
    revert Hb. cbn [snd]. by destruct (inb (com_u16 COM1 + 0) _).
  - intros w Hrx. unfold inb, board_ports. rewrite com1_in by done.
    pose proof (@uart_data_ready _ _ _ SerialDemo.demo_uart (snd w) Hrx) as Hb.
    revert Hb. cbn [snd]. by destruct (inb (com_u16 COM1 + 5) _).
Defined.

#[local] Instance board_pics : PicDevice board.
Proof.
  refine {| pics_of := fst |}. intros p v w Hp.
  repeat (apply elem_of_cons in Hp as [->|Hp]; [done|]). by apply elem_of_nil in Hp.
Defined.

Lemma board_ready : ready_within COM1 1.
Proof.
  intros w. destruct (SerialDemo.demo_ready (snd w)) as (k & Hk & Hyes). exists k. split; [done|].
  assert (∀ j, Nat.iter j (@polled board board_ports COM1) w = (fst w, Nat.iter j (@polled _ SerialDemo.demo_ports COM1) (snd w))) as Hj.
  { intros j. induction j as [|j IH]; [by destruct w|]. rewrite !Nat.iter_succ, IH. unfold polled at 1, inb at 1, board_ports.
    rewrite com1_in by lia. cbn [fst snd]. generalize (Nat.iter j (@polled _ SerialDemo.demo_ports COM1) (snd w)) as u.
    intros u. unfold polled. by destruct (inb (com_u16 COM1 + 5) u). }
  rewrite Hj, <-Hyes. unfold lsr at 1, inb at 1, board_ports. rewrite com1_in by lia. cbn [fst snd].
  generalize (Nat.iter k (@polled _ SerialDemo.demo_ports COM1) (snd w)) as u. intros u. unfold lsr.
  by destruct (inb (com_u16 COM1 + 5) u).
Qed.

(** ** The memory *)

Definition fb_addr : Z := v.KERNEL_DYNAMIC_START + 4096.
Definition small_fb : FrameBufferInfo := mkFbInfo 4096 32 32 Bgr 4 32.
#[local] Instance small_screen : Screen := Some (small_fb, fb_addr).

(** The framebuffer is in frame 0xa000. *)
Lemma demo_memory : ∃ st l, kinv pmo st [0x1000] l ∧ space pmo st 0x1000 fb_addr = Some (0xa000, 3).
Proof.
  pose proof (machine_inv 32 ltac:(lia)) as Hk. assert (k_cr3 (machine 32) = 0x1000) as Hroot by done.
  pose proof (map_frame_effect _ _ _ fb_addr 0xa000 3 Hk ltac:(intros _; right; by rewrite Hroot)) as He.
  rewrite Hroot in He. rewrite machine_unmapped in He by lia.
  destruct He as [[_ Hlen]|(st1 & l1 & _ & Hm)].
  { unfold free_frames_of in Hlen. rewrite length_fmap, length_seqZ in Hlen. lia. }
  exists st1, l1. split; [apply Hm|]. rewrite (mt_space _ _ _ _ _ _ _ _ _ Hm) by left.
  rewrite decide_True; [done|]. split; [done|left]. by rewrite Hroot.
Qed.

(** ** The start *)

Definition small_console : Console := mkConsole (full_term small_fb fb_addr fb_addr) None false None
  false false false false false ∅.

Lemma small_console_ok : console_ok small_console.
Proof.
  assert (text_screen small_fb) as Hs by (split; [split; cbn; lia|by cbn|by cbn|by cbn]).
  split; [apply full_term_ok, Hs..|done].
Qed.

Definition at_entry (k : Kernel) : Bsp board :=
  mkBsp reset_cpu ∅ k small_console (0, 0) (false, false) (stuck_pics, SerialDemo.idle).

(** [handover] on the board. *)
Lemma board_starts : ∃ k l, handover (pmo := pmo) 1 0x1000 4096 small_fb fb_addr l (at_entry k).
Proof.
  destruct demo_memory as (k & l & Hk & Hfb). exists k, l. split; cbn [b_kernel at_entry b_console b_locks].
  - exact Hk.
  - done.
  - split_and!; [by vm_compute|done|by vm_compute|]. intros p (a & Ha & ->). assert (page_of a = fb_addr) as ->; [|by rewrite Hfb].
    unfold page_of, fb_addr in *. change v.KERNEL_DYNAMIC_START with (100 * 2 ^ 39 + 4096) in *.
    Z.div_mod_to_equations. lia.
  - apply small_console_ok.
  - intros f [= <-]. by split.
  - done.
  - apply board_ready.
Qed.

